(* ===== verification/_CoqProject ===== *)
-Q . S2P
Prelude.v
CLib.v
Buffer.v
Text.v
Result.v
ResultFacts.v
Address.v
Icmp.v
IcmpFacts.v
Settings.v
Signals.v
Threads.v
Ping.v
PingFacts.v
Privileges.v
Sql.v
Pool.v
Semaphore.v
Queries.v
Persist.v
Transfer.v
Host.v
Snmp.v
SnmpFacts.v
Items.v
ItemsFacts.v
Reindex.v
Log.v
Completion.v
Workers.v
WorkersFacts.v
Lifecycle.v
Runtime.v
PollHost.v
Process.v
ProcessFacts.v
Script.v
ScriptFacts.v
External.v
Config.v
ConfigFacts.v
Cli.v
CliFacts.v
Help.v
Session.v
Spine.v
Frame.v
Refinement.v
