(* ===== verification/Prelude.v ===== *)
(** * Spine: a verification development

    Spine is the poller of the Cacti monitoring system: a multi-threaded C program that
    reads from a database which devices to poll, splits each device into partitions,
    polls the partitions in parallel (availability checks, SNMP, scripts), and writes the
    results back, to the local database and, on a remote collector, to the main server.
    This library models the poller's own logic as executable Rocq functions translated
    from the sources under src/src, and proves what makes each part correct.

    ** The parts and their files

    Each file opens with the sources it models; definitions keep the names of the C
    functions, and a [Module] per component holds the data and the operations, with its
    lemmas in a [...Facts] module and its properties, numbered by importance, at the end
    of the file.

    - [Prelude], [CLib]: bytes, C strings (the bytes before the terminator), machine
      integers, [die()] as the [outcome] monad, the development's tactics and hints; the
      parts of the C library the program uses (strtol, strtod on IEEE doubles, strstr,
      snprintf's truncation, decimal printing).
    - [Buffer] (app/buffer.c): copies and appends on byte arrays with checked accesses.
    - [Text] (config/text.c, config/validate.c, config/keywords.c, script/escape.c,
      log/sanitize.c): trimming, keyword tables, log sanitizing.
    - [Result], [ResultFacts] (poller/result.c and the result functions of
      poller/poller.c): classification of polled values, output rows, the error buffer.
    - [Address] (ping/address.c): device names, the resolver, the Internet checksum.
    - [Icmp], [IcmpFacts] (ping/icmp_shared.c): the reply classifiers, and the threads
      that share one ICMP socket as a transition system over an arbitrary interleaving.
    - [Ping], [PingFacts] (ping/icmp4.c, icmp6.c, udp.c, tcp.c, platform/socket.c): the
      four network probes, their sockets, retries and deadlines.
    - [Privileges] (platform/privileges.c): giving up setuid root at the start.
    - [Settings]: the settings and the records of a device and its items.
    - [Signals] (app/signals.c, [php_write_no_sigpipe] of script/protocol.c): the handlers
      over the dispositions, the mask and the pending signals of the process.
    - [Threads] (platform/locks.c, platform/clock.c, the attributes of platform/thread.c,
      the thread-local buffers of log/log.c and poller/regex.c): the numbered mutexes, the
      stack of a worker, sleeping, the buffers of each thread.
    - [Sql] (database/sql.c, database/connection.c), [Pool] (database/pool.c,
      platform/thread.c), [Queries] (database/cacti_query.c), [Persist]
      (database/persistence.c), [Transfer] (database/transfer.c): statements with their
      retries, the connection pools, the text of every statement, the batches of results,
      the replay of status tables on the main server.
    - [Host] (poller/host.c, poller/availability.c): loading a device, its availability
      state machine and statistics.
    - [Snmp], [SnmpFacts] (snmp/requests.c, snmp/response.c): single, counting and
      multi-OID requests.
    - [Items], [ItemsFacts] (poller/items.c, [regex_replace] of poller/regex.c): the
      batches of SNMP items and the script items of a device.
    - [Reindex] (poller/reindex.c, poller/system.c): reindex assertions and system
      information.
    - [Log] (log/log.c): the layout of a log record, where it goes, and [die].
    - [Completion] (poller/poller.c, [complete_poll_host]): the partitions of one device
      as a transition system.
    - [Workers], [WorkersFacts] (poller/workers.c): launching the workers.
    - [Lifecycle] (poller/workers.c, [child] of poller/poller.c, the order of
      app/runtime.c): the main thread and the workers from their creation to their end.
    - [Runtime] (the second half of app/runtime.c): the main thread, the workers and the
      partitions of all devices as one transition system, and the exit code.
    - [Process], [ProcessFacts] (process/nft_popen.c, process/fd.c, platform/descriptor.c):
      child processes, their pipes and the registry; what a child inherits.
    - [Script], [ScriptFacts] (script/protocol.c, script/read.c, script/server.c),
      [External] (script/external.c): the script servers and the scripts.
    - [Config], [ConfigFacts] (config/settings.c, config/options.c, config/file.c,
      log/debug.c, [set_date_format] of log/log.c): the settings table and its cache,
      spine.conf, the options and their limits.
    - [Cli], [CliFacts] (app/cli.c, app/startup.c, app/runtime.c up to the start of
      polling): the command line and the start of the program.
    - [Session] (snmp/session.c): opening an SNMP session with the configured security.
    - [PollHost] (poller/poller.c, [poll_host]): one device from its connections to its
      completion, the composition of the components above.
    - [Spine] (app/runtime.c, the reports of poller/workers.c and app/startup.c,
      [snmp_spine_init] of snmp/session.c): the whole program, from its first line to
      [exit], as a composition of the other files.
    - [Refinement]: the second half of the program in [Spine], with the launch and the wait
      of [Workers] and [Lifecycle], against the transition system of [Runtime]; [Frame]:
      what the statements and the ends of the script servers leave alone.
    - [Help] ([display_help] of app/cli.c): the text of the help.
    - [Semaphore] (platform/spine_sem.h): a semaphore that no file of the program uses.

    ** How the code is modelled

    A function that only computes is a Rocq function.  A function that may end the
    process returns an [outcome]; a checked array access that fails, or fuel that runs
    out, is [None].  Integers are [Z] with their wrap-around written out where it can
    happen; doubles are IEEE binary64 values.  What a component uses of a library or of
    the operating system is a type class over a world [W]: [MySQL] (the client library),
    [NetSNMP] and [NetSnmp], [Probes] (the network checks), [Sockets], [Posix] (descriptors
    and children), [Credentials] (user and group ids), [Collectors] (what an item is collected
    with), [ReindexSource], [WorkerEnv] (permits, clocks and thread creation),
    [ScriptEnv] and [ExternalEnv] (pipes and processes), [LogEnv] (the log file, the syslog
    and the console), [WriteFd] (writing in a signal handler), [Sleep] and [StatementSink]
    (executing a statement).  Several classes are interfaces between
    components: [Sql.db_insert] implements [StatementSink], [poll_reindex_action]
    implements [ReindexSource], [snmp_get_multi] implements the multi-OID request of
    [Collectors]; the theorems of a client hold for every implementation.  To say what a
    client sent, a theorem runs it over an instance that records ([logged],
    [recorded], [traced], [traced_client]) and otherwise behaves as the given one.  Where a theorem needs to know what the
    calls of such a class do, a second class states it over a view of the world
    ([PosixLaws], [ScriptLaws], [SocketLaws], [CredentialLaws], [WriteLaws]): which descriptors are
    open, what was sent, which ids the process has; a simulated machine is an instance
    of it in each case, on which the theorems are applied.  Threads are transition systems:
    one event per critical section, invariants by induction over reachable states, so
    that the theorems hold for every schedule.

    ** What the theorems show

    - The program as a whole: it ends and cleans up ([spine_run_ends]), and its exit code is
      0 exactly if everything was polled and written ([exit_code_truthful]).  The first holds
      of the code and the second of a transition system; [program_refines_run] ties them:
      every execution of the code from the selection of the devices to [exit] is a run of
      that system, and exits with its exit code.
    - Work is done once and completely: every due item is selected by one worker
      ([launch_covers_items]; with a single profile, [single_profile_undercount] shows, some
      are not), every SNMP item requested once
      ([collect_requests_each_item_once]), every result written once
      ([write_poll_results_complete]), every status row transferred once
      ([transfer_complete]), every OID of a request answered with its own value
      ([snmp_get_multi_settles]), every command answered ([php_cmd_answers]), every probe
      ended ([probes_return]).
    - Shared state is safe in every interleaving: the completion of a device
      ([device_completion]), what the workers share until the last one has ended
      ([workers_end_first]), the connections ([pool_exclusive], [poll_host_balanced]),
      the descriptors of scripts ([nft_popen_owns], [nft_pclose_ends],
      [exec_poll_balanced], [php_cmd_keeps_descriptors]), what their processes inherit
      ([nft_popen_child], [php_server_child]), the sockets of the probes
      ([probes_balanced]), the shared ICMP socket ([shared_socket_no_lost_wakeup],
      [shared_await_genuine]), the locks of the program ([locks_separate]), the semaphore
      ([semaphore_counts]).
    - Signals end the process or leave it alone: a fatal one ends it and says why
      ([fatal_signal_ends]), a script server that is gone does not ([php_write_survives]), and
      the handlers come and go without a trace ([handlers_restored]).
    - A log file is one record per line whatever devices send ([log_file_roundtrip]).
    - Security: a setuid start cannot become root again ([root_given_up]), an SNMP session
      uses every complete pair of credentials ([session_as_configured]), a device is up only if it
      answered ([icmp_up_genuine]), the device list in a statement is digits and commas
      ([parse_host_list_exact]).
    - The program starts consistently: [spine_start_consistent], the ranges of the options
      ([config_options_in_range]), spine.conf line by line ([read_spine_config_by_lines]),
      the settings cache ([settings_cache_answers]).
    - State machines do what the settings say: outage and recovery thresholds and poll
      counters ([Host]), reindexing ([reindex_never_lost]), retries of statements
      ([db_insert_executes]), the choice of a script server (proved, not numbered).
    - Parsing and formatting are exact and bounded: ICMP replies, polled values, rows and
      error texts, device names and checksums, buffers and texts, statements.
    - Unnumbered theorems prove behaviour that the program should not have: a session that is
      never closed ([down_device_leaks_session]), settings that are missing count as zero, items that are never selected, a failed script that looks like an empty
      table, a command sent without its line end.

    Every file also holds theorems without a number, on parts of less weight: keyword
    tables, buffers, checksums, rows, the spellings of options and what the help says of
    them ([help_truthful]), printed spine.conf files.

    ** Bounds and fuel

    The loops of C are structural recursions where the data bounds them.  Otherwise:
    [statement_fuel] is 31 because every round but the last raises an error count that
    ends the loop above 30 ([db_insert_executes] proves that more fuel changes nothing);
    [resolve_loop] makes at most 4 lookups; [snmp_count] needs one round per entry and
    one more ([snmp_count_exact]), and against an agent whose names do not grow it stops
    with an error; a multi-OID request has one round per OID; the launch needs one turn
    per planned worker, and its waits end by the deadline, which is a hypothesis on the
    clock; a script server's answer needs at most one read per byte of the result buffer,
    as long as no signal interrupts the reads; the waits of the whole program end within the
    readings of the clock that fit the polling interval ([time_passes], [spine_run_ends]), and
    its launch within the sum of the configured partitions (in [program_refines_run], within
    the number of planned workers); the handler of a signal writes at
    most 70 bytes and is interrupted finitely often; a probe's loops need one turn per reading of
    the clock within its timeout and one per signal ([probes_return]); spine.conf needs one
    turn per byte and the command line one per argument.

    ** What is not modelled

    The calls of the log from the other components, which change no state they read (the
    reports on the run and the records themselves are modelled); memory allocation and its
    failure, except where the code goes on after it; thread cancellation; headers that only
    declare; Cygwin and Solaris variants.  In [Spine] and [Refinement] the workers run in the
    world, between the calls of the main thread: what they do is [PollHost], [Completion] and
    [Runtime], and [Refinement] says so as laws of the world
    ([run_laws], [program_laws]).  The order in which the database returns rows,
    and what other programs do to it, are outside the model.

    ** Plan

    Next: the log calls of the components over [Log], and the polling of one device
    ([PollHost]) as the steps of a worker in [Runtime]. *)

From stdpp Require Export base list strings numbers option.
From Stdlib Require Export ZArith Lia Ascii.
#[global] Set Warnings "-notation-overridden,-clear-no-such-hyp".

Declare Scope spine_scope.
Delimit Scope spine_scope with spine.
#[global] Open Scope spine_scope.
#[global] Open Scope Z_scope.
#[global] Open Scope list_scope.

(** * Bytes and C strings *)

(** A C string is the list of its bytes before the terminating NUL. *)
Abbreviation cstr := (list ascii).

(** The numeric value of a byte seen as [unsigned char]. *)
Definition code (c : ascii) : Z := Z.of_N (N_of_ascii c).
Definition byte_of (z : Z) : ascii := ascii_of_N (Z.to_N (z mod 256)).
Definition NUL : ascii := "000"%char.

(** A string literal of the source. *)
Definition lit (s : String.string) : cstr := String.list_ascii_of_string s.
Notation "'$' s" := (lit s%string) (at level 1, s at level 0, format "'$' s") : spine_scope.

(** Well-formed C strings hold no NUL. *)
Definition nul_free (s : cstr) : Prop := NUL ∉ s.
#[global] Instance nul_free_dec s : Decision (nul_free s).
Proof. unfold nul_free. apply _. Defined.

(** Content of a memory area read as a C string: the bytes up to the first NUL. *)
Fixpoint c_str (m : list ascii) : cstr :=
  match m with
  | [] => []
  | c :: m' => if decide (c = NUL) then [] else c :: c_str m'
  end.

Definition slen (s : cstr) : Z := Z.of_nat (length s).

(** * Process exit

    [die()] ends the process.  A computation that may reach it returns an
    [outcome]; [Died] carries the exit status. *)
Inductive outcome (A : Type) : Type :=
| Ok (a : A)
| Died (status : Z).
Arguments Ok {A} _.
Arguments Died {A} _.

Definition obind {A B} (m : outcome A) (f : A → outcome B) : outcome B :=
  match m with Ok a => f a | Died s => Died s end.
Notation "'let*' x ':=' m 'in' k" := (obind m (fun x => k))
  (at level 10, x pattern, m at level 100, k at level 200) : spine_scope.

(** * Machine integers *)

Definition INT_MAX : Z := 2147483647.
Definition INT_MIN : Z := -2147483648.
Definition UINT64_MAX : Z := 18446744073709551615.
Definition INT64_MAX : Z := 9223372036854775807.
Definition INT64_MIN : Z := -9223372036854775808.

Definition wrap_s (w z : Z) : Z := (z + 2 ^ (w - 1)) mod 2 ^ w - 2 ^ (w - 1).
Definition wrap_u (w z : Z) : Z := z mod 2 ^ w.
(** Conversion of a wider integer to [int]: gcc keeps the low 32 bits. *)
Definition to_int (z : Z) : Z := wrap_s 32 z.

(** * Decimal rendering of integers, as [%d], [%i], [%lu] and [%llu] print them *)

Definition digit_char (d : Z) : ascii := byte_of (48 + d).
Fixpoint udec_aux (fuel : nat) (n : Z) (acc : cstr) : cstr :=
  match fuel with
  | O => acc
  | S f => let acc' := digit_char (n mod 10) :: acc in
           if n / 10 =? 0 then acc' else udec_aux f (n / 10) acc'
  end.
(** Each digit consumes at least one bit, so [log2 n + 1] rounds are enough. *)
Definition udec (n : Z) : cstr := udec_aux (S (Z.to_nat (Z.log2 n))) n [].
Definition sdec (n : Z) : cstr := if n <? 0 then "-"%char :: udec (- n) else udec n.

(** * Tactics and hint databases *)

Create HintDb spine.
Create Rewrite HintDb spine.

(** Split every conjunction and existential of the context. *)
Ltac split_hyps :=
  repeat match goal with
         | H : _ ∧ _ |- _ => destruct H
         | H : ∃ _, _ |- _ => destruct H
         end.

(** Case analysis on the innermost scrutinee of the goal or of a hypothesis. *)
Ltac case_scrut :=
  match goal with
  | |- context [match ?x with _ => _ end] =>
      lazymatch x with
      | context [match _ with _ => _ end] => fail
      | _ => let E := fresh "E" in destruct x eqn:E
      end
  | H : context [match ?x with _ => _ end] |- _ =>
      lazymatch x with
      | context [match _ with _ => _ end] => fail
      | _ => let E := fresh "E" in destruct x eqn:E
      end
  end.

(** Turn boolean comparisons of the context into propositions. *)
Ltac bool_to_prop :=
  repeat match goal with
         | H : (_ && _) = true |- _ => apply andb_true_iff in H; destruct H
         | H : (_ || _) = false |- _ => apply orb_false_iff in H; destruct H
         | H : negb _ = true |- _ => apply negb_true_iff in H
         | H : negb _ = false |- _ => apply negb_false_iff in H
         | H : (_ =? _) = true |- _ => apply Z.eqb_eq in H
         | H : (_ =? _) = false |- _ => apply Z.eqb_neq in H
         | H : (_ <? _) = true |- _ => apply Z.ltb_lt in H
         | H : (_ <? _) = false |- _ => apply Z.ltb_ge in H
         | H : (_ <=? _) = true |- _ => apply Z.leb_le in H
         | H : (_ <=? _) = false |- _ => apply Z.leb_gt in H
         | H : bool_decide _ = true |- _ => apply bool_decide_eq_true in H
         | H : bool_decide _ = false |- _ => apply bool_decide_eq_false in H
         end.

Ltac blia := bool_to_prop; try lia.

Lemma obind_Ok {A B} (m : outcome A) (f : A → outcome B) b : obind m f = Ok b → ∃ a, m = Ok a ∧ f a = Ok b.
Proof. destruct m as [a|]; cbn; [|done]. by exists a. Qed.

Lemma guard_Ok {A} (b : bool) st (m : outcome A) x : (if negb b then Died st else m) = Ok x → b = true ∧ m = Ok x.
Proof. by destruct b. Qed.

(** Take apart the first step of a computation that returned. *)
Ltac ostep H :=
  let a := fresh "a" in let E := fresh "E" in
  apply obind_Ok in H as (a & E & H);
  repeat match goal with p : (_ * _)%type |- _ => destruct p end; cbn beta iota in H.

(** * Lemmas on bytes *)

Lemma code_range c : 0 ≤ code c < 256.
Proof. unfold code. pose proof (N_ascii_bounded c). lia. Qed.

Lemma code_inj c d : code c = code d → c = d.
Proof.
  unfold code. intros H. apply N2Z.inj in H.
  rewrite <- (ascii_N_embedding c), <- (ascii_N_embedding d). by rewrite H.
Qed.

Lemma code_byte_of z : code (byte_of z) = z mod 256.
Proof.
  unfold code, byte_of. pose proof (Z.mod_pos_bound z 256 eq_refl).
  rewrite N_ascii_embedding; lia.
Qed.

Lemma byte_of_code c : byte_of (code c) = c.
Proof. apply code_inj. rewrite code_byte_of. pose proof (code_range c). by rewrite Z.mod_small. Qed.

(** Propositions about the eight bits of a byte, checked on all 256 of them. *)
Lemma forall_ascii (P : ascii → bool) :
  forallb P (map (fun n => ascii_of_nat n) (seq 0 256)) = true → ∀ c, P c = true.
Proof.
  intros H c. rewrite forallb_forall in H. apply H.
  rewrite <- (ascii_nat_embedding c). apply in_map, in_seq.
  pose proof (nat_ascii_bounded c). lia.
Qed.

(** * Lemmas on C strings *)

Lemma slen_nonneg s : 0 ≤ slen s.
Proof. unfold slen. lia. Qed.
Lemma slen_app s t : slen (s ++ t) = slen s + slen t.
Proof. unfold slen. rewrite length_app. lia. Qed.
Lemma slen_cons c s : slen (c :: s) = 1 + slen s.
Proof. unfold slen. cbn [length]. lia. Qed.
Lemma slen_nil : slen [] = 0.
Proof. done. Qed.
Lemma slen_take n s : slen (take n s) = Z.min (Z.of_nat n) (slen s).
Proof. unfold slen. rewrite length_take. lia. Qed.
#[export] Hint Rewrite slen_app slen_cons slen_nil slen_take : spine.
#[export] Hint Resolve slen_nonneg : spine.

Lemma nul_free_nil : nul_free [].
Proof. apply not_elem_of_nil. Qed.
Lemma nul_free_cons c s : nul_free (c :: s) ↔ c ≠ NUL ∧ nul_free s.
Proof. unfold nul_free. rewrite not_elem_of_cons. naive_solver. Qed.
Lemma nul_free_app s t : nul_free (s ++ t) ↔ nul_free s ∧ nul_free t.
Proof. unfold nul_free. rewrite not_elem_of_app. done. Qed.
Lemma nul_free_take n s : nul_free s → nul_free (take n s).
Proof. unfold nul_free. intros H Hin. apply H. apply elem_of_take in Hin as (i & Hi & _).
  by eapply list_elem_of_lookup_2. Qed.

Lemma nul_free_drop n s : nul_free s → nul_free (drop n s).
Proof.
  intros H. rewrite <- (take_drop n s) in H. by apply nul_free_app in H as [_ ?].
Qed.
#[export] Hint Resolve nul_free_nil nul_free_take nul_free_drop : spine.

Lemma c_str_app_nul s m : nul_free s → c_str (s ++ NUL :: m) = s.
Proof.
  induction s as [|c s IH]; cbn; [by rewrite decide_True|].
  intros [Hc Hs]%nul_free_cons. rewrite decide_False by done. by rewrite IH.
Qed.
Lemma c_str_nul_free m : nul_free (c_str m).
Proof.
  induction m as [|c m IH]; cbn; [apply nul_free_nil|].
  case_decide; [apply nul_free_nil|]. by apply nul_free_cons.
Qed.
Lemma c_str_id s : nul_free s → c_str s = s.
Proof.
  induction s as [|c s IH]; cbn; [done|]. intros [Hc Hs]%nul_free_cons.
  rewrite decide_False by done. by rewrite IH.
Qed.
Lemma c_str_length m : (length (c_str m) ≤ length m)%nat.
Proof. induction m as [|c m IH]; cbn; [lia|]. case_decide; cbn; lia. Qed.
Lemma c_str_prefix m : c_str m `prefix_of` m.
Proof.
  induction m as [|c m IH]; cbn; [done|]. case_decide; [apply prefix_nil|].
  by apply prefix_cons.
Qed.
#[export] Hint Resolve c_str_nul_free : spine.

(** * Lemmas on decimal rendering *)

Definition isdigit (c : ascii) : bool := (48 <=? code c) && (code c <=? 57).
Definition digit_val (c : ascii) : Z := code c - 48.
(** Value of the leading digits of [s], continuing from [acc]. *)
Fixpoint digits_val (acc : Z) (s : cstr) : Z :=
  match s with
  | c :: s' => if isdigit c then digits_val (acc * 10 + digit_val c) s' else acc
  | [] => acc
  end.

Lemma isdigit_spec c : isdigit c = true ↔ 48 ≤ code c ≤ 57.
Proof. unfold isdigit. rewrite andb_true_iff, !Z.leb_le. done. Qed.

Lemma code_digit_char d : 0 ≤ d < 10 → code (digit_char d) = 48 + d.
Proof. intros. unfold digit_char. rewrite code_byte_of, Z.mod_small; lia. Qed.
Lemma isdigit_digit_char d : 0 ≤ d < 10 → isdigit (digit_char d) = true.
Proof. intros. apply isdigit_spec. rewrite code_digit_char; lia. Qed.
Lemma isdigit_not_nul c : isdigit c = true → c ≠ NUL.
Proof. intros H ->. by vm_compute in H. Qed.

Lemma digits_val_app acc s t :
  Forall (fun c => isdigit c = true) s →
  digits_val acc (s ++ t) = digits_val (digits_val acc s) t.
Proof.
  intros H. revert acc. induction H as [|c s Hc _ IH]; intros acc; cbn; [done|].
  by rewrite Hc, IH.
Qed.

Lemma udec_aux_app fuel n acc : udec_aux fuel n acc = udec_aux fuel n [] ++ acc.
Proof.
  revert n acc. induction fuel as [|f IH]; intros n acc; cbn [udec_aux]; [done|].
  case_match; [done|]. rewrite IH, (IH _ [_]), <- app_assoc. done.
Qed.

Lemma udec_aux_digits fuel n : 0 ≤ n → Forall (fun c => isdigit c = true) (udec_aux fuel n []).
Proof.
  revert n. induction fuel as [|f IH]; intros n Hn; cbn [udec_aux]; [constructor|].
  pose proof (Z.mod_pos_bound n 10 eq_refl).
  case_match; [by repeat constructor; apply isdigit_digit_char|].
  rewrite udec_aux_app. apply Forall_app. split.
  - apply IH. by apply Z.div_pos.
  - by repeat constructor; apply isdigit_digit_char.
Qed.

Lemma udec_aux_val fuel n :
  0 ≤ n < 2 ^ Z.of_nat fuel → digits_val 0 (udec_aux fuel n []) = n.
Proof.
  revert n. induction fuel as [|f IH]; intros n Hn; cbn [udec_aux].
  { change (2 ^ Z.of_nat 0) with 1 in Hn. cbn. lia. }
  pose proof (Z.mod_pos_bound n 10 eq_refl) as Hm.
  pose proof (Z.div_mod n 10 ltac:(lia)) as Hd.
  assert (Hdig : ∀ a, digits_val a [digit_char (n mod 10)] = a * 10 + n mod 10).
  { intros a. cbn [digits_val]. rewrite isdigit_digit_char by lia. unfold digit_val.
    rewrite code_digit_char; lia. }
  destruct (n / 10 =? 0) eqn:E; blia; [rewrite Hdig; lia|].
  rewrite Nat2Z.inj_succ, Z.pow_succ_r in Hn by lia.
  rewrite udec_aux_app, digits_val_app, Hdig, IH.
  - lia.
  - split; [apply Z.div_pos; lia|]. apply Z.div_lt_upper_bound; lia.
  - apply udec_aux_digits. apply Z.div_pos; lia.
Qed.

Lemma udec_val n : 0 ≤ n → digits_val 0 (udec n) = n.
Proof.
  intros Hn. unfold udec. apply udec_aux_val. split; [done|].
  pose proof (Z.log2_nonneg n).
  destruct (Z.eq_dec n 0) as [->|]; [done|].
  rewrite Nat2Z.inj_succ, Z2Nat.id by done. apply Z.log2_spec. lia.
Qed.
Lemma udec_digits n : 0 ≤ n → Forall (fun c => isdigit c = true) (udec n).
Proof. apply udec_aux_digits. Qed.
Lemma udec_nonempty n : udec n ≠ [].
Proof.
  unfold udec. cbn [udec_aux]. case_match; [done|]. rewrite udec_aux_app.
  by intros [_ ?]%app_eq_nil.
Qed.
Lemma udec_inj n m : 0 ≤ n → 0 ≤ m → udec n = udec m → n = m.
Proof. intros Hn Hm E. by rewrite <- (udec_val n), <- (udec_val m), E. Qed.

Lemma digits_nul_free s : Forall (fun c => isdigit c = true) s → nul_free s.
Proof.
  induction 1; [apply nul_free_nil|]. apply nul_free_cons. split; [by apply isdigit_not_nul|done].
Qed.
Lemma udec_nul_free n : 0 ≤ n → nul_free (udec n).
Proof. intros. by apply digits_nul_free, udec_digits. Qed.
#[export] Hint Resolve udec_nul_free udec_digits udec_nonempty : spine.

(** The number of digits is bounded by the magnitude. *)
Lemma udec_aux_length fuel n k :
  0 ≤ n < 10 ^ Z.of_nat (S k) → (length (udec_aux fuel n []) ≤ S k)%nat.
Proof.
  revert n k. induction fuel as [|f IH]; intros n k Hn; cbn [udec_aux]; [cbn; lia|].
  destruct (n / 10 =? 0) eqn:E; [cbn; lia|]. blia. rewrite udec_aux_app, length_app. cbn.
  destruct k as [|k].
  { exfalso. apply E. apply Z.div_small. lia. }
  enough (length (udec_aux f (n / 10) []) ≤ S k)%nat by lia. apply IH.
  rewrite Nat2Z.inj_succ, Z.pow_succ_r in Hn by lia.
  split; [apply Z.div_pos; lia|]. apply Z.div_lt_upper_bound; lia.
Qed.
Lemma udec_length n k : 0 ≤ n < 10 ^ Z.of_nat (S k) → (length (udec n) ≤ S k)%nat.
Proof. apply udec_aux_length. Qed.
