(* ===== verification/CLib.v ===== *)
(** The C standard library functions the program calls, on C strings as lists
    of bytes, and IEEE binary64 arithmetic on Rocq's [spec_float].  Locale "C",
    LP64 data model, glibc's correctly rounded [strtod]. *)

From S2P Require Import Prelude.
From Stdlib Require Import SpecFloat.

(** * Character classes *)

Definition isspace (c : ascii) : bool :=
  (code c =? 32) || ((9 <=? code c) && (code c <=? 13)).
Definition isxdigit (c : ascii) : bool :=
  isdigit c || ((97 <=? code c) && (code c <=? 102)) || ((65 <=? code c) && (code c <=? 70)).
Definition tolower (c : ascii) : ascii :=
  if (65 <=? code c) && (code c <=? 90) then byte_of (code c + 32) else c.

(** * Searching and comparing *)

(** [strchr(set, c) != NULL] for a byte [c] other than NUL. *)
Definition in_set (set : cstr) (c : ascii) : bool := bool_decide (c ∈ set).
(** [strchr(s, c) - s]. *)
Fixpoint strchr (s : cstr) (c : ascii) : option nat :=
  match s with
  | [] => None
  | d :: s' => if decide (d = c) then Some O else S <$> strchr s' c
  end.
Fixpoint strspn (s set : cstr) : nat :=
  match s with
  | c :: s' => if in_set set c then S (strspn s' set) else O
  | [] => O
  end.
Fixpoint strcspn (s set : cstr) : nat :=
  match s with
  | c :: s' => if in_set set c then O else S (strcspn s' set)
  | [] => O
  end.
(** [strstr(hay, needle) - hay]. *)
Fixpoint strstr (hay needle : cstr) : option nat :=
  if decide (needle `prefix_of` hay) then Some O
  else match hay with
       | [] => None
       | _ :: hay' => S <$> strstr hay' needle
       end.
Definition has_substr (hay needle : cstr) : bool :=
  match strstr hay needle with Some _ => true | None => false end.
(** [STRMATCH] and [STRIMATCH] of internal/constants.h. *)
Definition STRMATCH (a b : cstr) : bool := bool_decide (a = b).
Definition STRIMATCH (a b : cstr) : bool := bool_decide (map tolower a = map tolower b).
Definition strncasecmp_eq (a b : cstr) (n : nat) : bool := STRIMATCH (take n a) (take n b).

(** * Integer parsing *)

Record strto_result := { sr_value : Z; sr_rest : cstr; sr_range : bool }.

Fixpoint span (p : ascii → bool) (s : cstr) : cstr * cstr :=
  match s with
  | c :: s' => if p c then let '(a, b) := span p s' in (c :: a, b) else ([], s)
  | [] => ([], [])
  end.
Definition skip_space (s : cstr) : cstr := snd (span isspace s).
Definition take_sign (s : cstr) : bool * cstr :=
  match s with
  | c :: s' => if decide (c = "-"%char) then (true, s')
               else if decide (c = "+"%char) then (false, s') else (false, s)
  | [] => (false, [])
  end.

(** Base-10 [strtoll]: saturates and sets [ERANGE]. *)
Definition strtoll (s : cstr) : strto_result :=
  let '(neg, body) := take_sign (skip_space s) in
  let '(ds, rest) := span isdigit body in
  match ds with
  | [] => {| sr_value := 0; sr_rest := s; sr_range := false |}
  | _ =>
      let v := if neg then - digits_val 0 ds else digits_val 0 ds in
      if INT64_MAX <? v then {| sr_value := INT64_MAX; sr_rest := rest; sr_range := true |}
      else if v <? INT64_MIN then {| sr_value := INT64_MIN; sr_rest := rest; sr_range := true |}
      else {| sr_value := v; sr_rest := rest; sr_range := false |}
  end.
(** Base-10 [strtoull]: a minus sign negates modulo 2^64. *)
Definition strtoull (s : cstr) : strto_result :=
  let '(neg, body) := take_sign (skip_space s) in
  let '(ds, rest) := span isdigit body in
  match ds with
  | [] => {| sr_value := 0; sr_rest := s; sr_range := false |}
  | _ =>
      let m := digits_val 0 ds in
      if UINT64_MAX <? m then {| sr_value := UINT64_MAX; sr_rest := rest; sr_range := true |}
      else {| sr_value := if neg then wrap_u 64 (- m) else m; sr_rest := rest; sr_range := false |}
  end.
(** [long] has 64 bits. *)
Definition strtol := strtoll.
Definition atoi (s : cstr) : Z := to_int (sr_value (strtol s)).
Definition atoll (s : cstr) : Z := sr_value (strtoll s).

(** * Bounded formatting

    [snprintf(dst, cap, "%s", s)]: content left in [dst] for [cap > 0]. *)
Definition snprintf_s (cap : Z) (s : cstr) : cstr := take (Z.to_nat (cap - 1)) s.

(** * Doubles *)

Abbreviation double := spec_float.
Definition prec : Z := 53.
Definition emax : Z := 1024.
Definition dadd := SFadd prec emax.
Definition dsub := SFsub prec emax.
Definition dmul := SFmul prec emax.
Definition ddiv := SFdiv prec emax.
Definition dlt := SFltb.
Definition dle := SFleb.
Definition deq := SFeqb.
(** Conversion of an integer to [double]. *)
Definition of_int (z : Z) : double := binary_normalize prec emax z 0 false.
Definition dzero : double := S754_zero false.
Definition isfinite (d : double) : bool :=
  match d with S754_zero _ | S754_finite _ _ _ => true | _ => false end.

(** Correctly rounded value of [m * 10^e].  Outside the clamped exponents the
    magnitude is above the largest or below half the smallest double. *)
Definition dec_to_double (neg : bool) (ndigits : Z) (m e : Z) : double :=
  match m with
  | Zpos p =>
      if 400 <? e + ndigits then S754_infinity neg
      else if e + ndigits <? -400 then S754_zero neg
      else if 0 <=? e then binary_round prec emax neg (p * Z.to_pos (10 ^ e)) 0
      else let '(mz, ez, lz) := SFdiv_core_binary prec emax (Zpos p) 0 (10 ^ (- e)) 0 in
           binary_round_aux prec emax neg mz ez lz
  | _ => S754_zero neg
  end.

Definition hex_val (c : ascii) : Z :=
  if isdigit c then code c - 48
  else if (97 <=? code c) && (code c <=? 102) then code c - 87 else code c - 55.

(** An optional exponent [marker][sign]digits. *)
Definition take_exponent (lower upper : ascii) (s : cstr) : Z * cstr :=
  match s with
  | c :: s' =>
      if bool_decide (c = lower) || bool_decide (c = upper) then
        let '(neg, body) := take_sign s' in
        let '(ds, rest) := span isdigit body in
        match ds with
        | [] => (0, s)
        | _ => (if neg then - digits_val 0 ds else digits_val 0 ds, rest)
        end
      else (0, s)
  | [] => (0, [])
  end.
(** Digits with an optional radix point. *)
Definition take_mantissa (p : ascii → bool) (s : cstr) : cstr * cstr * cstr :=
  let '(ip, s1) := span p s in
  match s1 with
  | c :: s2 => if decide (c = "."%char) then let '(fp, s3) := span p s2 in (ip, fp, s3)
               else (ip, [], s1)
  | [] => (ip, [], [])
  end.

Definition has_ci_prefix (p s : cstr) : bool := STRIMATCH p (take (length p) s).

(** [strtod]: value and unconsumed text. *)
Definition strtod (s : cstr) : double * cstr :=
  let '(neg, body) := take_sign (skip_space s) in
  if has_ci_prefix ($"infinity") body then (S754_infinity neg, drop 8 body)
  else if has_ci_prefix ($"inf") body then (S754_infinity neg, drop 3 body)
  else if has_ci_prefix ($"nan") body then (S754_nan, drop 3 body)
  else
    let '(hi, hf, hrest) := take_mantissa isxdigit (drop 2 body) in
    if has_ci_prefix ($"0x") body && negb (bool_decide (hi ++ hf = [])) then
      let m := foldl (fun a c => a * 16 + hex_val c) 0 (hi ++ hf) in
      let '(e, rest) := take_exponent "p" "P" hrest in
      (match m with
       | Zpos p => binary_round prec emax neg p (e - 4 * slen hf)
       | _ => S754_zero neg
       end, rest)
    else
      let '(ip, fp, r) := take_mantissa isdigit body in
      match ip ++ fp with
      | [] => (dzero, s)
      | ds => let '(e, rest) := take_exponent "e" "E" r in
              (dec_to_double neg (slen ds) (digits_val 0 ds) (e - slen fp), rest)
      end.
Definition atof (s : cstr) : double := fst (strtod s).

(** [%.nf] of a double: the exact value rounded half to even at [n] decimals. *)
Definition round_half_even (num den : Z) : Z :=
  let q := num / den in let r := num mod den in
  match Z.compare (2 * r) den with
  | Lt => q | Gt => q + 1 | Eq => if Z.even q then q else q + 1
  end.
Definition fixed_digits (n : nat) (scaled : Z) : cstr :=
  let ds := udec scaled in
  let padded := replicate (S n - length ds) "0"%char ++ ds in
  let cut := (length padded - n)%nat in
  take cut padded ++ (if (n =? 0)%nat then [] else "."%char :: drop cut padded).
Definition print_fixed (n : nat) (d : double) : cstr :=
  match d with
  | S754_nan => $"nan"
  | S754_infinity s => if s then $"-inf" else $"inf"
  | S754_zero s => (if s then $"-" else []) ++ fixed_digits n 0
  | S754_finite s m e =>
      let scale := 10 ^ Z.of_nat n in
      let v := if 0 <=? e then Zpos m * 2 ^ e * scale
               else round_half_even (Zpos m * scale) (2 ^ (- e)) in
      (if s then $"-" else []) ++ fixed_digits n v
  end.

(** * Lemmas *)

Lemma span_app p s a b : span p s = (a, b) → s = a ++ b.
Proof.
  revert a b. induction s as [|c s IH]; cbn; intros a b.
  - intros [= <- <-]. done.
  - case_match; [|by intros [= <- <-]]. destruct (span p s) as [a' b'].
    intros [= <- <-]. cbn. f_equal. by apply IH.
Qed.
Lemma span_all p s a b : span p s = (a, b) → Forall (fun c => p c = true) a.
Proof.
  revert a b. induction s as [|c s IH]; cbn; intros a b.
  - intros [= <- <-]. constructor.
  - destruct (p c) eqn:E; [|intros [= <- <-]; constructor]. destruct (span p s) as [a' b'].
    intros [= <- <-]. constructor; [done|]. by eapply IH.
Qed.
Lemma span_stop p s t : Forall (fun c => p c = true) s →
  match t with c :: _ => p c = false | [] => True end → span p (s ++ t) = (s, t).
Proof.
  intros Hs Ht. induction Hs as [|c s Hc _ IH]; cbn.
  - destruct t; cbn; [done|]. by rewrite Ht.
  - by rewrite Hc, IH.
Qed.
Lemma span_full p s : Forall (fun c => p c = true) s → span p s = (s, []).
Proof. intros. rewrite <- (app_nil_r s) at 1. by apply span_stop. Qed.

Lemma snprintf_s_fits cap s : slen s < cap → snprintf_s cap s = s.
Proof. intros H. unfold snprintf_s. apply take_ge. unfold slen in H. lia. Qed.
Lemma snprintf_s_bound cap s : 0 < cap → slen (snprintf_s cap s) < cap.
Proof. intros. unfold snprintf_s. rewrite slen_take. lia. Qed.
Lemma snprintf_s_nul_free cap s : nul_free s → nul_free (snprintf_s cap s).
Proof. apply nul_free_take. Qed.
#[export] Hint Resolve snprintf_s_nul_free : spine.

Lemma STRMATCH_true a b : STRMATCH a b = true ↔ a = b.
Proof. apply bool_decide_eq_true. Qed.
Lemma STRMATCH_refl a : STRMATCH a a = true.
Proof. by apply STRMATCH_true. Qed.
Lemma STRIMATCH_refl a : STRIMATCH a a = true.
Proof. by apply bool_decide_eq_true. Qed.

(** Printing an [int] and reading it back. *)
Lemma isdigit_not_space c : isdigit c = true → isspace c = false.
Proof.
  intros [? ?]%isdigit_spec. unfold isspace. apply orb_false_iff. split; [apply Z.eqb_neq; lia|].
  apply andb_false_iff. right. apply Z.leb_gt. lia.
Qed.
Lemma skip_space_digits s : Forall (fun c => isdigit c = true) s → skip_space s = s.
Proof.
  intros H. unfold skip_space. destruct H as [|c s Hc ?]; [done|]. cbn.
  by rewrite isdigit_not_space.
Qed.
Lemma take_sign_digits s : Forall (fun c => isdigit c = true) s → take_sign s = (false, s).
Proof.
  destruct 1 as [|c s Hc ?]; [done|]. cbn.
  rewrite !decide_False; [done| |]; intros ->; by vm_compute in Hc.
Qed.
Lemma digits_val_nonneg acc s : 0 ≤ acc → 0 ≤ digits_val acc s.
Proof.
  revert acc. induction s as [|c s IH]; intros acc Hacc; cbn; [done|].
  destruct (isdigit c) eqn:E; [|done]. apply IH. apply isdigit_spec in E.
  unfold digit_val. lia.
Qed.
Lemma strtoull_digits s :
  s ≠ [] → Forall (fun c => isdigit c = true) s → digits_val 0 s ≤ UINT64_MAX →
  strtoull s = {| sr_value := digits_val 0 s; sr_rest := []; sr_range := false |}.
Proof.
  intros Hne Hs Hv. unfold strtoull.
  rewrite skip_space_digits, take_sign_digits, span_full by done.
  destruct s; [done|]. by rewrite (proj2 (Z.ltb_ge _ _)).
Qed.
Lemma strtoll_digits s :
  s ≠ [] → Forall (fun c => isdigit c = true) s → digits_val 0 s ≤ INT64_MAX →
  strtoll s = {| sr_value := digits_val 0 s; sr_rest := []; sr_range := false |}.
Proof.
  intros Hne Hs Hv. unfold strtoll.
  rewrite skip_space_digits, take_sign_digits, span_full by done.
  destruct s; [done|]. rewrite (proj2 (Z.ltb_ge _ _)) by done.
  rewrite (proj2 (Z.ltb_ge _ _)); [done|].
  pose proof (digits_val_nonneg 0 (a :: s) ltac:(lia)). unfold INT64_MIN. lia.
Qed.
Lemma to_int_id z : INT_MIN ≤ z ≤ INT_MAX → to_int z = z.
Proof.
  unfold to_int, wrap_s, INT_MIN, INT_MAX. change (2 ^ (32 - 1)) with 2147483648.
  change (2 ^ 32) with 4294967296. intros. rewrite Z.mod_small; lia.
Qed.
Lemma to_int_range z : INT_MIN ≤ to_int z ≤ INT_MAX.
Proof.
  unfold to_int, wrap_s, INT_MIN, INT_MAX. change (2 ^ (32 - 1)) with 2147483648.
  change (2 ^ 32) with 4294967296. pose proof (Z.mod_pos_bound (z + 2147483648) 4294967296 eq_refl). lia.
Qed.
Lemma atoi_range s : INT_MIN ≤ atoi s ≤ INT_MAX.
Proof. apply to_int_range. Qed.
Lemma atoi_udec n : 0 ≤ n ≤ INT_MAX → atoi (udec n) = n.
Proof.
  intros Hn. unfold atoi, strtol.
  rewrite strtoll_digits; auto with spine; try apply udec_digits; try lia; rewrite ?udec_val by lia; cbn.
  - apply to_int_id. unfold INT_MIN in *. lia.
  - unfold INT_MAX, INT64_MAX in *. lia.
Qed.

(** Small test values of the floating point layer. *)
Example strtod_tenth : strtod ($"0.1") = (S754_finite false 7205759403792794 (-56), []).
Proof. vm_compute. reflexivity. Qed.
Example strtod_exp : strtod ($"-12e2x") = (of_int (-1200), $"x").
Proof. vm_compute. reflexivity. Qed.
Example strtod_overflow : fst (strtod ($"1e309")) = S754_infinity false.
Proof. vm_compute. reflexivity. Qed.
Example print_fixed_ok : print_fixed 5 (atof ($"12.3456789")) = $"12.34568".
Proof. vm_compute. reflexivity. Qed.
