(* ===== verification/Buffer.v ===== *)
(** Bounded buffer primitives: src/src/app/buffer.c.

    Here memory is explicit.  A destination is the list of the bytes of its
    array, a source the bytes from its pointer to the end of its allocation;
    an access outside of them is [None].  The theorems show that the
    primitives never leave their arrays and relate the memory view to the
    C-string view every other file of the development uses. *)

From S2P Require Import Prelude CLib.

Definition EXIT_FAILURE : Z := 1.

(** * Memory accesses *)

Definition mem_store (m : list ascii) (i : nat) (c : ascii) : option (list ascii) :=
  if decide (i < length m)%nat then Some (<[i := c]> m) else None.

Definition mem_copy (dst : list ascii) (at_ : nat) (src : list ascii) (n : nat) : option (list ascii) :=
  if decide (at_ + n ≤ length dst ∧ n ≤ length src)%nat
  then Some (take at_ dst ++ take n src ++ drop (at_ + n) dst) else None.

(** [strnlen(src, n)] reads at most [n] bytes. *)
Fixpoint strnlen (src : list ascii) (n : nat) {struct n} : option nat :=
  match n with
  | O => Some O
  | S n' => match src with
            | [] => None
            | c :: src' => if decide (c = NUL) then Some O else S <$> strnlen src' n'
            end
  end.

(** * strncopy *)

Definition strncopy (dst src : list ascii) (obuf : nat) : option (list ascii) :=
  if (obuf =? 0)%nat then Some dst
  else
    len ← strnlen src (obuf - 1);
    dst1 ← (if (len =? 0)%nat then Some dst else mem_copy dst 0 src len);
    mem_store dst1 len NUL.

(** The same operation on C strings: what the rest of the development uses. *)
Definition strncopy_s (cap : Z) (s : cstr) : cstr := take (Z.to_nat (cap - 1)) s.

(** * spine_snprintf and spine_count_to_int *)

(** [text] is what the conversions produce.  A negative length (an encoding
    error) also dies, and no format of the program can produce one. *)
Definition spine_snprintf (capacity : Z) (text : cstr) : outcome cstr :=
  if capacity <=? slen text then Died EXIT_FAILURE else Ok text.

Definition spine_count_to_int (count : Z) : outcome Z :=
  if INT_MAX <? count then Died EXIT_FAILURE else Ok count.

(** * spine_clear_sensitive *)

Fixpoint spine_clear_sensitive (buffer : list ascii) (at_ length_ : nat) : option (list ascii) :=
  match length_ with
  | O => Some buffer
  | S n => b ← mem_store buffer at_ NUL; spine_clear_sensitive b (S at_) n
  end.

(** * spine_appendf *)

(** What [vsnprintf] makes of the format: the whole text, or an encoding error
    after some bytes. *)
Inductive formatted := Fmt (text : cstr) | FmtError (partial : cstr).

Definition vsnprintf (m : list ascii) (at_ cap : nat) (f : formatted) : option (list ascii * Z) :=
  let '(text, ret) := match f with Fmt t => (t, slen t) | FmtError p => (p, -1) end in
  let n := Nat.min (length text) (cap - 1) in
  m1 ← mem_copy m at_ text n;
  m2 ← mem_store m1 (at_ + n) NUL;
  Some (m2, ret).

(** An append cursor: the buffer, the offset of [*cursor] and [*remaining]. *)
Record appender := { ap_mem : list ascii; ap_cursor : nat; ap_remaining : nat }.

Definition spine_appendf (a : appender) (f : formatted) : option (appender * bool) :=
  if (ap_remaining a =? 0)%nat then Some (a, false)
  else
    '(m, written) ← vsnprintf (ap_mem a) (ap_cursor a) (ap_remaining a) f;
    if written <? 0 then
      m' ← mem_store m (ap_cursor a) NUL;
      Some ({| ap_mem := m'; ap_cursor := ap_cursor a; ap_remaining := ap_remaining a |}, false)
    else if Z.of_nat (ap_remaining a) <=? written then
      Some ({| ap_mem := m; ap_cursor := ap_cursor a + (ap_remaining a - 1); ap_remaining := 1 |}, false)
    else
      Some ({| ap_mem := m; ap_cursor := ap_cursor a + Z.to_nat written;
               ap_remaining := ap_remaining a - Z.to_nat written |}, true).

(** The cursor stands on the terminator of the text so far and [remaining]
    counts the bytes from it to the end of the array. *)
Definition appender_ok (a : appender) : Prop :=
  (1 ≤ ap_remaining a)%nat ∧
  (ap_cursor a + ap_remaining a = length (ap_mem a))%nat ∧
  nul_free (take (ap_cursor a) (ap_mem a)) ∧
  ap_mem a !! ap_cursor a = Some NUL.

(** Content a sequence of appends to an empty buffer of [cap] bytes promises:
    appended while it fits, cut at the capacity, closed after a cut. *)
Definition append_spec (cap : nat) (content text : cstr) : cstr := take (cap - 1) (content ++ text).

Module BufferFacts.

Lemma strnlen_spec src n :
  (n ≤ length src ∨ NUL ∈ src)%nat → strnlen src n = Some (Nat.min n (length (c_str src))).
Proof.
  revert src. induction n as [|n IH]; intros src H; [done|].
  destruct src as [|c src]; cbn.
  { exfalso. destruct H as [H|H]; [cbn in H; lia|]. by apply not_elem_of_nil in H. }
  case_decide; subst; cbn; [done|].
  rewrite IH; [done|]. destruct H as [H|H]; [left; cbn in H; lia|].
  apply elem_of_cons in H as [H|H]; [congruence|by right].
Qed.

Lemma mem_copy_Some dst at_ src n :
  (at_ + n ≤ length dst)%nat → (n ≤ length src)%nat →
  mem_copy dst at_ src n = Some (take at_ dst ++ take n src ++ drop (at_ + n) dst).
Proof. intros. unfold mem_copy. by rewrite decide_True. Qed.

Lemma mem_store_app m1 c m2 d :
  mem_store (m1 ++ c :: m2) (length m1) d = Some (m1 ++ d :: m2).
Proof.
  unfold mem_store. rewrite decide_True by (rewrite length_app; cbn; lia).
  by rewrite insert_app_r_alt, Nat.sub_diag by lia.
Qed.

(** Writing [text] at [at_] and terminating it. *)
Lemma mem_write m at_ text :
  (at_ + length text < length m)%nat →
  mem_copy m at_ text (length text) ≫= (fun m1 => mem_store m1 (at_ + length text) NUL)
  = Some (take at_ m ++ text ++ NUL :: drop (S (at_ + length text)) m).
Proof.
  intros H. rewrite mem_copy_Some by lia. cbn [mbind option_bind].
  rewrite firstn_all.
  destruct (drop (at_ + length text) m) as [|c r] eqn:E.
  { apply (f_equal length) in E. rewrite length_drop in E. cbn in E. lia. }
  rewrite (app_assoc _ text).
  replace (at_ + length text)%nat with (length (take at_ m ++ text)) at 1
    by (rewrite length_app, length_take; lia).
  rewrite mem_store_app, <- app_assoc. do 4 f_equal.
  replace (S (at_ + length text)) with (1 + (at_ + length text))%nat by lia.
  by rewrite Nat.add_comm, <- drop_drop, E.
Qed.

(** [strncopy] on arrays leaves in [dst] exactly [strncopy_s] of the source. *)
Lemma strncopy_memory dst src obuf :
  (1 ≤ obuf ≤ length dst)%nat → (obuf - 1 ≤ length src ∨ NUL ∈ src)%nat →
  let s := take (obuf - 1) (c_str src) in
  strncopy dst src obuf = Some (s ++ NUL :: drop (S (length s)) dst).
Proof.
  intros Hobuf Hsrc s. unfold strncopy.
  destruct (Nat.eqb_spec obuf 0); [lia|].
  rewrite strnlen_spec by done. cbn [mbind option_bind].
  assert (Hlen : length s = Nat.min (obuf - 1) (length (c_str src))) by (unfold s; by rewrite length_take).
  rewrite <- Hlen.
  destruct (c_str_prefix src) as [r Hr].
  assert (Hsrc_len : (length s ≤ length src)%nat).
  { apply (f_equal length) in Hr. rewrite length_app in Hr. lia. }
  assert (Hs : take (length s) src = s).
  { transitivity (take (length s) (c_str src)).
    - rewrite Hr at 1. by rewrite take_app_le by lia.
    - rewrite Hlen. unfold s. destruct (Nat.le_ge_cases (obuf - 1) (length (c_str src))).
      + f_equal; lia.
      + by rewrite !take_ge by lia. }
  assert (Hw : mem_copy dst 0 src (length s) ≫= (fun m1 => mem_store m1 (length s) NUL)
               = Some (s ++ NUL :: drop (S (length s)) dst)).
  { pose proof (mem_write dst 0 s ltac:(lia)) as Hm. cbn [Nat.add take app] in Hm.
    rewrite mem_copy_Some in Hm |- * by lia. cbn [Nat.add take app] in *.
    by rewrite Hs, firstn_all in *. }
  destruct (Nat.eqb_spec (length s) 0) as [E|_]; [|exact Hw].
  cbn. destruct s; [|done]. cbn. destruct dst as [|d dst]; [cbn in Hobuf; lia|].
  unfold mem_store. by rewrite decide_True by (cbn; lia).
Qed.

Lemma strncopy_s_length cap s : 0 < cap → slen (strncopy_s cap s) < cap.
Proof. apply snprintf_s_bound. Qed.

Lemma clear_sensitive_from buffer at_ n :
  (at_ + n ≤ length buffer)%nat →
  spine_clear_sensitive buffer at_ n = Some (take at_ buffer ++ replicate n NUL ++ drop (at_ + n) buffer).
Proof.
  revert buffer at_. induction n as [|n IH]; intros buffer at_ H; cbn [spine_clear_sensitive replicate].
  { by rewrite Nat.add_0_r, app_nil_l, take_drop. }
  unfold mem_store. rewrite decide_True by lia. cbn [mbind option_bind].
  rewrite IH by (rewrite length_insert; lia). f_equal.
  rewrite (take_S_r _ _ NUL) by (apply list_lookup_insert_eq; lia).
  rewrite take_insert_ge, <- app_assoc by lia. cbn. do 2 f_equal.
  rewrite drop_insert_lt by lia. by rewrite Nat.add_succ_r.
Qed.


Lemma appender_split a :
  appender_ok a →
  ap_mem a = take (ap_cursor a) (ap_mem a) ++ NUL :: drop (S (ap_cursor a)) (ap_mem a) ∧
  c_str (ap_mem a) = take (ap_cursor a) (ap_mem a) ∧
  length (take (ap_cursor a) (ap_mem a)) = ap_cursor a.
Proof.
  intros (Hr & Hl & Hnf & Hc).
  assert (E : ap_mem a = take (ap_cursor a) (ap_mem a) ++ NUL :: drop (S (ap_cursor a)) (ap_mem a))
    by (by rewrite take_drop_middle).
  split; [done|]. split; [rewrite E at 1; by apply c_str_app_nul|]. rewrite length_take. lia.
Qed.

Lemma vsnprintf_spec m at_ cap f :
  (1 ≤ cap)%nat → (at_ + cap ≤ length m)%nat →
  let '(text, ret) := match f with Fmt t => (t, slen t) | FmtError p => (p, -1) end in
  let t := take (cap - 1) text in
  vsnprintf m at_ cap f = Some (take at_ m ++ t ++ NUL :: drop (S (at_ + length t)) m, ret).
Proof.
  intros Hc Hm. unfold vsnprintf. destruct (match f with Fmt t => _ | FmtError p => _ end) as [text ret].
  set (t := take (cap - 1) text).
  assert (Hn : Nat.min (length text) (cap - 1) = length t) by (unfold t; rewrite length_take; lia).
  rewrite Hn.
  assert (Ht : (length t ≤ cap - 1)%nat) by (unfold t; rewrite length_take; lia).
  assert (Hcp : mem_copy m at_ text (length t) = mem_copy m at_ t (length t)).
  { assert (take (length t) text = t).
    { unfold t. rewrite length_take. destruct (Nat.le_ge_cases (cap - 1) (length text)).
      - f_equal; lia.
      - by rewrite !take_ge by lia. }
    rewrite !mem_copy_Some by lia. by rewrite H, firstn_all. }
  rewrite Hcp. pose proof (mem_write m at_ t ltac:(lia)) as W.
  destruct (mem_copy m at_ t (length t)) as [m1|]; [|done]. cbn in *. by rewrite W.
Qed.

(** Rebuilding the cursor invariant after [t] was written at the cursor. *)
Lemma appender_ok_advance m cur t rest rem :
  nul_free m → nul_free t → cur = length (m ++ t) → rem = S (length rest) →
  let a := {| ap_mem := m ++ t ++ NUL :: rest; ap_cursor := cur; ap_remaining := rem |} in
  appender_ok a ∧ c_str (ap_mem a) = m ++ t.
Proof.
  intros Hm Ht -> -> a.
  assert (E : ap_mem a = (m ++ t) ++ NUL :: rest) by (cbn; by rewrite <- app_assoc).
  assert (Hnf : nul_free (m ++ t)) by (by apply nul_free_app).
  split; [|rewrite E; by apply c_str_app_nul].
  unfold appender_ok. rewrite E. subst a. cbn [ap_cursor ap_remaining].
  split; [lia|]. split; [rewrite !length_app; cbn; lia|].
  rewrite take_app_length. split; [done|]. by rewrite list_lookup_middle.
Qed.

Lemma appendf_content a t :
  appender_ok a → nul_free t →
  ∃ a', spine_appendf a (Fmt t) = Some (a', bool_decide (slen t < Z.of_nat (ap_remaining a))) ∧
    appender_ok a' ∧ length (ap_mem a') = length (ap_mem a) ∧
    c_str (ap_mem a') = append_spec (length (ap_mem a)) (c_str (ap_mem a)) t ∧
    (slen t < Z.of_nat (ap_remaining a) → Z.of_nat (ap_remaining a') = Z.of_nat (ap_remaining a) - slen t) ∧
    (Z.of_nat (ap_remaining a) ≤ slen t → ap_remaining a' = 1%nat).
Proof.
  intros Hok Ht. destruct (appender_split a Hok) as (E & Hc & Hcl).
  pose proof Hok as (Hr & Hl & Hnf & _).
  unfold spine_appendf. destruct (Nat.eqb_spec (ap_remaining a) 0); [lia|].
  pose proof (vsnprintf_spec (ap_mem a) (ap_cursor a) (ap_remaining a) (Fmt t) ltac:(lia) ltac:(lia)) as V.
  cbn zeta in V. rewrite V. cbn [mbind option_bind].
  pose proof (slen_nonneg t). rewrite (proj2 (Z.ltb_ge _ _)) by done.
  unfold append_spec. rewrite Hc, take_app, take_take, Hcl.
  replace (Nat.min (length (ap_mem a) - 1) (ap_cursor a)) with (ap_cursor a) by lia.
  replace (length (ap_mem a) - 1 - ap_cursor a)%nat with (ap_remaining a - 1)%nat by lia.
  set (m := take (ap_cursor a) (ap_mem a)) in *. set (u := take (ap_remaining a - 1) t) in *.
  set (rest := drop _ (ap_mem a)).
  assert (Hu : nul_free u) by (by apply nul_free_take).
  assert (Hul : length u = Nat.min (ap_remaining a - 1) (length t)) by apply length_take.
  assert (Hrest : length rest = (ap_remaining a - 1 - length u)%nat)
    by (unfold rest; rewrite length_drop; lia).
  unfold slen in *. destruct (Z.leb_spec (Z.of_nat (ap_remaining a)) (Z.of_nat (length t))).
  - rewrite bool_decide_false by lia.
    destruct (appender_ok_advance m (ap_cursor a + (ap_remaining a - 1)) u rest 1) as [Ha Hs]; try done.
    { rewrite length_app. lia. } { lia. }
    eexists. split; [done|]. split; [exact Ha|]. cbn. rewrite !length_app. cbn. repeat split; auto; lia.
  - rewrite bool_decide_true by lia. rewrite !Nat2Z.id.
    destruct (appender_ok_advance m (ap_cursor a + length t) u rest (ap_remaining a - length t)) as [Ha Hs]; try done.
    { rewrite length_app. lia. } { lia. }
    eexists. split; [done|]. split; [exact Ha|]. cbn. rewrite !length_app. cbn. repeat split; auto; lia.
Qed.

Lemma append_spec_app cap x t u :
  append_spec cap (append_spec cap x t) u = append_spec cap x (t ++ u).
Proof.
  unfold append_spec. set (n := (cap - 1)%nat). rewrite (app_assoc x t u).
  destruct (Nat.le_gt_cases n (length (x ++ t))) as [H|H].
  - rewrite (take_app_le (x ++ t) u n) by done.
    rewrite take_app_le by (rewrite length_take; lia). by rewrite take_take, Nat.min_id.
  - by rewrite (take_ge (x ++ t)) by lia.
Qed.

End BufferFacts.

Import BufferFacts.

(** A run of appends, stopping at no failure, with the conjunction of the
    returned flags. *)
Fixpoint appendf_all (a : appender) (texts : list cstr) : option (appender * bool) :=
  match texts with
  | [] => Some (a, true)
  | t :: ts => '(a1, ok) ← spine_appendf a (Fmt t); '(a2, oks) ← appendf_all a1 ts; Some (a2, ok && oks)
  end.

Lemma appendf_all_spec texts : ∀ a,
  appender_ok a → Forall nul_free texts →
  ∃ a', appendf_all a texts = Some (a', bool_decide (slen (concat texts) < Z.of_nat (ap_remaining a))) ∧
    appender_ok a' ∧ length (ap_mem a') = length (ap_mem a) ∧
    c_str (ap_mem a') = append_spec (length (ap_mem a)) (c_str (ap_mem a)) (concat texts).
Proof.
  induction texts as [|t ts IH]; intros a Hok Hts; cbn [appendf_all concat].
  { exists a. destruct (appender_split a Hok) as (E & Hc & Hl). pose proof Hok as (? & ? & ? & ?).
    rewrite bool_decide_true by (rewrite slen_nil; lia). split; [done|]. split; [done|]. split; [done|].
    unfold append_spec. rewrite app_nil_r, take_ge; [done|]. rewrite Hc, Hl. lia. }
  apply Forall_cons_iff in Hts as [Ht Hts].
  destruct (appendf_content a t Hok Ht) as (a1 & E1 & Hok1 & Hl1 & Hc1 & Hfit & Hcut).
  destruct (IH a1 Hok1 Hts) as (a2 & E2 & Hok2 & Hl2 & Hc2).
  rewrite E1. cbn [mbind option_bind]. rewrite E2. cbn. exists a2.
  split; [|split; [done|split; [congruence|]]].
  - do 2 f_equal. pose proof (slen_nonneg (concat ts)). rewrite slen_app.
    apply eq_bool_prop_intro. rewrite andb_True, !bool_decide_spec.
    destruct (Z.lt_ge_cases (slen t) (Z.of_nat (ap_remaining a))) as [H1|H1].
    + rewrite Hfit by done. lia.
    + lia.
  - by rewrite Hc2, Hc1, Hl1, append_spec_app.
Qed.

(** * Properties *)

(** [strncopy] on arrays.  Given a destination of at least [obuf > 0] bytes
    and a source that is terminated or at least [obuf - 1] bytes long, it reads
    and writes only inside the two arrays, and leaves the destination holding the
    first [obuf - 1] bytes of the source string, terminated, with the bytes behind
    the terminator unchanged. *)
Theorem strncopy_safe (dst src : list ascii) (obuf : nat)
  (Hdst : (1 ≤ obuf ≤ length dst)%nat) (Hsrc : (obuf - 1 ≤ length src ∨ NUL ∈ src)%nat) :
  ∃ dst', strncopy dst src obuf = Some dst' ∧ length dst' = length dst ∧
    c_str dst' = strncopy_s (Z.of_nat obuf) (c_str src) ∧
    ∀ i, (length (c_str dst') < i)%nat → dst' !! i = dst !! i.
Proof.
  pose proof (strncopy_memory dst src obuf Hdst Hsrc) as E. cbn zeta in E.
  set (s := take (obuf - 1) (c_str src)) in *. eexists. split; [exact E|].
  assert (Hs : nul_free s) by (by apply nul_free_take, c_str_nul_free).
  assert (Hl : (length s ≤ obuf - 1)%nat) by (unfold s; rewrite length_take; lia).
  rewrite c_str_app_nul by done. split_and!.
  - rewrite length_app. cbn. rewrite length_drop. lia.
  - unfold strncopy_s. by replace (Z.to_nat (Z.of_nat obuf - 1)) with (obuf - 1)%nat by lia.
  - intros i Hi. rewrite lookup_app_r, lookup_cons_ne_0, lookup_drop by lia. f_equal. lia.
Qed.

Lemma strncopy_safe_witness :
  ∃ dst', strncopy ($"xxxx") ($"abcdef") 4 = Some dst' ∧ length dst' = 4%nat ∧
    c_str dst' = strncopy_s 4 (c_str ($"abcdef")) ∧
    ∀ i, (length (c_str dst') < i)%nat → dst' !! i = ($"xxxx") !! i.
Proof. apply (strncopy_safe ($"xxxx") ($"abcdef") 4); cbn; [lia|left; lia]. Defined.

(** Any sequence of [spine_appendf] calls on a fresh cursor stays inside the
    array, keeps the text terminated, leaves the concatenation of the texts cut at
    the capacity, and every call returned TRUE exactly when nothing was cut. *)
Theorem appendf_sequence_bounded (a : appender) (texts : list cstr)
  (Hok : appender_ok a) (Htexts : Forall nul_free texts) :
  ∃ a', appendf_all a texts = Some (a', bool_decide (slen (concat texts) < Z.of_nat (ap_remaining a))) ∧
    appender_ok a' ∧ length (ap_mem a') = length (ap_mem a) ∧
    c_str (ap_mem a') = take (length (ap_mem a) - 1) (c_str (ap_mem a) ++ concat texts).
Proof. exact (appendf_all_spec texts a Hok Htexts). Qed.

Lemma appendf_sequence_bounded_witness :
  ∃ a', appendf_all {| ap_mem := replicate 6 NUL; ap_cursor := 0; ap_remaining := 6 |} [$"abc"; $"defg"; $"h"]
        = Some (a', false) ∧ c_str (ap_mem a') = $"abcde".
Proof.
  destruct (appendf_sequence_bounded {| ap_mem := replicate 6 NUL; ap_cursor := 0; ap_remaining := 6 |}
              [$"abc"; $"defg"; $"h"]) as (a' & H1 & _ & _ & H2).
  - repeat split; cbn; try lia. apply nul_free_nil.
  - repeat constructor; by apply (bool_decide_unpack _).
  - exists a'. split; [exact H1|exact H2].
Defined.
