(* ===== verification/Text.v ===== *)
(** Text helpers: src/src/config/text.c, config/validate.c, script/escape.c,
    log/sanitize.c and the keyword tables of config/keywords.c. *)

From S2P Require Import Prelude CLib.

(** Byte [i] of a C string; the terminator behind its end. *)
Definition at_ (s : cstr) (i : nat) : ascii := default NUL (s !! i).

Module Trim.

(** * strip_alpha *)

(** [while (end > 0 && !isdigit(string[end - 1])) string[--end] = 0]. *)
Fixpoint strip_end (s : cstr) (end_ : nat) : nat :=
  match end_ with
  | O => O
  | S e => if isdigit (at_ s e) then end_ else strip_end s e
  end.
(** [while (start < end && !isdigit(string[start]) && string[start] != '-') start++],
    for the remaining [n = end - start] bytes. *)
Fixpoint strip_start (s : cstr) (start n : nat) : nat :=
  match n with
  | O => start
  | S n' => if isdigit (at_ s start) || bool_decide (at_ s start = "-"%char) then start
            else strip_start s (S start) n'
  end.
Definition strip_alpha (s : cstr) : cstr :=
  let end_ := strip_end s (length s) in
  let start := strip_start s 0 end_ in
  drop start (take end_ s).

(** * trim *)

Definition trim_chars : cstr := [" "; byte_of 34; "'"; "\"; byte_of 9; byte_of 10; byte_of 13]%char.

Fixpoint rtrim_end (s : cstr) (end_ : nat) : nat :=
  match end_ with
  | O => O
  | S e => if in_set trim_chars (at_ s e) then rtrim_end s e else end_
  end.
Definition rtrim (s : cstr) : cstr := take (rtrim_end s (length s)) s.
Fixpoint ltrim (s : cstr) : cstr :=
  match s with
  | c :: s' => if in_set trim_chars c then ltrim s' else s
  | [] => []
  end.
Definition trim (s : cstr) : cstr := ltrim (rtrim s).

(** * reverse, strpos, char_count *)

(** The in-place loop: [start] and [end] walk towards each other. *)
Fixpoint reverse_loop (fuel : nat) (s : cstr) (start end_ : nat) : cstr :=
  match fuel with
  | O => s
  | S f =>
      if (start <? end_)%nat then
        let e := (end_ - 1)%nat in
        if (e <=? start)%nat then s
        else let byte := at_ s start in
             let s1 := <[start := at_ s e]> s in
             reverse_loop f (<[e := byte]> s1) (S start) e
      else s
  end.
Definition reverse (s : cstr) : cstr := reverse_loop (length s) s 0 (length s).

Definition strpos (haystack needle : cstr) : Z :=
  match strstr haystack needle with
  | Some p => if Z.of_nat p <=? INT_MAX then Z.of_nat p else -1
  | None => -1
  end.

Fixpoint count_byte (s : cstr) (c : ascii) : Z :=
  match s with
  | d :: s' => (if decide (d = c) then 1 else 0) + count_byte s' c
  | [] => 0
  end.
Definition char_count (s : cstr) (chr : Z) : Z :=
  let my_chr := byte_of chr in
  if decide (my_chr = NUL) then 1 else count_byte s my_chr.

End Trim.

(** * validate.c *)

Module Validate.
Definition all_digits (s : cstr) : bool :=
  match s with
  | [] => false
  | _ => match snd (span isdigit s) with [] => true | _ => false end
  end.
Fixpoint is_ipaddress (s : cstr) : bool :=
  match s with
  | [] => true
  | c :: s' => if isdigit c || bool_decide (c = "."%char) || bool_decide (c = ":"%char)
               then is_ipaddress s' else false
  end.
End Validate.

(** * escape.c *)

Module Escape.
Definition SIZE_MAX : Z := UINT64_MAX.
Fixpoint slash_bytes (s : cstr) : cstr :=
  match s with
  | [] => []
  | c :: s' => (if decide (c = "\"%char) then ["\"%char] else []) ++ c :: slash_bytes s'
  end.
(** Allocates [2 * length + 1] bytes after checking that this does not wrap. *)
Definition add_slashes (s : cstr) : outcome cstr :=
  if (SIZE_MAX - 1) / 2 <? slen s then Died 1 else Ok (slash_bytes s).
(** The inverse the shell applies: a backslash quotes the next byte. *)
Fixpoint unslash (s : cstr) : cstr :=
  match s with
  | c :: s' => if decide (c = "\"%char) then
                 match s' with d :: s'' => d :: unslash s'' | [] => [c] end
               else c :: unslash s'
  | [] => []
  end.
End Escape.

(** * sanitize.c *)

Module Sanitize.
(** The loop body at byte [p] of the message [m], in place. *)
Definition sanitize_at (m : cstr) (p : nat) : cstr :=
  let c0 := code (at_ m p) in
  let c1 := code (at_ m (p + 1)) in
  let c2 := code (at_ m (p + 2)) in
  if (c0 <? 32) || (c0 =? 127) then <[p := " "%char]> m
  else if (c0 =? 194) && (c1 =? 133) then <[(p + 1)%nat := " "%char]> (<[p := " "%char]> m)
  else if (c0 =? 226) && (c1 =? 128) && ((c2 =? 168) || (c2 =? 169)) then
    <[(p + 2)%nat := " "%char]> (<[(p + 1)%nat := " "%char]> (<[p := " "%char]> m))
  else m.
Definition spine_sanitize_log_message (m : cstr) : cstr :=
  foldl sanitize_at m (seq 0 (length m)).
End Sanitize.

(** * keywords.c *)

Module Keywords.
Definition keyword : Type := cstr * Z.

Definition POLLER_VERBOSITY_NONE : Z := 1.
Definition POLLER_VERBOSITY_LOW : Z := 2.
Definition POLLER_VERBOSITY_MEDIUM : Z := 3.
Definition POLLER_VERBOSITY_HIGH : Z := 4.
Definition POLLER_VERBOSITY_DEBUG : Z := 5.
Definition POLLER_VERBOSITY_DEVDBG : Z := 6.
Definition LOGDEST_FILE : Z := 1.
Definition LOGDEST_BOTH : Z := 2.
Definition LOGDEST_SYSLOG : Z := 3.
Definition LOGDEST_STDOUT : Z := 4.
Definition POLLER_ACTION_SNMP : Z := 0.
Definition POLLER_ACTION_SCRIPT : Z := 1.
Definition POLLER_ACTION_PHP_SCRIPT_SERVER : Z := 2.
Definition POLLER_ACTION_SNMP_COUNT : Z := 10.
Definition POLLER_ACTION_SCRIPT_COUNT : Z := 11.
Definition POLLER_ACTION_PHP_SCRIPT_SERVER_COUNT : Z := 12.

Definition log_level : list keyword :=
  [($"NONE", POLLER_VERBOSITY_NONE); ($"LOW", POLLER_VERBOSITY_LOW);
   ($"MEDIUM", POLLER_VERBOSITY_MEDIUM); ($"HIGH", POLLER_VERBOSITY_HIGH);
   ($"DEBUG", POLLER_VERBOSITY_DEBUG)].
Definition logdest : list keyword :=
  [($"FILE", LOGDEST_FILE); ($"SYSLOG", LOGDEST_SYSLOG); ($"BOTH", LOGDEST_BOTH);
   ($"STDOUT", LOGDEST_STDOUT)].
Definition actions : list keyword :=
  [($"SNMP", POLLER_ACTION_SNMP); ($"SCRIPT", POLLER_ACTION_SCRIPT);
   ($"PHPSCRIPT", POLLER_ACTION_PHP_SCRIPT_SERVER); ($"SNMP_CT", POLLER_ACTION_SNMP_COUNT);
   ($"SCRIPT_CT", POLLER_ACTION_SCRIPT_COUNT);
   ($"PHPSCRIPT_CT", POLLER_ACTION_PHP_SCRIPT_SERVER_COUNT)].

Fixpoint lookup_word (tbl : list keyword) (word : cstr) (dflt : Z) : Z :=
  match tbl with
  | (w, v) :: tbl' => if STRIMATCH word w then v else lookup_word tbl' word dflt
  | [] => dflt
  end.
Definition find_keyword_by_word (tbl : list keyword) (word : cstr) (dflt : Z) : Z :=
  if Validate.all_digits word then atoi word else lookup_word tbl word dflt.
Fixpoint find_keyword_by_value (tbl : list keyword) (value : Z) (dflt : cstr) : cstr :=
  match tbl with
  | (w, v) :: tbl' => if v =? value then w else find_keyword_by_value tbl' value dflt
  | [] => dflt
  end.

Definition printable_log_level (token : Z) := find_keyword_by_value log_level token ($"-unknown-").
Definition parse_log_level (word : cstr) (dflt : Z) := find_keyword_by_word log_level word dflt.
Definition printable_logdest (token : Z) := find_keyword_by_value logdest token ($"-unknown-").
Definition parse_logdest (word : cstr) (dflt : Z) := find_keyword_by_word logdest word dflt.
Definition printable_action (token : Z) := find_keyword_by_value actions token ($"-unknown-").
Definition parse_action (word : cstr) (dflt : Z) := find_keyword_by_word actions word dflt.
End Keywords.

(** * Lemmas *)

Module TextFacts.
Import Trim Validate Escape Sanitize Keywords.

Lemma at_lookup s i c : s !! i = Some c → at_ s i = c.
Proof. unfold at_. by intros ->. Qed.

Lemma all_digits_spec s : all_digits s = true ↔ s ≠ [] ∧ Forall (fun c => isdigit c = true) s.
Proof.
  unfold all_digits. destruct s as [|c s]; [naive_solver|].
  destruct (span isdigit (c :: s)) as [a b] eqn:E.
  pose proof (span_app _ _ _ _ E) as Happ. pose proof (span_all _ _ _ _ E) as Hall. cbn [snd].
  destruct b; split; intros H; try done.
  - split; [done|]. by rewrite Happ, app_nil_r.
  - destruct H as [_ H]. rewrite span_full in E by done. by simplify_eq.
Qed.

Lemma strip_end_spec s n :
  (n ≤ length s)%nat →
  let e := strip_end s n in
  (e ≤ n)%nat ∧ Forall (fun c => isdigit c = false) (drop e (take n s)) ∧
  (e = O ∨ ∃ c, s !! (e - 1)%nat = Some c ∧ isdigit c = true).
Proof.
  induction n as [|n IH]; intros Hn; cbn.
  { split; [lia|]. split; [constructor|by left]. }
  destruct (lookup_lt_is_Some_2 s n ltac:(lia)) as [c Hc].
  rewrite (at_lookup _ _ _ Hc).
  destruct (isdigit c) eqn:E.
  - split; [lia|]. rewrite drop_ge by (rewrite length_take; lia). split; [constructor|].
    right. exists c. rewrite Nat.sub_succ, Nat.sub_0_r. done.
  - destruct IH as (H1 & H2 & H3); [lia|]. split; [lia|]. split; [|done].
    rewrite (take_S_r _ _ _ Hc), drop_app_le by (rewrite length_take; lia).
    apply Forall_app. split; [done|by repeat constructor].
Qed.

Lemma strip_start_spec s n : ∀ start,
  (start + n ≤ length s)%nat →
  let st := strip_start s start n in
  (start ≤ st ≤ start + n)%nat ∧
  Forall (fun c => isdigit c = false ∧ c ≠ "-"%char) (take (st - start) (drop start s)) ∧
  (st = (start + n)%nat ∨ ∃ c, s !! st = Some c ∧ (isdigit c = true ∨ c = "-"%char)).
Proof.
  induction n as [|n IH]; intros start Hn; cbn.
  { split; [lia|]. rewrite Nat.sub_diag, Nat.add_0_r. split; [constructor|by left]. }
  destruct (lookup_lt_is_Some_2 s start ltac:(lia)) as [c Hc].
  rewrite (at_lookup _ _ _ Hc).
  destruct (isdigit c || bool_decide (c = "-"%char)) eqn:E.
  - split; [lia|]. rewrite Nat.sub_diag. split; [constructor|]. right. exists c. split; [done|].
    apply orb_true_iff in E as [?|?]; [by left|right; by bool_to_prop].
  - destruct (IH (S start)) as (H1 & H2 & H3); [lia|]. bool_to_prop.
    split; [lia|]. split; [|destruct H3; [left; lia|by right]].
    replace (strip_start s (S start) n - start)%nat with (S (strip_start s (S start) n - S start)) by lia.
    rewrite (drop_S _ _ _ Hc). cbn. constructor; done.
Qed.

Lemma rtrim_end_spec s n :
  (n ≤ length s)%nat →
  let e := rtrim_end s n in
  (e ≤ n)%nat ∧ Forall (fun c => in_set trim_chars c = true) (drop e (take n s)) ∧
  (e = O ∨ ∃ c, s !! (e - 1)%nat = Some c ∧ in_set trim_chars c = false).
Proof.
  induction n as [|n IH]; intros Hn; cbn.
  { split; [lia|]. split; [constructor|by left]. }
  destruct (lookup_lt_is_Some_2 s n ltac:(lia)) as [c Hc].
  rewrite (at_lookup _ _ _ Hc).
  destruct (in_set trim_chars c) eqn:E.
  - destruct IH as (H1 & H2 & H3); [lia|]. split; [lia|]. split; [|done].
    rewrite (take_S_r _ _ _ Hc), drop_app_le by (rewrite length_take; lia).
    apply Forall_app. split; [done|by repeat constructor].
  - split; [lia|]. rewrite drop_ge by (rewrite length_take; lia). split; [constructor|].
    right. exists c. rewrite Nat.sub_succ, Nat.sub_0_r. done.
Qed.

Lemma ltrim_spec s :
  ∃ p, s = p ++ ltrim s ∧ Forall (fun c => in_set trim_chars c = true) p ∧
    match ltrim s with c :: _ => in_set trim_chars c = false | [] => True end.
Proof.
  induction s as [|c s IH]; cbn; [by exists []|].
  destruct (in_set trim_chars c) eqn:E; [|by exists []].
  destruct IH as (p & Hp & Hf & Hh). exists (c :: p). cbn. rewrite <- Hp. by repeat constructor.
Qed.

Lemma list_ends {A} (l : list A) : l = [] ∨ (∃ x, l = [x]) ∨ ∃ x m y, l = x :: m ++ [y].
Proof.
  destruct l as [|x l]; [by left|right]. destruct l as [|y m _] using rev_ind; [left; eauto|].
  right. eauto.
Qed.

Lemma insert_middle {A} (l r : list A) x y : <[length l := y]> (l ++ x :: r) = l ++ y :: r.
Proof. by rewrite insert_app_r_alt, Nat.sub_diag by lia. Qed.

Lemma reverse_loop_spec fuel : ∀ l mid r,
  (length mid ≤ fuel)%nat →
  reverse_loop fuel (l ++ mid ++ r) (length l) (length l + length mid) = l ++ rev mid ++ r.
Proof.
  induction fuel as [|f IH]; intros l mid r Hf; cbn [reverse_loop].
  { destruct mid; [done|cbn in Hf; lia]. }
  destruct (list_ends mid) as [->|[[x ->]|(x & m & y & ->)]].
  - cbn [length rev app]. by rewrite Nat.add_0_r, (proj2 (Nat.ltb_ge _ _)).
  - cbn [length rev app]. rewrite (proj2 (Nat.ltb_lt _ _)) by lia. rewrite (proj2 (Nat.leb_le _ _)) by lia. done.
  - cbn [length] in *. rewrite length_app in *. cbn [length] in *.
    rewrite (proj2 (Nat.ltb_lt _ _)), (proj2 (Nat.leb_gt _ _)) by lia.
    replace (length l + S (length m + 1) - 1)%nat with (length (l ++ x :: m))
      by (rewrite length_app; cbn; lia).
    assert (E : l ++ (x :: m ++ [y]) ++ r = (l ++ x :: m) ++ y :: r) by (by rewrite <- !app_assoc; cbn; rewrite <- app_assoc).
    assert (Hx : at_ (l ++ (x :: m ++ [y]) ++ r) (length l) = x)
      by (apply at_lookup; cbn; by rewrite list_lookup_middle).
    assert (Hy : at_ (l ++ (x :: m ++ [y]) ++ r) (length (l ++ x :: m)) = y)
      by (apply at_lookup; rewrite E; by rewrite list_lookup_middle).
    rewrite Hx, Hy. clear Hx Hy E.
    replace (l ++ (x :: m ++ [y]) ++ r) with (l ++ x :: (m ++ y :: r)) by (cbn; by rewrite <- app_assoc).
    rewrite insert_middle. replace (l ++ y :: m ++ y :: r) with ((l ++ y :: m) ++ y :: r) by (by rewrite <- app_assoc).
    replace (length (l ++ x :: m)) with (length (l ++ y :: m)) by (rewrite !length_app; done).
    rewrite insert_middle.
    replace ((l ++ y :: m) ++ x :: r) with ((l ++ [y]) ++ m ++ x :: r) by (by rewrite <- !app_assoc).
    replace (S (length l)) with (length (l ++ [y])) by (rewrite length_app; cbn; lia).
    replace (length (l ++ y :: m)) with (length (l ++ [y]) + length m)%nat
      by (rewrite !length_app; cbn; lia).
    rewrite IH by lia. cbn [rev]. rewrite rev_app_distr. cbn. by rewrite <- !app_assoc.
Qed.

Lemma slash_bytes_length s : (length (slash_bytes s) ≤ 2 * length s)%nat.
Proof. induction s as [|c s IH]; cbn; [lia|]. rewrite length_app. case_decide; cbn; lia. Qed.
Lemma slash_bytes_unslash s : unslash (slash_bytes s) = s.
Proof.
  induction s as [|c s IH]; [done|]. cbn [slash_bytes]. case_decide as Hc; cbn [app unslash].
  - subst. rewrite decide_True by done. by rewrite IH.
  - rewrite decide_False by done. by rewrite IH.
Qed.

(** ** The log sanitizer *)

(** Byte [p] starts something [spine_sanitize_log_message] must not leave. *)
Definition dirty_at (m : cstr) (p : nat) : bool :=
  let c0 := code (at_ m p) in let c1 := code (at_ m (p + 1)) in let c2 := code (at_ m (p + 2)) in
  (c0 <? 32) || (c0 =? 127) || ((c0 =? 194) && (c1 =? 133)) ||
  ((c0 =? 226) && (c1 =? 128) && ((c2 =? 168) || (c2 =? 169))).

(** [m'] is [m] with some bytes turned into spaces. *)
Definition blanked (m m' : cstr) : Prop :=
  length m' = length m ∧ ∀ i, at_ m' i = at_ m i ∨ at_ m' i = " "%char.

Lemma blanked_refl m : blanked m m.
Proof. split; auto. Qed.
Lemma blanked_trans m1 m2 m3 : blanked m1 m2 → blanked m2 m3 → blanked m1 m3.
Proof.
  intros [L1 H1] [L2 H2]. split; [congruence|]. intros i. destruct (H2 i) as [->|]; auto.
Qed.
Lemma at_insert_eq m i c : (i < length m)%nat → at_ (<[i := c]> m) i = c.
Proof. intros. unfold at_. by rewrite list_lookup_insert_eq. Qed.
Lemma at_insert_ne m i j c : i ≠ j → at_ (<[i := c]> m) j = at_ m j.
Proof. intros. unfold at_. by rewrite list_lookup_insert_ne. Qed.
Lemma blanked_insert m i : blanked m (<[i := " "%char]> m).
Proof.
  split; [apply length_insert|]. intros j. destruct (decide (i = j)) as [->|].
  - destruct (Nat.lt_ge_cases j (length m)); [right; by apply at_insert_eq|].
    left. by rewrite list_insert_ge.
  - left. by apply at_insert_ne.
Qed.
Lemma sanitize_at_blanked m p : blanked m (sanitize_at m p).
Proof.
  unfold sanitize_at. repeat case_match; eauto using blanked_refl, blanked_insert, blanked_trans.
Qed.

(** Blanking bytes never creates a control byte or a separator. *)
Lemma blanked_clean m m' p : blanked m m' → (p < length m)%nat → dirty_at m p = false → dirty_at m' p = false.
Proof.
  intros [_ H] Hp Hd. unfold dirty_at in *.
  destruct (H p) as [->| ->]; [|done].
  change (code " ") with 32 in *.
  destruct (H (p + 1)%nat) as [->| ->]; destruct (H (p + 2)%nat) as [->| ->];
    change (code " ") with 32 in *; cbn [Z.eqb Pos.eqb] in *; try done;
    revert Hd; generalize (code (at_ m p)), (code (at_ m (p + 1))), (code (at_ m (p + 2))); intros a b c;
    destruct (a <? 32), (a =? 127), (a =? 194), (a =? 226), (b =? 133), (b =? 128), (c =? 168), (c =? 169); done.
Qed.

Lemma sanitize_at_clean m p : (p < length m)%nat → dirty_at (sanitize_at m p) p = false.
Proof.
  intros Hp. unfold sanitize_at.
  destruct ((code (at_ m p) <? 32) || (code (at_ m p) =? 127)) eqn:E1.
  { unfold dirty_at. by rewrite at_insert_eq. }
  destruct ((code (at_ m p) =? 194) && (code (at_ m (p + 1)) =? 133)) eqn:E2.
  { unfold dirty_at. rewrite at_insert_ne by lia. by rewrite at_insert_eq. }
  destruct ((code (at_ m p) =? 226) && _ && _) eqn:E3.
  { unfold dirty_at. rewrite !(at_insert_ne _ _ p) by lia. by rewrite at_insert_eq. }
  unfold dirty_at. by rewrite E1, E2, E3.
Qed.

Lemma sanitize_foldl m k n :
  (k + n ≤ length m)%nat → (∀ p, (p < k)%nat → dirty_at m p = false) →
  let m' := foldl sanitize_at m (seq k n) in
  blanked m m' ∧ ∀ p, (p < k + n)%nat → dirty_at m' p = false.
Proof.
  revert m k. induction n as [|n IH]; intros m k Hl Hc; cbn.
  { split; [apply blanked_refl|]. intros p Hp. apply Hc. lia. }
  pose proof (sanitize_at_blanked m k) as Hb.
  destruct (IH (sanitize_at m k) (S k)) as [H1 H2].
  { destruct Hb as [-> _]. lia. }
  { intros p Hp. destruct (decide (p = k)) as [->|]; [apply sanitize_at_clean; lia|].
    apply (blanked_clean m); [done|lia|]. apply Hc. lia. }
  split; [by eapply blanked_trans|]. intros p Hp. apply H2. lia.
Qed.

Lemma sanitize_id m : (∀ p, (p < length m)%nat → dirty_at m p = false) → spine_sanitize_log_message m = m.
Proof.
  intros H. unfold spine_sanitize_log_message.
  assert (G : ∀ ps, Forall (fun p => p < length m)%nat ps → foldl sanitize_at m ps = m).
  { induction ps as [|p ps IH]; [done|]. intros [Hp Hps]%Forall_cons_iff. cbn.
    replace (sanitize_at m p) with m; [auto|].
    specialize (H p Hp). unfold dirty_at in H. unfold sanitize_at.
    rewrite !orb_false_iff in H. destruct H as [[[-> ->] ->] ->]. done. }
  apply G. apply Forall_forall. intros p Hp. apply in_seq in Hp. lia.
Qed.

Lemma strip_alpha_parts (s : cstr) :
  ∃ p q, s = p ++ strip_alpha s ++ q ∧
    Forall (fun c => isdigit c = false) q ∧
    Forall (fun c => isdigit c = false ∧ c ≠ "-"%char) p ∧
    (strip_alpha s = [] ∨
     (∃ c r, strip_alpha s = c :: r ∧ (isdigit c = true ∨ c = "-"%char)) ∧
     (∃ r d, strip_alpha s = r ++ [d] ∧ isdigit d = true)).
Proof.
  unfold strip_alpha.
  destruct (strip_end_spec s (length s)) as (He & Hq & Hd); [done|].
  set (e := strip_end s (length s)) in *.
  destruct (strip_start_spec s e 0) as (Hs & Hp & Hc); [lia|].
  set (st := strip_start s 0 e) in *.
  rewrite firstn_all in Hq. rewrite Nat.sub_0_r, drop_0 in Hp.
  exists (take st s), (drop e s). split.
  { rewrite app_assoc. rewrite <- (take_drop e s) at 1. f_equal.
    rewrite <- (take_drop st (take e s)) at 1. f_equal. by rewrite take_take, Nat.min_l by lia. }
  split; [done|]. split; [done|].
  destruct Hc as [Hc|(c & Hc & Hcc)].
  { left. rewrite drop_ge; [done|]. rewrite length_take. lia. }
  destruct (Nat.eq_dec st e) as [Heq|Hne].
  { left. rewrite drop_ge; [done|]. rewrite length_take. lia. }
  right. split.
  - exists c, (drop (S st) (take e s)). split; [|done].
    apply drop_S. by rewrite lookup_take_lt by lia.
  - destruct Hd as [?|(d & Hd & Hdd)]; [lia|]. exists (drop st (take (e - 1) s)), d.
    split; [|done]. rewrite <- drop_app_le by (rewrite length_take; lia).
    rewrite <- (take_S_r _ _ _ Hd). f_equal. f_equal. lia.
Qed.

End TextFacts.

Import TextFacts.

(** * Properties *)

(** [strip_alpha] returns a contiguous piece of its input.  The bytes it cuts
    at the end hold no digit, those it cuts at the front neither a digit nor a
    minus sign, and what is left is empty or ends in a digit and starts with a
    digit or a minus sign. *)
Theorem strip_alpha_spec (s : cstr) :
  ∃ p q, s = p ++ Trim.strip_alpha s ++ q ∧
    Forall (fun c => isdigit c = false) q ∧
    Forall (fun c => isdigit c = false ∧ c ≠ "-"%char) p ∧
    (Trim.strip_alpha s = [] ∨
     (∃ c r, Trim.strip_alpha s = c :: r ∧ (isdigit c = true ∨ c = "-"%char)) ∧
     (∃ r d, Trim.strip_alpha s = r ++ [d] ∧ isdigit d = true)).
Proof. exact (strip_alpha_parts s). Qed.

(** The in-place two-index loop of [reverse] computes list reversal, for
    every length, with as many rounds as the string has bytes. *)
Theorem reverse_is_rev (s : cstr) : Trim.reverse s = rev s.
Proof.
  unfold Trim.reverse. pose proof (reverse_loop_spec (length s) [] s [] ltac:(lia)) as H.
  by rewrite !app_nil_r in H.
Qed.

(** [trim] cuts only trim bytes, on both sides, and nothing it leaves at
    either end is a trim byte. *)
Theorem trim_spec (s : cstr) :
  ∃ p q, s = p ++ Trim.trim s ++ q ∧
    Forall (fun c => in_set Trim.trim_chars c = true) (p ++ q) ∧
    (∀ c r, Trim.trim s = c :: r → in_set Trim.trim_chars c = false) ∧
    (∀ r d, Trim.trim s = r ++ [d] → in_set Trim.trim_chars d = false).
Proof.
  unfold Trim.trim. destruct (rtrim_end_spec s (length s)) as (He & Hq & Hd); [done|].
  rewrite firstn_all in Hq.
  destruct (ltrim_spec (Trim.rtrim s)) as (p & Hp & Hpf & Hh).
  set (e := Trim.rtrim_end s (length s)) in *.
  exists p, (drop e s). split.
  { rewrite app_assoc, <- Hp. unfold Trim.rtrim. fold e. by rewrite take_drop. }
  split; [by apply Forall_app|]. split; [by intros c r E; rewrite E in Hh|].
  intros r d E. rewrite E in Hp. unfold Trim.rtrim in Hp. fold e in Hp.
  destruct Hd as [Hd|(d' & Hd & Hdd)].
  { rewrite Hd in Hp. symmetry in Hp. apply app_eq_nil in Hp as [_ Hp]. by apply app_eq_nil in Hp as [_ ?]. }
  assert (e ≠ 0)%nat.
  { intros E0. rewrite E0 in Hp. symmetry in Hp. apply app_eq_nil in Hp as [_ Hp]. by apply app_eq_nil in Hp as [_ ?]. }
  replace e with (S (e - 1)) in Hp by lia. rewrite (take_S_r _ _ _ Hd), app_assoc in Hp.
  apply app_inj_tail in Hp as [_ <-]. done.
Qed.

(** A sanitized log record has the length of the message, differs from it only
    in blanked bytes, and holds no C0 control, no DEL, no NEL (C2 85) and no
    Unicode line or paragraph separator (E2 80 A8/A9) at any position; sanitizing
    again changes nothing. *)
Theorem sanitize_log_message_clean (m : cstr) :
  let m' := Sanitize.spine_sanitize_log_message m in
  blanked m m' ∧ (∀ p, (p < length m')%nat → dirty_at m' p = false) ∧
  Sanitize.spine_sanitize_log_message m' = m'.
Proof.
  intros m'. destruct (sanitize_foldl m 0 (length m)) as [Hb Hc]; [lia|lia|].
  fold (Sanitize.spine_sanitize_log_message m) in *. fold m' in Hb, Hc.
  assert (Hl : length m' = length m) by apply Hb.
  split; [done|]. split; [intros p Hp; apply Hc; lia|]. apply sanitize_id. intros. apply Hc. lia.
Qed.

(** Every keyword table maps a value to its word and the word, in any
    capitalization the program prints, back to the value; an unlisted word yields
    the caller's default. *)
Theorem keyword_tables_roundtrip (tbl : list Keywords.keyword) (dflt : Z)
  (Htbl : tbl ∈ [Keywords.log_level; Keywords.logdest; Keywords.actions]) :
  (∀ w v, (w, v) ∈ tbl → Keywords.find_keyword_by_value tbl v ($"-unknown-") = w ∧
     Keywords.find_keyword_by_word tbl w dflt = v ∧
     Keywords.find_keyword_by_word tbl (map tolower w) dflt = v) ∧
  (∀ word, Validate.all_digits word = false → (∀ w v, (w, v) ∈ tbl → STRIMATCH word w = false) →
     Keywords.find_keyword_by_word tbl word dflt = dflt).
Proof.
  split.
  - intros w v Hin. rewrite !elem_of_cons in Htbl.
    destruct Htbl as [->|[->|[->|Hn]]]; [..|by apply elem_of_nil in Hn];
      unfold Keywords.log_level, Keywords.logdest, Keywords.actions in Hin;
      rewrite !elem_of_cons in Hin;
      repeat (destruct Hin as [Hin|Hin]; [injection Hin as -> ->; by vm_compute|]);
      by apply elem_of_nil in Hin.
  - intros word Hd Hno. unfold Keywords.find_keyword_by_word. rewrite Hd.
    clear Htbl. induction tbl as [|[w v] tbl IH]; cbn; [done|].
    rewrite (Hno w v) by (by apply elem_of_list_here || left). apply IH.
    intros w' v' Hin. apply (Hno w' v'). by right.
Qed.

Lemma keyword_tables_roundtrip_witness :
  Keywords.find_keyword_by_value Keywords.logdest 3 ($"-unknown-") = $"SYSLOG" ∧
  Keywords.find_keyword_by_word Keywords.logdest ($"SYSLOG") 7 = 3 ∧
  Keywords.find_keyword_by_word Keywords.logdest (map tolower ($"SYSLOG")) 7 = 3.
Proof.
  apply (proj1 (keyword_tables_roundtrip Keywords.logdest 7 ltac:(right; left)) ($"SYSLOG") 3).
  right; left.
Defined.
