(* ===== verification/Result.v ===== *)
(** Poll results: src/src/poller/result.c, and the parts of poller/poller.c that
    normalize a result, render it as a row of [poller_output] and collect the ids
    of invalid results. *)

From S2P Require Import Prelude CLib Buffer Text.

(** The configure default ([--with-results-buffer]). *)
Definition RESULTS_BUFFER : Z := 2048.
Definition SMALL_BUFSIZE : Z := 256.
Definition BUFSIZE : Z := 1024.
Definition DBL_BUFSIZE : Z := 2048.

(** [SET_UNDEFINED] and [IS_UNDEFINED] of internal/constants.h. *)
Definition UNDEFINED : cstr := $"U".
Definition IS_UNDEFINED (s : cstr) : bool := bool_decide (s = UNDEFINED).

Module Classify.

Inductive result_kind_t :=
| RESULT_UNKNOWN | RESULT_COUNTER | RESULT_SIGNED | RESULT_FLOAT | RESULT_HEX_COUNTER | RESULT_MULTIPART.
#[global] Instance result_kind_eq_dec : EqDecision result_kind_t.
Proof. solve_decision. Defined.

(** The union member the kind selects. *)
Inductive result_value := VCounter (n : Z) | VInteger (n : Z) | VReal (d : double).

Record classified_result_t := { kind : result_kind_t; value : result_value; text : cstr }.
Definition unknown_result : classified_result_t :=
  {| kind := RESULT_UNKNOWN; value := VCounter 0; text := UNDEFINED |}.

Definition result_padding : cstr := [" "; byte_of 34; "'"; "\"; byte_of 9; byte_of 10; byte_of 13]%char.

(** * Decimal numbers *)

Definition take_plus_minus (s : cstr) : cstr :=
  match s with
  | c :: s' => if bool_decide (c = "+"%char) || bool_decide (c = "-"%char) then s' else s
  | [] => []
  end.
(** Returns the verdict and [*integral]. *)
Definition decimal_syntax (t : cstr) : bool * bool :=
  let cursor := take_plus_minus t in
  let '(ip, cursor) := span isdigit cursor in
  let '(fp, cursor, integral) :=
    match cursor with
    | c :: r => if decide (c = "."%char) then let '(fp, r') := span isdigit r in (fp, r', false)
                else ([], cursor, true)
    | [] => ([], [], true)
    end in
  if (length ip + length fp =? 0)%nat then (false, integral)
  else match cursor with
       | [] => (true, integral)
       | c :: r =>
           if bool_decide (c = "e"%char) || bool_decide (c = "E"%char) then
             let r := take_plus_minus r in
             let '(ds, rest) := span isdigit r in
             match ds with
             | [] => (false, false)
             | _ => (bool_decide (rest = []), false)
             end
           else (false, integral)
       end.

(** [None] is FALSE, leaving [*out] alone. *)
Definition parse_decimal (t : cstr) : option (result_kind_t * result_value) :=
  let '(ok, integral) := decimal_syntax t in
  if negb ok then None
  else
    let as_integer :=
      if integral then
        match t with
        | "-"%char :: _ =>
            let r := strtoll t in
            if negb (sr_range r) && bool_decide (sr_rest r = []) then Some (RESULT_SIGNED, VInteger (sr_value r)) else None
        | _ =>
            let r := strtoull t in
            if negb (sr_range r) && bool_decide (sr_rest r = []) then Some (RESULT_COUNTER, VCounter (sr_value r)) else None
        end
      else None in
    match as_integer with
    | Some r => Some r
    | None =>
        let '(real, end_) := strtod t in
        if negb (bool_decide (end_ = [])) || negb (isfinite real) then None
        else Some (RESULT_FLOAT, VReal real)
    end.

(** * Multipart output *)

Definition multipart_syntax (t : cstr) : bool :=
  if negb (in_set t ":") && negb (in_set t "!") then false
  else
    let delimiters := (Trim.count_byte t ":" + Trim.count_byte t "!")%Z in
    let spaces := Trim.count_byte t " " in
    (spaces =? 0) || (spaces + 1 =? delimiters).

(** * Hex octets *)

Definition hex_digit (c : Z) : Z :=
  if (48 <=? c) && (c <=? 57) then c - 48
  else if (97 <=? c) && (c <=? 102) then c - 97 + 10
  else if (65 <=? c) && (c <=? 70) then c - 65 + 10
  else -1.

Inductive octets_t := OCTETS_NONE | OCTETS_VALUE (v : Z) | OCTETS_OVERFLOW.

Fixpoint octets_loop (cursor : cstr) (number : Z) (overflow : bool) : octets_t :=
  match cursor with
  | c0 :: c1 :: rest =>
      let high := hex_digit (code c0) in
      let low := if high <? 0 then -1 else hex_digit (code c1) in
      if low <? 0 then OCTETS_NONE
      else
        let overflow := if Z.shiftr UINT64_MAX 8 <? number then true else overflow in
        let number := wrap_u 64 (Z.lor (Z.shiftl number 8) (high * 16 + low)) in
        match rest with
        | [] => if overflow then OCTETS_OVERFLOW else OCTETS_VALUE number
        | sep :: rest' =>
            if bool_decide (sep = " "%char) || bool_decide (sep = ":"%char) || bool_decide (sep = "-"%char)
            then octets_loop rest' number overflow
            else OCTETS_NONE
        end
  | _ => OCTETS_NONE
  end.
Definition parse_octets (t : cstr) : octets_t := octets_loop t 0 false.

(** * classify_result *)

(** [while (strchr(result_padding, end[-1]) != NULL) end--]. *)
Fixpoint unpad_end (s : cstr) (end_ : nat) : nat :=
  match end_ with
  | O => O
  | S e => if in_set result_padding (at_ s e) then unpad_end s e else end_
  end.

(** The decision on the unpadded text. *)
Definition classify_text (t : cstr) : classified_result_t :=
  match parse_decimal t with
  | Some (k, v) => {| kind := k; value := v; text := t |}
  | None =>
      if multipart_syntax t then {| kind := RESULT_MULTIPART; value := VCounter 0; text := t |}
      else match parse_octets t with
           | OCTETS_VALUE octets =>
               {| kind := RESULT_HEX_COUNTER; value := VCounter octets;
                  text := snprintf_s RESULTS_BUFFER (udec octets) |}
           | OCTETS_OVERFLOW => unknown_result
           | OCTETS_NONE =>
               let core := Trim.strip_alpha t in
               match parse_decimal core with
               | Some (k, v) => {| kind := k; value := v; text := core |}
               | None => unknown_result
               end
           end
  end.

(** [None] is a NULL [raw]. *)
Definition classify_result (raw : option cstr) : classified_result_t :=
  match raw with
  | None => unknown_result
  | Some raw =>
      let start := drop (strspn raw result_padding) raw in
      match start with
      | [] => unknown_result
      | _ =>
          let length_ := unpad_end start (length start) in
          if RESULTS_BUFFER <=? Z.of_nat length_ then unknown_result
          else classify_text (take length_ start)
      end
  end.

(** An uptime is a non-negative integer ([parse_uptime] of poller/reindex.c). *)
Definition parse_uptime (t : option cstr) : option Z :=
  let classified := classify_result t in
  match kind classified, value classified with
  | RESULT_COUNTER, VCounter n => Some n
  | _, _ => None
  end.

End Classify.

Module Output.
Import Classify.

(** * normalize_poll_result *)

Inductive poll_result_status := POLL_RESULT_VALID | POLL_RESULT_UNDEFINED | POLL_RESULT_INVALID.
#[global] Instance poll_result_status_eq_dec : EqDecision poll_result_status.
Proof. solve_decision. Defined.

(** Returns the status and the new content of [result]. *)
Definition normalize_poll_result (result : cstr) (snmp : bool) : poll_result_status * cstr :=
  if IS_UNDEFINED result then (POLL_RESULT_UNDEFINED, result)
  else
    let unknown_marker := snmp && (STRIMATCH result ($"U") || STRIMATCH result ($"Nan")) in
    let classified := classify_result (Some result) in
    if decide (kind classified ≠ RESULT_UNKNOWN) then
      (POLL_RESULT_VALID, strncopy_s RESULTS_BUFFER (text classified))
    else (if unknown_marker then POLL_RESULT_UNDEFINED else POLL_RESULT_INVALID, UNDEFINED).

(** * format_poller_output_row *)

(** The scan of [host_time]: digits and decimal points seen, or a rejection. *)
Fixpoint host_time_scan (timep : cstr) (decimal_points digits : Z) : option (Z * Z) :=
  match timep with
  | [] => Some (decimal_points, digits)
  | c :: r =>
      if decide (c = "."%char) then
        if 1 <? decimal_points + 1 then None else host_time_scan r (decimal_points + 1) digits
      else if negb (isdigit c) then None
      else host_time_scan r decimal_points (digits + 1)
  end.

Definition output_row (local_data_id : Z) (escaped_rrd_name host_time escaped_result : cstr) : cstr :=
  $" (" ++ sdec local_data_id ++ $", '" ++ escaped_rrd_name ++ $"', FROM_UNIXTIME(" ++ host_time ++
  $"), '" ++ escaped_result ++ $"')".

(** Returns the new content of [output] and the verdict. *)
Definition format_poller_output_row (output : cstr) (output_size local_data_id : Z)
  (escaped_rrd_name host_time escaped_result : cstr) : cstr * bool :=
  if (output_size =? 0) || bool_decide (host_time = []) then (output, false)
  else match host_time_scan host_time 0 0 with
       | None => (output, false)
       | Some (_, digits) =>
           if digits =? 0 then (output, false)
           else
             let row := output_row local_data_id escaped_rrd_name host_time escaped_result in
             (snprintf_s output_size row, slen row <? output_size)
       end.

(** * buffer_output_errors *)

(** The three out parameters, and the records logged so far as (count, ids). *)
Record error_buffer := { error_string : cstr; buf_size : Z; buf_errors : Z; eb_log : list (Z * cstr) }.
Definition empty_errors : error_buffer :=
  {| error_string := []; buf_size := 0; buf_errors := 0; eb_log := [] |}.

Definition log_errors (b : error_buffer) : list (Z * cstr) := eb_log b ++ [(buf_errors b, error_string b)].

Definition buffer_output_errors (b : error_buffer) (local_data_id : Z) (flush : bool) : error_buffer :=
  if flush && (0 <? buf_errors b) then
    {| error_string := error_string b; buf_size := buf_size b; buf_errors := buf_errors b; eb_log := log_errors b |}
  else if negb flush then
    let tbuffer := snprintf_s SMALL_BUFSIZE ((if 0 <? buf_errors b then $", " else []) ++ sdec local_data_id) in
    let error_len := slen tbuffer in
    if DBL_BUFSIZE <=? buf_size b + error_len then
      {| error_string := snprintf_s DBL_BUFSIZE (sdec local_data_id);
         buf_size := slen (sdec local_data_id); buf_errors := 1; eb_log := log_errors b |}
    else
      {| error_string := take (Z.to_nat (buf_size b)) (error_string b) ++ snprintf_s (DBL_BUFSIZE - buf_size b) tbuffer;
         buf_size := buf_size b + error_len; buf_errors := buf_errors b + 1; eb_log := eb_log b |}
  else b.

End Output.
