(* ===== verification/ResultFacts.v ===== *)
(** Theorems on poll results: the accepted grammar, the exactness of the parsed
    values, stability of the stored text, and the rendered rows. *)

From S2P Require Import Prelude CLib Buffer Text Result.
From Stdlib Require Import SpecFloat.
Import Classify Output TextFacts.

Abbreviation digits := (Forall (fun c => isdigit c = true)).

(** * The decimal grammar *)

Definition is_sign (s : cstr) : Prop := s = [] ∨ s = ["+"%char] ∨ s = ["-"%char].

(** A number as PHP's is_numeric() accepts it: sign, integer part, optional
    fraction, optional exponent, at least one digit before the exponent. *)
Inductive decimal_number (t : cstr) (integral : bool) : Prop :=
| decimal_intro (sign ip frac ex : cstr) :
    t = sign ++ ip ++ frac ++ ex → is_sign sign → digits ip →
    (frac = [] ∨ ∃ fp, frac = "."%char :: fp ∧ digits fp) →
    (ip ++ drop 1 frac ≠ []) →
    (ex = [] ∨ ∃ e sg ds, ex = e :: sg ++ ds ∧ (e = "e"%char ∨ e = "E"%char) ∧ is_sign sg ∧ ds ≠ [] ∧ digits ds) →
    integral = bool_decide (frac = [] ∧ ex = []) →
    decimal_number t integral.

Definition starts_non_digit (t : cstr) : Prop := match t with c :: _ => isdigit c = false | [] => True end.

Lemma span_rest p s a b : span p s = (a, b) → match b with c :: _ => p c = false | [] => True end.
Proof.
  revert a b. induction s as [|c s IH]; cbn; intros a b.
  - by intros [= <- <-].
  - destruct (p c) eqn:E; [|by intros [= <- <-]]. destruct (span p s) as [a' b'] eqn:Es.
    intros [= <- <-]. by apply (IH a' b').
Qed.

Lemma take_plus_minus_sign t : ∃ sign, is_sign sign ∧ t = sign ++ take_plus_minus t.
Proof.
  destruct t as [|c t]; [exists []; split; [by left|done]|]. cbn.
  destruct (bool_decide (c = "+"%char)) eqn:E1; bool_to_prop; subst; cbn.
  { exists ["+"%char]. split; [right; by left|done]. }
  destruct (bool_decide (c = "-"%char)) eqn:E2; bool_to_prop; subst.
  { exists ["-"%char]. split; [right; by right|done]. }
  exists []. split; [by left|done].
Qed.
Lemma take_plus_minus_app sign t :
  is_sign sign → (sign = [] → match t with c :: _ => c ≠ "+"%char ∧ c ≠ "-"%char | [] => True end) →
  take_plus_minus (sign ++ t) = t.
Proof.
  intros [->|[->| ->]] H; cbn; try done. specialize (H eq_refl). destruct t as [|c t]; [done|].
  destruct H. cbn. by rewrite !bool_decide_false.
Qed.
Lemma digits_head_not_sign c t : digits (c :: t) → c ≠ "+"%char ∧ c ≠ "-"%char.
Proof. intros [Hc _]%Forall_cons_iff. split; intros ->; by vm_compute in Hc. Qed.

Lemma decimal_syntax_sound t integral : decimal_syntax t = (true, integral) → decimal_number t integral.
Proof.
  unfold decimal_syntax. destruct (take_plus_minus_sign t) as (sign & Hsign & Et).
  destruct (span isdigit (take_plus_minus t)) as [ip r1] eqn:E1.
  pose proof (span_app _ _ _ _ E1) as A1. pose proof (span_all _ _ _ _ E1) as D1.
  (* the fraction *)
  assert (∃ frac r2 fp, r1 = frac ++ r2 ∧ digits fp ∧ drop 1 frac = fp ∧
    (frac = [] ∨ frac = "."%char :: fp) ∧
    match r1 with
    | c :: r => if decide (c = "."%char) then let '(fp, r') := span isdigit r in (fp, r', false) else ([], r1, true)
    | [] => ([], [], true)
    end = (fp, r2, bool_decide (frac = []))) as (frac & r2 & fp & -> & D2 & Hfp & Hfrac & ->).
  { destruct r1 as [|c r]; [exists [], [], []; repeat split; auto|].
    case_decide; [subst c|exists [], (c :: r), []; repeat split; auto].
    destruct (span isdigit r) as [fp r'] eqn:E2. exists ("."%char :: fp), r', fp. split.
    - cbn. by rewrite (span_app _ _ _ _ E2).
    - split; [by eapply span_all|]. repeat split; auto. }
  destruct (Nat.eqb_spec (length ip + length fp) 0) as [|Hne]; [done|].
  assert (Hnn : ip ++ drop 1 frac ≠ []).
  { rewrite Hfp. intros [-> ->]%app_eq_nil. by cbn in Hne. }
  assert (Hf : frac = [] ∨ ∃ fp, frac = "."%char :: fp ∧ digits fp) by (destruct Hfrac; eauto).
  destruct r2 as [|c r].
  { intros [= <-]. apply (decimal_intro t _ sign ip frac []); try done; [by rewrite Et, A1, app_nil_r|by left|].
    apply bool_decide_ext. naive_solver. }
  destruct (bool_decide (c = "e"%char) || bool_decide (c = "E"%char)) eqn:Ee; [|done].
  destruct (take_plus_minus_sign r) as (sg & Hsg & Er).
  destruct (span isdigit (take_plus_minus r)) as [ds rest] eqn:E3.
  destruct ds as [|d ds]; [done|]. intros [= Hrest%bool_decide_eq_true <-]. subst rest.
  pose proof (span_app _ _ _ _ E3) as A3. pose proof (span_all _ _ _ _ E3) as D3.
  rewrite app_nil_r in A3.
  apply (decimal_intro t _ sign ip frac (c :: r)); try done.
  - by rewrite Et, A1.
  - right. exists c, sg, (d :: ds). split; [by rewrite Er, A3|].
    apply orb_true_iff in Ee as [Ee|Ee]; bool_to_prop; auto.
  - symmetry. apply bool_decide_eq_false. naive_solver.
Qed.

Lemma decimal_syntax_complete t integral : decimal_number t integral → decimal_syntax t = (true, integral).
Proof.
  intros [sign ip frac ex -> Hsign Hip Hfrac Hne Hex ->]. unfold decimal_syntax.
  rewrite take_plus_minus_app; [|done|].
  2:{ intros _. destruct ip as [|c ip]; [|by eapply digits_head_not_sign].
      destruct Hfrac as [->|(fp & -> & _)]; [done|by split]. }
  assert (Hexnd : starts_non_digit ex ∧ (∀ c r, ex = c :: r → c ≠ "."%char)).
  { destruct Hex as [->|(e & sg & ds & -> & He & _)]; [by split|].
    split; [cbn; by destruct He as [-> | ->]|]. intros c r [= <- _]. by destruct He as [-> | ->]. }
  destruct Hexnd as [Hnd Hdot].
  rewrite span_stop; [|done|].
  2:{ destruct Hfrac as [->|(fp & -> & _)]; [exact Hnd|done]. }
  assert (Hmid : match frac ++ ex with
    | c :: r => if decide (c = "."%char) then let '(fp, r') := span isdigit r in (fp, r', false) else ([], frac ++ ex, true)
    | [] => ([], [], true)
    end = (drop 1 frac, ex, bool_decide (frac = []))).
  { destruct Hfrac as [->|(fp & -> & Hfp)]; cbn.
    - destruct ex as [|c r]; [done|]. by rewrite decide_False by (by eapply Hdot).
    - rewrite span_stop by done. by rewrite drop_0. }
  rewrite Hmid.
  destruct (Nat.eqb_spec (length ip + length (drop 1 frac)) 0) as [Hz|_].
  { exfalso. apply Hne. destruct ip; [|done]. by destruct (drop 1 frac). }
  destruct Hex as [->|(e & sg & ds & -> & He & Hsg & Hds & Hdd)].
  { f_equal. apply bool_decide_ext. naive_solver. }
  replace (bool_decide (e = "e"%char) || bool_decide (e = "E"%char)) with true by (by destruct He as [-> | ->]).
  rewrite take_plus_minus_app; [|done|].
  2:{ intros _. destruct ds as [|d ds]; [done|by eapply digits_head_not_sign]. }
  rewrite span_full by done. destruct ds; [done|]. f_equal. symmetry. apply bool_decide_eq_false. naive_solver.
Qed.

(** * The parsed values *)

Lemma skip_space_id s : match s with c :: _ => isspace c = false | [] => True end → skip_space s = s.
Proof. unfold skip_space. destruct s as [|c s]; cbn; [done|]. by intros ->. Qed.

Lemma take_sign_app sign t :
  is_sign sign → (sign = [] → match t with c :: _ => c ≠ "+"%char ∧ c ≠ "-"%char | [] => True end) →
  take_sign (sign ++ t) = (bool_decide (sign = ["-"%char]), t).
Proof.
  intros [->|[->| ->]] H; cbn; try done. specialize (H eq_refl). destruct t as [|c t]; [done|].
  destruct H. cbn. by rewrite !decide_False.
Qed.

(** The leading characters of an integer text, as the [strto*] functions see it. *)
Lemma strto_split sign ds :
  is_sign sign → ds ≠ [] → digits ds →
  skip_space (sign ++ ds) = sign ++ ds ∧
  take_sign (sign ++ ds) = (bool_decide (sign = ["-"%char]), ds) ∧ span isdigit ds = (ds, []).
Proof.
  intros Hs Hne Hd. destruct ds as [|d ds]; [done|]. split_and!.
  - apply skip_space_id. destruct Hs as [->|[->| ->]]; cbn; try done.
    apply isdigit_not_space. by apply Forall_cons_iff in Hd as [? _].
  - apply take_sign_app; [done|]. intros _. by eapply digits_head_not_sign.
  - by apply span_full.
Qed.

Lemma strtoll_neg ds :
  ds ≠ [] → digits ds →
  strtoll ("-"%char :: ds) =
    if digits_val 0 ds <=? - INT64_MIN
    then {| sr_value := - digits_val 0 ds; sr_rest := []; sr_range := false |}
    else {| sr_value := INT64_MIN; sr_rest := []; sr_range := true |}.
Proof.
  intros Hne Hd. destruct (strto_split ["-"%char] ds) as (E1 & E2 & E3); [right; by right|done..|].
  unfold strtoll. cbn [app] in E1, E2. rewrite E1, E2, E3. destruct ds as [|d ds]; [done|].
  rewrite bool_decide_true by done. pose proof (digits_val_nonneg 0 (d :: ds) ltac:(lia)) as Hnn.
  set (v := digits_val 0 (d :: ds)) in *. rewrite (proj2 (Z.ltb_ge _ _)) by (unfold INT64_MAX; lia).
  unfold INT64_MIN. destruct (Z.ltb_spec (- v) (-9223372036854775808)), (Z.leb_spec v (- (-9223372036854775808)));
    try lia; done.
Qed.

Lemma strtoull_pos sign ds :
  is_sign sign → sign ≠ ["-"%char] → ds ≠ [] → digits ds →
  strtoull (sign ++ ds) =
    if digits_val 0 ds <=? UINT64_MAX
    then {| sr_value := digits_val 0 ds; sr_rest := []; sr_range := false |}
    else {| sr_value := UINT64_MAX; sr_rest := []; sr_range := true |}.
Proof.
  intros Hs Hs' Hne Hd. destruct (strto_split sign ds) as (E1 & E2 & E3); [done..|].
  unfold strtoull. rewrite E1, E2, E3. destruct ds as [|d ds]; [done|].
  rewrite bool_decide_false by done. set (v := digits_val 0 (d :: ds)).
  destruct (Z.ltb_spec UINT64_MAX v), (Z.leb_spec v UINT64_MAX); try lia; done.
Qed.

(** ** [strtod] consumes a decimal number whole *)

Definition dec_char (c : ascii) : bool := isdigit c || in_set ($".eE+-") c.

Lemma dec_char_lower c :
  dec_char c = true → tolower c ≠ "i"%char ∧ tolower c ≠ "n"%char ∧ tolower c ≠ "x"%char.
Proof.
  intros H.
  pose proof (forall_ascii (fun c => negb (dec_char c) ||
    (bool_decide (tolower c ≠ "i"%char) && bool_decide (tolower c ≠ "n"%char) && bool_decide (tolower c ≠ "x"%char)))
    ltac:(by vm_compute) c) as G. cbn beta in G. rewrite H in G. cbn in G. bool_to_prop. done.
Qed.

Lemma has_ci_prefix_char p s x :
  has_ci_prefix p s = true → x ∈ map tolower p → ∃ c, c ∈ s ∧ tolower c = x.
Proof.
  unfold has_ci_prefix, STRIMATCH. intros E%bool_decide_eq_true. rewrite E.
  intros (c & -> & Hc)%list_elem_of_fmap. exists c. split; [|done].
  apply elem_of_take in Hc as (i & Hi & _). by eapply list_elem_of_lookup_2.
Qed.

Lemma no_ci_prefix p s x :
  Forall (fun c => tolower c ≠ x) s → x ∈ map tolower p → has_ci_prefix p s = false.
Proof.
  intros Hs Hx. destruct (has_ci_prefix p s) eqn:E; [|done].
  destruct (has_ci_prefix_char _ _ _ E Hx) as (c & Hc & Hl).
  rewrite Forall_forall in Hs. exfalso. apply (Hs c); [by apply list_elem_of_In|done].
Qed.

Lemma digits_dec_chars s : digits s → Forall (fun c => dec_char c = true) s.
Proof. apply Forall_impl. intros c Hc. unfold dec_char. by rewrite Hc. Qed.
Lemma sign_dec_chars s : is_sign s → Forall (fun c => dec_char c = true) s.
Proof. intros [->|[->| ->]]; by repeat constructor. Qed.

Lemma decimal_body_chars ip frac ex :
  digits ip → (frac = [] ∨ ∃ fp, frac = "."%char :: fp ∧ digits fp) →
  (ex = [] ∨ ∃ e sg ds, ex = e :: sg ++ ds ∧ (e = "e"%char ∨ e = "E"%char) ∧ is_sign sg ∧ ds ≠ [] ∧ digits ds) →
  Forall (fun c => dec_char c = true) (ip ++ frac ++ ex).
Proof.
  intros Hip Hf Hex. rewrite !Forall_app. split_and!.
  - by apply digits_dec_chars.
  - destruct Hf as [->|(fp & -> & Hfp)]; [constructor|]. constructor; [done|]. by apply digits_dec_chars.
  - destruct Hex as [->|(e & sg & ds & -> & He & Hsg & _ & Hd)]; [constructor|].
    constructor; [by destruct He as [-> | ->]|]. apply Forall_app.
    split; [by apply sign_dec_chars|by apply digits_dec_chars].
Qed.

Lemma take_exponent_full ex :
  (ex = [] ∨ ∃ e sg ds, ex = e :: sg ++ ds ∧ (e = "e"%char ∨ e = "E"%char) ∧ is_sign sg ∧ ds ≠ [] ∧ digits ds) →
  snd (take_exponent "e" "E" ex) = [].
Proof.
  intros [->|(e & sg & ds & -> & He & Hsg & Hne & Hd)]; [done|]. cbn.
  replace (bool_decide (e = "e"%char) || bool_decide (e = "E"%char)) with true by (by destruct He as [-> | ->]).
  destruct ds as [|d ds]; [done|].
  rewrite take_sign_app; [|done|intros _; by eapply digits_head_not_sign].
  rewrite span_full by done. done.
Qed.

Lemma take_mantissa_full ip frac ex :
  digits ip → (frac = [] ∨ ∃ fp, frac = "."%char :: fp ∧ digits fp) →
  (ex = [] ∨ ∃ e sg ds, ex = e :: sg ++ ds ∧ (e = "e"%char ∨ e = "E"%char) ∧ is_sign sg ∧ ds ≠ [] ∧ digits ds) →
  take_mantissa isdigit (ip ++ frac ++ ex) = (ip, drop 1 frac, ex).
Proof.
  intros Hip Hf Hex.
  assert (Hnd : starts_non_digit ex ∧ (∀ c r, ex = c :: r → c ≠ "."%char)).
  { destruct Hex as [->|(e & sg & ds & -> & He & _)]; [by split|].
    split; [cbn; by destruct He as [-> | ->]|]. intros c r [= <- _]. by destruct He as [-> | ->]. }
  destruct Hnd as [Hnd Hdot]. unfold take_mantissa.
  rewrite span_stop; [|done|destruct Hf as [->|(fp & -> & _)]; [exact Hnd|done]].
  destruct Hf as [->|(fp & -> & Hfp)]; cbn.
  - destruct ex as [|c r]; [done|]. by rewrite decide_False by (by eapply Hdot).
  - rewrite span_stop by done. by rewrite drop_0.
Qed.

Lemma strtod_full t integral : decimal_number t integral → snd (strtod t) = [].
Proof.
  intros [sign ip frac ex -> Hsign Hip Hfrac Hne Hex _].
  pose proof (decimal_body_chars ip frac ex Hip Hfrac Hex) as Hch.
  assert (Hhead : match ip ++ frac ++ ex with c :: _ => c ≠ "+"%char ∧ c ≠ "-"%char ∧ isspace c = false | [] => True end).
  { destruct ip as [|c ip].
    - destruct Hfrac as [->|(fp & -> & _)]; [by cbn in Hne|by split_and!].
    - cbn. split_and!; [by eapply digits_head_not_sign..|]. apply Forall_cons_iff in Hip as [? _].
      by apply isdigit_not_space. }
  unfold strtod.
  rewrite skip_space_id; [|destruct Hsign as [->|[->| ->]]; cbn; try done; by destruct (ip ++ frac ++ ex); naive_solver].
  rewrite take_sign_app; [|done|intros _; destruct (ip ++ frac ++ ex); naive_solver].
  rewrite (no_ci_prefix ($"infinity") _ "i"), (no_ci_prefix ($"inf") _ "i"), (no_ci_prefix ($"nan") _ "n"),
    (no_ci_prefix ($"0x") _ "x");
    try (revert Hch; apply Forall_impl; intros c Hc; by apply dec_char_lower in Hc as (? & ? & ?));
    try (by apply (bool_decide_unpack _)).
  destruct (take_mantissa isxdigit (drop 2 (ip ++ frac ++ ex))) as [[hi hf] hrest]. cbn [andb].
  rewrite take_mantissa_full by done.
  destruct (ip ++ drop 1 frac) as [|d ds] eqn:E; [done|].
  pose proof (take_exponent_full ex Hex) as He. destruct (take_exponent "e" "E" ex) as [ev rest]. cbn in *. by subst.
Qed.

(** ** [parse_decimal], case by case *)

Definition float_of (t : cstr) : option (result_kind_t * result_value) :=
  let real := fst (strtod t) in if isfinite real then Some (RESULT_FLOAT, VReal real) else None.

Lemma decimal_integral_split t :
  decimal_number t true → ∃ sign ip, t = sign ++ ip ∧ is_sign sign ∧ ip ≠ [] ∧ digits ip.
Proof.
  intros [sign ip frac ex -> Hs Hip _ Hne _ Hi]. symmetry in Hi. apply bool_decide_eq_true in Hi as [-> ->].
  exists sign, ip. rewrite !app_nil_r in *. done.
Qed.

Lemma parse_decimal_spec t integral :
  decimal_number t integral →
  parse_decimal t =
    if integral then
      match t with
      | "-"%char :: ds => if digits_val 0 ds <=? - INT64_MIN then Some (RESULT_SIGNED, VInteger (- digits_val 0 ds)) else float_of t
      | _ => let m := digits_val 0 (take_plus_minus t) in
             if m <=? UINT64_MAX then Some (RESULT_COUNTER, VCounter m) else float_of t
      end
    else float_of t.
Proof.
  intros Hd. pose proof (strtod_full t integral Hd) as Hend. unfold parse_decimal.
  rewrite (decimal_syntax_complete t integral Hd). cbn [negb].
  assert (Hfl : (let '(real, end_) := strtod t in
      if negb (bool_decide (end_ = [])) || negb (isfinite real) then None else Some (RESULT_FLOAT, VReal real)) = float_of t).
  { unfold float_of. destruct (strtod t) as [real end_]. cbn in *. subst end_. rewrite bool_decide_true by done.
    cbn. by destruct (isfinite real). }
  destruct integral; [|by rewrite Hfl].
  destruct (decimal_integral_split t Hd) as (sign & ip & -> & Hs & Hne & Hip).
  destruct (decide (sign = ["-"%char])) as [->|Hns].
  - cbn [app]. rewrite strtoll_neg by done. cbn [app] in Hfl. rewrite Hfl.
    by destruct (_ <=? _).
  - assert (Hpm : take_plus_minus (sign ++ ip) = ip).
    { apply take_plus_minus_app; [done|]. intros _. destruct ip; [done|by eapply digits_head_not_sign]. }
    rewrite Hpm.
    assert (Hnm : ∀ r, sign ++ ip ≠ "-"%char :: r).
    { intros r E. destruct Hs as [->|[->|Hm]]; [|done|done]. cbn in E. subst ip.
      by apply digits_head_not_sign in Hip as [_ ?]. }
    rewrite strtoull_pos by done. rewrite Hfl.
    assert (Hm : ∀ (A : Type) (x : cstr → A) (y : A),
      match sign ++ ip with "-"%char :: ds => x ds | _ => y end = y).
    { intros A x y. destruct (sign ++ ip) as [|c r]; [done|].
      destruct c as [[] [] [] [] [] [] [] []]; try done. by destruct (Hnm r). }
    rewrite !Hm. by destruct (_ <=? _).
Qed.

Lemma parse_decimal_None_syntax t : fst (decimal_syntax t) = false → parse_decimal t = None.
Proof. unfold parse_decimal. destruct (decimal_syntax t) as [ok i]. cbn. by intros ->. Qed.

Lemma parse_decimal_Some t r : parse_decimal t = Some r → ∃ i, decimal_number t i.
Proof.
  intros H. unfold parse_decimal in H. destruct (decimal_syntax t) as [[] i] eqn:E; [|done].
  exists i. by apply decimal_syntax_sound.
Qed.

(** * Hex octets against an unbounded reference *)

(** The octets of the text, most significant first. *)
Fixpoint decode_octets (t : cstr) : option (list Z) :=
  match t with
  | c0 :: c1 :: rest =>
      let high := hex_digit (code c0) in let low := hex_digit (code c1) in
      if (high <? 0) || (low <? 0) then None
      else match rest with
           | [] => Some [high * 16 + low]
           | sep :: rest' =>
               if bool_decide (sep = " "%char) || bool_decide (sep = ":"%char) || bool_decide (sep = "-"%char)
               then cons (high * 16 + low) <$> decode_octets rest' else None
           end
  | _ => None
  end.
Definition be_value (acc : Z) (bs : list Z) : Z := foldl (fun a b => a * 256 + b) acc bs.
Definition octets_result (v : Z) : octets_t := if v <=? UINT64_MAX then OCTETS_VALUE v else OCTETS_OVERFLOW.

Lemma hex_digit_range c : -1 ≤ hex_digit c < 16.
Proof. unfold hex_digit. repeat case_match; blia. Qed.

Lemma lor_shift8 a b : 0 ≤ b < 256 → Z.lor (Z.shiftl a 8) b = a * 256 + b.
Proof.
  intros Hb. rewrite Z.shiftl_mul_pow2 by lia. change (2 ^ 8) with 256.
  assert (E : Z.land (a * 256) b = 0).
  { apply Z.bits_inj'. intros n Hn. rewrite Z.land_spec, Z.bits_0.
    change 256 with (2 ^ 8). destruct (Z.lt_ge_cases n 8).
    - by rewrite Z.mul_pow2_bits_low.
    - replace b with (b mod 2 ^ 8) by (apply Z.mod_small; lia).
      by rewrite Z.mod_pow2_bits_high, andb_false_r by lia. }
  pose proof (Z.add_lor_land (a * 256) b) as H. lia.
Qed.

(** One round of the loop tracks the true value [n] by its wrapped value and the
    sticky overflow flag. *)
Lemma octets_step n b :
  0 ≤ n → 0 ≤ b < 256 →
  wrap_u 64 (Z.lor (Z.shiftl (wrap_u 64 n) 8) b) = wrap_u 64 (n * 256 + b) ∧
  (if Z.shiftr UINT64_MAX 8 <? wrap_u 64 n then true else UINT64_MAX <? n) = (UINT64_MAX <? n * 256 + b).
Proof.
  intros Hn Hb. rewrite lor_shift8 by done. unfold wrap_u, UINT64_MAX.
  change (Z.shiftr 18446744073709551615 8) with 72057594037927935. change (2 ^ 64) with 18446744073709551616.
  split.
  - rewrite Zplus_mod, Zmult_mod_idemp_l, <- Zplus_mod. done.
  - destruct (Z.le_gt_cases n 18446744073709551615).
    + rewrite (Z.mod_small n) by lia.
      destruct (Z.ltb_spec 72057594037927935 n), (Z.ltb_spec 18446744073709551615 n),
        (Z.ltb_spec 18446744073709551615 (n * 256 + b)); lia || done.
    + rewrite (proj2 (Z.ltb_lt 18446744073709551615 n)) by lia.
      rewrite (proj2 (Z.ltb_lt 18446744073709551615 (n * 256 + b))) by lia. by case_match.
Qed.

Lemma octets_loop_spec t : ∀ n, 0 ≤ n →
  octets_loop t (wrap_u 64 n) (UINT64_MAX <? n) =
  match decode_octets t with None => OCTETS_NONE | Some bs => octets_result (be_value n bs) end.
Proof.
  induction t as [t IH] using (induction_ltof1 _ (@length _)). intros n Hn.
  destruct t as [|c0 [|c1 rest]]; [done|done|]. cbn [octets_loop decode_octets].
  pose proof (hex_digit_range (code c0)). pose proof (hex_digit_range (code c1)).
  destruct (Z.ltb_spec (hex_digit (code c0)) 0); cbn [orb]; [done|].
  destruct (Z.ltb_spec (hex_digit (code c1)) 0); [done|].
  destruct (octets_step n (hex_digit (code c0) * 16 + hex_digit (code c1)) Hn ltac:(lia)) as [E1 E2].
  rewrite E1, E2. set (b := hex_digit (code c0) * 16 + hex_digit (code c1)) in *.
  destruct rest as [|sep rest].
  - unfold be_value, octets_result, wrap_u. cbn [foldl].
    change (2 ^ 64) with (UINT64_MAX + 1).
    destruct (Z.ltb_spec UINT64_MAX (n * 256 + b)), (Z.leb_spec (n * 256 + b) UINT64_MAX); try lia; [done|].
    rewrite Z.mod_small by lia. done.
  - destruct (_ || _ || _); [|done].
    rewrite (IH rest) by (unfold ltof; cbn; lia || lia).
    destruct (decode_octets rest); done.
Qed.

(** ** Rendering octets as an agent does *)

Definition hex_char (d : Z) : ascii := if d <? 10 then byte_of (48 + d) else byte_of (55 + d).
Fixpoint render_octets (sep : ascii) (bs : list Z) : cstr :=
  match bs with
  | [] => []
  | [b] => [hex_char (b / 16); hex_char (b mod 16)]
  | b :: bs' => hex_char (b / 16) :: hex_char (b mod 16) :: sep :: render_octets sep bs'
  end.

Lemma hex_digit_char d : 0 ≤ d < 16 → hex_digit (code (hex_char d)) = d.
Proof.
  intros. unfold hex_char. destruct (Z.ltb_spec d 10); rewrite code_byte_of, Z.mod_small by lia; unfold hex_digit;
    repeat case_match; blia.
Qed.

Lemma decode_render sep bs :
  sep = " "%char ∨ sep = ":"%char ∨ sep = "-"%char → bs ≠ [] → Forall (fun b => 0 ≤ b < 256) bs →
  decode_octets (render_octets sep bs) = Some bs.
Proof.
  intros Hsep Hne Hbs. induction Hbs as [|b bs Hb Hbs IH]; [done|].
  assert (0 ≤ b / 16 < 16) by (split; [apply Z.div_pos|apply Z.div_lt_upper_bound]; lia).
  pose proof (Z.mod_pos_bound b 16 eq_refl). pose proof (Z.div_mod b 16 ltac:(lia)).
  assert (Hcell : ∀ r, decode_octets (hex_char (b / 16) :: hex_char (b mod 16) :: r) =
    match r with [] => Some [b]
    | s :: r' => if bool_decide (s = " "%char) || bool_decide (s = ":"%char) || bool_decide (s = "-"%char)
                 then cons b <$> decode_octets r' else None end).
  { intros r. cbn [decode_octets]. rewrite !hex_digit_char by lia.
    rewrite !(proj2 (Z.ltb_ge _ _)) by lia. cbn [orb]. replace (b / 16 * 16 + b mod 16) with b by lia. done. }
  destruct bs as [|b' bs]; [apply Hcell|].
  change (render_octets sep (b :: b' :: bs)) with
    (hex_char (b / 16) :: hex_char (b mod 16) :: sep :: render_octets sep (b' :: bs)).
  rewrite Hcell, IH by done.
  replace (bool_decide (sep = " "%char) || bool_decide (sep = ":"%char) || bool_decide (sep = "-"%char)) with true
    by (by destruct Hsep as [->|[->| ->]]).
  done.
Qed.

(** * The unpadded text *)

Definition is_pad (c : ascii) : bool := in_set result_padding c.
(** Non-empty and padded at neither end. *)
Definition unpadded (t : cstr) : Prop :=
  (∃ c r, t = c :: r ∧ is_pad c = false) ∧ (∃ r c, t = r ++ [c] ∧ is_pad c = false).

Lemma strspn_split s set :
  Forall (fun c => in_set set c = true) (take (strspn s set) s) ∧
  match drop (strspn s set) s with c :: _ => in_set set c = false | [] => True end.
Proof.
  induction s as [|c s [IH1 IH2]]; cbn; [split; [constructor|done]|].
  destruct (in_set set c) eqn:E; cbn; [by split; [constructor|]|by split].
Qed.
Lemma strspn_app p s set :
  Forall (fun c => in_set set c = true) p →
  match s with c :: _ => in_set set c = false | [] => True end → strspn (p ++ s) set = length p.
Proof.
  induction 1 as [|c p Hc _ IH]; cbn.
  - destruct s; cbn; [done|]. by intros ->.
  - intros. by rewrite Hc, IH.
Qed.

Lemma unpad_end_spec s n :
  (n ≤ length s)%nat →
  let e := unpad_end s n in
  (e ≤ n)%nat ∧ Forall (fun c => is_pad c = true) (drop e (take n s)) ∧
  (e = O ∨ ∃ c, s !! (e - 1)%nat = Some c ∧ is_pad c = false).
Proof. exact (rtrim_end_spec s n). Qed.

Lemma unpad_end_app t q n : (n ≤ length t)%nat → unpad_end (t ++ q) n = unpad_end t n.
Proof.
  induction n as [|n IH]; intros Hn; cbn; [done|].
  unfold at_. rewrite lookup_app_l by lia. by rewrite IH by lia.
Qed.
Lemma unpad_app t q : unpadded t → Forall (fun c => is_pad c = true) q →
  unpad_end (t ++ q) (length (t ++ q)) = length t.
Proof.
  intros [_ (r & c & -> & Hc)] Hq. unfold is_pad in Hc.
  induction q as [|d q IH] using rev_ind.
  - rewrite app_nil_r, length_app. cbn. rewrite Nat.add_1_r. cbn.
    rewrite (at_lookup _ _ c) by (by rewrite list_lookup_middle). by rewrite Hc.
  - apply Forall_app in Hq as [Hq Hd]. apply Forall_cons_iff in Hd as [Hd _]. unfold is_pad in Hd.
    rewrite app_assoc, length_app, Nat.add_1_r. cbn [unpad_end].
    rewrite (at_lookup _ _ d) by (by rewrite list_lookup_middle). rewrite Hd.
    rewrite unpad_end_app by done. by apply IH.
Qed.

(** Padding on either side does not matter. *)
Lemma classify_padded p t q :
  Forall (fun c => is_pad c = true) p → Forall (fun c => is_pad c = true) q → unpadded t →
  classify_result (Some (p ++ t ++ q)) = if RESULTS_BUFFER <=? slen t then unknown_result else classify_text t.
Proof.
  intros Hp Hq Ht. unfold classify_result. pose proof Ht as [(c & r & Etc & Hc) _].
  rewrite strspn_app; [|done|by rewrite Etc]. rewrite drop_app_length.
  destruct (t ++ q) eqn:E; [by rewrite Etc in E|]. rewrite <- E.
  rewrite unpad_app by done. unfold slen. by rewrite take_app_length.
Qed.
Lemma classify_unpadded t :
  unpadded t → classify_result (Some t) = if RESULTS_BUFFER <=? slen t then unknown_result else classify_text t.
Proof. intros Ht. rewrite <- (app_nil_r t) at 1. by apply (classify_padded [] t []). Qed.

(** Every input is classified by its unpadded core. *)
Lemma classify_core raw :
  classify_result (Some raw) = unknown_result ∨
  ∃ p t q, raw = p ++ t ++ q ∧ unpadded t ∧ slen t < RESULTS_BUFFER ∧ classify_result (Some raw) = classify_text t.
Proof.
  destruct (strspn_split raw result_padding) as [Hp Hh].
  unfold classify_result. set (start := drop _ raw) in *.
  destruct start as [|c r] eqn:E; [by left|]. rewrite <- E.
  destruct (unpad_end_spec start (length start) ltac:(done)) as (Hle & Hq & He).
  set (e := unpad_end start (length start)) in *. rewrite firstn_all in Hq.
  assert (Hpos : e ≠ O).
  { intros E0. rewrite E0, drop_0, E in Hq. apply Forall_cons_iff in Hq as [Hq _]. unfold is_pad in Hq. congruence. }
  destruct (Z.leb_spec RESULTS_BUFFER (Z.of_nat e)); [by left|right].
  exists (take (strspn raw result_padding) raw), (take e start), (drop e start).
  split; [by rewrite take_drop; unfold start; rewrite take_drop|].
  split; [|split; [unfold slen; rewrite length_take; lia|done]].
  destruct He as [?|(d & Hd & Hdp)]; [done|]. split.
  - exists c, (take (e - 1) r). split; [|done].
    rewrite E. replace e with (S (e - 1)) at 1 by lia. done.
  - exists (take (e - 1) start), d. split; [|done]. rewrite <- (take_S_r _ _ _ Hd). f_equal. lia.
Qed.

Lemma digits_unpadded t : t ≠ [] → digits t → unpadded t.
Proof.
  intros Hne Ht.
  assert (Hpad : ∀ c, isdigit c = true → is_pad c = false).
  { intros c Hc. pose proof (forall_ascii (fun c => negb (isdigit c) || negb (is_pad c)) ltac:(by vm_compute) c) as G.
    cbn beta in G. rewrite Hc in G. cbn in G. by apply negb_true_iff in G. }
  split.
  - destruct Ht as [|c r Hc _]; [done|]. eauto.
  - destruct (exists_last Hne) as (r & c & ->). apply Forall_app in Ht as [_ Ht].
    apply Forall_cons_iff in Ht as [Hc _]. eauto.
Qed.

Lemma udec_uint64_fits n : 0 ≤ n ≤ UINT64_MAX → slen (udec n) < RESULTS_BUFFER.
Proof.
  intros. pose proof (udec_length n 19) as H0. unfold slen, RESULTS_BUFFER.
  assert (length (udec n) ≤ 20)%nat by (apply H0; change (10 ^ Z.of_nat 20) with 100000000000000000000; unfold UINT64_MAX in *; lia).
  lia.
Qed.

Lemma decimal_digits t : t ≠ [] → digits t → decimal_number t true.
Proof.
  intros. apply (decimal_intro t true [] t [] []); rewrite ?app_nil_r; try done; by left.
Qed.

Lemma take_plus_minus_digits t : digits t → take_plus_minus t = t.
Proof. intros H. destruct t as [|c t]; [done|]. apply (take_plus_minus_app []); [by left|]. intros _. by eapply digits_head_not_sign. Qed.

Lemma parse_decimal_udec n : 0 ≤ n ≤ UINT64_MAX → parse_decimal (udec n) = Some (RESULT_COUNTER, VCounter n).
Proof.
  intros Hn. pose proof (udec_digits n ltac:(lia)) as Hd. pose proof (udec_nonempty n) as Hne.
  rewrite (parse_decimal_spec (udec n) true) by (by apply decimal_digits).
  rewrite take_plus_minus_digits, udec_val by (done || lia). cbn zeta.
  rewrite (proj2 (Z.leb_le _ _)) by lia.
  destruct (udec n) as [|c r]; [done|]. apply digits_head_not_sign in Hd as [_ Hd].
  by destruct c as [[] [] [] [] [] [] [] []].
Qed.

Lemma classify_text_udec n : 0 ≤ n ≤ UINT64_MAX →
  classify_text (udec n) = {| kind := RESULT_COUNTER; value := VCounter n; text := udec n |}.
Proof. intros. unfold classify_text. by rewrite parse_decimal_udec. Qed.

Lemma classify_undefined : classify_result (Some UNDEFINED) = unknown_result.
Proof. by vm_compute. Qed.

Lemma strip_alpha_unpadded t r : parse_decimal (Trim.strip_alpha t) = Some r → unpadded (Trim.strip_alpha t).
Proof.
  intros H. destruct (strip_alpha_parts t) as (p & q & _ & _ & _ & [E|[(c & s & Ec & Hc) (s' & d & Ed & Hd)]]).
  { rewrite E in H. done. }
  assert (Hpad : ∀ c, isdigit c = true ∨ c = "-"%char → is_pad c = false).
  { intros x [Hx| ->]; [|done]. destruct (digits_unpadded [x]) as [(? & ? & [= <- _] & ?) _]; [done|by repeat constructor|done]. }
  split; [exists c, s; split; [done|]|exists s', d; split; [done|]]; apply Hpad; auto.
Qed.

Lemma strip_alpha_length t : slen (Trim.strip_alpha t) ≤ slen t.
Proof. destruct (strip_alpha_parts t) as (p & q & E & _). apply (f_equal slen) in E. rewrite !slen_app in E. pose proof (slen_nonneg p). pose proof (slen_nonneg q). lia. Qed.

(** The stored text of a classification: what [classify_text] can leave. *)
Lemma classify_text_stable t :
  unpadded t → slen t < RESULTS_BUFFER →
  ∀ r, classify_text t = r →
  slen (text r) < RESULTS_BUFFER ∧
  text (classify_result (Some (text r))) = text r ∧
  (kind r = RESULT_UNKNOWN ↔ text r = UNDEFINED).
Proof.
  intros Ht Hl r Hr.
  assert (Hback : ∀ u, unpadded u → slen u < RESULTS_BUFFER → text (classify_text u) = u →
    text (classify_result (Some u)) = u).
  { intros u Hu Hul Hut. rewrite classify_unpadded by done. by rewrite (proj2 (Z.leb_gt _ _)) by lia. }
  assert (Hdec : ∀ u k v, parse_decimal u = Some (k, v) →
     text (classify_text u) = u ∧ k ≠ RESULT_UNKNOWN ∧ u ≠ UNDEFINED).
  { intros u k v E. unfold classify_text. rewrite E. split; [done|].
    split; [|by intros ->; vm_compute in E].
    destruct (parse_decimal_Some _ _ E) as [i Hi]. rewrite (parse_decimal_spec _ _ Hi) in E.
    unfold float_of in E. by repeat case_match; simplify_eq. }
  unfold classify_text in Hr.
  destruct (parse_decimal t) as [[k v]|] eqn:E1; [subst r; cbn [kind text]|].
  { destruct (Hdec t k v E1) as (H1 & H2 & H3). split; [done|]. split; [by apply Hback|]. by split. }
  destruct (multipart_syntax t) eqn:E2; [subst r; cbn [kind text]|].
  { split; [done|]. split; [apply Hback; [done..|]; unfold classify_text; by rewrite E1, E2|].
    split; [done|]. intros ->. by vm_compute in E2. }
  destruct (parse_octets t) as [|octets|] eqn:E3.
  - destruct (parse_decimal (Trim.strip_alpha t)) as [[k v]|] eqn:E4; subst r; cbn [kind text].
    + destruct (Hdec _ k v E4) as (H1 & H2 & H3). pose proof (strip_alpha_length t).
      split; [lia|]. split; [apply Hback; [by eapply strip_alpha_unpadded|lia|done]|]. by split.
    + by vm_compute.
  - assert (Ho : 0 ≤ octets ≤ UINT64_MAX).
    { pose proof (octets_loop_spec t 0 ltac:(lia)) as Hs. unfold parse_octets in E3.
      change (wrap_u 64 0) with 0 in Hs. change (UINT64_MAX <? 0) with false in Hs. rewrite E3 in Hs.
      destruct (decode_octets t) as [bs|] eqn:Ed; [|done]. unfold octets_result in Hs.
      destruct (Z.leb_spec (be_value 0 bs) UINT64_MAX); [|done]. injection Hs as ->.
      split; [|done]. clear -Ed.
      assert (G : ∀ t bs, decode_octets t = Some bs → ∀ a, 0 ≤ a → 0 ≤ be_value a bs).
      { clear. intros t. induction t as [t IH] using (induction_ltof1 _ (@length _)). intros bs H a Ha.
        destruct t as [|c0 [|c1 rest]]; [done|done|]. cbn in H.
        destruct (Z.ltb_spec (hex_digit (code c0)) 0); [done|]. cbn in H.
        destruct (Z.ltb_spec (hex_digit (code c1)) 0); [done|].
        destruct rest as [|sep rest]; [injection H as <-; unfold be_value; cbn; lia|].
        case_match; [|done]. destruct (decode_octets rest) eqn:E; [|done]. injection H as <-.
        change (0 ≤ be_value (a * 256 + (hex_digit (code c0) * 16 + hex_digit (code c1))) l).
        apply (IH rest); [unfold ltof; cbn; lia|done|lia]. }
      by eapply G. }
    subst r. cbn [kind text]. pose proof (udec_uint64_fits octets Ho). rewrite snprintf_s_fits by done.
    split; [done|]. split.
    + apply Hback; [apply digits_unpadded; auto with spine; apply udec_digits; lia|done|].
      by rewrite classify_text_udec.
    + split; [done|]. intros E. exfalso. pose proof (udec_digits octets ltac:(lia)) as Hd. rewrite E in Hd.
      apply Forall_cons_iff in Hd as [Hd _]. by vm_compute in Hd.
  - subst r. by vm_compute.
Qed.

Lemma classify_stable raw :
  let r := classify_result (Some raw) in
  slen (text r) < RESULTS_BUFFER ∧
  text (classify_result (Some (text r))) = text r ∧
  (kind r = RESULT_UNKNOWN ↔ text r = UNDEFINED).
Proof.
  intros r. destruct (classify_core raw) as [E|(p & t & q & _ & Ht & Hl & E)]; subst r; rewrite E.
  - by vm_compute.
  - by apply (classify_text_stable t).
Qed.

(** * Error buffer *)

(** The ids of a list, as the program joins them. *)
Fixpoint join_ids (ids : list Z) : cstr :=
  match ids with
  | [] => []
  | [i] => sdec i
  | i :: ids' => sdec i ++ $", " ++ join_ids ids'
  end.
Lemma join_ids_snoc ids i : join_ids (ids ++ [i]) = join_ids ids ++ (if (length ids =? 0)%nat then [] else $", ") ++ sdec i.
Proof.
  induction ids as [|a ids IH]; [done|]. destruct ids as [|b ids].
  - cbn [app join_ids length Nat.eqb]. done.
  - change ((a :: b :: ids) ++ [i]) with (a :: ((b :: ids) ++ [i])).
    change (join_ids (a :: ((b :: ids) ++ [i]))) with (sdec a ++ $", " ++ join_ids ((b :: ids) ++ [i])).
    rewrite IH. cbn [length Nat.eqb]. change (join_ids (a :: b :: ids)) with (sdec a ++ $", " ++ join_ids (b :: ids)).
    by rewrite <- !app_assoc.
Qed.

Lemma sdec_int_length i : INT_MIN ≤ i ≤ INT_MAX → slen (sdec i) ≤ 11.
Proof.
  intros Hi. unfold sdec, slen. unfold INT_MIN, INT_MAX in Hi. destruct (Z.ltb_spec i 0).
  - cbn [length]. pose proof (udec_length (- i) 9 ltac:(change (10 ^ Z.of_nat 10) with 10000000000; lia)). lia.
  - pose proof (udec_length i 9 ltac:(change (10 ^ Z.of_nat 10) with 10000000000; lia)). lia.
Qed.

(** [pending] ids in the buffer and [flushed] groups in the log account for every
    id recorded so far. *)
Definition errors_ok (b : error_buffer) (flushed : list (list Z)) (pending : list Z) : Prop :=
  error_string b = join_ids pending ∧ buf_size b = slen (error_string b) ∧
  buf_errors b = Z.of_nat (length pending) ∧ buf_size b < DBL_BUFSIZE ∧
  eb_log b = map (fun ids => (Z.of_nat (length ids), join_ids ids)) flushed.

Lemma buffer_errors_step b flushed pending id :
  errors_ok b flushed pending → INT_MIN ≤ id ≤ INT_MAX →
  ∃ flushed' pending', errors_ok (buffer_output_errors b id false) flushed' pending' ∧
    concat flushed' ++ pending' = concat flushed ++ pending ++ [id] ∧ pending' ≠ [].
Proof.
  intros (Hs & Hn & He & Hlt & Hlog) Hid. pose proof (sdec_int_length id Hid) as Hlen.
  unfold buffer_output_errors. cbn [andb negb].
  assert (Ht : snprintf_s SMALL_BUFSIZE ((if 0 <? buf_errors b then $", " else []) ++ sdec id)
               = (if (length pending =? 0)%nat then [] else $", ") ++ sdec id).
  { replace (0 <? buf_errors b) with (negb (length pending =? 0)%nat)
      by (rewrite He; destruct (Nat.eqb_spec (length pending) 0), (Z.ltb_spec 0 (Z.of_nat (length pending))); cbn; lia || done).
    destruct (length pending =? 0)%nat; cbn [negb]; apply snprintf_s_fits; rewrite slen_app;
      change (slen []) with 0; change (slen ($", ")) with 2; unfold SMALL_BUFSIZE; lia. }
  rewrite Ht. set (tb := (if (length pending =? 0)%nat then [] else $", ") ++ sdec id) in *.
  destruct (Z.leb_spec DBL_BUFSIZE (buf_size b + slen tb)).
  - exists (flushed ++ [pending]), [id]. split; [|split; [|done]].
    + unfold errors_ok. cbn [error_string buf_size buf_errors eb_log]. rewrite snprintf_s_fits by (unfold DBL_BUFSIZE; lia).
      split_and!; [done|done|done|unfold DBL_BUFSIZE; lia|]. unfold log_errors. by rewrite Hlog, He, Hs, map_app.
    + rewrite concat_app. cbn. by rewrite app_nil_r, app_assoc.
  - exists flushed, (pending ++ [id]). split; [|split; [done|by destruct pending]].
    unfold errors_ok. cbn [error_string buf_size buf_errors eb_log].
    rewrite join_ids_snoc, <- Hs. fold tb.
    rewrite snprintf_s_fits by lia. rewrite take_ge by (rewrite Hn; unfold slen; lia).
    split_and!; try done; rewrite ?slen_app, ?length_app; cbn [length]; lia.
Qed.

Lemma buffer_errors_all ids : ∀ b flushed pending,
  errors_ok b flushed pending → Forall (fun i => INT_MIN ≤ i ≤ INT_MAX) ids →
  ∃ flushed' pending', errors_ok (foldl (fun b i => buffer_output_errors b i false) b ids) flushed' pending' ∧
    concat flushed' ++ pending' = concat flushed ++ pending ++ ids.
Proof.
  induction ids as [|i ids IH]; intros b fl pe Hok Hids; cbn.
  { exists fl, pe. by rewrite app_nil_r. }
  apply Forall_cons_iff in Hids as [Hi Hids].
  destruct (buffer_errors_step b fl pe i Hok Hi) as (fl1 & pe1 & Hok1 & E1 & Hne1).
  destruct (IH _ fl1 pe1 Hok1 Hids) as (fl2 & pe2 & Hok2 & E2).
  exists fl2, pe2. split; [done|]. by rewrite E2, app_assoc, E1, <- !app_assoc.
Qed.

(** * Rows *)

Lemma host_time_scan_spec s dp dg r :
  host_time_scan s dp dg = Some r → 0 ≤ dp →
  Forall (fun c => isdigit c = true ∨ c = "."%char) s ∧
  fst r = dp + Trim.count_byte s "." ∧ (0 < Trim.count_byte s "." → fst r ≤ 1) ∧
  snd r = dg + slen s - Trim.count_byte s ".".
Proof.
  revert dp dg. induction s as [|c s IH]; intros dp dg H Hdp; cbn [host_time_scan] in H.
  { injection H as <-. cbn [Trim.count_byte fst snd]. rewrite slen_nil. split; [apply List.Forall_nil|]. lia. }
  cbn [Trim.count_byte]. rewrite slen_cons.
  assert (Hcb : 0 ≤ Trim.count_byte s ".") by (clear; induction s as [|d s IH]; cbn; [lia|]; case_decide; lia).
  case_decide as Hc.
  - destruct (Z.ltb_spec 1 (dp + 1)); [done|]. destruct (IH _ _ H ltac:(lia)) as (H1 & H2 & H3 & H4).
    split; [constructor; auto|]. split; [lia|]. split; [|lia]. intros _.
    destruct (Z.eq_dec (Trim.count_byte s ".") 0); [lia|]. apply H3. lia.
  - destruct (isdigit c) eqn:Ed; [|done]. cbn in H. destruct (IH _ _ H ltac:(lia)) as (H1 & H2 & H3 & H4).
    split; [constructor; auto|]. split; [lia|]. split; [done|lia].
Qed.

(** * Properties *)

(** [decimal_syntax] accepts exactly the decimal numbers of PHP's is_numeric()
    (sign, digits, optional fraction, optional exponent, a digit before the
    exponent) and reports exactly whether fraction and exponent are absent. *)
Theorem decimal_syntax_iff (t : cstr) (integral : bool) :
  decimal_syntax t = (true, integral) ↔ decimal_number t integral.
Proof. split; [apply decimal_syntax_sound|apply decimal_syntax_complete]. Qed.

(** An unsigned 64-bit integer printed in decimal, with any padding around it,
    is classified as that counter, never rounded, and stored as printed; a negative
    64-bit integer likewise as a signed value. *)
Theorem classify_integer_exact (p q : cstr) (n : Z)
  (Hp : Forall (fun c => is_pad c = true) p) (Hq : Forall (fun c => is_pad c = true) q)
  (Hn : INT64_MIN ≤ n ≤ UINT64_MAX) :
  classify_result (Some (p ++ sdec n ++ q)) =
  if n <? 0 then {| kind := RESULT_SIGNED; value := VInteger n; text := sdec n |}
  else {| kind := RESULT_COUNTER; value := VCounter n; text := sdec n |}.
Proof.
  unfold sdec. destruct (Z.ltb_spec n 0) as [Hneg|Hpos].
  - pose proof (udec_digits (- n) ltac:(lia)) as Hd. pose proof (udec_nonempty (- n)) as Hne.
    destruct (digits_unpadded _ Hne Hd) as [_ (r & c & E & Hc)].
    rewrite classify_padded; [|done|done|].
    2:{ split; [by exists "-"%char, (udec (- n))|]. exists ("-"%char :: r), c. by rewrite E. }
    rewrite slen_cons. pose proof (udec_uint64_fits (- n)) as Hf.
    pose proof (udec_length (- n) 19) as Hl.
    assert (length (udec (- n)) ≤ 20)%nat
      by (apply Hl; change (10 ^ Z.of_nat 20) with 100000000000000000000; unfold INT64_MIN in *; lia).
    rewrite (proj2 (Z.leb_gt _ _)) by (unfold RESULTS_BUFFER, slen; lia).
    unfold classify_text. rewrite (parse_decimal_spec _ true).
    + rewrite udec_val by lia. rewrite (proj2 (Z.leb_le _ _)) by lia. by rewrite Z.opp_involutive.
    + apply (decimal_intro _ true ["-"%char] (udec (- n)) [] []); rewrite ?app_nil_r; try done; try by left.
      right. by right.
  - rewrite classify_padded; [|done|done|apply digits_unpadded; auto with spine].
    pose proof (udec_uint64_fits n ltac:(lia)). rewrite (proj2 (Z.leb_gt _ _)) by lia.
    apply classify_text_udec. lia.
Qed.

Lemma classify_integer_exact_witness :
  classify_result (Some ($" '" ++ sdec 18446744073709551615 ++ $" ")) =
  {| kind := RESULT_COUNTER; value := VCounter 18446744073709551615; text := $"18446744073709551615" |}.
Proof.
  apply (classify_integer_exact ($" '") ($" ") 18446744073709551615);
    [by repeat constructor|by repeat constructor|by split].
Defined.

(** The 64-bit loop of [parse_octets], with its wrapping accumulator and sticky
    flag, agrees on every text with decoding the octets and reading them as one
    unbounded big-endian number: the value below 2^64, overflow from there on. *)
Theorem parse_octets_reference (t : cstr) :
  parse_octets t =
  match decode_octets t with
  | None => OCTETS_NONE
  | Some bs => if be_value 0 bs <=? UINT64_MAX then OCTETS_VALUE (be_value 0 bs) else OCTETS_OVERFLOW
  end.
Proof. exact (octets_loop_spec t 0 ltac:(lia)). Qed.

(** An octet string rendered in hexadecimal with any of the three separators is
    read back as its big-endian value when it fits 64 bits. *)
Theorem parse_octets_roundtrip (sep : ascii) (bs : list Z)
  (Hsep : sep = " "%char ∨ sep = ":"%char ∨ sep = "-"%char)
  (Hne : bs ≠ []) (Hbs : Forall (fun b => 0 ≤ b < 256) bs) (Hfit : be_value 0 bs ≤ UINT64_MAX) :
  parse_octets (render_octets sep bs) = OCTETS_VALUE (be_value 0 bs).
Proof.
  unfold parse_octets. pose proof (octets_loop_spec (render_octets sep bs) 0 ltac:(lia)) as H.
  change (wrap_u 64 0) with 0 in H. change (UINT64_MAX <? 0) with false in H. rewrite H.
  rewrite decode_render by done. unfold octets_result. by rewrite (proj2 (Z.leb_le _ _)).
Qed.

Lemma parse_octets_roundtrip_witness : parse_octets ($"00-1A-FF") = OCTETS_VALUE 6911.
Proof.
  apply (parse_octets_roundtrip "-" [0; 26; 255]); [by right; right|done|by repeat constructor|by vm_compute].
Defined.

(** The text a classification stores fits its buffer, is stored unchanged if
    classified again, and is "U" exactly for an unknown result. *)
Theorem classify_result_stable (raw : cstr) :
  let r := classify_result (Some raw) in
  slen (text r) < RESULTS_BUFFER ∧
  text (classify_result (Some (text r))) = text r ∧
  (kind r = RESULT_UNKNOWN ↔ text r = UNDEFINED).
Proof. exact (classify_stable raw). Qed.

(** [normalize_poll_result] leaves "U" exactly when its status is not VALID, what
    it leaves fits the result buffer, and normalizing again changes nothing. *)
Theorem normalize_poll_result_stable (result : cstr) (snmp : bool) :
  let '(status, r) := normalize_poll_result result snmp in
  (status = POLL_RESULT_VALID ↔ r ≠ UNDEFINED) ∧ slen r < RESULTS_BUFFER ∧
  (∀ snmp', snd (normalize_poll_result r snmp') = r) ∧
  (status = POLL_RESULT_UNDEFINED → result = UNDEFINED ∨ snmp = true).
Proof.
  unfold normalize_poll_result at 1. destruct (IS_UNDEFINED result) eqn:E.
  { unfold IS_UNDEFINED in E. bool_to_prop. subst. split; [by split|]. split; [done|]. split; [|by left].
    intros. by vm_compute. }
  destruct (classify_stable result) as (Hl & Hst & Hk).
  case_decide as Hd.
  - unfold strncopy_s. assert (Ht : take (Z.to_nat (RESULTS_BUFFER - 1)) (text (classify_result (Some result))) = text (classify_result (Some result)))
      by (apply take_ge; unfold slen in Hl; lia).
    rewrite Ht. split; [split; [naive_solver|done]|]. split; [done|]. split; [|done].
    intros snmp'. unfold normalize_poll_result.
    case_match; [done|]. case_decide as Hd'; cbn [snd]; unfold strncopy_s.
    + rewrite Hst. exact Ht.
    + exfalso. rename Hd' into Hu. destruct (classify_stable (text (classify_result (Some result)))) as (_ & _ & Hk').
      apply Hk' in Hu. rewrite Hst in Hu. apply Hd. by apply Hk.
  - split; [by case_match|]. split; [done|]. split; [intros; by vm_compute|].
    case_match; [|done]. destruct snmp; [by right|done].
Qed.

(** A row is rendered whole or rejected.  When [format_poller_output_row] returns
    TRUE the output is the complete row, it fits the buffer, and [host_time], the one
    field outside SQL quotes, holds only digits, at least one, and at most one point. *)
Theorem output_row_accepted (output : cstr) (output_size id : Z) (name host_time result : cstr)
  (Hsize : 0 ≤ output_size)
  (Hok : snd (format_poller_output_row output output_size id name host_time result) = true) :
  fst (format_poller_output_row output output_size id name host_time result) = output_row id name host_time result ∧
  slen (output_row id name host_time result) < output_size ∧
  Forall (fun c => isdigit c = true ∨ c = "."%char) host_time ∧
  Trim.count_byte host_time "." ≤ 1 ∧ Trim.count_byte host_time "." < slen host_time.
Proof.
  unfold format_poller_output_row in *. destruct (_ || _); [done|].
  destruct (host_time_scan host_time 0 0) as [[dp dg]|] eqn:E; [|done].
  apply host_time_scan_spec in E as (H1 & H2 & H3 & H4); [|lia]. cbn in H2, H3, H4.
  destruct (Z.eqb_spec dg 0); [done|]. cbn [fst snd] in *. apply Z.ltb_lt in Hok.
  split; [by apply snprintf_s_fits|]. split; [done|]. split; [done|].
  assert (Hle : ∀ s, 0 ≤ Trim.count_byte s "." ≤ slen s).
  { clear. induction s as [|c s IH]; [done|]. rewrite slen_cons. cbn [Trim.count_byte]. case_decide; lia. }
  specialize (Hle host_time). split; [|lia]. destruct (Z.eq_dec (Trim.count_byte host_time ".") 0); lia.
Qed.

Lemma output_row_accepted_witness :
  slen (output_row 7 ($"traffic_in") ($"1700000000.5") ($"42")) < 200.
Proof.
  apply (proj1 (proj2 (output_row_accepted [] 200 7 ($"traffic_in") ($"1700000000.5") ($"42") ltac:(lia) eq_refl))).
Defined.

(** Whatever the number of invalid results of a device, the id buffer stays
    inside its [DBL_BUFSIZE] bytes with [buf_size] its length, and the ids in the
    logged records followed by those still buffered are all ids in order. *)
Theorem buffer_output_errors_complete (ids : list Z) (Hids : Forall (fun i => INT_MIN ≤ i ≤ INT_MAX) ids) :
  let b := foldl (fun b i => buffer_output_errors b i false) empty_errors ids in
  ∃ flushed pending, errors_ok b flushed pending ∧ concat flushed ++ pending = ids.
Proof. apply (buffer_errors_all ids empty_errors [] []); [by vm_compute|done]. Qed.

Lemma buffer_output_errors_complete_witness :
  ∃ flushed pending,
    errors_ok (foldl (fun b i => buffer_output_errors b i false) empty_errors [3; -4; 5]) flushed pending ∧
    concat flushed ++ pending = [3; -4; 5].
Proof. apply (buffer_output_errors_complete [3; -4; 5]). by repeat constructor. Defined.
