(* ===== verification/Address.v ===== *)
(** Device names and addresses: src/src/ping/address.c. *)

From S2P Require Import Prelude CLib Buffer Text Result.

Module HostSpec.

Definition methods : list cstr := [$"TCP"; $"UDP"; $"TCP6"; $"UDP6"].

Record split_result := { sp_ipv6 : bool; sp_method : Z; sp_address : cstr; sp_port : Z }.

(** The transport loop: index of the first method spelled before the colon. *)
Fixpoint find_method (ms : list cstr) (i : Z) (spec : cstr) (colon : nat) : option Z :=
  match ms with
  | [] => None
  | m :: ms' =>
      if (colon =? length m)%nat && strncasecmp_eq spec m (length m) then Some (i + 1)
      else find_method ms' (i + 1) spec colon
  end.

Definition parse_port (port_text : option cstr) : Z :=
  match port_text with
  | Some ((c :: _) as t) =>
      if isdigit c then
        let r := strtol t in
        if negb (sr_range r) && bool_decide (sr_rest r = []) && (0 <? sr_value r) && (sr_value r <=? 65535)
        then to_int (sr_value r) else 0
      else 0
  | _ => 0
  end.

(** Host part and port text of the name behind the transport. *)
Definition split_host (host : cstr) : bool * cstr * option cstr :=
  let plain :=
    if (1 <? Trim.char_count host 58) || bool_decide (at_ host 0 = "["%char) then (true, host, None)
    else match strchr host ":" with
         | Some colon => (false, take colon host, Some (drop (S colon) host))
         | None => (false, host, None)
         end in
  if bool_decide (at_ host 0 = "["%char) then
    match strchr host "]" with
    | Some end_ =>
        (true, take (end_ - 1) (drop 1 host),
         if bool_decide (at_ host (end_ + 1) = ":"%char) then Some (drop (end_ + 2) host) else None)
    | None => plain
    end
  else plain.

Definition split_host_spec (spec : cstr) (capacity : Z) : split_result :=
  let '(method, host) :=
    match strchr spec ":" with
    | Some colon =>
        match find_method methods 0 spec colon with
        | Some m => (m, drop (S colon) spec)
        | None => (0, spec)
        end
    | None => (0, spec)
    end in
  let '(ipv6, address, port_text) := split_host host in
  let length_ := if capacity <=? slen address then capacity - 1 else slen address in
  {| sp_ipv6 := ipv6; sp_method := method; sp_address := take (Z.to_nat length_) address;
     sp_port := parse_port port_text |}.

Definition ping_address (hostname : cstr) (capacity : Z) : cstr := sp_address (split_host_spec hostname capacity).

Record name_t := { nm_hostname : cstr; nm_method : Z; nm_port : Z }.
(** [char address[BUFSIZE]] and [name->hostname[BUFSIZE]]. *)
Definition get_namebyhost (hostname : cstr) : name_t :=
  let r := split_host_spec hostname BUFSIZE in
  {| nm_hostname := strncopy_s BUFSIZE (if sp_ipv6 r then hostname else sp_address r);
     nm_method := sp_method r; nm_port := sp_port r |}.

End HostSpec.

(** * Name resolution *)

Module Resolve.

Definition SPINE_NONE : Z := 0.
Definition SPINE_IPV4 : Z := 1.
Definition SPINE_IPV6 : Z := 2.
Inductive ai_family := AF_INET | AF_INET6 | AF_OTHER.

(** The walk over the address list [getaddrinfo] returned; [None] is its error. *)
Fixpoint address_list_type (res : list ai_family) (addr_found : bool) : Z :=
  match res with
  | [] => if addr_found then SPINE_IPV6 else SPINE_NONE
  | AF_INET :: _ => SPINE_IPV4
  | AF_INET6 :: res' => address_list_type res' true
  | AF_OTHER :: res' => address_list_type res' addr_found
  end.
Definition get_address_type (res : option (list ai_family)) : Z :=
  match res with None => SPINE_NONE | Some l => address_list_type l false end.

Record sockaddr_in := { sin_addr : Z; sin_port : Z }.
(** What one [getaddrinfo] call returns: addresses, a temporary failure or an error. *)
Inductive gai := GaiOk (addrs : list Z) | GaiAgain | GaiError.

Section WithResolver.
Context {W : Type} (getaddrinfo : W → cstr → gai * W).

(** [for (attempt = 0;; attempt++)]; the retry test bounds it by [4 - attempt]. *)
Fixpoint resolve_loop (fuel : nat) (w : W) (address : cstr) (attempt : Z) : option (list Z) * W * Z :=
  match fuel with
  | O => (None, w, attempt)
  | S f =>
      let '(status, w) := getaddrinfo w address in
      match status with
      | GaiOk l => (Some l, w, attempt + 1)
      | GaiAgain => if attempt <? 3 then resolve_loop f w address (attempt + 1) else (None, w, attempt + 1)
      | GaiError => (None, w, attempt + 1)
      end
  end.
Definition htons (p : Z) : Z := (p mod 256) * 256 + p / 256.
(** The result and the number of lookups made. *)
Definition init_sockaddr (w : W) (hostname : cstr) (port : Z) : option sockaddr_in * W * Z :=
  if (port <? 0) || (65535 <? port) then (None, w, 0)
  else
    let address := HostSpec.ping_address hostname BUFSIZE in
    let '(hostinfo, w, lookups) := resolve_loop 4 w address 0 in
    match hostinfo with
    | Some (a :: _) => (Some {| sin_addr := a; sin_port := htons port |}, w, lookups)
    | _ => (None, w, lookups)
    end.
End WithResolver.

End Resolve.

(** * Internet checksum *)

Module Checksum.

(** [memcpy(&word, bytes, 2)] on a little-endian machine. *)
Definition word_le (b0 b1 : ascii) : Z := code b0 + 256 * code b1.
Fixpoint sum_words (buf : list ascii) (sum : Z) : Z :=
  match buf with
  | b0 :: b1 :: buf' => sum_words buf' (wrap_u 32 (sum + word_le b0 b1))
  | [b0] => wrap_u 32 (sum + code b0)
  | [] => sum
  end.
Definition get_checksum (buf : list ascii) : Z :=
  let sum := sum_words buf 0 in
  let sum := wrap_u 32 (Z.shiftr sum 16 + Z.land sum 65535) in
  let sum := wrap_u 32 (sum + Z.shiftr sum 16) in
  Z.land (Z.lxor sum 4294967295) 65535.

End Checksum.

(** * Lemmas *)

Module AddressFacts.
Import HostSpec Resolve Checksum TextFacts.

Lemma strchr_Some s c i :
  strchr s c = Some i → ∃ a b, s = a ++ c :: b ∧ length a = i ∧ c ∉ a.
Proof.
  revert i. induction s as [|d s IH]; intros i H; cbn in H; [done|]. case_decide as Hd.
  - injection H as <-. subst. exists [], s. split; [done|]. split; [done|]. apply not_elem_of_nil.
  - destruct (strchr s c) as [j|] eqn:E; [|done]. injection H as <-.
    destruct (IH j eq_refl) as (a & b & -> & <- & Hn). exists (d :: a), b. split; [done|]. split; [done|].
    apply not_elem_of_cons. by split; [congruence|].
Qed.
Lemma strchr_None s c : strchr s c = None ↔ c ∉ s.
Proof.
  induction s as [|d s IH]; cbn; [split; [intros _; apply not_elem_of_nil|done]|].
  rewrite not_elem_of_cons. case_decide as Hd; subst; [naive_solver|].
  destruct (strchr s c); cbn; naive_solver.
Qed.
Lemma strchr_app a c b : c ∉ a → strchr (a ++ c :: b) c = Some (length a).
Proof.
  induction a as [|d a IH]; cbn; intros Ha; [by rewrite decide_True|].
  apply not_elem_of_cons in Ha as [Hd Ha]. rewrite decide_False by congruence. by rewrite IH.
Qed.
Lemma count_byte_0 s c : c ∉ s → Trim.count_byte s c = 0.
Proof.
  induction s as [|d s IH]; cbn; intros Hs; [done|]. apply not_elem_of_cons in Hs as [? ?].
  rewrite decide_False by congruence. by rewrite IH.
Qed.
Lemma count_byte_app s t c : Trim.count_byte (s ++ t) c = Trim.count_byte s c + Trim.count_byte t c.
Proof. induction s as [|d s IH]; cbn; [done|]. rewrite IH. case_decide; lia. Qed.

Lemma parse_port_udec p : 1 ≤ p ≤ 65535 → parse_port (Some (udec p)) = p.
Proof.
  intros Hp. unfold parse_port. pose proof (udec_nonempty p) as Hne.
  pose proof (udec_digits p ltac:(lia)) as Hd. pose proof (udec_val p ltac:(lia)) as Hv.
  pose proof (strtoll_digits (udec p) Hne Hd) as Hs. rewrite Hv in Hs.
  destruct (udec p) as [|c r] eqn:E; [done|]. apply Forall_cons_iff in Hd as [-> _].
  unfold strtol. rewrite Hs by (unfold INT64_MAX; lia). cbn -[Z.ltb Z.leb].
  rewrite (proj2 (Z.ltb_lt _ _)), (proj2 (Z.leb_le _ _)) by lia. cbn.
  apply to_int_id. unfold INT_MIN, INT_MAX. lia.
Qed.
Lemma parse_port_range t : 0 ≤ parse_port t ≤ 65535.
Proof.
  unfold parse_port. destruct t as [[|c t]|]; try lia. destruct (isdigit c); [|lia].
  destruct (_ && _ && _ && _) eqn:E; [|lia]. bool_to_prop. rewrite to_int_id; [lia|]. unfold INT_MIN, INT_MAX. lia.
Qed.

(** A host name without colon or bracket: [split_host] cuts the port off. *)
Lemma split_host_plain h t :
  ":"%char ∉ h → at_ h 0 ≠ "["%char → h ≠ [] → ":"%char ∉ t →
  split_host h = (false, h, None) ∧ split_host (h ++ ":"%char :: t) = (false, h, Some t).
Proof.
  intros Hh Hb Hne Ht.
  assert (Hc1 : Trim.char_count h 58 = 0) by (unfold Trim.char_count; cbn; by apply count_byte_0).
  assert (Hc2 : Trim.char_count (h ++ ":"%char :: t) 58 = 1).
  { unfold Trim.char_count. cbn. rewrite count_byte_app, count_byte_0 by done. cbn. by rewrite count_byte_0. }
  assert (Hb2 : at_ (h ++ ":"%char :: t) 0 = at_ h 0) by (by destruct h).
  unfold split_host. rewrite Hc1, Hc2, Hb2, bool_decide_false by done. cbn [Z.ltb Z.compare orb].
  split.
  - by rewrite (proj2 (strchr_None h ":") Hh).
  - rewrite strchr_app by done. rewrite take_app_length.
    replace (S (length h)) with (length h + 1)%nat by lia. by rewrite <- drop_drop, drop_app_length.
Qed.

Lemma split_host_bracket h t :
  "]"%char ∉ h →
  split_host ("["%char :: h ++ ["]"%char]) = (true, h, None) ∧
  split_host ("["%char :: h ++ "]"%char :: ":"%char :: t) = (true, h, Some t).
Proof.
  intros Hh. unfold split_host. cbn [at_ lookup list_lookup default].
  assert (E : ∀ r, strchr ("["%char :: h ++ "]"%char :: r) "]" = Some (S (length h))).
  { intros r. apply (strchr_app ("["%char :: h)). apply not_elem_of_cons. by split. }
  split.
  - rewrite bool_decide_true by done. rewrite E. rewrite Nat.sub_succ, Nat.sub_0_r, skipn_cons, drop_0.
    rewrite take_app_length. rewrite bool_decide_false; [done|].
    unfold at_. rewrite lookup_ge_None_2; [done|]. cbn. rewrite length_app. cbn. lia.
  - rewrite bool_decide_true by done. rewrite E. rewrite Nat.sub_succ, Nat.sub_0_r, skipn_cons, drop_0.
    rewrite take_app_length. rewrite bool_decide_true.
    + do 2 f_equal. replace (S (length h) + 2)%nat with (length ("["%char :: h ++ ["]"%char; ":"%char])) by (cbn; rewrite length_app; cbn; lia).
      replace ("["%char :: h ++ "]"%char :: ":"%char :: t) with (("["%char :: h ++ ["]"%char; ":"%char]) ++ t)
        by (cbn; by rewrite <- app_assoc). by rewrite drop_app_length.
    + apply at_lookup. replace ("["%char :: h ++ "]"%char :: ":"%char :: t) with (("["%char :: h ++ ["]"%char]) ++ ":"%char :: t)
        by (cbn; by rewrite <- app_assoc).
      replace (S (length h) + 1)%nat with (length ("["%char :: h ++ ["]"%char])) by (cbn; rewrite length_app; cbn; lia).
      by rewrite list_lookup_middle.
Qed.

(** ** Checksum arithmetic *)

(** The exact sum of the little-endian words. *)
Fixpoint word_sum (buf : list ascii) : Z :=
  match buf with
  | b0 :: b1 :: buf' => word_le b0 b1 + word_sum buf'
  | [b0] => code b0
  | [] => 0
  end.
(** One's complement folding to 16 bits. *)
Definition fold16 (s : Z) : Z := let s1 := s / 65536 + s mod 65536 in if s1 <? 65536 then s1 else s1 - 65535.

Lemma word_le_range b0 b1 : 0 ≤ word_le b0 b1 < 65536.
Proof. unfold word_le. pose proof (code_range b0). pose proof (code_range b1). lia. Qed.

Lemma word_sum_bound buf : 0 ≤ word_sum buf ≤ 65535 * Z.of_nat (length buf).
Proof.
  induction buf as [buf IH] using (induction_ltof1 _ (@length _)).
  destruct buf as [|b0 [|b1 buf]]; cbn [word_sum length].
  - lia.
  - pose proof (code_range b0). lia.
  - pose proof (word_le_range b0 b1). pose proof (IH buf ltac:(unfold ltof; cbn; lia)). lia.
Qed.

Lemma sum_words_exact buf : ∀ sum,
  0 ≤ sum → sum + word_sum buf < 2 ^ 32 → sum_words buf sum = sum + word_sum buf.
Proof.
  induction buf as [buf IH] using (induction_ltof1 _ (@length _)). intros sum Hs Hb.
  destruct buf as [|b0 [|b1 buf]]; cbn [word_sum sum_words] in *.
  - lia.
  - unfold wrap_u. pose proof (code_range b0). rewrite Z.mod_small; lia.
  - pose proof (word_le_range b0 b1). pose proof (word_sum_bound buf).
    unfold wrap_u. rewrite Z.mod_small by lia. rewrite IH; [lia|unfold ltof; cbn; lia|lia|lia].
Qed.


Lemma complement16 x : Z.land (Z.lxor x 4294967295) 65535 = 65535 - x mod 65536.
Proof.
  change 65536 with (2 ^ 16). rewrite <- Z.land_ones by lia.
  change 65535 with (Z.ones 16). change 4294967295 with (Z.ones 32).
  rewrite Z.sub_nocarry_ldiff.
  - apply Z.bits_inj'. intros n Hn. rewrite Z.ldiff_spec, !Z.land_spec, Z.lxor_spec.
    destruct (Z.lt_ge_cases n 16).
    + rewrite !Z.ones_spec_low by lia. by destruct (Z.testbit x n).
    + by rewrite !(Z.ones_spec_high 16), !andb_false_r by lia.
  - apply Z.bits_inj'. intros n Hn. rewrite Z.ldiff_spec, Z.land_spec, Z.bits_0.
    by destruct (Z.testbit x n), (Z.testbit (Z.ones 16) n).
Qed.

Lemma checksum_fold s : 0 ≤ s < 2 ^ 32 →
  let s1 := wrap_u 32 (Z.shiftr s 16 + Z.land s 65535) in
  Z.land (Z.lxor (wrap_u 32 (s1 + Z.shiftr s1 16)) 4294967295) 65535 = 65535 - fold16 s.
Proof.
  intros Hs s1. rewrite complement16. f_equal.
  assert (Hl : Z.land s 65535 = s mod 65536) by (change 65535 with (Z.ones 16); by rewrite Z.land_ones by lia).
  assert (Hr : ∀ x, Z.shiftr x 16 = x / 65536) by (intros x; by rewrite Z.shiftr_div_pow2 by lia).
  pose proof (Z.mod_pos_bound s 65536 eq_refl).
  assert (0 ≤ s / 65536 < 65536) by (split; [apply Z.div_pos|apply Z.div_lt_upper_bound]; lia).
  assert (E1 : s1 = s / 65536 + s mod 65536) by (unfold s1, wrap_u; rewrite Hr, Hl; apply Z.mod_small; lia).
  rewrite Hr. unfold fold16. rewrite <- E1. destruct (Z.ltb_spec s1 65536).
  - rewrite (Z.div_small s1), Z.add_0_r by lia. unfold wrap_u.
    rewrite (Z.mod_small s1 (2 ^ 32)) by lia. apply Z.mod_small. lia.
  - replace (s1 / 65536) with 1 by (apply (Z.div_unique s1 65536 1 (s1 - 65536)); lia).
    unfold wrap_u. rewrite (Z.mod_small (s1 + 1)) by lia. symmetry. apply (Z.mod_unique (s1 + 1) 65536 1); lia.
Qed.

Lemma get_checksum_fold buf :
  Z.of_nat (length buf) ≤ 65536 → get_checksum buf = 65535 - fold16 (word_sum buf).
Proof.
  intros Hl. pose proof (word_sum_bound buf). unfold get_checksum.
  rewrite sum_words_exact by lia. apply checksum_fold. lia.
Qed.

Lemma fold16_range s : 0 ≤ s < 2 ^ 32 → 0 ≤ fold16 s ≤ 65535.
Proof.
  intros Hs. unfold fold16. pose proof (Z.mod_pos_bound s 65536 eq_refl).
  assert (0 ≤ s / 65536 < 65536) by (split; [apply Z.div_pos|apply Z.div_lt_upper_bound]; lia).
  destruct (Z.ltb_spec (s / 65536 + s mod 65536) 65536); lia.
Qed.

(** Adding the complement of the folded sum gives a sum that folds to all ones. *)
Lemma fold16_complement s : 0 ≤ s → s + 65535 < 2 ^ 32 → fold16 (s + (65535 - fold16 s)) = 65535.
Proof.
  intros Hs Hb. pose proof (fold16_range s ltac:(lia)). unfold fold16 at 1.
  pose proof (Z.div_mod s 65536 ltac:(lia)). pose proof (Z.mod_pos_bound s 65536 eq_refl).
  assert (0 ≤ s / 65536 < 65536) by (split; [apply Z.div_pos|apply Z.div_lt_upper_bound]; lia).
  assert (Ht : ∃ k, s + (65535 - fold16 s) = 65535 * k ∧ 1 ≤ k ≤ 65537).
  { unfold fold16. destruct (Z.ltb_spec (s / 65536 + s mod 65536) 65536).
    - exists (s / 65536 + 1). lia.
    - exists (s / 65536 + 2). lia. }
  destruct Ht as (k & Hk & Hkr).
  pose proof (Z.div_mod (s + (65535 - fold16 s)) 65536 ltac:(lia)).
  pose proof (Z.mod_pos_bound (s + (65535 - fold16 s)) 65536 eq_refl).
  rewrite Hk in *. set (q := 65535 * k / 65536) in *. set (r := (65535 * k) mod 65536) in *.
  destruct (Z.ltb_spec (q + r) 65536); nia.
Qed.

Lemma word_sum_app a b : Nat.Even (length a) → word_sum (a ++ b) = word_sum a + word_sum b.
Proof.
  induction a as [a IH] using (induction_ltof1 _ (@length _)). intros [n Hn].
  destruct a as [|b0 [|b1 a]]; cbn in Hn; [done|lia|]. cbn [app word_sum].
  rewrite IH; [lia|unfold ltof; cbn; lia|]. exists (n - 1)%nat. lia.
Qed.
Lemma word_le_split c : 0 ≤ c < 65536 → word_le (byte_of c) (byte_of (c / 256)) = c.
Proof.
  intros Hc. unfold word_le. rewrite !code_byte_of. pose proof (Z.div_mod c 256 ltac:(lia)).
  assert (0 ≤ c / 256 < 256) by (split; [apply Z.div_pos|apply Z.div_lt_upper_bound]; lia).
  rewrite (Z.mod_small (c / 256)) by lia. lia.
Qed.

(** ** Resolution *)

Lemma address_list_type_spec l found :
  address_list_type l found =
    if existsb (fun f => match f with AF_INET => true | _ => false end) l then SPINE_IPV4
    else if found || existsb (fun f => match f with AF_INET6 => true | _ => false end) l then SPINE_IPV6 else SPINE_NONE.
Proof.
  revert found. induction l as [|f l IH]; intros found; cbn; [by destruct found|].
  destruct f; cbn; [done|..]; rewrite IH; [|done]. by rewrite orb_true_r.
Qed.

Lemma resolve_loop_lookups {W} (g : W → cstr → gai * W) fuel : ∀ w a k,
  0 ≤ k → k + Z.of_nat fuel = 4 → (fuel ≠ O) →
  let '(_, _, n) := resolve_loop g fuel w a k in k < n ≤ 4.
Proof.
  induction fuel as [|f IH]; intros w a k Hk Hf Hn; [done|]. cbn [resolve_loop].
  destruct (g w a) as [st w']. destruct st; [lia| |lia].
  destruct (Z.ltb_spec k 3); [|lia].
  destruct f as [|f]; [lia|]. specialize (IH w' a (k + 1) ltac:(lia) ltac:(lia) ltac:(done)).
  destruct (resolve_loop g (S f) w' a (k + 1)) as [[o w''] n]. lia.
Qed.

(** ** The transport *)

Lemma find_method_bracket ms : ∀ i spec colon,
  Forall (fun m => match m with c :: _ => tolower c ≠ "["%char | [] => False end) ms →
  find_method ms i ("["%char :: spec) colon = None.
Proof.
  induction ms as [|m ms IH]; intros i spec colon Hms; [done|].
  apply Forall_cons_iff in Hms as [Hm Hms]. cbn [find_method]. rewrite IH by done.
  destruct m as [|c m]; [done|]. unfold strncasecmp_eq, STRIMATCH.
  rewrite (bool_decide_false (map tolower _ = _)); [by rewrite andb_false_r|].
  cbn [length take map firstn]. intros [= E _]. apply Hm. by rewrite <- E.
Qed.
Lemma find_method_none ms : ∀ i spec,
  Forall (fun m => STRIMATCH spec m = false) ms → ∀ r, find_method ms i (spec ++ r) (length spec) = None.
Proof.
  induction ms as [|m ms IH]; intros i spec Hms r; [done|].
  apply Forall_cons_iff in Hms as [Hm Hms]. cbn [find_method]. rewrite IH by done.
  destruct (Nat.eqb_spec (length spec) (length m)) as [E|]; [|done]. cbn [andb].
  unfold strncasecmp_eq. rewrite <- E, take_app_length, E, firstn_all. by rewrite Hm.
Qed.
Lemma transport_found i rest :
  (i < 4)%nat →
  let m := nth i methods [] in
  strchr (m ++ ":"%char :: rest) ":" = Some (length m) ∧
  find_method methods 0 (m ++ ":"%char :: rest) (length m) = Some (Z.of_nat i + 1) ∧
  drop (S (length m)) (m ++ ":"%char :: rest) = rest.
Proof.
  intros Hi m. destruct i as [|[|[|[|i]]]]; [..|lia];
    unfold m; (split; [reflexivity|split; reflexivity]).
Qed.

Lemma split_address_length spec cap : 0 < cap → slen (sp_address (split_host_spec spec cap)) < cap.
Proof.
  intros Hc. unfold split_host_spec. destruct (match strchr spec ":" with Some _ => _ | None => _ end) as [m h].
  destruct (split_host h) as [[i a] pt]. cbn [sp_address]. rewrite slen_take.
  destruct (Z.leb_spec cap (slen a)); lia.
Qed.

Lemma find_method_range spec colon m : find_method methods 0 spec colon = Some m → 0 ≤ m ≤ 4.
Proof. intros H. unfold methods in H. cbn in H. repeat case_match; simplify_eq; lia. Qed.
Lemma split_port_range spec cap : 0 ≤ sp_port (split_host_spec spec cap) ≤ 65535.
Proof.
  unfold split_host_spec. destruct (match strchr spec ":" with Some _ => _ | None => _ end) as [m h].
  destruct (split_host h) as [[i a] pt]. apply parse_port_range.
Qed.
Lemma split_method_range spec cap : 0 ≤ sp_method (split_host_spec spec cap) ≤ 4.
Proof.
  unfold split_host_spec. destruct (strchr spec ":") as [colon|];
    [destruct (find_method _ _ _ _) as [m|] eqn:E; [apply find_method_range in E|]|];
    destruct (split_host _) as [[i a] pt]; cbn; lia.
Qed.

(** ** Composing a device name *)

Definition compose_host (ipv6 : bool) (host : cstr) (port : option Z) : cstr :=
  (if ipv6 then "["%char :: host ++ ["]"%char] else host) ++
  match port with Some p => ":"%char :: udec p | None => [] end.
Definition compose_spec (m : option nat) (ipv6 : bool) (host : cstr) (port : option Z) : cstr :=
  match m with
  | Some i => nth i methods [] ++ ":"%char :: compose_host ipv6 host port
  | None => compose_host ipv6 host port
  end.

(** A host part that can be composed: not empty and free of brackets; outside
    brackets also free of colons. *)
Definition host_ok (ipv6 : bool) (host : cstr) : Prop :=
  host ≠ [] ∧ ("["%char ∉ host) ∧ ("]"%char ∉ host) ∧ (ipv6 = false → (":"%char ∉ host)).

Lemma digits_no_colon s : Forall (fun c => isdigit c = true) s → ":"%char ∉ s.
Proof.
  intros H Hin. rewrite Forall_forall in H. apply list_elem_of_In in Hin. by apply H in Hin.
Qed.

Lemma split_host_compose ipv6 host port :
  host_ok ipv6 host → (∀ p, port = Some p → 1 ≤ p ≤ 65535) →
  ∃ pt, split_host (compose_host ipv6 host port) = (ipv6, host, pt) ∧ parse_port pt = default 0 port.
Proof.
  intros (Hne & Hb & Hb' & Hc) Hp. unfold compose_host.
  assert (Hport : ∀ p, port = Some p → parse_port (Some (udec p)) = p ∧ ":"%char ∉ udec p).
  { intros p E. split; [apply parse_port_udec; by apply Hp|]. apply digits_no_colon, udec_digits.
    specialize (Hp p E). lia. }
  destruct ipv6; destruct port as [p|].
  - destruct (Hport p eq_refl) as [E _]. exists (Some (udec p)). split; [|done].
    cbn [app]. rewrite <- app_assoc. by apply (split_host_bracket host (udec p)).
  - exists None. split; [|done]. rewrite app_nil_r. by apply (split_host_bracket host []).
  - destruct (Hport p eq_refl) as [E Hn]. exists (Some (udec p)). split; [|done].
    apply (split_host_plain host (udec p)); auto. intros E0. apply Hb. destruct host as [|c r]; [done|].
    cbn in E0. subst. left.
  - exists None. split; [|done]. rewrite app_nil_r. apply (split_host_plain host []); auto.
    + intros E0. apply Hb. destruct host as [|c r]; [done|]. cbn in E0. subst. left.
    + apply not_elem_of_nil.
Qed.

Lemma no_transport ipv6 host port :
  host_ok ipv6 host → (ipv6 = false → Forall (fun m => STRIMATCH host m = false) methods) →
  match strchr (compose_host ipv6 host port) ":" with
  | Some colon => match find_method methods 0 (compose_host ipv6 host port) colon with
                  | Some m => (m, drop (S colon) (compose_host ipv6 host port))
                  | None => (0, compose_host ipv6 host port)
                  end
  | None => (0, compose_host ipv6 host port)
  end = (0, compose_host ipv6 host port).
Proof.
  intros (Hne & _ & _ & Hc) Hm. destruct (strchr _ _) as [colon|] eqn:E; [|done].
  enough (find_method methods 0 (compose_host ipv6 host port) colon = None) as -> by done.
  destruct ipv6.
  - apply find_method_bracket. by repeat constructor.
  - unfold compose_host in *. destruct port as [p|].
    + rewrite strchr_app in E by auto. injection E as <-. by apply find_method_none, Hm.
    + rewrite app_nil_r in E. rewrite (proj2 (strchr_None host ":")) in E by auto. done.
Qed.

End AddressFacts.
Import AddressFacts.

(** * Properties *)

(** Splitting a device name inverts composing it.  For a plain host name or a
    bracketed IPv6 literal, with or without one of the four transports and with or
    without a port from 1 to 65535, the transport, the bare address and the port come
    back.  A bare host that spells a transport is excluded, as it reads as one. *)
Theorem split_host_spec_roundtrip (m : option nat) (ipv6 : bool) (host : cstr) (port : option Z) (capacity : Z)
  (Hm : ∀ i, m = Some i → (i < 4)%nat) (Hhost : host_ok ipv6 host)
  (Hbare : m = None → ipv6 = false → Forall (fun w => STRIMATCH host w = false) HostSpec.methods)
  (Hport : ∀ p, port = Some p → 1 ≤ p ≤ 65535) (Hcap : slen host < capacity) :
  HostSpec.split_host_spec (compose_spec m ipv6 host port) capacity =
  {| HostSpec.sp_ipv6 := ipv6; HostSpec.sp_method := match m with Some i => Z.of_nat i + 1 | None => 0 end;
     HostSpec.sp_address := host; HostSpec.sp_port := default 0 port |}.
Proof.
  destruct (split_host_compose ipv6 host port Hhost Hport) as (pt & Es & Ep).
  assert (Hcut : take (Z.to_nat (if capacity <=? slen host then capacity - 1 else slen host)) host = host).
  { rewrite (proj2 (Z.leb_gt _ _)) by lia. apply take_ge. unfold slen. lia. }
  unfold HostSpec.split_host_spec. destruct m as [i|]; cbn [compose_spec].
  - destruct (transport_found i (compose_host ipv6 host port) (Hm i eq_refl)) as (E1 & E2 & E3).
    rewrite E1, E2, E3, Es, Ep, Hcut. done.
  - rewrite (no_transport ipv6 host port) by auto. by rewrite Es, Ep, Hcut.
Qed.

Lemma split_host_spec_roundtrip_witness :
  HostSpec.split_host_spec ($"UDP6:[2001:db8::1]:161") 1024 =
  {| HostSpec.sp_ipv6 := true; HostSpec.sp_method := 4; HostSpec.sp_address := $"2001:db8::1"; HostSpec.sp_port := 161 |}.
Proof.
  apply (split_host_spec_roundtrip (Some 3%nat) true ($"2001:db8::1") (Some 161) 1024).
  - intros i [= <-]. lia.
  - split_and!; [done|by apply (bool_decide_unpack _)|by apply (bool_decide_unpack _)|done].
  - done.
  - intros p [= <-]. lia.
  - by vm_compute.
Defined.

(** Whatever the device name, the port reported is 0 or a valid port, the
    transport is 0 to 4, the address fits the buffer, and a name that is not IPv6 is
    stored as its bare address while an IPv6 name is stored whole. *)
Theorem get_namebyhost_bounds (hostname : cstr) :
  let n := HostSpec.get_namebyhost hostname in
  0 ≤ HostSpec.nm_port n ≤ 65535 ∧ 0 ≤ HostSpec.nm_method n ≤ 4 ∧ slen (HostSpec.nm_hostname n) < BUFSIZE ∧
  HostSpec.nm_hostname n =
    if HostSpec.sp_ipv6 (HostSpec.split_host_spec hostname BUFSIZE) then take 1023 hostname
    else HostSpec.ping_address hostname BUFSIZE.
Proof.
  intros n. unfold n, HostSpec.get_namebyhost. cbn [HostSpec.nm_port HostSpec.nm_method HostSpec.nm_hostname].
  split_and!; try apply split_port_range; try apply split_method_range.
  - by apply BufferFacts.strncopy_s_length.
  - unfold strncopy_s. destruct (HostSpec.sp_ipv6 _); [done|]. apply take_ge.
    pose proof (split_address_length hostname BUFSIZE eq_refl) as Hl. unfold slen in Hl.
    unfold HostSpec.ping_address. change (Z.to_nat (BUFSIZE - 1)) with 1023%nat. change BUFSIZE with 1024 in *. lia.
Qed.

(** The resolver, which retries temporary failures, makes at most four
    lookups, and none for a port outside 0..65535; a success carries the port in
    network order. *)
Theorem init_sockaddr_bounded {W} (getaddrinfo : W → cstr → Resolve.gai * W) (w : W) (hostname : cstr) (port : Z) :
  let '(r, _, lookups) := Resolve.init_sockaddr getaddrinfo w hostname port in
  (port < 0 ∨ 65535 < port → r = None ∧ lookups = 0) ∧ 0 ≤ lookups ≤ 4 ∧
  (∀ sa, r = Some sa → 0 ≤ port ≤ 65535 ∧ 0 ≤ Resolve.sin_port sa < 65536 ∧
     Resolve.htons (Resolve.sin_port sa) = port).
Proof.
  unfold Resolve.init_sockaddr. destruct (Z.ltb_spec port 0), (Z.ltb_spec 65535 port); cbn [orb]; try (split_and!; [done|lia..|done]).
  pose proof (resolve_loop_lookups getaddrinfo 4 w (HostSpec.ping_address hostname BUFSIZE) 0 ltac:(lia) ltac:(lia) ltac:(done)) as Hl.
  destruct (Resolve.resolve_loop _ _ _ _ _) as [[hi w'] n].
  assert (Hd := Z.div_mod port 256 ltac:(lia)). assert (Hm := Z.mod_pos_bound port 256 eq_refl).
  assert (0 ≤ port / 256 < 256) by (split; [apply Z.div_pos|apply Z.div_lt_upper_bound]; lia).
  destruct hi as [[|a l]|]; (split; [lia|split; [lia|intros sa; try done]]).
  intros [= <-]. cbn [Resolve.sin_port]. unfold Resolve.htons.
  split; [lia|]. split; [lia|].
  assert (E1 : (port mod 256 * 256 + port / 256) mod 256 = port / 256).
  { symmetry. apply (Z.mod_unique _ 256 (port mod 256)); lia. }
  assert (E2 : (port mod 256 * 256 + port / 256) / 256 = port mod 256).
  { symmetry. apply (Z.div_unique _ 256 _ (port / 256)); lia. }
  lia.
Qed.

(** A packet carrying its own checksum verifies.  Writing [get_checksum] of a
    packet into its zeroed checksum field makes [get_checksum] of the result zero,
    for any packet up to 64 KiB with the field at an even offset. *)
Theorem get_checksum_verifies (pre post : list ascii)
  (Heven : Nat.Even (length pre)) (Hlen : Z.of_nat (length pre + length post) ≤ 65534) :
  let c := Checksum.get_checksum (pre ++ [NUL; NUL] ++ post) in
  0 ≤ c ≤ 65535 ∧ Checksum.get_checksum (pre ++ [byte_of c; byte_of (c / 256)] ++ post) = 0.
Proof.
  intros c. pose proof (word_sum_bound (pre ++ [NUL; NUL] ++ post)) as Hb. rewrite !length_app in Hb. cbn [length] in Hb.
  assert (Hc : c = 65535 - fold16 (word_sum (pre ++ [NUL; NUL] ++ post))).
  { apply get_checksum_fold. rewrite !length_app. cbn [length]. lia. }
  pose proof (fold16_range (word_sum (pre ++ [NUL; NUL] ++ post)) ltac:(lia)).
  split; [lia|]. rewrite get_checksum_fold by (rewrite !length_app; cbn [length]; lia).
  rewrite !word_sum_app in * by done. cbn [app word_sum] in *.
  change (Checksum.word_le NUL NUL) with 0 in *. rewrite word_le_split by lia.
  pose proof (word_sum_bound pre). pose proof (word_sum_bound post).
  rewrite <- (fold16_complement (word_sum pre + (0 + word_sum post))) by lia.
  replace (word_sum pre + (c + word_sum post)) with
    (word_sum pre + (0 + word_sum post) + (65535 - fold16 (word_sum pre + (0 + word_sum post)))) by lia.
  lia.
Qed.

Lemma get_checksum_verifies_witness :
  let c := Checksum.get_checksum (($"ab") ++ [NUL; NUL] ++ ($"xyz")) in
  0 ≤ c ≤ 65535 ∧ Checksum.get_checksum (($"ab") ++ [byte_of c; byte_of (c / 256)] ++ ($"xyz")) = 0.
Proof. apply (get_checksum_verifies ($"ab") ($"xyz")); [by exists 1%nat|cbn; lia]. Defined.
