(* ===== verification/Icmp.v ===== *)
(** ICMP echo replies and the shared raw sockets ([ping/icmp_shared.c]).

    [Module Reply] models the three functions that decide whether a received message
    answers our echo request, with every byte access checked: [None] is an access
    outside the received bytes.  [Module Shared] models the raw socket that all
    poller threads share: the list of registered waiters, the reader flag, the
    condition variables, and the critical sections under LOCK_ICMP as the events of a
    transition system.  Between two events every thread is outside the lock, at the
    program point its [pc] names, so any interleaving of the threads is a sequence of
    events. *)

From S2P Require Import Prelude CLib Address.

(** * Reply classification *)

Module Reply.
Import Checksum.

Inductive spine_icmp_reply_t :=
| SPINE_ICMP_REPLY_OK
| SPINE_ICMP_REPLY_TOO_SHORT
| SPINE_ICMP_REPLY_BAD_HEADER
| SPINE_ICMP_REPLY_NOT_ECHO
| SPINE_ICMP_REPLY_NOT_OURS.
#[global] Instance spine_icmp_reply_t_eq_dec : EqDecision spine_icmp_reply_t.
Proof. solve_decision. Defined.

Definition sizeof_ip : Z := 20.
Definition ICMP_HDR_SIZE : Z := 8.
Definition IPPROTO_ICMP : Z := 1.
Definition ICMP_ECHOREPLY : Z := 0.
Definition ICMP6_ECHO_REPLY : Z := 129.

(** [reply[i]] and a two-byte [memcpy] from [reply + i] on a little-endian host. *)
Definition rd (reply : list ascii) (i : Z) : option Z :=
  if i <? 0 then None else code <$> reply !! Z.to_nat i.
Definition rd16 (reply : list ascii) (i : Z) : option Z :=
  a ← rd reply i; b ← rd reply (i + 1); Some (a + 256 * b).

(** The classification and the offset [*out_pkt] points at, if it is set.  [reply] is
    [None] for a NULL pointer. *)
Definition spine_icmp_classify_reply (reply : option (list ascii)) (len want_id want_seq : Z) :
    option (spine_icmp_reply_t * option Z) :=
  match reply with
  | None => Some (SPINE_ICMP_REPLY_TOO_SHORT, None)
  | Some reply =>
      if len <? sizeof_ip then Some (SPINE_ICMP_REPLY_TOO_SHORT, None) else
      b0 ← rd reply 0;
      let ihl := Z.shiftl (Z.land b0 15) 2 in
      bad ← (if negb (Z.shiftr b0 4 =? 4) then Some true else
             proto ← rd reply 9;
             Some (negb (proto =? IPPROTO_ICMP) || (ihl <? sizeof_ip) || (len <? ihl + ICMP_HDR_SIZE)));
      if (bad : bool) then Some (SPINE_ICMP_REPLY_BAD_HEADER, None) else
      type ← rd reply ihl;
      other ← (if negb (type =? ICMP_ECHOREPLY) then Some true else
               c ← rd reply (ihl + 1); Some (negb (c =? 0)));
      if (other : bool) then Some (SPINE_ICMP_REPLY_NOT_ECHO, None) else
      received_id ← rd16 reply (ihl + 4);
      received_seq ← rd16 reply (ihl + 6);
      if negb (received_id =? want_id) || negb (received_seq =? want_seq)
      then Some (SPINE_ICMP_REPLY_NOT_OURS, None)
      else Some (SPINE_ICMP_REPLY_OK, Some ihl)
  end.

Definition spine_icmp_classify_dgram_reply (reply : option (list ascii)) (len want_seq : Z) :
    option (spine_icmp_reply_t * option Z) :=
  match reply with
  | None => Some (SPINE_ICMP_REPLY_TOO_SHORT, None)
  | Some reply =>
      if len <? ICMP_HDR_SIZE then Some (SPINE_ICMP_REPLY_TOO_SHORT, None) else
      type ← rd reply 0;
      other ← (if negb (type =? ICMP_ECHOREPLY) then Some true else
               c ← rd reply 1; Some (negb (c =? 0)));
      if (other : bool) then Some (SPINE_ICMP_REPLY_NOT_ECHO, None) else
      received_seq ← rd16 reply 6;
      if negb (received_seq =? want_seq) then Some (SPINE_ICMP_REPLY_NOT_OURS, None)
      else Some (SPINE_ICMP_REPLY_OK, Some 0)
  end.

Definition icmp6_payload : cstr := $"cacti-monitoring-system".
Definition sizeof_icmp6_hdr : Z := 8.

(** [memcmp(reply + off, text, strlen(text)) == 0]. *)
Fixpoint memcmp_eq (reply : list ascii) (off : Z) (text : cstr) : option bool :=
  match text with
  | [] => Some true
  | c :: text' => b ← rd reply off; if b =? code c then memcmp_eq reply (off + 1) text' else Some false
  end.

(** The header is copied out first ([memcpy(&hdr, reply, sizeof(hdr))]). *)
Definition icmp6_reply_matches (reply : list ascii) (len id seq : Z) (check_id : bool) : option bool :=
  if (len <? 0) || (len <? sizeof_icmp6_hdr + slen icmp6_payload) then Some false else
  type ← rd reply 0; icmp6_id ← rd16 reply 4; icmp6_seq ← rd16 reply 6;
  if negb (type =? ICMP6_ECHO_REPLY) || negb (icmp6_seq =? seq) then Some false
  else if check_id && negb (icmp6_id =? id) then Some false
  else memcmp_eq reply sizeof_icmp6_hdr icmp6_payload.

End Reply.

(** * The shared raw sockets *)

Module Shared.
Import Reply.

Definition ICMP_SHARED_DRAIN_MAX : Z := 1024.
Definition ICMP_SHARED_BATCH : Z := 64.
Definition ICMP_SHARED_SNAPLEN : nat := 128.

Inductive family_t := AF_INET | AF_INET6.
#[global] Instance family_t_eq_dec : EqDecision family_t.
Proof. solve_decision. Defined.

(** The static part of [icmp_waiter_t].  [shared] is [icmp_shared] for [AF_INET] and
    [icmp6_shared] for [AF_INET6], so the family names the socket too; the peer is the
    address bytes of the family. *)
Record request := { rq_family : family_t; rq_id : Z; rq_seq : Z; rq_peer : list ascii }.

(** A registered waiter: the thread that owns it, the request, and its flags.
    [signalled] is the state of the condition variable [wake]; [mark] counts the
    replies dispatched before it registered and is only used to state properties. *)
Record icmp_waiter_t := {
  tid : nat; req : request; answered : bool; sleeping : bool; signalled : bool; mark : nat }.

Record datagram := { dg_family : family_t; dg_bytes : list ascii; dg_from : list ascii }.

(** Where a thread is between two critical sections: outside (no waiter registered),
    registered and not waiting, asleep on its condition variable, or reading the
    socket with [drained] datagrams taken in this pass. *)
Inductive pc := Outside | Registered | Asleep | Reading (drained : Z) (readable : bool).

Record state := {
  icmp_waiters : list icmp_waiter_t;
  reading : family_t → bool;
  pcs : nat → pc;
  dispatched : list datagram;
  returned : list (nat * bool)  (* results of [icmp_shared_await], oldest first *) }.

Definition set_answered (w : icmp_waiter_t) : icmp_waiter_t :=
  {| tid := tid w; req := req w; answered := true; sleeping := sleeping w;
     signalled := sleeping w; mark := mark w |}.
Definition set_sleeping (b : bool) (w : icmp_waiter_t) : icmp_waiter_t :=
  {| tid := tid w; req := req w; answered := answered w; sleeping := b; signalled := false; mark := mark w |}.
(** [pthread_cond_signal]: a signal to a condition nobody waits on is lost. *)
Definition cond_signal (w : icmp_waiter_t) : icmp_waiter_t :=
  {| tid := tid w; req := req w; answered := answered w; sleeping := sleeping w;
     signalled := sleeping w; mark := mark w |}.

(** Apply [f] to the first waiter that satisfies [p]. *)
Fixpoint update_first (p : icmp_waiter_t → bool) (f : icmp_waiter_t → icmp_waiter_t)
    (l : list icmp_waiter_t) : list icmp_waiter_t :=
  match l with
  | [] => []
  | w :: l' => if p w then f w :: l' else w :: update_first p f l'
  end.

Definition wants_wake (s : family_t) (w : icmp_waiter_t) : bool :=
  bool_decide (rq_family (req w) = s) && sleeping w && negb (answered w).

Definition icmp_shared_handoff (busy : bool) (s : family_t) (l : list icmp_waiter_t) : list icmp_waiter_t :=
  if busy then l else update_first (wants_wake s) cond_signal l.

(** The test the dispatcher makes of one waiter. *)
Definition answers (family : family_t) (d : datagram) (r : request) : bool :=
  let len := Z.of_nat (length (dg_bytes d)) in
  bool_decide (rq_family r = family) && bool_decide (dg_from d = rq_peer r) &&
  match family with
  | AF_INET => bool_decide (fst <$> spine_icmp_classify_reply (Some (dg_bytes d)) len (rq_id r) (rq_seq r)
                            = Some SPINE_ICMP_REPLY_OK)
  | AF_INET6 => bool_decide (icmp6_reply_matches (dg_bytes d) len (rq_id r) (rq_seq r) true = Some true)
  end.

Definition icmp_shared_dispatch (family : family_t) (d : datagram) (l : list icmp_waiter_t) : list icmp_waiter_t :=
  update_first (fun w => negb (answered w) && answers family d (req w)) set_answered l.

(** The dispatch loop over one batch; empty datagrams are skipped. *)
Fixpoint dispatch_batch (family : family_t) (ds : list datagram) (l : list icmp_waiter_t) : list icmp_waiter_t :=
  match ds with
  | [] => l
  | d :: ds' => dispatch_batch family ds' (if 0 <? Z.of_nat (length (dg_bytes d))
                                           then icmp_shared_dispatch family d l else l)
  end.

Definition icmp_shared_register (t : nat) (r : request) (m : nat) (l : list icmp_waiter_t) : list icmp_waiter_t :=
  {| tid := t; req := r; answered := false; sleeping := false; signalled := false; mark := m |} :: l.

Fixpoint remove_waiter (t : nat) (l : list icmp_waiter_t) : list icmp_waiter_t :=
  match l with
  | [] => []
  | w :: l' => if Nat.eqb (tid w) t then l' else w :: remove_waiter t l'
  end.

Definition icmp_shared_unregister (t : nat) (busy : bool) (s : family_t) (l : list icmp_waiter_t) : list icmp_waiter_t :=
  icmp_shared_handoff busy s (remove_waiter t l).

Definition find_waiter (t : nat) (l : list icmp_waiter_t) : option icmp_waiter_t :=
  List.find (fun w => Nat.eqb (tid w) t) l.

Definition upd {A} (f : nat → A) (t : nat) (v : A) : nat → A := fun u => if Nat.eqb u t then v else f u.
Definition updf {A} (f : family_t → A) (s : family_t) (v : A) : family_t → A :=
  fun u => if bool_decide (u = s) then v else f u.

(** The loop of [icmp_shared_await] from its test to the next release of LOCK_ICMP:
    the thread sleeps, starts to read, or returns after handing the socket over.
    [expired] is [now >= deadline] and [readable] is what [select] will return. *)
Definition await_head (t : nat) (w : icmp_waiter_t) (expired readable : bool)
    (waiters : list icmp_waiter_t) (busy : family_t → bool) (st : state) : state :=
  let s := rq_family (req w) in
  if negb (answered w) && negb expired then
    if busy s then
      {| icmp_waiters := update_first (fun v => Nat.eqb (tid v) t) (set_sleeping true) waiters;
         reading := busy; pcs := upd (pcs st) t Asleep;
         dispatched := dispatched st; returned := returned st |}
    else
      {| icmp_waiters := waiters; reading := updf busy s true; pcs := upd (pcs st) t (Reading 0 readable);
         dispatched := dispatched st; returned := returned st |}
  else
    {| icmp_waiters := icmp_shared_handoff (busy s) s waiters; reading := busy; pcs := upd (pcs st) t Registered;
       dispatched := dispatched st; returned := returned st ++ [(t, answered w)] |}.

(** The critical sections, with what the thread observed outside the lock. *)
Inductive event :=
| ERegister (t : nat) (r : request)
| EUnregister (t : nat)
| EAwait (t : nat) (expired readable : bool)
| EWake (t : nat) (expired readable : bool)       (* cond_timedwait returned, for any reason *)
| EBatch (t : nat) (batch : list (list ascii * list ascii)) (* (bytes, source) read without the lock *)
| EDone (t : nat) (expired readable : bool).      (* the pass is over: [reading = FALSE] and loop *)

Definition snap (family : family_t) (x : list ascii * list ascii) : datagram :=
  {| dg_family := family; dg_bytes := take ICMP_SHARED_SNAPLEN (fst x); dg_from := snd x |}.

(** One critical section; [None] when the thread is not at that point. *)
Definition icmp_step (st : state) (e : event) : option state :=
  match e with
  | ERegister t r =>
      match pcs st t with
      | Outside => Some {| icmp_waiters := icmp_shared_register t r (length (dispatched st)) (icmp_waiters st);
                           reading := reading st; pcs := upd (pcs st) t Registered;
                           dispatched := dispatched st; returned := returned st |}
      | _ => None
      end
  | EUnregister t =>
      match pcs st t, find_waiter t (icmp_waiters st) with
      | Registered, Some w =>
          let s := rq_family (req w) in
          Some {| icmp_waiters := icmp_shared_unregister t (reading st s) s (icmp_waiters st);
                  reading := reading st; pcs := upd (pcs st) t Outside;
                  dispatched := dispatched st; returned := returned st |}
      | _, _ => None
      end
  | EAwait t expired readable =>
      match pcs st t, find_waiter t (icmp_waiters st) with
      | Registered, Some w => Some (await_head t w expired readable (icmp_waiters st) (reading st) st)
      | _, _ => None
      end
  | EWake t expired readable =>
      match pcs st t, find_waiter t (icmp_waiters st) with
      | Asleep, Some w =>
          Some (await_head t w expired readable
                  (update_first (fun v => Nat.eqb (tid v) t) (set_sleeping false) (icmp_waiters st)) (reading st) st)
      | _, _ => None
      end
  | EBatch t batch =>
      match pcs st t, find_waiter t (icmp_waiters st) with
      | Reading drained true, Some w =>
          let s := rq_family (req w) in
          let count := Z.of_nat (length batch) in
          if (drained <? ICMP_SHARED_DRAIN_MAX) && (count <=? ICMP_SHARED_BATCH) then
            Some {| icmp_waiters := dispatch_batch s (map (snap s) batch) (icmp_waiters st);
                    reading := reading st;
                    pcs := upd (pcs st) t (Reading (drained + count) (count =? ICMP_SHARED_BATCH));
                    dispatched := dispatched st ++ map (snap s) batch; returned := returned st |}
          else None
      | _, _ => None
      end
  | EDone t expired readable =>
      match pcs st t, find_waiter t (icmp_waiters st) with
      | Reading drained more, Some w =>
          if more && (drained <? ICMP_SHARED_DRAIN_MAX) then None
          else Some (await_head t w expired readable (icmp_waiters st) (updf (reading st) (rq_family (req w)) false) st)
      | _, _ => None
      end
  end.

Definition initial : state :=
  {| icmp_waiters := []; reading := fun _ => false; pcs := fun _ => Outside; dispatched := []; returned := [] |}.

Inductive reachable : state → Prop :=
| reach_init : reachable initial
| reach_step st e st' : reachable st → icmp_step st e = Some st' → reachable st'.

(** Run a schedule. *)
Fixpoint run (st : state) (es : list event) : option state :=
  match es with
  | [] => Some st
  | e :: es' => st' ← icmp_step st e; run st' es'
  end.

End Shared.
