(* ===== verification/IcmpFacts.v ===== *)
(** Facts about ICMP replies and the shared raw sockets of [Icmp]: the classifiers
    never read outside the received bytes and accept exactly the echo replies; in every
    interleaving of the poller threads a socket has at most one reader, no wake-up is
    lost, and a ping succeeds only on a reply that answers it. *)

From S2P Require Import Prelude CLib Address Icmp.
Import Reply Shared.

Module ReplyFacts.

Lemma rd_lt b i : 0 ≤ i < Z.of_nat (length b) → ∃ c, b !! Z.to_nat i = Some c ∧ rd b i = Some (code c).
Proof.
  intros H. unfold rd. rewrite (proj2 (Z.ltb_ge _ _)) by lia.
  destruct (lookup_lt_is_Some_2 b (Z.to_nat i)) as [c E]; [lia|]. exists c. by rewrite E.
Qed.
Lemma rd_total b i : 0 ≤ i < Z.of_nat (length b) → ∃ v, rd b i = Some v.
Proof. intros H. destruct (rd_lt b i H) as (c & _ & E). eauto. Qed.
Lemma rd16_total b i : 0 ≤ i → i + 1 < Z.of_nat (length b) → ∃ v, rd16 b i = Some v.
Proof.
  intros H1 H2. unfold rd16. destruct (rd_total b i) as [x ->]; [lia|].
  destruct (rd_total b (i + 1)) as [y ->]; [lia|]. cbn. eauto.
Qed.

(** Reading at an offset is reading past a prefix of that length. *)
Lemma rd_app p b i : 0 ≤ i → rd (p ++ b) (Z.of_nat (length p) + i) = rd b i.
Proof.
  intros H. unfold rd. rewrite !(proj2 (Z.ltb_ge _ _)) by lia.
  rewrite lookup_app_r by lia. f_equal. f_equal. lia.
Qed.
Lemma rd_app_0 p b : rd (p ++ b) (Z.of_nat (length p)) = rd b 0.
Proof. rewrite <- (rd_app p b 0) by lia. f_equal. lia. Qed.
Lemma rd16_app p b i : 0 ≤ i → rd16 (p ++ b) (Z.of_nat (length p) + i) = rd16 b i.
Proof. intros H. unfold rd16. rewrite <- Z.add_assoc, !rd_app by lia. done. Qed.

(** The two bytes of a 16-bit value in the order a little-endian host stores it. *)
Definition le16 (v : Z) : list ascii := [byte_of v; byte_of (v / 256)].

Lemma le16_val v : 0 ≤ v < 65536 → code (byte_of v) + 256 * code (byte_of (v / 256)) = v.
Proof.
  intros H. rewrite !code_byte_of. pose proof (Z.div_mod v 256 ltac:(lia)).
  rewrite (Z.mod_small (v / 256)); [lia|].
  split; [apply Z.div_pos|apply Z.div_lt_upper_bound]; lia.
Qed.
Lemma le16_bytes a b : le16 (code a + 256 * code b) = [a; b].
Proof.
  unfold le16. pose proof (code_range a). pose proof (code_range b). f_equal; [|f_equal]; apply code_inj; rewrite code_byte_of.
  - rewrite Z.mul_comm, Z.mod_add by lia. by apply Z.mod_small.
  - rewrite Z.mul_comm, Z.div_add by lia. rewrite (Z.div_small (code a)) by lia. by apply Z.mod_small.
Qed.
Lemma rd16_le16 v r : 0 ≤ v < 65536 → rd16 (le16 v ++ r) 0 = Some v.
Proof.
  intros H. change (rd16 (le16 v ++ r) 0) with (Some (code (byte_of v) + 256 * code (byte_of (v / 256)))).
  by rewrite le16_val.
Qed.

Lemma land_15 c : Z.land (code c) 15 = code c mod 16.
Proof. change 15 with (Z.ones 4). by rewrite Z.land_ones. Qed.
Lemma shl2 v : Z.shiftl v 2 = 4 * v.
Proof. rewrite Z.shiftl_mul_pow2 by lia. lia. Qed.

(** ** The shape of the replies *)

(** An IPv4 packet that carries an ICMP echo reply with this identifier and sequence:
    a header of 20 to 60 bytes whose version is 4, whose length field is its length
    and whose protocol is ICMP; then type 0, code 0, a checksum, the identifier, the
    sequence and any payload. *)
Definition ip_header (hdr : list ascii) : Prop :=
  ∃ b0, hdr !! 0%nat = Some b0 ∧ code b0 / 16 = 4 ∧ Z.of_nat (length hdr) = 4 * (code b0 mod 16) ∧
    (20 ≤ length hdr)%nat ∧ hdr !! 9%nat = Some (byte_of IPPROTO_ICMP).
Definition echo_reply (id seq : Z) (bytes : list ascii) : Prop :=
  ∃ ck payload, length ck = 2%nat ∧
    bytes = [byte_of ICMP_ECHOREPLY; byte_of 0] ++ ck ++ le16 id ++ le16 seq ++ payload.
Definition ip_echo_reply (ihl id seq : Z) (bytes : list ascii) : Prop :=
  ∃ hdr body, bytes = hdr ++ body ∧ ip_header hdr ∧ Z.of_nat (length hdr) = ihl ∧ echo_reply id seq body.

(** The first eight bytes of a message that is long enough. *)
Lemma eight_bytes (b : list ascii) :
  (8 ≤ length b)%nat → ∃ c0 c1 c2 c3 c4 c5 c6 c7 r, b = [c0; c1; c2; c3; c4; c5; c6; c7] ++ r.
Proof.
  intros H. do 8 (destruct b as [|? b]; [cbn in H; lia|]). by do 9 eexists.
Qed.

Lemma echo_reply_iff id seq c0 c1 c2 c3 c4 c5 c6 c7 r :
  0 ≤ id < 65536 → 0 ≤ seq < 65536 →
  echo_reply id seq ([c0; c1; c2; c3; c4; c5; c6; c7] ++ r) ↔
  code c0 = ICMP_ECHOREPLY ∧ code c1 = 0 ∧ code c4 + 256 * code c5 = id ∧ code c6 + 256 * code c7 = seq.
Proof.
  intros Hi Hs. split.
  - intros (ck & pl & Hck & E). destruct ck as [|k0 [|k1 [|? ?]]]; try (cbn in Hck; lia).
    cbn in E. injection E as -> -> -> -> -> -> -> -> ->. rewrite !le16_val by done. done.
  - intros (H0 & H1 & <- & <-). exists [c2; c3], r. split; [done|]. rewrite !le16_bytes.
    rewrite <- H0, <- H1. by rewrite !byte_of_code.
Qed.

(** ** Totality and exactness *)

Lemma classify_body id seq ihl p b :
  (8 ≤ length b)%nat → ihl = Z.of_nat (length p) → 0 ≤ id < 65536 → 0 ≤ seq < 65536 →
  let r := (type ← rd (p ++ b) ihl;
      other ← (if negb (type =? ICMP_ECHOREPLY) then Some true else
               c ← rd (p ++ b) (ihl + 1); Some (negb (c =? 0)));
      if (other : bool) then Some (SPINE_ICMP_REPLY_NOT_ECHO, None) else
      received_id ← rd16 (p ++ b) (ihl + 4);
      received_seq ← rd16 (p ++ b) (ihl + 6);
      if negb (received_id =? id) || negb (received_seq =? seq)
      then Some (SPINE_ICMP_REPLY_NOT_OURS, None)
      else Some (SPINE_ICMP_REPLY_OK, Some ihl)) in
  is_Some r ∧ ∀ o, r = Some (SPINE_ICMP_REPLY_OK, o) ↔ o = Some ihl ∧ echo_reply id seq b.
Proof.
  intros Hb -> Hi Hs. destruct (eight_bytes b Hb) as (c0 & c1 & c2 & c3 & c4 & c5 & c6 & c7 & r & ->).
  rewrite rd_app_0, !rd_app, !rd16_app by lia. set (b := [c0; c1; c2; c3; c4; c5; c6; c7] ++ r).
  change (rd b 0) with (Some (code c0)). change (rd b 1) with (Some (code c1)).
  change (rd16 b 4) with (Some (code c4 + 256 * code c5)). change (rd16 b 6) with (Some (code c6 + 256 * code c7)).
  unfold b. clear Hb b. pose proof (echo_reply_iff id seq c0 c1 c2 c3 c4 c5 c6 c7 r Hi Hs) as Hiff.
  cbn [mbind option_bind].
  destruct (Z.eqb_spec (code c0) ICMP_ECHOREPLY); cbn; [|split; [eauto|naive_solver]].
  destruct (Z.eqb_spec (code c1) 0); cbn; [|split; [eauto|naive_solver]].
  destruct (Z.eqb_spec (code c4 + 256 * code c5) id); cbn; [|split; [eauto|naive_solver]].
  destruct (Z.eqb_spec (code c6 + 256 * code c7) seq); cbn; (split; [eauto|naive_solver]).
Qed.


Lemma split_header (b : list ascii) (ihl : Z) :
  0 ≤ ihl → ihl + ICMP_HDR_SIZE ≤ Z.of_nat (length b) →
  ∃ p q, b = p ++ q ∧ ihl = Z.of_nat (length p) ∧ (8 ≤ length q)%nat.
Proof.
  intros H0 H. unfold ICMP_HDR_SIZE in H. exists (take (Z.to_nat ihl) b), (drop (Z.to_nat ihl) b).
  rewrite take_drop, length_take, length_drop. split; [done|]. lia.
Qed.

Lemma echo_reply_length id seq b : echo_reply id seq b → (8 ≤ length b)%nat.
Proof. intros (ck & pl & H & ->). rewrite !length_app. cbn. lia. Qed.

(** The shape of a reply, read off its bytes. *)
Lemma ip_echo_reply_iff ihl id seq bytes :
  ip_echo_reply ihl id seq bytes ↔ ∃ b0 pr, bytes !! 0%nat = Some b0 ∧ bytes !! 9%nat = Some pr ∧
    code b0 / 16 = 4 ∧ code pr = IPPROTO_ICMP ∧ ihl = 4 * (code b0 mod 16) ∧ 20 ≤ ihl ∧
    ihl + 8 ≤ Z.of_nat (length bytes) ∧ echo_reply id seq (drop (Z.to_nat ihl) bytes).
Proof.
  split.
  - intros (hdr & body & -> & (b0 & H0 & Hv & Hl & H20 & H9) & <- & He). exists b0, (byte_of IPPROTO_ICMP).
    rewrite !lookup_app_l by lia. rewrite Nat2Z.id, drop_app_length, length_app.
    apply echo_reply_length in He as ?. split_and!; try done; lia.
  - intros (b0 & pr & H0 & H9 & Hv & Hp & -> & H20 & Hl & He).
    exists (take (Z.to_nat (4 * (code b0 mod 16))) bytes), (drop (Z.to_nat (4 * (code b0 mod 16))) bytes).
    rewrite take_drop. split; [done|]. rewrite length_take. split; [|split; [lia|done]].
    exists b0. rewrite !lookup_take_lt, length_take by lia. split_and!; try done; try lia.
    rewrite <- Hp. by rewrite byte_of_code.
Qed.

Ltac reject_reply :=
  cbn [mbind option_bind]; split; [eauto|]; intros ?; split; [intros [=]|];
  intros (? & -> & H); apply ip_echo_reply_iff in H as (? & ? & ? & ? & ? & ? & ? & ? & ? & _); simplify_eq; lia.

Lemma classify_reply_exact bytes id seq :
  0 ≤ id < 65536 → 0 ≤ seq < 65536 →
  let r := spine_icmp_classify_reply (Some bytes) (Z.of_nat (length bytes)) id seq in
  is_Some r ∧ ∀ o, r = Some (SPINE_ICMP_REPLY_OK, o) ↔ ∃ ihl, o = Some ihl ∧ ip_echo_reply ihl id seq bytes.
Proof.
  intros Hi Hs. unfold spine_icmp_classify_reply.
  destruct (Z.ltb_spec (Z.of_nat (length bytes)) sizeof_ip) as [Hsz|Hsz]; unfold sizeof_ip in *; [reject_reply|].
  destruct (rd_lt bytes 0) as (b0 & Hb0 & ->); [lia|]. destruct (rd_lt bytes 9) as (pr & Hpr & ->); [lia|].
  cbn [mbind option_bind]. rewrite land_15, shl2, Z.shiftr_div_pow2 by lia. change (2 ^ 4) with 16.
  change (Z.to_nat 0) with 0%nat in Hb0. change (Z.to_nat 9) with 9%nat in Hpr.
  destruct (Z.eqb_spec (code b0 / 16) 4) as [Ev|Ev]; cbn [negb]; [|reject_reply].
  cbn [mbind option_bind].
  destruct (Z.eqb_spec (code pr) IPPROTO_ICMP) as [Ep|Ep]; cbn [negb orb]; [|reject_reply].
  destruct (Z.ltb_spec (4 * (code b0 mod 16)) 20) as [El|El]; cbn [orb]; [reject_reply|].
  destruct (Z.ltb_spec (Z.of_nat (length bytes)) (4 * (code b0 mod 16) + ICMP_HDR_SIZE)) as [Eh|Eh];
    unfold ICMP_HDR_SIZE in Eh; [reject_reply|].
  destruct (split_header bytes (4 * (code b0 mod 16))) as (p & q & -> & Hl & Hq); [lia|done|].
  destruct (classify_body id seq _ p q Hq Hl Hi Hs) as [Htot Hok]. split; [done|].
  intros o. rewrite (Hok o). rewrite Hl. split.
  - intros [-> He]. eexists. split; [done|]. apply ip_echo_reply_iff. exists b0, pr.
    rewrite Nat2Z.id, drop_app_length. split_and!; try done; lia.
  - intros (ihl & -> & H). apply ip_echo_reply_iff in H as (? & ? & ? & ? & ? & ? & E & ? & ? & He).
    simplify_eq. rewrite Hl, Nat2Z.id, drop_app_length in He. by rewrite Hl.
Qed.

Lemma classify_dgram_exact bytes seq :
  0 ≤ seq < 65536 →
  let r := spine_icmp_classify_dgram_reply (Some bytes) (Z.of_nat (length bytes)) seq in
  is_Some r ∧ ∀ o, r = Some (SPINE_ICMP_REPLY_OK, o) ↔
    o = Some 0 ∧ ∃ id, 0 ≤ id < 65536 ∧ echo_reply id seq bytes.
Proof.
  intros Hs. unfold spine_icmp_classify_dgram_reply, ICMP_HDR_SIZE.
  destruct (Z.ltb_spec (Z.of_nat (length bytes)) 8) as [Hl|Hl].
  { split; [eauto|]. intros o. split; [intros [=]|]. intros (_ & id & _ & H). apply echo_reply_length in H. lia. }
  destruct (eight_bytes bytes) as (c0 & c1 & c2 & c3 & c4 & c5 & c6 & c7 & r & ->); [lia|].
  set (b := [c0; c1; c2; c3; c4; c5; c6; c7] ++ r).
  change (rd b 0) with (Some (code c0)). change (rd b 1) with (Some (code c1)).
  change (rd16 b 6) with (Some (code c6 + 256 * code c7)). unfold b. cbn [mbind option_bind].
  pose proof (code_range c4). pose proof (code_range c5).
  pose proof (fun id Hi => echo_reply_iff id seq c0 c1 c2 c3 c4 c5 c6 c7 r Hi Hs) as Hiff.
  pose proof (Hiff (code c4 + 256 * code c5) ltac:(lia)).
  destruct (Z.eqb_spec (code c0) ICMP_ECHOREPLY); cbn; [|split; [eauto|naive_solver]].
  destruct (Z.eqb_spec (code c1) 0); cbn; [|split; [eauto|naive_solver]].
  destruct (Z.eqb_spec (code c6 + 256 * code c7) seq); cbn; (split; [eauto|]); [|naive_solver].
  intros o. split; [intros [= <-]|intros [-> _]; done]. split; [done|]. exists (code c4 + 256 * code c5). split; [lia|naive_solver].
Qed.

(** An ICMPv6 echo reply that carries our marker. *)
Definition echo_reply6 (id seq : Z) (bytes : list ascii) : Prop :=
  ∃ c ck rest, length ck = 2%nat ∧
    bytes = [byte_of ICMP6_ECHO_REPLY; c] ++ ck ++ le16 id ++ le16 seq ++ icmp6_payload ++ rest.

Lemma memcmp_eq_iff text : ∀ p b,
  (length text ≤ length b)%nat →
  ∃ v, memcmp_eq (p ++ b) (Z.of_nat (length p)) text = Some v ∧ (v = true ↔ ∃ rest, b = text ++ rest).
Proof.
  induction text as [|t text IH]; intros p b Hl; cbn [memcmp_eq].
  { exists true. split; [done|]. split; [by exists b|done]. }
  destruct b as [|c b]; [cbn in Hl; lia|]. rewrite rd_app_0. change (rd (c :: b) 0) with (Some (code c)).
  cbn [mbind option_bind]. destruct (Z.eqb_spec (code c) (code t)) as [E|E].
  - apply code_inj in E as ->. destruct (IH (p ++ [t]) b) as (v & Hv & Hiff); [cbn in Hl; lia|].
    rewrite <- app_assoc, length_app in Hv. cbn in Hv. exists v. split.
    + rewrite <- Hv. f_equal. lia.
    + rewrite Hiff. split; intros [rest H]; exists rest; [by rewrite H|by injection H].
  - exists false. split; [done|]. split; [done|]. intros [rest [= -> _]]. done.
Qed.

Lemma icmp6_matches_exact bytes id seq :
  0 ≤ id < 65536 → 0 ≤ seq < 65536 →
  ∃ v, icmp6_reply_matches bytes (Z.of_nat (length bytes)) id seq true = Some v ∧ (v = true ↔ echo_reply6 id seq bytes).
Proof.
  intros Hi Hs. unfold icmp6_reply_matches, sizeof_icmp6_hdr, slen. rewrite (proj2 (Z.ltb_ge _ 0)) by lia. cbn [orb].
  destruct (Z.ltb_spec (Z.of_nat (length bytes)) (8 + Z.of_nat (length icmp6_payload))) as [Hl|Hl].
  { exists false. split; [done|]. split; [done|]. intros (c & ck & rest & Hck & ->). rewrite !length_app in Hl. cbn [length le16] in Hl. lia. }
  destruct (eight_bytes bytes) as (c0 & c1 & c2 & c3 & c4 & c5 & c6 & c7 & r & ->); [lia|].
  set (b := [c0; c1; c2; c3; c4; c5; c6; c7] ++ r) in *.
  change (rd b 0) with (Some (code c0)). change (rd16 b 4) with (Some (code c4 + 256 * code c5)).
  change (rd16 b 6) with (Some (code c6 + 256 * code c7)). unfold b in *. clear b. cbn [mbind option_bind].
  assert (Hiff : echo_reply6 id seq ([c0; c1; c2; c3; c4; c5; c6; c7] ++ r) ↔
    code c0 = ICMP6_ECHO_REPLY ∧ code c4 + 256 * code c5 = id ∧ code c6 + 256 * code c7 = seq ∧ ∃ rest, r = icmp6_payload ++ rest).
  { split.
    - intros (c & ck & rest & Hck & E). destruct ck as [|k0 [|k1 [|? ?]]]; try (cbn in Hck; lia).
      cbn [app le16] in E. injection E as -> -> -> -> -> -> -> -> ->. rewrite !le16_val by done. eauto.
    - intros (H0 & <- & <- & rest & ->). exists c1, [c2; c3], rest. split; [done|]. rewrite !le16_bytes.
      rewrite <- H0. by rewrite byte_of_code. }
  setoid_rewrite Hiff. destruct (Z.eqb_spec (code c0) ICMP6_ECHO_REPLY); cbn [negb orb]; [|exists false; naive_solver].
  destruct (Z.eqb_spec (code c6 + 256 * code c7) seq); cbn [negb]; [|exists false; naive_solver].
  destruct (Z.eqb_spec (code c4 + 256 * code c5) id); cbn [negb andb]; [|exists false; naive_solver].
  destruct (memcmp_eq_iff icmp6_payload [c0; c1; c2; c3; c4; c5; c6; c7] r) as (v & Hv & Hr).
  { rewrite length_app in Hl. cbn [length] in *. lia. }
  exists v. change (Z.of_nat (length [c0; c1; c2; c3; c4; c5; c6; c7])) with 8 in Hv. rewrite Hv. split; [done|]. rewrite Hr. naive_solver.
Qed.

End ReplyFacts.

(** * The shared sockets *)

Module SharedFacts.

(** ** Lists of waiters *)

Lemma Forall2_in_r {A} (R : A → A → Prop) l l' y : Forall2 R l l' → y ∈ l' → ∃ x, x ∈ l ∧ R x y.
Proof.
  intros H. induction H as [|a b l l' Hab H IH]; intros Hy; [by apply not_elem_of_nil in Hy|].
  apply elem_of_cons in Hy as [->|Hy]; [exists a; split; [left|done]|].
  destruct (IH Hy) as (x & Hx & HR). exists x. split; [by right|done].
Qed.
Lemma Forall2_in_l {A} (R : A → A → Prop) l l' x : Forall2 R l l' → x ∈ l → ∃ y, y ∈ l' ∧ R x y.
Proof.
  intros H Hx. apply (Forall2_in_r (fun a b => R b a) l' l); [|done]. by apply Forall2_flip.
Qed.

(** [w'] is [w] after some signals and answers of the threads of socket [s]. *)
Definition ev (s : family_t) (w w' : icmp_waiter_t) : Prop :=
  tid w' = tid w ∧ req w' = req w ∧ mark w' = mark w ∧ sleeping w' = sleeping w ∧
  (answered w = true → answered w' = true) ∧ (signalled w' = true → signalled w = true ∨ sleeping w = true) ∧
  (rq_family (req w) ≠ s → w' = w).

Lemma ev_refl s w : ev s w w.
Proof. unfold ev. split_and!; auto. Qed.
Lemma ev_trans s a b c : ev s a b → ev s b c → ev s a c.
Proof.
  intros (?&?&?&?&?&Hs1&E1) (?&?&?&?&?&Hs2&E2). unfold ev. split_and!; try congruence; auto.
  - intros Hc. destruct (Hs2 Hc) as [H'|H']; [auto|right; congruence].
  - intros Hn. assert (b = a) by auto. subst. auto.
Qed.
Lemma ev_list_refl s l : Forall2 (ev s) l l.
Proof. induction l; constructor; auto using ev_refl. Qed.
Lemma ev_list_trans s a b c : Forall2 (ev s) a b → Forall2 (ev s) b c → Forall2 (ev s) a c.
Proof.
  intros H1. revert c. induction H1 as [|x y a b Hxy H1 IH]; intros c H2; inversion H2; subst; constructor;
    eauto using ev_trans.
Qed.

Lemma update_first_ev s p f l :
  (∀ w, w ∈ l → p w = true → ev s w (f w)) → Forall2 (ev s) l (update_first p f l).
Proof.
  induction l as [|w l IH]; intros H; cbn; [constructor|]. destruct (p w) eqn:E.
  - constructor; [apply H; [left|done]|apply ev_list_refl].
  - constructor; [apply ev_refl|]. apply IH. intros v Hv. apply H. by right.
Qed.

Lemma handoff_ev busy s l : Forall2 (ev s) l (icmp_shared_handoff busy s l).
Proof.
  unfold icmp_shared_handoff. destruct busy; [apply ev_list_refl|]. apply update_first_ev.
  intros w _ H. unfold wants_wake in H. bool_to_prop. unfold ev. cbn. split_and!; auto. congruence.
Qed.

(** After a handoff of an idle socket, a sleeping unanswered waiter means that one of
    them has been signalled. *)
Lemma handoff_wakes s l :
  (∃ w, w ∈ icmp_shared_handoff false s l ∧ wants_wake s w = true) →
  ∃ w, w ∈ icmp_shared_handoff false s l ∧ wants_wake s w = true ∧ signalled w = true.
Proof.
  unfold icmp_shared_handoff. induction l as [|v l IH]; cbn; intros (w & Hin & Hw); [by apply not_elem_of_nil in Hin|].
  destruct (wants_wake s v) eqn:E.
  - exists (cond_signal v). split; [left|]. split; [done|]. unfold wants_wake in E. bool_to_prop. done.
  - apply elem_of_cons in Hin as [->|Hin]; [congruence|].
    destruct IH as (x & Hx & Hx'); [eauto|]. exists x. split; [by right|done].
Qed.

Lemma update_first_signal p l w : w ∈ update_first p cond_signal l →
  ∃ v, v ∈ l ∧ req w = req v ∧ mark w = mark v ∧ answered w = answered v.
Proof.
  induction l as [|v l IH]; cbn; [intros H; by apply not_elem_of_nil in H|]. destruct (p v).
  - intros [->|Hw]%elem_of_cons; [exists v|exists w]; (split; [by constructor|done]).
  - intros [->|Hw]%elem_of_cons; [exists v; split; [left|done]|]. destruct (IH Hw) as (u & Hu & ?). exists u. split; [by right|done].
Qed.

Lemma handoff_keeps busy s l w : w ∈ icmp_shared_handoff busy s l →
  ∃ v, v ∈ l ∧ req w = req v ∧ mark w = mark v ∧ answered w = answered v.
Proof. unfold icmp_shared_handoff. destruct busy; [eauto|apply update_first_signal]. Qed.

Lemma dispatch_ev s d l : Forall2 (ev s) l (icmp_shared_dispatch s d l).
Proof.
  apply update_first_ev. intros w _ H. unfold answers in H. bool_to_prop. unfold ev. cbn. split_and!; auto. congruence.
Qed.
Lemma dispatch_batch_ev s ds : ∀ l, Forall2 (ev s) l (dispatch_batch s ds l).
Proof.
  induction ds as [|d ds IH]; intros l; cbn; [apply ev_list_refl|].
  eapply ev_list_trans; [|apply IH]. case_match; [apply dispatch_ev|apply ev_list_refl].
Qed.

(** Whoever is answered after a batch was answered before or by a datagram of it. *)
Lemma dispatch_answered s d l w : w ∈ icmp_shared_dispatch s d l → answered w = true →
  (∃ v, v ∈ l ∧ tid v = tid w ∧ req v = req w ∧ mark v = mark w ∧ answered v = true) ∨ answers s d (req w) = true.
Proof.
  unfold icmp_shared_dispatch. induction l as [|v l IH]; cbn; intros Hin Ha; [by apply not_elem_of_nil in Hin|].
  destruct (negb (answered v) && answers s d (req v)) eqn:E.
  - bool_to_prop. apply elem_of_cons in Hin as [->|Hin]; [by right|].
    left. exists w. split; [by right|done].
  - apply elem_of_cons in Hin as [->|Hin].
    + left. exists v. split; [left|done].
    + destruct (IH Hin Ha) as [(u & Hu & ?)|?]; [|by right]. left. exists u. split; [by right|done].
Qed.
Lemma dispatch_batch_answered s ds : ∀ l w, w ∈ dispatch_batch s ds l → answered w = true →
  (∃ v, v ∈ l ∧ tid v = tid w ∧ req v = req w ∧ mark v = mark w ∧ answered v = true) ∨
  ∃ d, d ∈ ds ∧ answers s d (req w) = true.
Proof.
  induction ds as [|d ds IH]; intros l w Hin Ha; cbn in Hin; [left; eauto 10|].
  destruct (IH _ _ Hin Ha) as [(v & Hv & E1 & E2 & E3 & Hva)|(d' & Hd' & ?)];
    [|right; exists d'; split; [by right|done]].
  case_match; [|left; eauto 10].
  destruct (dispatch_answered _ _ _ _ Hv Hva) as [(u & ? & ? & ? & ? & ?)|Hd].
  - left. exists u. split_and!; congruence.
  - right. exists d. split; [left|congruence].
Qed.

Lemma find_waiter_in t l w : find_waiter t l = Some w → w ∈ l ∧ tid w = t.
Proof.
  intros H. apply List.find_some in H as [H1 H2]. split; [by apply list_elem_of_In|]. by apply Nat.eqb_eq.
Qed.
Lemma find_waiter_is l w : NoDup (tid <$> l) → w ∈ l → find_waiter (tid w) l = Some w.
Proof.
  unfold find_waiter. induction l as [|v l IH]; intros Hn Hw; [by apply not_elem_of_nil in Hw|].
  apply list.NoDup_cons in Hn as [Hv Hn]. cbn. apply elem_of_cons in Hw as [->|Hw]; [by rewrite Nat.eqb_refl|].
  destruct (Nat.eqb_spec (tid v) (tid w)) as [E|]; [|by apply IH]. destruct Hv. rewrite E. by apply list_elem_of_fmap_2.
Qed.
Lemma tid_inj l w v : NoDup (tid <$> l) → w ∈ l → v ∈ l → tid w = tid v → w = v.
Proof.
  intros Hn Hw Hv E. pose proof (find_waiter_is _ _ Hn Hw) as H1. pose proof (find_waiter_is _ _ Hn Hv) as H2.
  rewrite E in H1. congruence.
Qed.

(** ** The invariant

    [me] is the thread inside the critical section, if any: its own program point and
    flags are in flux, and its socket may be idle with nobody signalled. *)

Definition is_reading (p : pc) : bool := match p with Reading _ _ => true | _ => false end.
Definition family (w : icmp_waiter_t) : family_t := rq_family (req w).

Definition pc_ok (p : pc) (w : icmp_waiter_t) : Prop :=
  match p with
  | Outside => False
  | Registered => sleeping w = false
  | Asleep => sleeping w = true
  | Reading drained more => sleeping w = false ∧ 0 ≤ drained ≤ ICMP_SHARED_DRAIN_MAX ∧
                            (more = true → (64 | drained))
  end.

(** An answered waiter was answered by a datagram dispatched after it registered. *)
Definition log_ok (log : list datagram) (w : icmp_waiter_t) : Prop :=
  (mark w ≤ length log)%nat ∧
  (answered w = true → ∃ k d, (mark w ≤ k)%nat ∧ log !! k = Some d ∧ answers (family w) d (req w) = true).

Record inv (me : option nat) (ws : list icmp_waiter_t) (busy : family_t → bool) (pcs : nat → pc)
    (log : list datagram) : Prop := {
  i_nodup : NoDup (tid <$> ws);
  i_pc w : w ∈ ws → me ≠ Some (tid w) → pc_ok (pcs (tid w)) w;
  i_me t : me = Some t → ∃ w, w ∈ ws ∧ tid w = t ∧ sleeping w = false;
  i_out t : me ≠ Some t → pcs t ≠ Outside → ∃ w, w ∈ ws ∧ tid w = t;
  i_reading s : busy s = true ↔ ∃ w, w ∈ ws ∧ me ≠ Some (tid w) ∧ family w = s ∧ is_reading (pcs (tid w)) = true;
  i_one w v : w ∈ ws → v ∈ ws → me ≠ Some (tid w) → me ≠ Some (tid v) → family w = family v →
    is_reading (pcs (tid w)) = true → is_reading (pcs (tid v)) = true → tid w = tid v;
  i_sig w : w ∈ ws → signalled w = true → sleeping w = true;
  i_wake s : (∀ w, w ∈ ws → me = Some (tid w) → family w ≠ s) → busy s = false →
    (∃ w, w ∈ ws ∧ wants_wake s w = true) → ∃ w, w ∈ ws ∧ wants_wake s w = true ∧ signalled w = true;
  i_log w : w ∈ ws → log_ok log w }.

Definition Inv (st : state) : Prop := inv None (icmp_waiters st) (reading st) (pcs st) (dispatched st).

Lemma ev_tids s l l' : Forall2 (ev s) l l' → tid <$> l' = tid <$> l.
Proof. intros H. induction H as [|w w' l l' (E & _) _ IH]; [done|]. cbn. congruence. Qed.

(** Signals and answers to the waiters of one socket keep the invariant, if the
    wake-up and answer clauses are re-established. *)
Lemma inv_ev me ws ws' busy pcs log log' s :
  inv me ws busy pcs log → Forall2 (ev s) ws ws' →
  (busy s = false → (∀ w, w ∈ ws → me = Some (tid w) → family w ≠ s) →
     (∃ w, w ∈ ws' ∧ wants_wake s w = true) → ∃ w, w ∈ ws' ∧ wants_wake s w = true ∧ signalled w = true) →
  (∀ w, w ∈ ws' → log_ok log' w) →
  inv me ws' busy pcs log'.
Proof.
  intros I Hev Hwake Hans.
  assert (Hr : ∀ w', w' ∈ ws' → ∃ w, w ∈ ws ∧ ev s w w') by (intros; by eapply Forall2_in_r).
  assert (Hl : ∀ w, w ∈ ws → ∃ w', w' ∈ ws' ∧ ev s w w') by (intros; by eapply Forall2_in_l).
  constructor.
  - rewrite (ev_tids _ _ _ Hev). apply I.
  - intros w' Hw' Hme. destruct (Hr w' Hw') as (w & Hw & Et & _ & _ & Es & _). rewrite Et in *.
    pose proof (i_pc _ _ _ _ _ I w Hw Hme) as H. unfold pc_ok in *. by rewrite Es.
  - intros t E. destruct (i_me _ _ _ _ _ I t E) as (w & Hw & Et & Hs). destruct (Hl w Hw) as (w' & Hw' & ? & _ & _ & ? & _).
    exists w'. split_and!; congruence.
  - intros t Hme Hp. destruct (i_out _ _ _ _ _ I t Hme Hp) as (w & Hw & Et). destruct (Hl w Hw) as (w' & Hw' & ? & _).
    exists w'. split; congruence.
  - intros s0. rewrite (i_reading _ _ _ _ _ I s0). split.
    + intros (w & Hw & Hme & Hf & Hrd). destruct (Hl w Hw) as (w' & Hw' & Et & Er & _).
      exists w'. unfold family in *. rewrite Et, Er. done.
    + intros (w' & Hw' & Hme & Hf & Hrd). destruct (Hr w' Hw') as (w & Hw & Et & Er & _).
      exists w. unfold family in *. rewrite <- Et, <- Er. done.
  - intros a' b' Ha' Hb'. destruct (Hr a' Ha') as (a & Ha & Eta & Era & _), (Hr b' Hb') as (b & Hb & Etb & Erb & _).
    unfold family. rewrite Eta, Etb, Era, Erb. by apply I.
  - intros w' Hw' Hsg. destruct (Hr w' Hw') as (w & Hw & _ & _ & _ & Es & _ & Hs & _). rewrite Es.
    destruct (Hs Hsg); [by apply (i_sig _ _ _ _ _ I)|done].
  - intros s0 Hme Hb Hex. destruct (decide (s0 = s)) as [->|Hne].
    + apply Hwake; try done. intros w Hw E. destruct (Hl w Hw) as (w' & Hw' & Et & Er & _).
      unfold family. rewrite <- Er. apply Hme; [done|congruence].
    + assert (Hsame : ∀ w w', ev s w w' → family w' = s0 → w' = w).
      { intros w w' (_ & Er & _ & _ & _ & _ & Heq) Hf. apply Heq. unfold family in Hf. congruence. }
      assert (Hww : ∀ w, wants_wake s0 w = true → family w = s0) by (intros w Hw; unfold wants_wake in Hw; bool_to_prop; done).
      destruct (i_wake _ _ _ _ _ I s0) as (w & Hw & Hw1 & Hw2); [|done| |].
      * intros w Hw E. destruct (Hl w Hw) as (w' & Hw' & Et & Er & _). unfold family. rewrite <- Er. apply Hme; [done|congruence].
      * destruct Hex as (w' & Hw' & Hwk). destruct (Hr w' Hw') as (w & Hw & He). pose proof (Hsame _ _ He (Hww _ Hwk)) as ->. eauto.
      * destruct (Hl w Hw) as (w' & Hw' & He). exists w'.
        assert (w' = w) as -> by (apply Hsame; [done|destruct He as (_ & Er & _); unfold family; rewrite Er; by apply Hww]). done.
  - done.
Qed.

(** ** Entering and leaving the critical section *)

Lemma upd_same {A} (f : nat → A) t v : upd f t v t = v.
Proof. unfold upd. by rewrite Nat.eqb_refl. Qed.
Lemma upd_other {A} (f : nat → A) t v u : u ≠ t → upd f t v u = f u.
Proof. intros H. unfold upd. by rewrite (proj2 (Nat.eqb_neq _ _) H). Qed.
Lemma updf_same {A} (f : family_t → A) s v : updf f s v s = v.
Proof. unfold updf. by rewrite bool_decide_eq_true_2. Qed.
Lemma updf_other {A} (f : family_t → A) s v u : u ≠ s → updf f s v u = f u.
Proof. intros H. unfold updf. by rewrite bool_decide_eq_false_2. Qed.

(** Changing the sleeping flag of thread [t]. *)
Definition set_own (t : nat) (b : bool) := update_first (fun v => Nat.eqb (tid v) t) (set_sleeping b).

Lemma set_own_tids t b l : tid <$> set_own t b l = tid <$> l.
Proof. induction l as [|w l IH]; [done|]. cbn. destruct (Nat.eqb _ _); cbn; [done|by f_equal]. Qed.
Lemma set_own_elem t b l w : NoDup (tid <$> l) →
  w ∈ set_own t b l ↔ (w ∈ l ∧ tid w ≠ t) ∨ ∃ v, v ∈ l ∧ tid v = t ∧ w = set_sleeping b v.
Proof.
  induction l as [|v l IH]; intros Hn; [cbn; split; [intros H|intros [[H _]|(? & H & _)]]; by apply not_elem_of_nil in H|].
  apply list.NoDup_cons in Hn as [Hv Hn]. cbn. setoid_rewrite elem_of_cons.
  assert (Hnt : ∀ u, u ∈ l → tid u ≠ tid v) by (intros u Hu E; apply Hv; rewrite <- E; by apply list_elem_of_fmap_2).
  destruct (Nat.eqb_spec (tid v) t) as [<-|Hne]; rewrite elem_of_cons.
  - split; [intros [->|Hw]; [right; eauto|left; split; [by right|by apply Hnt]]|].
    intros [[[->|Hw] Hw']|(u & [->|Hu] & Hut & ->)]; [done|by right|by left|by destruct (Hnt u Hu)].
  - fold (set_own t b l). rewrite (IH Hn). naive_solver.
Qed.

Lemma enter_registered t ws busy pcs log w :
  inv None ws busy pcs log → find_waiter t ws = Some w → pcs t = Registered → inv (Some t) ws busy pcs log.
Proof.
  intros I Hf Hp. apply find_waiter_in in Hf as [Hw Et]. destruct I as [I1 I2 I3 I4 I5 I6 I7 I8 I9].
  constructor; [done|..|done| |done].
  - intros v Hv _. by apply I2.
  - intros ? [= <-]. exists w. split_and!; try done. specialize (I2 w Hw ltac:(done)). by rewrite Et, Hp in I2.
  - intros u _. by apply I4.
  - intros s. rewrite I5. split; intros (v & Hv & Hm & Hfam & Hr); exists v; split_and!; try done.
    intros [= E]. by rewrite <- E, Hp in Hr.
  - intros a b Ha Hb _ _. by apply I6.
  - intros s _. by apply I8.
Qed.

Lemma enter_reading t ws busy pcs log w d m :
  inv None ws busy pcs log → find_waiter t ws = Some w → pcs t = Reading d m →
  inv (Some t) ws (updf busy (family w) false) pcs log.
Proof.
  intros I Hf Hp. apply find_waiter_in in Hf as [Hw Et]. destruct I as [I1 I2 I3 I4 I5 I6 I7 I8 I9].
  constructor; [done|..|done| |done].
  - intros v Hv _. by apply I2.
  - intros ? [= <-]. exists w. split_and!; try done. specialize (I2 w Hw ltac:(done)). rewrite Et, Hp in I2. by destruct I2.
  - intros u _. by apply I4.
  - intros s. destruct (decide (s = family w)) as [->|Hs].
    + rewrite updf_same. split; [done|]. intros (v & Hv & Hm & Hfam & Hr). destruct Hm. f_equal. rewrite <- Et.
      apply I6; try done. by rewrite Et, Hp.
    + rewrite updf_other, I5 by done. split; intros (v & Hv & Hm & Hfam & Hr); exists v; split_and!; try done.
      intros [= E]. assert (v = w) as -> by (apply (tid_inj ws); congruence). done.
  - intros a b Ha Hb _ _. by apply I6.
  - intros s Hs Hb. assert (s ≠ family w) as Hne by (intros ->; by apply (Hs w Hw); [f_equal|]).
    rewrite updf_other in Hb by done. by apply I8.
Qed.

(** The flags and the socket of the other threads do not depend on my sleeping flag. *)
Lemma enter_asleep t ws busy pcs log w :
  inv None ws busy pcs log → find_waiter t ws = Some w → pcs t = Asleep →
  inv (Some t) (set_own t false ws) busy pcs log.
Proof.
  intros I Hf Hp. apply find_waiter_in in Hf as [Hw Et]. destruct I as [I1 I2 I3 I4 I5 I6 I7 I8 I9].
  assert (Hel := fun v => set_own_elem t false ws v I1).
  constructor.
  - by rewrite set_own_tids.
  - intros v Hv Hm. apply Hel in Hv as [[Hv _]|(u & _ & Eu & ->)]; [by apply I2|]. by destruct Hm; rewrite <- Eu.
  - intros ? [= <-]. exists (set_sleeping false w). split; [|by rewrite <- Et]. apply Hel. right. eauto.
  - intros u Hu Hpu. destruct (I4 u ltac:(done) Hpu) as (v & Hv & Ev). exists v. split; [|done]. apply Hel. left. split; [done|congruence].
  - intros s. rewrite I5. split.
    + intros (v & Hv & _ & Hfam & Hr). exists v. assert (tid v ≠ t) by (intros E; by rewrite E, Hp in Hr).
      split_and!; try done; [apply Hel; by left|congruence].
    + intros (v & Hv & Hm & Hfam & Hr). apply Hel in Hv as [[Hv _]|(u & _ & Eu & ->)]; [by exists v|].
      by destruct Hm; rewrite <- Eu.
  - intros a b Ha Hb Hma Hmb. apply Hel in Ha as [[Ha _]|(u & _ & Eu & ->)]; [|by destruct Hma; rewrite <- Eu].
    apply Hel in Hb as [[Hb _]|(u & _ & Eu & ->)]; [|by destruct Hmb; rewrite <- Eu]. by apply I6.
  - intros v Hv Hs. apply Hel in Hv as [[Hv _]|(u & _ & Eu & ->)]; [by apply I7|done].
  - intros s Hs Hb (v & Hv & Hwk). apply Hel in Hv as [[Hv _]|(u & _ & Eu & ->)].
    + destruct (I8 s ltac:(done) Hb ltac:(eauto)) as (x & Hx & Hx1 & Hx2). exists x. split; [|done].
      apply Hel. left. split; [done|]. intros E. assert (x = w) as -> by (apply (tid_inj ws); congruence).
      apply (Hs (set_sleeping false w)); [apply Hel; right; eauto|cbn; congruence|].
      unfold wants_wake in Hx1. bool_to_prop. done.
    + unfold wants_wake in Hwk. cbn in Hwk. by rewrite andb_false_r in Hwk.
  - intros v Hv. apply Hel in Hv as [[Hv _]|(u & Hu & Eu & ->)]; [by apply I9|]. by apply (I9 u).
Qed.

Lemma upd_tid pcs t p w : tid w ≠ t → upd pcs t p (tid w) = (pcs (tid w) : pc).
Proof. apply upd_other. Qed.

Lemma leave_registered t ws busy pcs log w :
  inv (Some t) ws busy pcs log → w ∈ ws → tid w = t →
  (busy (family w) = false → (∃ v, v ∈ ws ∧ wants_wake (family w) v = true) →
     ∃ v, v ∈ ws ∧ wants_wake (family w) v = true ∧ signalled v = true) →
  inv None ws busy (upd pcs t Registered) log.
Proof.
  intros I Hw Et Hwk. destruct I as [I1 I2 I3 I4 I5 I6 I7 I8 I9].
  assert (Hme : ∀ v, v ∈ ws → tid v = t → v = w) by (intros; apply (tid_inj ws); congruence).
  assert (Hrd : ∀ v, is_reading (upd pcs t Registered (tid v)) = true → tid v ≠ t ∧ is_reading (pcs (tid v)) = true).
  { intros v Hr. destruct (decide (tid v = t)) as [E|E]; [by rewrite E, upd_same in Hr|]. by rewrite upd_tid in Hr. }
  constructor; [done|..|done| |done].
  - intros v Hv _. destruct (decide (tid v = t)) as [E|E].
    + rewrite E, upd_same. destruct (I3 t eq_refl) as (x & Hx & Ex & Hs). by rewrite (Hme v Hv E), <- (Hme x Hx Ex).
    + rewrite upd_tid by done. apply I2; congruence.
  - done.
  - intros u _ Hu. destruct (decide (u = t)) as [->|E]; [eauto|]. rewrite upd_other in Hu by done. apply I4; congruence.
  - intros s. rewrite I5. split.
    + intros (v & Hv & Hm & Hf & Hr). exists v. rewrite upd_tid by congruence. done.
    + intros (v & Hv & _ & Hf & Hr). apply Hrd in Hr as [? ?]. exists v. split_and!; try done. congruence.
  - intros a b Ha Hb _ _ Hf Hra Hrb. apply Hrd in Hra as [? ?], Hrb as [? ?]. apply I6; congruence.
  - intros s _ Hb Hex. destruct (decide (s = family w)) as [->|Hne]; [auto|].
    apply I8; try done. intros v Hv [= E]. rewrite (Hme v Hv) by done. done.
Qed.

Lemma leave_reading t ws busy pcs log w r :
  inv (Some t) ws busy pcs log → w ∈ ws → tid w = t → busy (family w) = false →
  inv None ws (updf busy (family w) true) (upd pcs t (Reading 0 r)) log.
Proof.
  intros I Hw Et Hfree. destruct I as [I1 I2 I3 I4 I5 I6 I7 I8 I9].
  assert (Hme : ∀ v, v ∈ ws → tid v = t → v = w) by (intros; apply (tid_inj ws); congruence).
  assert (Hno : ∀ v, v ∈ ws → tid v ≠ t → family v = family w → is_reading (pcs (tid v)) = true → False).
  { intros v Hv Ht Hf Hr. assert (busy (family w) = true); [|congruence]. apply I5. exists v. split_and!; congruence. }
  constructor; [done|..|done| |done].
  - intros v Hv _. destruct (decide (tid v = t)) as [E|E].
    + rewrite E, upd_same. destruct (I3 t eq_refl) as (x & Hx & Ex & Hs). rewrite (Hme v Hv E), <- (Hme x Hx Ex).
      split; [done|]. split; [done|]. intros _. apply Z.divide_0_r.
    + rewrite upd_tid by done. apply I2; congruence.
  - done.
  - intros u _ Hu. destruct (decide (u = t)) as [->|E]; [eauto|]. rewrite upd_other in Hu by done. apply I4; congruence.
  - intros s. destruct (decide (s = family w)) as [->|Hne].
    + rewrite updf_same. split; [|done]. intros _. exists w. rewrite Et, upd_same. done.
    + rewrite updf_other, I5 by done. split.
      * intros (v & Hv & Hm & Hf & Hr). exists v. rewrite upd_tid by congruence. done.
      * intros (v & Hv & _ & Hf & Hr). assert (tid v ≠ t) by (intros E; rewrite (Hme v Hv E) in Hf; congruence).
        rewrite upd_tid in Hr by done. exists v. split_and!; try done. congruence.
  - intros a b Ha Hb _ _ Hf Hra Hrb. destruct (decide (tid a = t)) as [Ea|Ea], (decide (tid b = t)) as [Eb|Eb]; try congruence;
      rewrite ?Ea, ?Eb, ?upd_tid in * by done.
    + rewrite (Hme a Ha Ea) in Hf. destruct (Hno b); auto.
    + rewrite (Hme b Hb Eb) in Hf. destruct (Hno a); auto.
    + apply I6; congruence.
  - intros s _ Hb Hex. destruct (decide (s = family w)) as [->|Hne]; [by rewrite updf_same in Hb|].
    rewrite updf_other in Hb by done. apply I8; try done. intros v Hv [= E]. rewrite (Hme v Hv) by done. done.
Qed.

Lemma leave_asleep t ws busy pcs log w :
  inv (Some t) ws busy pcs log → w ∈ ws → tid w = t → busy (family w) = true →
  inv None (set_own t true ws) busy (upd pcs t Asleep) log.
Proof.
  intros I Hw Et Hbusy. destruct I as [I1 I2 I3 I4 I5 I6 I7 I8 I9].
  assert (Hel := fun v => set_own_elem t true ws v I1).
  assert (Hme : ∀ v, v ∈ ws → tid v = t → v = w) by (intros; apply (tid_inj ws); congruence).
  assert (Hrd : ∀ v, v ∈ set_own t true ws → is_reading (upd pcs t Asleep (tid v)) = true →
    tid v ≠ t ∧ v ∈ ws ∧ is_reading (pcs (tid v)) = true).
  { intros v Hv Hr. apply Hel in Hv as [[Hv Ht]|(u & _ & Eu & ->)]; [by rewrite upd_tid in Hr|].
    cbn in Hr. by rewrite Eu, upd_same in Hr. }
  constructor.
  - by rewrite set_own_tids.
  - intros v Hv _. apply Hel in Hv as [[Hv Ht]|(u & _ & Eu & ->)].
    + rewrite upd_tid by done. apply I2; congruence.
    + cbn. by rewrite Eu, upd_same.
  - done.
  - intros u _ Hu. destruct (decide (u = t)) as [->|E].
    + exists (set_sleeping true w). split; [|done]. apply Hel. right. eauto.
    + rewrite upd_other in Hu by done. destruct (I4 u) as (v & Hv & Ev); [congruence|done|]. exists v. split; [|done].
      apply Hel. left. split; [done|congruence].
  - intros s. rewrite I5. split.
    + intros (v & Hv & Hm & Hf & Hr). exists v. rewrite upd_tid by congruence. split_and!; try done. apply Hel. left. split; [done|congruence].
    + intros (v & Hv & _ & Hf & Hr). apply Hrd in Hr as (? & ? & ?); [|done]. exists v. split_and!; try done. congruence.
  - intros a b Ha Hb _ _ Hf Hra Hrb. apply Hrd in Hra as (? & ? & ?), Hrb as (? & ? & ?); try done. apply I6; congruence.
  - intros v Hv Hs. apply Hel in Hv as [[Hv _]|(u & _ & Eu & ->)]; [by apply I7|done].
  - intros s _ Hb (v & Hv & Hwk). assert (Hne : s ≠ family w) by congruence.
    destruct (I8 s) as (x & Hx & Hx1 & Hx2); [|done| |].
    + intros u Hu [= E]. by rewrite (Hme u Hu).
    + apply Hel in Hv as [[Hv _]|(u & Hu & Eu & ->)]; [eauto|]. destruct Hne. unfold wants_wake in Hwk. bool_to_prop.
      cbn in H. by rewrite <- (Hme u Hu Eu).
    + exists x. split; [|done]. apply Hel. left. split; [done|]. intros E. rewrite (Hme x Hx E) in Hx1.
      unfold wants_wake in Hx1. bool_to_prop. unfold family in *. congruence.
  - intros v Hv. apply Hel in Hv as [[Hv _]|(u & Hu & Eu & ->)]; [by apply I9|]. by apply (I9 u).
Qed.

Lemma inv_handoff t ws busy pcs log w :
  inv (Some t) ws busy pcs log → w ∈ ws → tid w = t →
  inv (Some t) (icmp_shared_handoff (busy (family w)) (family w) ws) busy pcs log.
Proof.
  intros I Hw Ht. eapply inv_ev; [done|apply handoff_ev| |].
  - intros _ Hno. destruct (Hno w Hw); [congruence|done].
  - intros x Hx. destruct (handoff_keeps _ _ _ _ Hx) as (z & Hz & E1 & E2 & E3).
    unfold log_ok, family. rewrite E1, E2, E3. by apply (i_log _ _ _ _ _ I).
Qed.

Lemma await_head_inv t w expired readable ws busy st v :
  inv (Some t) ws busy (pcs st) (dispatched st) → v ∈ ws → tid v = t → req v = req w →
  Inv (await_head t w expired readable ws busy st).
Proof.
  intros I Hv Ht Hr. unfold await_head, Inv. rewrite <- Hr. fold (family v).
  destruct (negb (answered w) && negb expired); [destruct (busy (family v)) eqn:Eb|]; cbn.
  - by eapply leave_asleep.
  - by eapply leave_reading.
  - pose proof (handoff_ev (busy (family v)) (family v) ws) as Hev.
    destruct (Forall2_in_l _ _ _ _ Hev Hv) as (v' & Hv' & Et' & Er' & _).
    assert (Ef : family v' = family v) by (unfold family; congruence).
    apply (leave_registered t _ _ _ _ v'); [|done|congruence|].
    + by apply inv_handoff.
    + rewrite Ef. intros Eb. rewrite Eb. apply handoff_wakes.
Qed.

Lemma remove_waiter_elem t l w : NoDup (tid <$> l) → w ∈ remove_waiter t l ↔ w ∈ l ∧ tid w ≠ t.
Proof.
  induction l as [|v l IH]; intros Hn; [cbn; split; [intros H|intros [H _]]; by apply not_elem_of_nil in H|].
  apply list.NoDup_cons in Hn as [Hv Hn]. cbn. rewrite elem_of_cons.
  destruct (Nat.eqb_spec (tid v) t) as [<-|Hne].
  - split; [|intros [[->|Hw] ?]; done]. intros Hw. split; [by right|]. intros E. apply Hv. rewrite <- E. by apply list_elem_of_fmap_2.
  - rewrite elem_of_cons, (IH Hn). naive_solver.
Qed.
Lemma remove_waiter_nodup t l : NoDup (tid <$> l) → NoDup (tid <$> remove_waiter t l).
Proof.
  induction l as [|v l IH]; intros Hn; [done|]. apply list.NoDup_cons in Hn as [Hv Hn]. cbn.
  destruct (Nat.eqb_spec (tid v) t); [done|]. apply list.NoDup_cons. split; [|auto].
  intros Hin. apply list_elem_of_fmap in Hin as (u & E & Hu). apply remove_waiter_elem in Hu as [Hu _]; [|done].
  apply Hv. rewrite E. by apply list_elem_of_fmap_2.
Qed.

Lemma remove_inv t ws busy pcs log w :
  inv (Some t) ws busy pcs log → w ∈ ws → tid w = t →
  (busy (family w) = false → (∃ v, v ∈ remove_waiter t ws ∧ wants_wake (family w) v = true) →
     ∃ v, v ∈ remove_waiter t ws ∧ wants_wake (family w) v = true ∧ signalled v = true) →
  inv None (remove_waiter t ws) busy (upd pcs t Outside) log.
Proof.
  intros I Hw Et Hwk. destruct I as [I1 I2 I3 I4 I5 I6 I7 I8 I9].
  assert (Hel := fun v => remove_waiter_elem t ws v I1).
  assert (Hme : ∀ v, v ∈ ws → tid v = t → v = w) by (intros; apply (tid_inj ws); congruence).
  constructor.
  - by apply remove_waiter_nodup.
  - intros v [Hv Ht]%Hel _. rewrite upd_tid by done. apply I2; congruence.
  - done.
  - intros u _ Hu. destruct (decide (u = t)) as [->|E]; [by rewrite upd_same in Hu|]. rewrite upd_other in Hu by done.
    destruct (I4 u) as (v & Hv & Ev); [congruence|done|]. exists v. split; [apply Hel|done]. split; [done|congruence].
  - intros s. rewrite I5. split.
    + intros (v & Hv & Hm & Hf & Hr). exists v. rewrite Hel, upd_tid by congruence. split_and!; try done. congruence.
    + intros (v & [Hv Ht]%Hel & _ & Hf & Hr). rewrite upd_tid in Hr by done. exists v. split_and!; try done. congruence.
  - intros a b [Ha Hta]%Hel [Hb Htb]%Hel _ _. rewrite !upd_tid by done. apply I6; congruence.
  - intros v [Hv _]%Hel. by apply I7.
  - intros s _ Hb Hex. destruct (decide (s = family w)) as [->|Hne]; [auto|].
    assert (Hoth : ∀ v, v ∈ ws → wants_wake s v = true → v ∈ remove_waiter t ws).
    { intros v Hv Hx. apply Hel. split; [done|]. intros E. rewrite (Hme v Hv E) in Hx.
      unfold wants_wake in Hx. bool_to_prop. unfold family in *. congruence. }
    destruct (I8 s) as (x & Hx & Hx1 & Hx2); [|done| |eauto].
    + intros v Hv [= E]. by rewrite (Hme v Hv).
    + destruct Hex as (v & [Hv _]%Hel & ?). eauto.
  - intros v [Hv _]%Hel. by apply I9.
Qed.

Lemma remove_handoff t busy s l :
  (∀ w, w ∈ l → tid w = t → sleeping w = false) →
  remove_waiter t (icmp_shared_handoff busy s l) = icmp_shared_handoff busy s (remove_waiter t l).
Proof.
  unfold icmp_shared_handoff. destruct busy; [done|]. induction l as [|v l IH]; intros H; [done|]. cbn.
  destruct (wants_wake s v) eqn:E; cbn [remove_waiter tid cond_signal]; destruct (Nat.eqb_spec (tid v) t) as [Et|Et].
  - unfold wants_wake in E. rewrite (H v) in E by (done || left). by rewrite andb_false_r in E.
  - cbn. by rewrite E.
  - done.
  - cbn. rewrite E. f_equal. apply IH. intros w Hw. apply H. by right.
Qed.

Lemma unregister_inv t ws busy pcs log w :
  inv (Some t) ws busy pcs log → w ∈ ws → tid w = t →
  inv None (icmp_shared_unregister t (busy (family w)) (family w) ws) busy (upd pcs t Outside) log.
Proof.
  intros I Hw Ht. unfold icmp_shared_unregister.
  pose proof (inv_handoff _ _ _ _ _ _ I Hw Ht) as I'.
  destruct (Forall2_in_l _ _ _ _ (handoff_ev (busy (family w)) (family w) ws) Hw) as (w' & Hw' & Et' & Er' & _).
  assert (Ef : family w' = family w) by (unfold family; congruence).
  assert (Hs : ∀ v, v ∈ ws → tid v = t → sleeping v = false).
  { intros v Hv Ev. destruct (i_me _ _ _ _ _ I t eq_refl) as (x & Hx & Ex & Hxs).
    assert (v = x) as -> by (apply (tid_inj ws); [apply (i_nodup _ _ _ _ _ I)|done|done|congruence]). done. }
  rewrite <- (remove_handoff _ _ _ _ Hs). apply (remove_inv t _ _ _ _ w'); [done|done|congruence|].
  rewrite (remove_handoff _ _ _ _ Hs), Ef. intros Eb. rewrite Eb. apply handoff_wakes.
Qed.

Lemma register_inv t r ws busy pcs log :
  inv None ws busy pcs log → pcs t = Outside →
  inv None (icmp_shared_register t r (length log) ws) busy (upd pcs t Registered) log.
Proof.
  intros I Hp. destruct I as [I1 I2 I3 I4 I5 I6 I7 I8 I9].
  assert (Hnew : ∀ w, w ∈ ws → tid w ≠ t) by (intros w Hw E; specialize (I2 w Hw ltac:(done)); by rewrite E, Hp in I2).
  unfold icmp_shared_register. constructor.
  - cbn. apply list.NoDup_cons. split; [|done]. intros (w & E & Hw)%list_elem_of_fmap. by destruct (Hnew w Hw).
  - intros w [->|Hw]%elem_of_cons _; [cbn; by rewrite upd_same|]. rewrite upd_tid by auto. by apply I2.
  - done.
  - intros u _ Hu. destruct (decide (u = t)) as [->|E]; [eexists; split; [left|done]|]. rewrite upd_other in Hu by done.
    destruct (I4 u ltac:(done) Hu) as (v & Hv & ?). exists v. split; [by right|done].
  - intros s. rewrite I5. split.
    + intros (w & Hw & _ & Hf & Hr). exists w. rewrite upd_tid by auto. split_and!; try done. by right.
    + intros (w & [->|Hw]%elem_of_cons & _ & Hf & Hr); [cbn in Hr; by rewrite upd_same in Hr|].
      rewrite upd_tid in Hr by auto. eauto.
  - intros a b [->|Ha]%elem_of_cons [->|Hb]%elem_of_cons _ _ Hf Hra Hrb; try done;
      rewrite ?upd_tid in * by auto; try (cbn in *; rewrite upd_same in *; done). by apply I6.
  - intros w [->|Hw]%elem_of_cons; [done|by apply I7].
  - intros s _ Hb (w & [->|Hw]%elem_of_cons & Hx); [unfold wants_wake in Hx; cbn in Hx; by rewrite andb_false_r in Hx|].
    destruct (I8 s) as (v & Hv & ?); [done|done|eauto|]. exists v. split; [by right|done].
  - intros w [->|Hw]%elem_of_cons; [by split|by apply I9].
Qed.

Lemma reading_progress_inv ws busy pcs log t d m d' m' :
  inv None ws busy pcs log → pcs t = Reading d m → 0 ≤ d' ≤ ICMP_SHARED_DRAIN_MAX → (m' = true → (64 | d')) →
  inv None ws busy (upd pcs t (Reading d' m')) log.
Proof.
  intros I Hp Hd Hm. destruct I as [I1 I2 I3 I4 I5 I6 I7 I8 I9].
  assert (Hr : ∀ u, is_reading (upd pcs t (Reading d' m') u) = is_reading (pcs u)).
  { intros u. destruct (decide (u = t)) as [->|E]; [by rewrite upd_same, Hp|by rewrite upd_other]. }
  constructor; [done| |done| |..|done|done|done].
  - intros w Hw _. specialize (I2 w Hw ltac:(done)). destruct (decide (tid w = t)) as [E|E].
    + rewrite E, upd_same. rewrite E, Hp in I2. cbn. by destruct I2 as (? & _ & _).
    + by rewrite upd_tid.
  - intros u _ Hu. destruct (decide (u = t)) as [->|E]; [by apply I4; rewrite ?Hp|]. rewrite upd_other in Hu by done. by apply I4.
  - intros s. rewrite I5. setoid_rewrite Hr. done.
  - intros a b. rewrite !Hr. apply I6.
Qed.

Lemma batch_inv t ws busy pcs log w d batch :
  inv None ws busy pcs log → find_waiter t ws = Some w → pcs t = Reading d true →
  d < ICMP_SHARED_DRAIN_MAX → Z.of_nat (length batch) ≤ ICMP_SHARED_BATCH →
  inv None (dispatch_batch (family w) batch ws) busy
    (upd pcs t (Reading (d + Z.of_nat (length batch)) (Z.of_nat (length batch) =? ICMP_SHARED_BATCH))) (log ++ batch).
Proof.
  intros I Hf Hp Hd Hb. apply find_waiter_in in Hf as [Hw Et]. unfold ICMP_SHARED_DRAIN_MAX, ICMP_SHARED_BATCH in *.
  pose proof (i_pc _ _ _ _ _ I w Hw ltac:(done)) as Hpc. rewrite Et, Hp in Hpc. destruct Hpc as (_ & Hd0 & Hdiv).
  destruct (Hdiv eq_refl) as [q Eq].
  eapply (reading_progress_inv _ _ _ _ _ d true); [|done|unfold ICMP_SHARED_DRAIN_MAX; lia|].
  2:{ intros E. apply Z.eqb_eq in E. exists (q + 1). lia. }
  eapply inv_ev; [done|apply dispatch_batch_ev| |].
  - intros Hfree. assert (busy (family w) = true); [|congruence]. apply (i_reading _ _ _ _ _ I). exists w.
    rewrite Et, Hp. done.
  - intros v Hv. destruct (Forall2_in_r _ _ _ _ (dispatch_batch_ev _ _ _) Hv) as (u & Hu & _ & Eru & Emu & _).
    pose proof (proj1 (i_log _ _ _ _ _ I u Hu)) as Hm. split; [rewrite length_app; lia|]. intros Ha.
    destruct (dispatch_batch_answered _ _ _ _ Hv Ha) as [(y & Hy & _ & Er & Em & Hya)|(x & Hx & Han)].
    + destruct (proj2 (i_log _ _ _ _ _ I y Hy) Hya) as (k & z & Hk & Hz & Hzz). exists k, z.
      unfold family in *. rewrite <- Er, <- Em. split_and!; try done. by apply lookup_app_l_Some.
    + apply list_elem_of_lookup in Hx as [i Hi]. exists (length log + i)%nat, x.
      assert (family v = family w) as ->. { unfold answers in Han. bool_to_prop. done. }
      split_and!; [lia| |done]. rewrite lookup_app_r by lia. by replace (length log + i - length log)%nat with i by lia.
Qed.

Lemma step_inv st e st' : Inv st → icmp_step st e = Some st' → Inv st'.
Proof.
  intros I H. destruct e as [t r|t|t ex rd|t ex rd|t batch|t ex rd]; cbn in H; destruct (pcs st t) as [| | |d m] eqn:Hp; try done;
    try (destruct (find_waiter t (icmp_waiters st)) as [w|] eqn:Hf; [|by destruct m || done]).
  - injection H as <-. by apply register_inv.
  - injection H as <-. apply find_waiter_in in Hf as ?. destruct_and!. eapply unregister_inv; eauto using enter_registered.
  - injection H as <-. apply find_waiter_in in Hf as ?. destruct_and!. eapply await_head_inv; eauto using enter_registered.
  - injection H as <-. apply find_waiter_in in Hf as ?. destruct_and!.
    apply (await_head_inv _ _ _ _ _ _ _ (set_sleeping false w)); [eapply enter_asleep; eauto| |done|done].
    apply set_own_elem; [apply I|]. eauto.
  - destruct m; [|done]. destruct (_ && _) eqn:E; [|done]. injection H as <-. bool_to_prop. unfold Inv. cbn.
    rewrite <- (length_map (snap (rq_family (req w))) batch) in *. by apply batch_inv.
  - destruct (_ && _); [done|]. injection H as <-. apply find_waiter_in in Hf as ?. destruct_and!.
    eapply await_head_inv; eauto using enter_reading.
Qed.

Lemma reachable_inv st : reachable st → Inv st.
Proof.
  intros H. induction H as [|st e st' _ IH Hs]; [|by eapply step_inv].
  constructor; cbn; try (by intros; match goal with H : _ ∈ [] |- _ => by apply not_elem_of_nil in H end); try done.
  - apply base.NoDup_nil_2.
  - intros s. split; [done|]. intros (w & Hw & _). by apply not_elem_of_nil in Hw.
  - intros s _ _ (w & Hw & _). by apply not_elem_of_nil in Hw.
Qed.

(** ** What an answer is *)

Lemma rd_range b i v : rd b i = Some v → 0 ≤ v < 256.
Proof. unfold rd. case_match; [done|]. intros (c & _ & ->)%fmap_Some. apply code_range. Qed.
Lemma rd16_range b i v : rd16 b i = Some v → 0 ≤ v < 65536.
Proof.
  unfold rd16. intros (x & Hx & (y & Hy & [= <-])%bind_Some)%bind_Some. apply rd_range in Hx, Hy. lia.
Qed.
Lemma classify_ok_range b len id seq o :
  spine_icmp_classify_reply (Some b) len id seq = Some (SPINE_ICMP_REPLY_OK, o) → 0 ≤ id < 65536 ∧ 0 ≤ seq < 65536.
Proof.
  unfold spine_icmp_classify_reply. case_match; [done|].
  intros (b0 & _ & (bad & _ & H')%bind_Some)%bind_Some. destruct bad; [done|].
  apply bind_Some in H' as (ty & _ & (ot & _ & H')%bind_Some). destruct ot; [done|].
  apply bind_Some in H' as (i & Hi%rd16_range & (q & Hq%rd16_range & H')%bind_Some).
  destruct (Z.eqb_spec i id), (Z.eqb_spec q seq); cbn in H'; try done. subst. done.
Qed.
Lemma icmp6_ok_range b len id seq :
  icmp6_reply_matches b len id seq true = Some true → 0 ≤ id < 65536 ∧ 0 ≤ seq < 65536.
Proof.
  unfold icmp6_reply_matches. case_match; [done|].
  intros (ty & _ & (i & Hi%rd16_range & (q & Hq%rd16_range & H')%bind_Some)%bind_Some)%bind_Some.
  destruct (Z.eqb_spec i id) as [->|], (Z.eqb_spec q seq) as [->|]; cbn [negb andb orb] in H'; [done|..];
    rewrite ?orb_true_r in H'; repeat case_match; done.
Qed.

(** The reply [d] answers the request [r]: it comes from the peer and is an echo reply
    with the request's identifier and sequence. *)
Definition genuine_reply (d : datagram) (r : request) : Prop :=
  dg_from d = rq_peer r ∧
  match rq_family r with
  | AF_INET => ∃ ihl, ReplyFacts.ip_echo_reply ihl (rq_id r) (rq_seq r) (dg_bytes d)
  | AF_INET6 => ReplyFacts.echo_reply6 (rq_id r) (rq_seq r) (dg_bytes d)
  end.

Lemma answers_genuine d r : answers (rq_family r) d r = true → genuine_reply d r.
Proof.
  unfold answers, genuine_reply. intros H. bool_to_prop. split; [done|]. destruct (rq_family r); bool_to_prop.
  - match goal with H : _ <$> _ = _ |- _ => apply fmap_Some in H as ([v o] & Hc & Hv) end. cbn in Hv. subst v.
    destruct (classify_ok_range _ _ _ _ _ Hc) as [Hi Hs].
    apply (ReplyFacts.classify_reply_exact _ _ _ Hi Hs) in Hc as (ihl & _ & Hr). eauto.
  - match goal with H : icmp6_reply_matches _ _ _ _ _ = _ |- _ => rename H into Hc end.
    destruct (icmp6_ok_range _ _ _ _ Hc) as [Hi Hs].
    destruct (ReplyFacts.icmp6_matches_exact (dg_bytes d) _ _ Hi Hs) as (v & Hv & Hiff). apply Hiff. congruence.
Qed.

(** A result of [icmp_shared_await] is the answered flag of the thread's waiter. *)
Lemma await_head_returned t w ex rd ws busy st x :
  returned (await_head t w ex rd ws busy st) = returned st ++ [x] → x = (t, answered w).
Proof.
  unfold await_head. intros H. repeat case_match; cbn in H.
  1,2: by apply (f_equal length) in H; rewrite length_app in H; cbn in H; lia.
  by apply app_inv_head in H as [= ->].
Qed.
Lemma step_returned st e st' t b :
  icmp_step st e = Some st' → returned st' = returned st ++ [(t, b)] →
  ∃ w, find_waiter t (icmp_waiters st) = Some w ∧ answered w = b ∧ dispatched st' = dispatched st.
Proof.
  assert (Hno : ∀ l : list (nat * bool), l ≠ l ++ [(t, b)]).
  { intros l E. apply (f_equal length) in E. rewrite length_app in E. cbn in E. lia. }
  intros H Hr. destruct e; cbn in H; repeat case_match; simplify_eq; cbn in Hr; try (by destruct (Hno _ Hr));
    apply await_head_returned in Hr as Hx; injection Hx as -> ->; eexists; (split; [done|]);
    unfold await_head; repeat case_match; done.
Qed.

Lemma run_reachable es : ∀ st st', reachable st → run st es = Some st' → reachable st'.
Proof.
  induction es as [|e es IH]; intros st st' Hr H; [by injection H as <-|]. cbn in H.
  apply bind_Some in H as (st1 & H1 & H). eapply IH; [|done]. by econstructor.
Qed.

End SharedFacts.
Import ReplyFacts SharedFacts.

(** * Properties *)

(** The reply classifiers never read outside the received bytes, and accept
    exactly the echo replies.  For every byte string: the raw-socket classifier says
    OK, with the ICMP header's offset, exactly for an IPv4 packet whose header is well
    formed and that carries an echo reply with our identifier and sequence; the
    datagram classifier exactly for an echo reply with our sequence; and the ICMPv6
    test exactly for an echo reply with both and our payload marker. *)
Theorem icmp_classifiers_exact (bytes : list ascii) (id seq : Z)
  (Hid : 0 ≤ id < 65536) (Hseq : 0 ≤ seq < 65536) :
  let len := Z.of_nat (length bytes) in
  (is_Some (spine_icmp_classify_reply (Some bytes) len id seq) ∧
   ∀ o, spine_icmp_classify_reply (Some bytes) len id seq = Some (SPINE_ICMP_REPLY_OK, o) ↔
     ∃ ihl, o = Some ihl ∧ ip_echo_reply ihl id seq bytes) ∧
  (is_Some (spine_icmp_classify_dgram_reply (Some bytes) len seq) ∧
   ∀ o, spine_icmp_classify_dgram_reply (Some bytes) len seq = Some (SPINE_ICMP_REPLY_OK, o) ↔
     o = Some 0 ∧ ∃ id', 0 ≤ id' < 65536 ∧ echo_reply id' seq bytes) ∧
  ∃ v, icmp6_reply_matches bytes len id seq true = Some v ∧ (v = true ↔ echo_reply6 id seq bytes).
Proof.
  intros len. split; [by apply classify_reply_exact|]. split; [by apply classify_dgram_exact|by apply icmp6_matches_exact].
Qed.

(** The reply to sequence 513 of process 258, in a minimal IPv4 header. *)
Definition sample_reply : list ascii :=
  map byte_of [69; 0; 0; 28; 0; 0; 0; 0; 64; 1; 0; 0; 10; 0; 0; 1; 10; 0; 0; 2; 0; 0; 0; 0; 2; 1; 1; 2].

Lemma icmp_classifiers_exact_witness : ip_echo_reply 20 258 513 sample_reply.
Proof.
  destruct (proj1 (icmp_classifiers_exact sample_reply 258 513 ltac:(lia) ltac:(lia))) as [_ H].
  destruct (proj1 (H (Some 20)) ltac:(by vm_compute)) as (ihl & [= <-] & Hr). exact Hr.
Defined.

(** In every interleaving, a shared socket has at most one reader: the flag
    [reading] is set exactly when some registered thread is reading that socket, two
    reading threads of one socket are the same thread, and no pass takes more than 1024
    datagrams. *)
Theorem shared_socket_one_reader (st : state) (Hr : reachable st) (s : family_t) :
  (reading st s = true ↔ ∃ w, w ∈ icmp_waiters st ∧ rq_family (req w) = s ∧ is_reading (pcs st (tid w)) = true) ∧
  (∀ w v, w ∈ icmp_waiters st → v ∈ icmp_waiters st → rq_family (req w) = rq_family (req v) →
     is_reading (pcs st (tid w)) = true → is_reading (pcs st (tid v)) = true → w = v) ∧
  (∀ t d m, pcs st t = Reading d m → 0 ≤ d ≤ ICMP_SHARED_DRAIN_MAX).
Proof.
  apply reachable_inv in Hr as [I1 I2 I3 I4 I5 I6 I7 I8 I9]. split_and!.
  - rewrite I5. split; [intros (w & ? & _ & ? & ?)|intros (w & ? & ? & ?)]; by exists w.
  - intros w v Hw Hv Hf H1 H2. apply (tid_inj (icmp_waiters st)); auto.
  - intros t d m Hp. destruct (I4 t ltac:(done)) as (w & Hw & Et); [by rewrite Hp|].
    specialize (I2 w Hw ltac:(done)). rewrite Et, Hp in I2. by destruct I2 as (_ & ? & _).
Qed.

(** A schedule of two threads pinging 10.0.0.1: thread 1 reads while thread 2 sleeps,
    and thread 2 is answered by what thread 1 reads. *)
Definition peer : list ascii := map byte_of [10; 0; 0; 1].
Definition request_of (id seq : Z) : request := {| rq_family := AF_INET; rq_id := id; rq_seq := seq; rq_peer := peer |}.
Definition two_threads : list event :=
  [ERegister 1 (request_of 258 7); EAwait 1 false true; ERegister 2 (request_of 258 513); EAwait 2 false true].

Lemma shared_socket_one_reader_witness :
  ∃ st, run initial two_threads = Some st ∧ reading st AF_INET = true ∧ pcs st 2%nat = Asleep ∧
    ∀ t d m, pcs st t = Reading d m → 0 ≤ d ≤ ICMP_SHARED_DRAIN_MAX.
Proof.
  eexists. split; [reflexivity|]. split; [reflexivity|]. split; [reflexivity|].
  refine (proj2 (proj2 (shared_socket_one_reader _ _ AF_INET))).
  by eapply (run_reachable two_threads initial); [constructor|].
Defined.

(** C10: no wake-up is lost.  In every interleaving, when nobody reads a socket and a
    thread sleeps on it unanswered, some sleeping unanswered thread of that socket has
    been signalled and will take the socket over. *)
Theorem shared_socket_no_lost_wakeup (st : state) (Hr : reachable st) (s : family_t)
  (Hidle : reading st s = false) (w : icmp_waiter_t) (Hw : w ∈ icmp_waiters st)
  (Hwait : wants_wake s w = true) :
  ∃ v, v ∈ icmp_waiters st ∧ wants_wake s v = true ∧ signalled v = true ∧ pcs st (tid v) = Asleep.
Proof.
  apply reachable_inv in Hr as I. destruct (i_wake _ _ _ _ _ I s) as (v & Hv & H1 & H2); [done|done|eauto|].
  exists v. split_and!; try done. pose proof (i_pc _ _ _ _ _ I v Hv ltac:(done)) as Hp.
  pose proof (i_sig _ _ _ _ _ I v Hv H2) as Hs. destruct (pcs st (tid v)) as [| | |d m]; cbn in Hp; try done; try congruence.
  destruct Hp; congruence.
Qed.

Lemma shared_socket_no_lost_wakeup_witness :
  ∃ st v, run initial (two_threads ++ [EDone 1 true false]) = None ∧
    run initial (two_threads ++ [EBatch 1 []; EDone 1 true false]) = Some st ∧
    v ∈ icmp_waiters st ∧ signalled v = true ∧ pcs st (tid v) = Asleep.
Proof.
  destruct (run initial (two_threads ++ [EBatch 1 []; EDone 1 true false])) as [st|] eqn:E; [|done].
  assert (Hr : reachable st) by (by eapply run_reachable; [constructor|]).
  cbn in E. injection E as <-.
  edestruct (shared_socket_no_lost_wakeup _ Hr AF_INET eq_refl) as (v & Hv & _ & Hs & Hp); [left|reflexivity|].
  eexists _, v. split; [reflexivity|]. split; [reflexivity|]. split; [exact Hv|]. split; [exact Hs|exact Hp].
Defined.

(** A wait succeeds only on a genuine reply.  When [icmp_shared_await] returns
    TRUE to a thread, a datagram dispatched since that thread registered came from its
    peer and is an echo reply with its identifier and sequence. *)
Theorem shared_await_genuine (st st' : state) (e : event) (t : nat) (Hr : reachable st)
  (Hstep : icmp_step st e = Some st') (Hret : returned st' = returned st ++ [(t, true)]) :
  ∃ w k d, find_waiter t (icmp_waiters st) = Some w ∧ (mark w ≤ k)%nat ∧ dispatched st' !! k = Some d ∧
    genuine_reply d (req w).
Proof.
  destruct (step_returned _ _ _ _ _ Hstep Hret) as (w & Hf & Ha & Ed). apply reachable_inv in Hr as I.
  apply find_waiter_in in Hf as Hw. destruct (proj2 (i_log _ _ _ _ _ I w (proj1 Hw)) Ha) as (k & d & Hk & Hd & Han).
  exists w, k, d. rewrite Ed. split_and!; try done. by apply answers_genuine.
Qed.

Definition answered_schedule : list event := two_threads ++ [EBatch 1 [(sample_reply, peer)]].
Definition sample_state : state := default initial (run initial answered_schedule).
Definition sample_state' : state := default initial (icmp_step sample_state (EWake 2 false false)).

Lemma shared_await_genuine_witness :
  ∃ w k d, find_waiter 2 (icmp_waiters sample_state) = Some w ∧ (mark w ≤ k)%nat ∧
    dispatched sample_state' !! k = Some d ∧ genuine_reply d (req w).
Proof.
  apply (shared_await_genuine sample_state sample_state' (EWake 2 false false) 2).
  - by apply (run_reachable answered_schedule initial); [constructor|].
  - by vm_compute.
  - by vm_compute.
Defined.
