(* ===== verification/Settings.v ===== *)
(** The run-time settings and shared records: the parts of [config_t]
    (src/src/config/model.h) that the modelled code reads, and the device, item and
    work records of src/src/internal/spine_types.h. *)

From S2P Require Import Prelude CLib Result.

(** * Constants of internal/constants.h *)

Definition LOCAL : Z := 0.
Definition REMOTE : Z := 1.
Definition REMOTE_ONLINE : Z := 0.
Definition LRG_BUFSIZE : Z := 8096.
Definition BIG_BUFSIZE : Z := 65535.
Definition MEGA_BUFSIZE : Z := 1024000.
Definition HUGE_BUFSIZE : Z := 2048000.
(** The configure default. *)
Definition MAX_MYSQL_BUF_SIZE : Z := 131072.

Definition AVAIL_NONE : Z := 0.
Definition AVAIL_SNMP_AND_PING : Z := 1.
Definition AVAIL_SNMP : Z := 2.
Definition AVAIL_PING : Z := 3.
Definition AVAIL_SNMP_OR_PING : Z := 4.
Definition AVAIL_SNMP_GET_SYSDESC : Z := 5.
Definition AVAIL_SNMP_GET_NEXT : Z := 6.
Definition AVAIL_STREAM : Z := 7.
Definition PING_ICMP : Z := 1.
Definition PING_UDP : Z := 2.
Definition PING_TCP : Z := 3.
Definition PING_TCP_CLOSED : Z := 5.
Definition HOST_UNKNOWN : Z := 0.
Definition HOST_DOWN : Z := 1.
Definition HOST_RECOVERING : Z := 2.
Definition HOST_UP : Z := 3.

(** * Settings *)

(** The groups of [config_t]; the fields no modelled code reads (the fork flag, the exit
    stack and the like) are left out.  C's truth values are [bool]. *)
Record spine_console_config_t := { stdout_notty : bool; stderr_notty : bool }.
Record spine_poller_config_t := {
  po_poller_id : Z; po_poller_interval : Z; po_num_parent_processes : Z; po_active_profiles : Z; po_threads : Z; po_threads_set : bool;
  po_SQL_readonly : bool; po_mode : Z }.
Record spine_hosts_config_t := {
  ho_start_host_id : Z; ho_end_host_id : Z; ho_host_id_list : cstr; ho_has_device_0 : bool; ho_has_output_regex : bool }.
Record spine_database_config_t := {
  da_host : cstr; da_database : cstr; da_user : cstr; da_password : cstr; da_ssl : Z; da_ssl_key : cstr; da_ssl_cert : cstr; da_ssl_ca : cstr;
  da_port : Z; da_version : cstr; da_onupdate : bool }.
Record spine_php_config_t := {
  pp_path_php : cstr; pp_path_php_server : cstr; pp_script_timeout : Z; pp_php_required : bool; pp_php_initialized : bool; pp_php_servers : Z;
  pp_php_current_server : Z }.
Record spine_logging_config_t := {
  path_logfile : cstr; logfile_processed : bool; log_level : Z; log_destination : Z; log_perror : bool; log_pwarn : bool; log_pstats : bool;
  selective_device_debug : cstr; spine_log_level : Z; log_datetime_separator : Z; log_datetime_format : Z }.
Record spine_availability_config_t := {
  ax_icmp_avail : bool; ax_icmp_uses_caps : bool; ax_availability_method : Z; ax_ping_method : Z; ax_ping_retries : Z; ax_ping_timeout : Z;
  ax_ping_failure_count : Z; ax_ping_recovery_count : Z; ax_ping_only : bool }.
Record spine_snmp_config_t := {
  sx_total_snmp_ports : Z; sx_snmp_max_get_size : Z; sx_snmp_retries : Z; sx_snmp_clientaddr : cstr; sx_mibs : bool }.
Record spine_boost_config_t := { bx_boost_enabled : bool; bx_boost_redirect : bool }.
Record config_t := {
  c_console : spine_console_config_t; c_poller : spine_poller_config_t; c_hosts : spine_hosts_config_t;
  c_database : spine_database_config_t; c_remote_database : spine_database_config_t; c_php : spine_php_config_t;
  c_logging : spine_logging_config_t; c_availability : spine_availability_config_t; c_snmp : spine_snmp_config_t;
  c_boost : spine_boost_config_t; cacti_version : Z }.

(** ** Reading a setting *)

Definition poller_id (set : config_t) : Z := po_poller_id (c_poller set).
Definition poller_interval (set : config_t) : Z := po_poller_interval (c_poller set).
Definition active_profiles (set : config_t) : Z := po_active_profiles (c_poller set).
Definition threads (set : config_t) : Z := po_threads (c_poller set).
Definition SQL_readonly (set : config_t) : bool := po_SQL_readonly (c_poller set).
Definition mode (set : config_t) : Z := po_mode (c_poller set).
Definition start_host_id (set : config_t) : Z := ho_start_host_id (c_hosts set).
Definition end_host_id (set : config_t) : Z := ho_end_host_id (c_hosts set).
Definition host_id_list (set : config_t) : cstr := ho_host_id_list (c_hosts set).
Definition has_device_0 (set : config_t) : bool := ho_has_device_0 (c_hosts set).
Definition has_output_regex (set : config_t) : bool := ho_has_output_regex (c_hosts set).
Definition db_host (set : config_t) : cstr := da_host (c_database set).
Definition remote_host (set : config_t) : cstr := da_host (c_remote_database set).
Definition path_php (set : config_t) : cstr := pp_path_php (c_php set).
Definition path_php_server (set : config_t) : cstr := pp_path_php_server (c_php set).
Definition script_timeout (set : config_t) : Z := pp_script_timeout (c_php set).
Definition php_servers (set : config_t) : Z := pp_php_servers (c_php set).
Definition icmp_avail (set : config_t) : bool := ax_icmp_avail (c_availability set).
Definition ping_failure_count (set : config_t) : Z := ax_ping_failure_count (c_availability set).
Definition ping_recovery_count (set : config_t) : Z := ax_ping_recovery_count (c_availability set).
Definition ping_only (set : config_t) : bool := ax_ping_only (c_availability set).
Definition total_snmp_ports (set : config_t) : Z := sx_total_snmp_ports (c_snmp set).
Definition snmp_retries (set : config_t) : Z := sx_snmp_retries (c_snmp set).
Definition mibs (set : config_t) : bool := sx_mibs (c_snmp set).
Definition boost_enabled (set : config_t) : bool := bx_boost_enabled (c_boost set).
Definition boost_redirect (set : config_t) : bool := bx_boost_redirect (c_boost set).

(** ** Replacing a group *)

Definition with_poller (p : spine_poller_config_t) (c : config_t) : config_t :=
  {| c_console := c_console c; c_poller := p; c_hosts := c_hosts c; c_database := c_database c; c_remote_database := c_remote_database c;
     c_php := c_php c; c_logging := c_logging c; c_availability := c_availability c; c_snmp := c_snmp c; c_boost := c_boost c; cacti_version := cacti_version c |}.
Definition with_hosts (h : spine_hosts_config_t) (c : config_t) : config_t :=
  {| c_console := c_console c; c_poller := c_poller c; c_hosts := h; c_database := c_database c; c_remote_database := c_remote_database c;
     c_php := c_php c; c_logging := c_logging c; c_availability := c_availability c; c_snmp := c_snmp c; c_boost := c_boost c; cacti_version := cacti_version c |}.
Definition with_database (d : spine_database_config_t) (c : config_t) : config_t :=
  {| c_console := c_console c; c_poller := c_poller c; c_hosts := c_hosts c; c_database := d; c_remote_database := c_remote_database c;
     c_php := c_php c; c_logging := c_logging c; c_availability := c_availability c; c_snmp := c_snmp c; c_boost := c_boost c; cacti_version := cacti_version c |}.
Definition with_remote_database (d : spine_database_config_t) (c : config_t) : config_t :=
  {| c_console := c_console c; c_poller := c_poller c; c_hosts := c_hosts c; c_database := c_database c; c_remote_database := d;
     c_php := c_php c; c_logging := c_logging c; c_availability := c_availability c; c_snmp := c_snmp c; c_boost := c_boost c; cacti_version := cacti_version c |}.
Definition with_php (p : spine_php_config_t) (c : config_t) : config_t :=
  {| c_console := c_console c; c_poller := c_poller c; c_hosts := c_hosts c; c_database := c_database c; c_remote_database := c_remote_database c;
     c_php := p; c_logging := c_logging c; c_availability := c_availability c; c_snmp := c_snmp c; c_boost := c_boost c; cacti_version := cacti_version c |}.
Definition with_logging (l : spine_logging_config_t) (c : config_t) : config_t :=
  {| c_console := c_console c; c_poller := c_poller c; c_hosts := c_hosts c; c_database := c_database c; c_remote_database := c_remote_database c;
     c_php := c_php c; c_logging := l; c_availability := c_availability c; c_snmp := c_snmp c; c_boost := c_boost c; cacti_version := cacti_version c |}.
Definition with_availability (a : spine_availability_config_t) (c : config_t) : config_t :=
  {| c_console := c_console c; c_poller := c_poller c; c_hosts := c_hosts c; c_database := c_database c; c_remote_database := c_remote_database c;
     c_php := c_php c; c_logging := c_logging c; c_availability := a; c_snmp := c_snmp c; c_boost := c_boost c; cacti_version := cacti_version c |}.
Definition with_snmp (s : spine_snmp_config_t) (c : config_t) : config_t :=
  {| c_console := c_console c; c_poller := c_poller c; c_hosts := c_hosts c; c_database := c_database c; c_remote_database := c_remote_database c;
     c_php := c_php c; c_logging := c_logging c; c_availability := c_availability c; c_snmp := s; c_boost := c_boost c; cacti_version := cacti_version c |}.
Definition with_boost (b : spine_boost_config_t) (c : config_t) : config_t :=
  {| c_console := c_console c; c_poller := c_poller c; c_hosts := c_hosts c; c_database := c_database c; c_remote_database := c_remote_database c;
     c_php := c_php c; c_logging := c_logging c; c_availability := c_availability c; c_snmp := c_snmp c; c_boost := b; cacti_version := cacti_version c |}.
Definition with_cacti_version (v : Z) (c : config_t) : config_t :=
  {| c_console := c_console c; c_poller := c_poller c; c_hosts := c_hosts c; c_database := c_database c; c_remote_database := c_remote_database c;
     c_php := c_php c; c_logging := c_logging c; c_availability := c_availability c; c_snmp := c_snmp c; c_boost := c_boost c; cacti_version := v |}.

(** The static [set]: all zero. *)
Definition zero_database : spine_database_config_t := {|
  da_host := []; da_database := []; da_user := []; da_password := []; da_ssl := 0; da_ssl_key := []; da_ssl_cert := []; da_ssl_ca := [];
  da_port := 0; da_version := []; da_onupdate := false |}.
Definition zero_config : config_t := {|
  c_console := {| stdout_notty := false; stderr_notty := false |};
  c_poller := {| po_poller_id := 0; po_poller_interval := 0; po_num_parent_processes := 0; po_active_profiles := 0; po_threads := 0;
                 po_threads_set := false; po_SQL_readonly := false; po_mode := 0 |};
  c_hosts := {| ho_start_host_id := 0; ho_end_host_id := 0; ho_host_id_list := []; ho_has_device_0 := false; ho_has_output_regex := false |};
  c_database := zero_database; c_remote_database := zero_database;
  c_php := {| pp_path_php := []; pp_path_php_server := []; pp_script_timeout := 0; pp_php_required := false; pp_php_initialized := false;
              pp_php_servers := 0; pp_php_current_server := 0 |};
  c_logging := {| path_logfile := []; logfile_processed := false; log_level := 0; log_destination := 0; log_perror := false; log_pwarn := false;
                  log_pstats := false; selective_device_debug := []; spine_log_level := 0; log_datetime_separator := 0; log_datetime_format := 0 |};
  c_availability := {| ax_icmp_avail := false; ax_icmp_uses_caps := false; ax_availability_method := 0; ax_ping_method := 0; ax_ping_retries := 0;
                       ax_ping_timeout := 0; ax_ping_failure_count := 0; ax_ping_recovery_count := 0; ax_ping_only := false |};
  c_snmp := {| sx_total_snmp_ports := 0; sx_snmp_max_get_size := 0; sx_snmp_retries := 0; sx_snmp_clientaddr := []; sx_mibs := false |};
  c_boost := {| bx_boost_enabled := false; bx_boost_redirect := false |}; cacti_version := 0 |}.

(** A poller with the given profiles and device 0, for examples. *)
Definition example_config (profiles : Z) (device_0 : bool) : config_t :=
  with_poller {| po_poller_id := 1; po_poller_interval := 300; po_num_parent_processes := 1; po_active_profiles := profiles; po_threads := 2;
                 po_threads_set := false; po_SQL_readonly := false; po_mode := REMOTE_ONLINE |}
  (with_hosts {| ho_start_host_id := -1; ho_end_host_id := -1; ho_host_id_list := []; ho_has_device_0 := device_0; ho_has_output_regex := false |}
  (with_php {| pp_path_php := $"/usr/bin/php"; pp_path_php_server := $"/var/www/cacti/script_server.php"; pp_script_timeout := 25;
               pp_php_required := false; pp_php_initialized := false; pp_php_servers := 1; pp_php_current_server := 0 |}
  (with_availability {| ax_icmp_avail := true; ax_icmp_uses_caps := false; ax_availability_method := 0; ax_ping_method := 0; ax_ping_retries := 0;
                        ax_ping_timeout := 0; ax_ping_failure_count := 2; ax_ping_recovery_count := 3; ax_ping_only := false |}
  (with_snmp {| sx_total_snmp_ports := 1; sx_snmp_max_get_size := 10; sx_snmp_retries := 3; sx_snmp_clientaddr := []; sx_mibs := false |}
  (with_cacti_version 1230 zero_config))))).

(** * Devices *)

Record snmp_profile_t := {
  community : cstr; version : Z; username : cstr; password : cstr; auth_protocol : cstr;
  priv_passphrase : cstr; priv_protocol : cstr; context : cstr; engine_id : cstr;
  port : Z; timeout : Z }.

Record device_availability_t := {
  av_method : Z; av_ping_method : Z; av_port : Z; av_timeout : Z; av_retries : Z }.

(** [session] is the SNMP session, an opaque handle; [None] is NULL. *)
Record host_snmp_t := {
  profile : snmp_profile_t; retries : Z; max_oids : Z; session : option nat; snmp_status : Z }.

Record host_system_t := {
  snmp_sysDescr : cstr; snmp_sysObjectID : cstr; snmp_sysUpTimeInstance : Z;
  snmp_sysContact : cstr; snmp_sysName : cstr; snmp_sysLocation : cstr }.

Record host_state_t := {
  status : Z; status_event_count : Z; status_fail_date : cstr; status_rec_date : cstr;
  status_last_error : cstr }.

Record host_statistics_t := {
  min_time : double; max_time : double; cur_time : double; avg_time : double;
  total_polls : Z; failed_polls : Z; availability : double }.

Record host_t := {
  host_id : Z; hostname : cstr; ignore_host : bool; snmp : host_snmp_t; system : host_system_t;
  host_avail : device_availability_t; hstate : host_state_t; statistics : host_statistics_t }.

(** [ping_t]. *)
Record ping_t := { ping_status : cstr; ping_response : cstr; snmp_ping_status : cstr; snmp_response : cstr }.

(** ** Field updates *)

Definition set_ignore_host (b : bool) (h : host_t) : host_t :=
  {| host_id := host_id h; hostname := hostname h; ignore_host := b; snmp := snmp h; system := system h;
     host_avail := host_avail h; hstate := hstate h; statistics := statistics h |}.
Definition set_snmp (s : host_snmp_t) (h : host_t) : host_t :=
  {| host_id := host_id h; hostname := hostname h; ignore_host := ignore_host h; snmp := s; system := system h;
     host_avail := host_avail h; hstate := hstate h; statistics := statistics h |}.
Definition set_system (s : host_system_t) (h : host_t) : host_t :=
  {| host_id := host_id h; hostname := hostname h; ignore_host := ignore_host h; snmp := snmp h; system := s;
     host_avail := host_avail h; hstate := hstate h; statistics := statistics h |}.
Definition set_avail (a : device_availability_t) (h : host_t) : host_t :=
  {| host_id := host_id h; hostname := hostname h; ignore_host := ignore_host h; snmp := snmp h; system := system h;
     host_avail := a; hstate := hstate h; statistics := statistics h |}.
Definition set_state (s : host_state_t) (h : host_t) : host_t :=
  {| host_id := host_id h; hostname := hostname h; ignore_host := ignore_host h; snmp := snmp h; system := system h;
     host_avail := host_avail h; hstate := s; statistics := statistics h |}.
Definition set_statistics (s : host_statistics_t) (h : host_t) : host_t :=
  {| host_id := host_id h; hostname := hostname h; ignore_host := ignore_host h; snmp := snmp h; system := system h;
     host_avail := host_avail h; hstate := hstate h; statistics := s |}.
Definition set_session (s : option nat) (h : host_t) : host_t :=
  set_snmp {| profile := profile (snmp h); retries := retries (snmp h); max_oids := max_oids (snmp h);
              session := s; snmp_status := snmp_status (snmp h) |} h.
Definition set_snmp_status (v : Z) (h : host_t) : host_t :=
  set_snmp {| profile := profile (snmp h); retries := retries (snmp h); max_oids := max_oids (snmp h);
              session := session (snmp h); snmp_status := v |} h.
Definition set_max_oids (v : Z) (h : host_t) : host_t :=
  set_snmp {| profile := profile (snmp h); retries := retries (snmp h); max_oids := v;
              session := session (snmp h); snmp_status := snmp_status (snmp h) |} h.

(** * Items *)

(** [target_t], without the fields that no code of the poller reads. *)
Record target_t := {
  result : cstr; local_data_id : Z; action : Z; it_hostname : cstr; rrd_name : cstr; rrd_path : cstr;
  rrd_num : Z; arg1 : cstr; arg2 : cstr; arg3 : cstr; output_regex : cstr; it_snmp : snmp_profile_t }.
Definition set_result (r : cstr) (t : target_t) : target_t :=
  {| result := r; local_data_id := local_data_id t; action := action t; it_hostname := it_hostname t;
     rrd_name := rrd_name t; rrd_path := rrd_path t; rrd_num := rrd_num t; arg1 := arg1 t; arg2 := arg2 t;
     arg3 := arg3 t; output_regex := output_regex t; it_snmp := it_snmp t |}.

(** [snmp_oids_t]. *)
Record snmp_oids_t := { array_position : nat; oid_text : cstr; oid_result : cstr }.
Definition zero_oid : snmp_oids_t := {| array_position := 0; oid_text := []; oid_result := [] |}.
Definition set_oid_result (r : cstr) (o : snmp_oids_t) : snmp_oids_t :=
  {| array_position := array_position o; oid_text := oid_text o; oid_result := r |}.

(** A row of a result set: one optional text per selected column ([None] is NULL). *)
Abbreviation row_t := (list (option cstr)).
Definition column (row : row_t) (i : nat) : option cstr := mjoin (row !! i).
