(* ===== verification/Signals.v ===== *)
(** Signals: src/src/app/signals.c, and [php_write_no_sigpipe] of src/src/script/protocol.c.

    The signal state is what POSIX gives a process: a disposition per signal, and for the
    calling thread the blocked and the pending signals.  [sigaction], [signal], [raise],
    [pthread_sigmask] and [sigwait] are functions on it; delivering a signal runs its
    handler with the signal blocked, and takes the default action afterwards if the signal
    was raised again.  What a [write] returns comes from the world. *)

From stdpp Require Import gmap.
From S2P Require Import Prelude CLib Buffer.

(** The numbers of Linux. *)
Definition SIGINT : Z := 2.
Definition SIGQUIT : Z := 3.
Definition SIGABRT : Z := 6.
Definition SIGBUS : Z := 7.
Definition SIGFPE : Z := 8.
Definition SIGSEGV : Z := 11.
Definition SIGPIPE : Z := 13.
Definition SIGSYS : Z := 31.
Definition SA_RESTART : Z := 268435456.

(** A write of a text to a descriptor: the result and [errno]. *)
Class WriteFd (W : Type) := sys_write : W → Z → cstr → Z * Z * W.

Module Signals.

Definition EINTR : Z := 4.
Definition EPIPE : Z := 32.
Definition STDERR_FILENO : Z := 2.

(** [Foreign] handlers belong to somebody else. *)
Inductive handler := SIG_DFL | SIG_IGN | Spine | Sigpipe | Foreign (n : nat).
#[global] Instance handler_eq_dec : EqDecision handler.
Proof. solve_decision. Defined.

Record sigaction_t := { sa_handler : handler; sa_mask : list Z; sa_flags : Z }.
Record sigstate := { disposition : Z → sigaction_t; blocked : gset Z; pending : gset Z }.

Definition sigaction (sig : Z) (act : sigaction_t) (s : sigstate) : sigstate :=
  {| disposition := fun x => if x =? sig then act else disposition s x; blocked := blocked s; pending := pending s |}.
Definition handler_of (sig : Z) (s : sigstate) : handler := sa_handler (disposition s sig).
(** [signal(2)] of glibc: the signal itself is masked, calls restart. *)
Definition signal (sig : Z) (h : handler) (s : sigstate) : handler * sigstate :=
  (handler_of sig s, sigaction sig {| sa_handler := h; sa_mask := [sig]; sa_flags := SA_RESTART |} s).
Definition set_blocked (b : gset Z) (s : sigstate) : sigstate := {| disposition := disposition s; blocked := b; pending := pending s |}.
Definition set_pending (p : gset Z) (s : sigstate) : sigstate := {| disposition := disposition s; blocked := blocked s; pending := p |}.

(** ** signal_write *)

Section Write.
Context {W : Type} `{WriteFd W}.

(** [None]: the fuel ran out. *)
Fixpoint signal_write (fuel : nat) (w : W) (text : cstr) : option W :=
  match text, fuel with
  | [], _ => Some w
  | _, O => None
  | _, S f =>
      let '(written, errno, w) := sys_write w STDERR_FILENO text in
      if written <=? 0 then
        if (written <? 0) && (errno =? EINTR) then signal_write f w text else Some w
      else signal_write f w (drop (Z.to_nat written) text)
  end.

(** The digits, filled in from the end of the array; [None] is a store outside it. *)
Fixpoint number_loop (fuel : nat) (digits : list ascii) (index : nat) (magnitude : Z) : option (list ascii * nat) :=
  match fuel with
  | O => None
  | S f =>
      match index with
      | O => None
      | S i =>
          digits ← mem_store digits i (digit_char (magnitude mod 10));
          let magnitude := magnitude / 10 in
          if (0 <? magnitude) && (0 <? i)%nat then number_loop f digits i magnitude else Some (digits, i)
      end
  end.
Definition number_text (value : Z) : option cstr :=
  digits ← mem_store (replicate 24 NUL) 23 NUL;
  '(digits, index) ← number_loop 24 digits 23 (wrap_u 64 value);
  Some (c_str (drop index digits)).
Definition signal_write_number (fuel : nat) (w : W) (value : Z) : option W :=
  text ← number_text value; signal_write fuel w text.

(** ** The handler *)

Definition fatal_message (spine_signal : Z) : option cstr :=
  if spine_signal =? SIGABRT then Some ($"FATAL: Spine Interrupted by Abort Signal" ++ [byte_of 10])
  else if spine_signal =? SIGINT then Some ($"FATAL: Spine Interrupted by Console Operator" ++ [byte_of 10])
  else if spine_signal =? SIGSEGV then Some ($"FATAL: Spine Encountered a Segmentation Fault" ++ [byte_of 10])
  else if spine_signal =? SIGBUS then Some ($"FATAL: Spine Encountered a Bus Error" ++ [byte_of 10])
  else if spine_signal =? SIGFPE then Some ($"FATAL: Spine Encountered a Floating Point Exception" ++ [byte_of 10])
  else if spine_signal =? SIGQUIT then Some ($"FATAL: Spine Encountered a Keyboard Quit Command" ++ [byte_of 10])
  else None.

(** A process that runs, with its exit code; or has ended, by itself or by a signal. *)
Inductive process :=
| Running (s : sigstate) (exit_code : Z)
| Exited (status : Z)
| Killed (sig : Z).

(** [raise]: the signal is pending while it is blocked. *)
Definition raise (sig : Z) (s : sigstate) : sigstate := set_pending ({[ sig ]} ∪ pending s) s.

Definition spine_signal_handler (fuel : nat) (now spine_signal : Z) (s : sigstate) (w : W) : option (process * W) :=
  let s := if negb (spine_signal =? SIGPIPE) then snd (signal spine_signal SIG_DFL s) else s in
  let exit_code := spine_signal in
  w ← signal_write fuel w ($"[");
  w ← signal_write_number fuel w now;
  w ← signal_write fuel w ($"] ");
  w ← match fatal_message spine_signal with
      | Some message => signal_write fuel w message
      | None =>
          w ← signal_write fuel w ($"FATAL: Spine Encountered An Unhandled Exception Signal Number: '");
          w ← signal_write_number fuel w spine_signal;
          signal_write fuel w ($"'" ++ [byte_of 10])
      end;
  if spine_signal =? SIGSEGV then Some (Exited 1, w) else
  Some (Running (if negb (spine_signal =? SIGPIPE) then raise spine_signal s else s) exit_code, w).

Definition spine_sigpipe_handler (s : sigstate) : sigstate := s.

(** Delivery of a signal that is not blocked, all of whose default actions end the process.
    A handler runs with the signal and its mask blocked; when it returns, the old mask is
    back and the signal, if it was raised meanwhile, is delivered again: [turns] bounds how
    often.  [foreign] is what somebody else's handler does. *)
Fixpoint deliver (turns fuel : nat) (now : Z) (foreign : nat → sigstate → sigstate) (sig : Z) (s : sigstate) (exit_code : Z) (w : W) :
    option (process * W) :=
  match turns with
  | O => None
  | S n =>
      let act := disposition s sig in
      let old := blocked s in
      let inside := set_blocked ({[ sig ]} ∪ (list_to_set (sa_mask act) ∪ old)) s in
      let returned (s : sigstate) (exit_code : Z) (w : W) :=
        let s := set_blocked old s in
        if bool_decide (sig ∈ pending s) then deliver n fuel now foreign sig (set_pending (pending s ∖ {[ sig ]}) s) exit_code w
        else Some (Running s exit_code, w) in
      match sa_handler act with
      | SIG_DFL => Some (Killed sig, w)
      | SIG_IGN => Some (Running s exit_code, w)
      | Sigpipe => returned (spine_sigpipe_handler inside) exit_code w
      | Foreign k => returned (foreign k inside) exit_code w
      | Spine =>
          '(p, w) ← spine_signal_handler fuel now sig inside w;
          match p with Running s code => returned s code w | _ => Some (p, w) end
      end
  end.

(** ** php_write_no_sigpipe *)

(** [sigwait] on one signal: [None] blocks for ever. *)
Definition sigwait (sig : Z) (s : sigstate) : option sigstate :=
  if bool_decide (sig ∈ pending s) then Some (set_pending (pending s ∖ {[ sig ]}) s) else None.

(** [pthread_sigmask(SIG_SETMASK, &old_mask)]: SIGPIPE, the only signal this may unblock,
    is delivered if it is pending. *)
Definition restore_mask (turns fuel : nat) (now : Z) (foreign : nat → sigstate → sigstate) (old_mask : gset Z) (s : sigstate) (exit_code : Z) (w : W) :
    option (process * W) :=
  let s := set_blocked old_mask s in
  if bool_decide (SIGPIPE ∈ pending s) && negb (bool_decide (SIGPIPE ∈ old_mask))
  then deliver turns fuel now foreign SIGPIPE (set_pending (pending s ∖ {[ SIGPIPE ]}) s) exit_code w
  else Some (Running s exit_code, w).

(** The result, [errno] and the process afterwards.  [mask_error], [pending_error] and
    [action_error] are what [pthread_sigmask], [sigpending] and [sigaction] return: a query
    that fails counts as "not pending" and "not the default".  A write to a pipe without a reader also generates SIGPIPE, which is
    pending while it is blocked. *)
Definition php_write_no_sigpipe (turns fuel : nat) (now : Z) (foreign : nat → sigstate → sigstate) (mask_error pending_error action_error fd : Z) (buffer : cstr)
    (s : sigstate) (exit_code : Z) (w : W) : option (Z * Z * process * W) :=
  if negb (mask_error =? 0) then Some (-1, mask_error, Running s exit_code, w) else
  let old_mask := blocked s in
  let s := set_blocked ({[ SIGPIPE ]} ∪ old_mask) s in
  let was_pending := (pending_error =? 0) && bool_decide (SIGPIPE ∈ pending s) in
  let should_drain := (action_error =? 0) && bool_decide (handler_of SIGPIPE s = SIG_DFL) in
  let '(result, saved_errno, w) := sys_write w fd buffer in
  let broken := (result <? 0) && (saved_errno =? EPIPE) in
  let s := if broken then raise SIGPIPE s else s in
  s ← (if broken && negb was_pending && should_drain then sigwait SIGPIPE s else Some s);
  '(p, w) ← restore_mask turns fuel now foreign old_mask s exit_code w;
  Some (result, saved_errno, p, w).

End Write.

(** ** Installing the handlers *)

Definition spine_fatal_signals : list Z := [SIGINT; SIGSEGV; SIGBUS; SIGFPE; SIGQUIT; SIGSYS; SIGABRT].

Definition install_action (s : sigstate) (sig : Z) : sigstate :=
  match handler_of sig s with SIG_DFL => sigaction sig {| sa_handler := Spine; sa_mask := []; sa_flags := SA_RESTART |} s | _ => s end.
Definition install_signal (s : sigstate) (sig : Z) : sigstate :=
  let '(ohandler, s) := signal sig Spine s in
  match ohandler with SIG_DFL => s | _ => snd (signal sig ohandler s) end.
Definition install_spine_signal_handler (s : sigstate) : sigstate :=
  let s := sigaction SIGPIPE {| sa_handler := Sigpipe; sa_mask := []; sa_flags := SA_RESTART |} s in
  let s := foldl install_action s spine_fatal_signals in
  foldl install_signal s spine_fatal_signals.

Definition uninstall_action (s : sigstate) (sig : Z) : sigstate :=
  let sa := disposition s sig in
  match sa_handler sa with Spine => sigaction sig {| sa_handler := SIG_DFL; sa_mask := sa_mask sa; sa_flags := sa_flags sa |} s | _ => s end.
Definition uninstall_signal (s : sigstate) (sig : Z) : sigstate :=
  let '(ohandler, s) := signal sig SIG_DFL s in
  match ohandler with Spine => s | _ => snd (signal sig ohandler s) end.
Definition uninstall_spine_signal_handler (s : sigstate) : sigstate :=
  let s := match handler_of SIGPIPE s with Sigpipe => sigaction SIGPIPE {| sa_handler := SIG_DFL; sa_mask := []; sa_flags := 0 |} s | _ => s end in
  let s := foldl uninstall_action s spine_fatal_signals in
  foldl uninstall_signal s spine_fatal_signals.

End Signals.

(** What a write does, over a view of the world: the text on stderr and the signals that
    will still interrupt a call. *)
Class WriteLaws (W : Type) `{WriteFd W} := {
  stderr_text : W → cstr;
  interrupts : W → nat;
  stderr_write : ∀ w text, text ≠ [] →
    let '(n, e, w') := sys_write w Signals.STDERR_FILENO text in
    (interrupts w' ≤ interrupts w)%nat ∧ n ≤ slen text ∧
    stderr_text w' = stderr_text w ++ take (Z.to_nat n) text ∧
    (n < 0 → e = Signals.EINTR → (interrupts w' < interrupts w)%nat) }.

(** Every write takes something, or is interrupted. *)
Definition stderr_works (W : Type) `{WriteFd W} : Prop :=
  ∀ (w : W) text, text ≠ [] → let '(n, e, _) := sys_write w Signals.STDERR_FILENO text in 0 < n ∨ n < 0 ∧ e = Signals.EINTR.

(** * Facts *)

Module SignalsFacts.
Import Signals.

(** ** Numbers *)

Lemma number_loop_udec_aux k : ∀ pre acc m fu F,
  length pre = k → (0 < k ≤ fu)%nat → 0 ≤ m < 10 ^ Z.of_nat k → m < 2 ^ Z.of_nat (S F) →
  ∃ pre', number_loop fu (pre ++ acc) k m = Some (pre' ++ udec_aux (S F) m acc, length pre').
Proof.
  induction k as [|k IH]; intros pre acc m fu F Hpre Hfu Hm HF; [lia|]. destruct fu as [|fu]; [lia|]. cbn [number_loop].
  destruct (exists_last (l := pre)) as (p0 & x & ->); [by destruct pre|]. rewrite length_app in Hpre. cbn in Hpre.
  assert (Hk : length p0 = k) by lia. rewrite <- app_assoc. cbn [app]. replace (mem_store (p0 ++ x :: acc) k (digit_char (m mod 10))) with (Some (p0 ++ digit_char (m mod 10) :: acc)) by (rewrite <- Hk; symmetry; apply BufferFacts.mem_store_app). cbn [mbind option_bind].
  cbn [udec_aux]. destruct (Z.eqb_spec (m / 10) 0) as [E|E].
  - rewrite E. cbn [andb Z.ltb Z.compare]. exists p0. by rewrite Hk.
  - assert (0 < m / 10) by (pose proof (Z.div_pos m 10); lia). assert (Hk0 : (0 < k)%nat).
    { destruct k; [|lia]. change (10 ^ Z.of_nat 1) with 10 in Hm. rewrite Z.div_small in E by lia. lia. }
    rewrite (proj2 (Z.ltb_lt _ _)), (proj2 (Nat.ltb_lt _ _)) by lia. cbn [andb].
    destruct F as [|F]. { change (2 ^ Z.of_nat 1) with 2 in HF. rewrite Z.div_small in E by lia. done. }
    apply IH; [done|lia| |].
    + rewrite Nat2Z.inj_succ, Z.pow_succ_r in Hm by lia. split; [lia|]. apply Z.div_lt_upper_bound; lia.
    + rewrite Nat2Z.inj_succ, Z.pow_succ_r in HF by lia. apply Z.div_lt_upper_bound; lia.
Qed.

Lemma c_str_digits ds : Forall (fun c => isdigit c = true) ds → c_str (ds ++ [NUL]) = ds.
Proof.
  induction 1 as [|c ds Hc _ IH]; [done|]. cbn [app c_str]. rewrite decide_False by (by apply isdigit_not_nul). by rewrite IH.
Qed.

(** The digits of a 64-bit number fit the array, and are its decimal text. *)
Lemma number_text_udec value : number_text value = Some (udec (wrap_u 64 value)).
Proof.
  unfold number_text. assert (Hm : 0 ≤ wrap_u 64 value < 2 ^ 64) by (apply Z.mod_pos_bound; lia). set (m := wrap_u 64 value) in *.
  change (mem_store (replicate 24 NUL) 23 NUL) with (Some (replicate 23 NUL ++ [NUL])). cbn [mbind option_bind].
  destruct (number_loop_udec_aux 23 (replicate 23 NUL) [NUL] m 24 (Z.to_nat (Z.log2 m))) as (pre' & ->).
  - by rewrite length_replicate.
  - lia.
  - split; [lia|]. change (Z.of_nat 23) with 23. assert (2 ^ 64 < 10 ^ 23) by lia. lia.
  - pose proof (Z.log2_nonneg m). rewrite Nat2Z.inj_succ, Z2Nat.id by lia. destruct (Z.eq_dec m 0) as [->|]; [done|]. apply Z.log2_spec. lia.
  - cbn [mbind option_bind]. rewrite drop_app_length. f_equal. rewrite udec_aux_app, c_str_digits by (apply udec_aux_digits; lia). done.
Qed.

(** ** Writing *)

Section Write.
Context {W : Type} `{WriteLaws W}.

(** A write of a text ends; it is complete when stderr works. *)
Definition wrote (w w' : W) (text : cstr) : Prop :=
  (interrupts w' ≤ interrupts w)%nat ∧ (stderr_works W → stderr_text w' = stderr_text w ++ text).

Lemma signal_write_wrote fuel : ∀ w text, (length text + interrupts w ≤ fuel)%nat → ∃ w', signal_write fuel w text = Some w' ∧ wrote w w' text.
Proof.
  induction fuel as [|f IH]; intros w text Hf.
  { destruct text; [|cbn in Hf; lia]. exists w. split; [done|]. split; [done|]. intros _. by rewrite app_nil_r. }
  destruct text as [|c text]; [exists w; split; [done|]; split; [done|]; intros _; by rewrite app_nil_r|].
  cbn [signal_write]. set (t := c :: text) in *. pose proof (stderr_write w t ltac:(done)) as Hw.
  assert (Hworks : stderr_works W → let '(n, e, _) := sys_write w STDERR_FILENO t in 0 < n ∨ n < 0 ∧ e = EINTR) by (intros Hs; by apply Hs).
  destruct (sys_write w STDERR_FILENO t) as [[n e] w1]. destruct Hw as (Hi & Hn & Ht & He).
  destruct (Z.leb_spec n 0) as [Hle|Hgt].
  - replace (Z.to_nat n) with O in Ht by lia. rewrite app_nil_r in Ht.
    destruct (Z.ltb_spec n 0) as [Hneg|]; cbn [andb]; [destruct (Z.eqb_spec e EINTR) as [->|Hne]|].
    + specialize (He Hneg eq_refl). destruct (IH w1 t) as (w2 & E & Hi2 & Ht2); [lia|]. exists w2. split; [done|].
      split; [lia|]. intros Hs. by rewrite (Ht2 Hs), Ht.
    + exists w1. split; [done|]. split; [done|]. intros Hs. destruct (Hworks Hs) as [|[]]; [lia|congruence].
    + exists w1. split; [done|]. split; [done|]. intros Hs. destruct (Hworks Hs) as [|[]]; lia.
  - assert (Hd : (length (drop (Z.to_nat n) t) < length t)%nat) by (rewrite length_drop; unfold slen in Hn; cbn in *; lia).
    destruct (IH w1 (drop (Z.to_nat n) t)) as (w2 & E & Hi2 & Ht2); [lia|]. exists w2. split; [done|]. split; [lia|].
    intros Hs. by rewrite (Ht2 Hs), Ht, <- app_assoc, take_drop.
Qed.
Lemma signal_write_number_wrote fuel w value :
  (20 + interrupts w ≤ fuel)%nat → ∃ w', signal_write_number fuel w value = Some w' ∧ wrote w w' (udec (wrap_u 64 value)).
Proof.
  intros Hf. unfold signal_write_number. rewrite number_text_udec. cbn [mbind option_bind]. apply signal_write_wrote.
  assert (Hm : 0 ≤ wrap_u 64 value < 2 ^ 64) by (apply Z.mod_pos_bound; lia).
  pose proof (udec_length (wrap_u 64 value) 19 ltac:(change (10 ^ Z.of_nat 20) with (10 ^ 20); lia)). lia.
Qed.
Lemma wrote_trans w1 w2 w3 s t : wrote w1 w2 s → wrote w2 w3 t → wrote w1 w3 (s ++ t).
Proof. intros [I1 T1] [I2 T2]. split; [lia|]. intros Hs. by rewrite (T2 Hs), (T1 Hs), <- app_assoc. Qed.

(** The line the handler writes. *)
Definition signal_line (now sig : Z) : cstr :=
  $"[" ++ udec (wrap_u 64 now) ++ $"] " ++
  match fatal_message sig with
  | Some message => message
  | None => $"FATAL: Spine Encountered An Unhandled Exception Signal Number: '" ++ udec (wrap_u 64 sig) ++ $"'" ++ [byte_of 10]
  end.

Lemma fatal_message_length sig m : fatal_message sig = Some m → (length m ≤ 64)%nat.
Proof. unfold fatal_message. repeat case_match; intros [= <-]; vm_compute; lia. Qed.

Lemma spine_signal_handler_ends fuel now sig s w :
  (70 + interrupts w ≤ fuel)%nat → sig ≠ SIGPIPE →
  ∃ w', spine_signal_handler fuel now sig s w =
          Some (if sig =? SIGSEGV then Exited 1 else Running (raise sig (snd (signal sig SIG_DFL s))) sig, w') ∧ wrote w w' (signal_line now sig).
Proof.
  intros Hf Hsig. unfold spine_signal_handler. rewrite (proj2 (Z.eqb_neq sig SIGPIPE)) by done. cbn [negb].
  destruct (signal_write_wrote fuel w ($"[")) as (w1 & -> & H1); [cbn; lia|]. cbn [mbind option_bind]. pose proof H1 as [I1 _].
  destruct (signal_write_number_wrote fuel w1 now) as (w2 & -> & H2); [lia|]. cbn [mbind option_bind]. pose proof H2 as [I2 _].
  destruct (signal_write_wrote fuel w2 ($"] ")) as (w3 & -> & H3); [cbn; lia|]. cbn [mbind option_bind]. pose proof H3 as [I3 _].
  pose proof (wrote_trans _ _ _ _ _ H1 (wrote_trans _ _ _ _ _ H2 H3)) as H123. unfold signal_line. destruct (fatal_message sig) as [m|] eqn:Em.
  - pose proof (fatal_message_length sig m Em) as Hlen. destruct (signal_write_wrote fuel w3 m) as (w4 & -> & H4); [lia|]. cbn [mbind option_bind].
    exists w4. split; [by destruct (sig =? SIGSEGV)|]. pose proof (wrote_trans _ _ _ _ _ H123 H4) as Hall. by rewrite <- !app_assoc in Hall.
  - destruct (signal_write_wrote fuel w3 ($"FATAL: Spine Encountered An Unhandled Exception Signal Number: '")) as (w4 & -> & H4); [cbn; lia|].
    cbn [mbind option_bind]. pose proof H4 as [I4 _].
    destruct (signal_write_number_wrote fuel w4 sig) as (w5 & -> & H5); [lia|]. cbn [mbind option_bind]. pose proof H5 as [I5 _].
    destruct (signal_write_wrote fuel w5 ($"'" ++ [byte_of 10])) as (w6 & -> & H6); [cbn; lia|]. cbn [mbind option_bind].
    exists w6. split; [by destruct (sig =? SIGSEGV)|].
    pose proof (wrote_trans _ _ _ _ _ H123 (wrote_trans _ _ _ _ _ H4 (wrote_trans _ _ _ _ _ H5 H6))) as Hall. by rewrite <- !app_assoc in Hall.
Qed.

(** A signal of Spine's handler ends the process, after one line on stderr. *)
Lemma deliver_spine fuel now foreign sig s code w :
  (70 + interrupts w ≤ fuel)%nat → sig ≠ SIGPIPE → handler_of sig s = Spine →
  ∃ w', deliver 2 fuel now foreign sig s code w = Some (if sig =? SIGSEGV then Exited 1 else Killed sig, w') ∧ wrote w w' (signal_line now sig).
Proof.
  intros Hf Hsig Hh. cbn [deliver]. unfold handler_of in Hh. rewrite Hh.
  set (inside := set_blocked _ s). destruct (spine_signal_handler_ends fuel now sig inside w Hf Hsig) as (w' & -> & Hw). cbn [mbind option_bind].
  exists w'. split; [|done]. destruct (sig =? SIGSEGV); [done|]. rewrite bool_decide_true by (cbn; set_solver). cbn. by rewrite Z.eqb_refl.
Qed.
(** SIGPIPE changes nothing unless its disposition is the default. *)
Lemma deliver_sigpipe fuel now foreign s code w :
  handler_of SIGPIPE s = SIG_IGN ∨ handler_of SIGPIPE s = Sigpipe → SIGPIPE ∉ pending s →
  deliver 1 fuel now foreign SIGPIPE s code w = Some (Running s code, w).
Proof.
  intros Hh Hp. cbn [deliver]. unfold handler_of in Hh. destruct Hh as [->| ->]; [done|]. cbn.
  rewrite bool_decide_false by done. destruct s; done.
Qed.
End Write.

(** ** Installing *)

(** What a loop over the signals does to the handler of each. *)
Definition acts (f : sigstate → Z → sigstate) (g : handler → handler) : Prop :=
  ∀ s sig, handler_of sig (f s sig) = g (handler_of sig s) ∧ ∀ x, x ≠ sig → disposition (f s sig) x = disposition s x.
Lemma acts_foldl f g l : acts f g → NoDup l → ∀ s,
  (∀ x, x ∈ l → handler_of x (foldl f s l) = g (handler_of x s)) ∧ (∀ x, x ∉ l → disposition (foldl f s l) x = disposition s x).
Proof.
  intros Hf. induction l as [|sig l IH]; intros Hnd s; [split; [intros x Hx; by apply not_elem_of_nil in Hx|done]|].
  apply list.NoDup_cons in Hnd as [Hsig Hnd]. cbn [foldl]. destruct (IH Hnd (f s sig)) as [IH1 IH2]. destruct (Hf s sig) as [H1 H2]. split.
  - intros x [->|Hx]%elem_of_cons.
    + unfold handler_of. rewrite IH2 by done. exact H1.
    + rewrite IH1 by done. unfold handler_of. rewrite H2; [done|]. by intros ->.
  - intros x [Hx1 Hx2]%not_elem_of_cons. rewrite IH2 by done. by apply H2.
Qed.

Definition installed (h : handler) : handler := match h with SIG_DFL => Spine | _ => h end.
Definition uninstalled (h : handler) : handler := match h with Spine => SIG_DFL | _ => h end.
Lemma install_action_acts : acts install_action installed.
Proof.
  intros s sig. unfold install_action. destruct (handler_of sig s) eqn:E; (split; [|intros x Hx]); try done; rewrite ?E; try done.
  - unfold handler_of, sigaction. cbn. by rewrite Z.eqb_refl.
  - cbn. by rewrite (proj2 (Z.eqb_neq x sig)).
Qed.
(** Goals on the handler a call of [signal] leaves, and on the other signals. *)
Ltac after_signal := split; [|intros x Hx]; unfold handler_of, sigaction; cbn; rewrite ?Z.eqb_refl, ?(proj2 (Z.eqb_neq _ _)) by done; done.
Lemma install_signal_acts : acts install_signal installed.
Proof. intros s sig. unfold install_signal, signal. destruct (handler_of sig s) eqn:E; cbn [installed]; after_signal. Qed.
Lemma uninstall_action_acts : acts uninstall_action uninstalled.
Proof.
  intros s sig. unfold uninstall_action. change (sa_handler (disposition s sig)) with (handler_of sig s).
  destruct (handler_of sig s) eqn:E; (split; [|intros x Hx]); try done; rewrite ?E; try done.
  - unfold handler_of, sigaction. cbn. by rewrite Z.eqb_refl.
  - cbn. by rewrite (proj2 (Z.eqb_neq x sig)).
Qed.
Lemma uninstall_signal_acts : acts uninstall_signal uninstalled.
Proof. intros s sig. unfold uninstall_signal, signal. destruct (handler_of sig s) eqn:E; cbn [uninstalled]; after_signal. Qed.

Lemma fatal_signals_nodup : NoDup spine_fatal_signals.
Proof. apply (bool_decide_unpack _). vm_compute. exact I. Qed.
Lemma sigpipe_not_fatal : SIGPIPE ∉ spine_fatal_signals.
Proof. apply (bool_decide_unpack _). vm_compute. exact I. Qed.

Lemma install_handlers s : let i := install_spine_signal_handler s in
  (∀ x, x ∈ spine_fatal_signals → handler_of x i = installed (handler_of x s)) ∧ handler_of SIGPIPE i = Sigpipe ∧
  (∀ x, x ∉ spine_fatal_signals → x ≠ SIGPIPE → disposition i x = disposition s x).
Proof.
  unfold install_spine_signal_handler. set (s1 := sigaction SIGPIPE _ s).
  assert (H1 : ∀ x, x ≠ SIGPIPE → disposition s1 x = disposition s x) by (intros x Hx; unfold s1, sigaction; cbn [disposition]; by rewrite (proj2 (Z.eqb_neq x SIGPIPE))).
  destruct (acts_foldl _ _ _ install_action_acts fatal_signals_nodup s1) as [A1 A2].
  destruct (acts_foldl _ _ _ install_signal_acts fatal_signals_nodup (foldl install_action s1 spine_fatal_signals)) as [B1 B2].
  split_and!.
  - intros x Hx. rewrite B1, A1 by done. unfold handler_of. rewrite H1 by (intros ->; by apply sigpipe_not_fatal). by destruct (sa_handler _).
  - unfold handler_of. rewrite B2, A2 by apply sigpipe_not_fatal. done.
  - intros x Hx Hp. by rewrite B2, A2, H1.
Qed.
Lemma uninstall_handlers s : let u := uninstall_spine_signal_handler s in
  (∀ x, x ∈ spine_fatal_signals → handler_of x u = uninstalled (handler_of x s)) ∧
  handler_of SIGPIPE u = (match handler_of SIGPIPE s with Sigpipe => SIG_DFL | h => h end) ∧
  (∀ x, x ∉ spine_fatal_signals → x ≠ SIGPIPE → disposition u x = disposition s x).
Proof.
  unfold uninstall_spine_signal_handler. set (s1 := match handler_of SIGPIPE s with Sigpipe => _ | _ => s end).
  assert (H1 : ∀ x, x ≠ SIGPIPE → disposition s1 x = disposition s x)
    by (intros x Hx; unfold s1; destruct (handler_of SIGPIPE s); try done; unfold sigaction; cbn [disposition]; by rewrite (proj2 (Z.eqb_neq x SIGPIPE))).
  destruct (acts_foldl _ _ _ uninstall_action_acts fatal_signals_nodup s1) as [A1 A2].
  destruct (acts_foldl _ _ _ uninstall_signal_acts fatal_signals_nodup (foldl uninstall_action s1 spine_fatal_signals)) as [B1 B2].
  split_and!.
  - intros x Hx. rewrite B1, A1 by done. unfold handler_of. rewrite H1 by (intros ->; by apply sigpipe_not_fatal). by destruct (sa_handler _).
  - unfold handler_of at 1. rewrite B2, A2 by apply sigpipe_not_fatal. unfold s1. destruct (handler_of SIGPIPE s) eqn:E; try done.
  - intros x Hx Hp. by rewrite B2, A2, H1.
Qed.

(** ** The script server's pipe *)

Lemma set_masks b p s : set_blocked b (set_pending p s) = {| disposition := disposition s; blocked := b; pending := p |}.
Proof. done. Qed.
Lemma pending_added (x : Z) (p : gset Z) : x ∉ p → ({[ x ]} ∪ p) ∖ {[ x ]} = p.
Proof. set_solver. Qed.
Lemma pending_there (x : Z) (p : gset Z) : x ∈ p → {[ x ]} ∪ p = p.
Proof. set_solver. Qed.

Lemma restore_mask_same {W} `{WriteFd W} fuel now foreign s s' code w :
  (SIGPIPE ∈ pending s → SIGPIPE ∈ blocked s) → disposition s' = disposition s →
  pending s' = pending s ∨ pending s' = {[ SIGPIPE ]} ∪ pending s ∧ (SIGPIPE ∈ pending s ∨ handler_of SIGPIPE s = SIG_IGN ∨ handler_of SIGPIPE s = Sigpipe) →
  ∃ s'', restore_mask 1 fuel now foreign (blocked s) s' code w = Some (Running s'' code, w) ∧
    disposition s'' = disposition s ∧ blocked s'' = blocked s ∧
    (pending s'' = pending s ∨ SIGPIPE ∈ blocked s ∧ pending s'' = {[ SIGPIPE ]} ∪ pending s).
Proof.
  intros Hc Hd Hp. unfold restore_mask. cbn [set_blocked pending].
  destruct (decide (SIGPIPE ∈ blocked s)) as [Hb|Hb].
  - rewrite (bool_decide_true (SIGPIPE ∈ blocked s)) by done. rewrite andb_false_r. eexists. split; [done|]. cbn. split_and!; try done.
    destruct Hp as [->|[-> _]]; auto.
  - rewrite (bool_decide_false (SIGPIPE ∈ blocked s)) by done. rewrite andb_true_r. assert (Hn : SIGPIPE ∉ pending s) by auto.
    destruct Hp as [Hp|[Hp Hh]].
    + rewrite bool_decide_false by (by rewrite Hp). eexists. split; [done|]. cbn. auto.
    + rewrite bool_decide_true by (rewrite Hp; set_solver). rewrite deliver_sigpipe.
      * eexists. split; [done|]. cbn. split_and!; try done. left. rewrite Hp. by apply pending_added.
      * unfold handler_of in *. cbn. rewrite Hd. destruct Hh as [|Hh]; [done|exact Hh].
      * cbn. set_solver.
Qed.

End SignalsFacts.
Import Signals SignalsFacts.

(** * Properties *)

(** C17: a fatal signal ends the process, and says why.  For every signal of Spine's handler,
    whatever the writes to stderr do: the process ends at once with the signal's own default
    action - for a segmentation fault with status 1 - and when stderr takes the text, however
    the writes are cut and interrupted, exactly one line "[time] FATAL: ..." has been added
    to it; the number is the decimal text of the 64-bit time, which fits the array. *)
Theorem fatal_signal_ends {W} `{WriteLaws W} (foreign : nat → sigstate → sigstate) (s : sigstate) (sig now exit_code : Z) (w : W) (fuel : nat)
  (Hsig : sig ∈ spine_fatal_signals) (Hdefault : handler_of sig s = SIG_DFL) (Hfuel : (70 + interrupts w ≤ fuel)%nat) :
  ∃ w', deliver 2 fuel now foreign sig (install_spine_signal_handler s) exit_code w =
          Some (if sig =? SIGSEGV then Exited 1 else Killed sig, w') ∧
    (stderr_works W → stderr_text w' = stderr_text w ++ signal_line now sig) ∧
    number_text now = Some (udec (wrap_u 64 now)).
Proof.
  destruct (install_handlers s) as (Hi & _ & _). specialize (Hi sig Hsig). rewrite Hdefault in Hi.
  assert (Hp : sig ≠ SIGPIPE) by (intros ->; by apply sigpipe_not_fatal).
  destruct (deliver_spine fuel now foreign sig _ exit_code w Hfuel Hp Hi) as (w' & -> & _ & Ht).
  exists w'. split; [done|]. split; [done|]. apply number_text_udec.
Qed.

(** Ten bytes at a time, the second write interrupted. *)
#[local] Instance slow_stderr : WriteFd (nat * cstr) := fun w fd text =>
  match w with
  | (1%nat, out) => (-1, EINTR, (0%nat, out))
  | (n, out) => (Z.of_nat (Nat.min 10 (length text)), 0, (Nat.pred n, out ++ take 10 text))
  end.
#[local] Program Instance slow_stderr_laws : WriteLaws (nat * cstr) := {| stderr_text := snd; interrupts := fst |}.
Next Obligation.
  intros [n out] text Ht. unfold sys_write, slow_stderr. destruct n as [|[|n]]; unfold slen; cbn [fst snd Nat.pred].
  - split_and!; [lia|lia| |lia]. f_equal. rewrite Nat2Z.id. destruct (decide (length text ≤ 10)%nat) as [Hl|Hl].
    + rewrite Nat.min_r by done. by rewrite firstn_all, take_ge.
    + by rewrite Nat.min_l by lia.
  - split_and!; [lia|lia| |lia]. by rewrite app_nil_r.
  - split_and!; [lia|lia| |lia]. f_equal. rewrite Nat2Z.id. destruct (decide (length text ≤ 10)%nat) as [Hl|Hl].
    + rewrite Nat.min_r by done. by rewrite firstn_all, take_ge.
    + by rewrite Nat.min_l by lia.
Qed.
Definition default_signals : sigstate :=
  {| disposition := fun _ => {| sa_handler := SIG_DFL; sa_mask := []; sa_flags := 0 |}; blocked := ∅; pending := ∅ |}.

Lemma fatal_signal_ends_witness :
  ∃ w, deliver 2 80 1767225600 (fun _ s => s) SIGBUS (install_spine_signal_handler default_signals) 0 (2%nat, []) = Some (Killed SIGBUS, w) ∧
    stderr_text w = $"[1767225600] FATAL: Spine Encountered a Bus Error" ++ [byte_of 10].
Proof.
  destruct (fatal_signal_ends (fun _ s => s) default_signals SIGBUS 1767225600 0 (2%nat, []) 80) as (w & E & Ht & _).
  - apply (bool_decide_unpack _). vm_compute. exact I.
  - reflexivity.
  - cbn. lia.
  - exists w. split; [exact E|]. rewrite Ht; [reflexivity|]. intros [n out] text Hne. destruct text as [|c text]; [done|].
    unfold sys_write, slow_stderr. destruct n as [|[|n]]; cbn; [left; lia|right; done|left; lia].
Defined.

(** C32: what the handlers replace comes back.  Installing takes over exactly the fatal signals
    whose disposition is the default, and SIGPIPE; a signal that is ignored or handled by
    somebody else keeps its handler.  Uninstalling gives every fatal signal the handler it had
    at the start and SIGPIPE the default; all other signals are never touched. *)
Theorem handlers_restored (s : sigstate)
  (Hstart : ∀ sig, handler_of sig s ≠ Spine ∧ handler_of sig s ≠ Sigpipe) :
  let i := install_spine_signal_handler s in
  let u := uninstall_spine_signal_handler i in
  (∀ sig, sig ∈ spine_fatal_signals → (handler_of sig s = SIG_DFL → handler_of sig i = Spine) ∧ (handler_of sig s ≠ SIG_DFL → handler_of sig i = handler_of sig s)) ∧
  handler_of SIGPIPE i = Sigpipe ∧
  (∀ sig, sig ∈ spine_fatal_signals → handler_of sig u = handler_of sig s) ∧ handler_of SIGPIPE u = SIG_DFL ∧
  (∀ sig, sig ∉ spine_fatal_signals → sig ≠ SIGPIPE → disposition i sig = disposition s sig ∧ disposition u sig = disposition s sig).
Proof.
  intros i u. destruct (install_handlers s) as (I1 & I2 & I3). destruct (uninstall_handlers i) as (U1 & U2 & U3). fold i in I1, I2, I3. fold u in U1, U2, U3.
  split_and!.
  - intros sig Hs. rewrite I1 by done. unfold installed. split; [by intros ->|]. by destruct (handler_of sig s).
  - done.
  - intros sig Hs. rewrite U1, I1 by done. destruct (Hstart sig) as [H1 _]. by destruct (handler_of sig s).
  - by rewrite U2, I2.
  - intros sig Hs Hp. by rewrite U3, I3.
Qed.

(** A shell that ignores SIGINT and SIGQUIT for its background job. *)
Definition background_signals : sigstate :=
  {| disposition := fun x => {| sa_handler := if (x =? SIGINT) || (x =? SIGQUIT) then SIG_IGN else SIG_DFL; sa_mask := []; sa_flags := 0 |};
     blocked := ∅; pending := ∅ |}.
Lemma handlers_restored_witness :
  let i := install_spine_signal_handler background_signals in
  handler_of SIGINT i = SIG_IGN ∧ handler_of SIGSEGV i = Spine ∧ handler_of SIGINT (uninstall_spine_signal_handler i) = SIG_IGN ∧
  handler_of SIGSEGV (uninstall_spine_signal_handler i) = SIG_DFL.
Proof.
  destruct (handlers_restored background_signals) as (I1 & _ & U1 & _ & _).
  - intros sig. unfold background_signals, handler_of. cbn. by destruct (_ || _).
  - assert (Hf : ∀ x, bool_decide (x ∈ spine_fatal_signals) = true → x ∈ spine_fatal_signals) by (intros x Hx; by apply bool_decide_eq_true in Hx).
    split_and!.
    + apply (I1 SIGINT); [apply Hf; by vm_compute|done].
    + apply (I1 SIGSEGV); [apply Hf; by vm_compute|done].
    + apply (U1 SIGINT). apply Hf. by vm_compute.
    + apply (U1 SIGSEGV). apply Hf. by vm_compute.
Defined.

(** C18: a script server that is gone cannot take the poller with it.  Whatever the write to
    its pipe returns, and whether SIGPIPE is ignored, caught, or has the default action (and
    [sigaction] can say so), the process runs on with the result and [errno] of the write; the
    dispositions and the mask of the thread are as before, and so are the pending signals,
    except that a thread which had blocked SIGPIPE itself may find it pending, or, when
    [sigpending] failed, no longer pending.  Draining the signal never waits for ever. *)
Theorem php_write_survives {W} `{WriteFd W} (fuel : nat) (now : Z) (foreign : nat → sigstate → sigstate)
  (mask_error pending_error action_error fd : Z) (buffer : cstr) (s : sigstate) (exit_code : Z) (w : W)
  (Hpending : SIGPIPE ∈ pending s → SIGPIPE ∈ blocked s)
  (Hhandler : handler_of SIGPIPE s = SIG_DFL ∧ action_error = 0 ∨ handler_of SIGPIPE s = SIG_IGN ∨ handler_of SIGPIPE s = Sigpipe) :
  ∃ result errno s' w',
    php_write_no_sigpipe 1 fuel now foreign mask_error pending_error action_error fd buffer s exit_code w = Some (result, errno, Running s' exit_code, w') ∧
    (if mask_error =? 0 then (result, errno, w') = sys_write w fd buffer else (result, errno, w') = (-1, mask_error, w)) ∧
    disposition s' = disposition s ∧ blocked s' = blocked s ∧
    (pending s' = pending s ∨
     SIGPIPE ∈ blocked s ∧ (pending s' = {[ SIGPIPE ]} ∪ pending s ∨ pending_error ≠ 0 ∧ pending s' = pending s ∖ {[ SIGPIPE ]})).
Proof.
  unfold php_write_no_sigpipe. destruct (mask_error =? 0); cbn [negb]; [|by eexists _, _, _, _; split_and!; auto].
  destruct (sys_write w fd buffer) as [[result errno] w']. cbn [set_blocked pending].
  change (handler_of SIGPIPE (set_blocked ({[SIGPIPE]} ∪ blocked s) s)) with (handler_of SIGPIPE s).
  set (s1 := set_blocked ({[SIGPIPE]} ∪ blocked s) s).
  assert (Hgo : ∀ s2, disposition s2 = disposition s →
    pending s2 = pending s ∨ pending s2 = {[SIGPIPE]} ∪ pending s ∧ (SIGPIPE ∈ pending s ∨ handler_of SIGPIPE s = SIG_IGN ∨ handler_of SIGPIPE s = Sigpipe) →
    ∃ s', restore_mask 1 fuel now foreign (blocked s) s2 exit_code w' = Some (Running s' exit_code, w') ∧ disposition s' = disposition s ∧ blocked s' = blocked s ∧
      (pending s' = pending s ∨ SIGPIPE ∈ blocked s ∧ (pending s' = {[SIGPIPE]} ∪ pending s ∨ pending_error ≠ 0 ∧ pending s' = pending s ∖ {[SIGPIPE]}))).
  { intros s2 Hd Hp. destruct (restore_mask_same fuel now foreign s s2 exit_code w' Hpending Hd Hp) as (s' & ? & ? & ? & H4).
    exists s'. split_and!; [done..|]. destruct H4 as [|[]]; auto. }
  match goal with |- context [mbind _ ?o] => assert (Ho : ∃ s2, o = Some s2 ∧ ∃ s', restore_mask 1 fuel now foreign (blocked s) s2 exit_code w' = Some (Running s' exit_code, w') ∧
    disposition s' = disposition s ∧ blocked s' = blocked s ∧
    (pending s' = pending s ∨ SIGPIPE ∈ blocked s ∧ (pending s' = {[SIGPIPE]} ∪ pending s ∨ pending_error ≠ 0 ∧ pending s' = pending s ∖ {[SIGPIPE]}))) end.
  2: { destruct Ho as (s2 & -> & s' & E & H'). cbn [mbind option_bind]. rewrite E. cbn [mbind option_bind]. by eexists _, _, _, _. }
  destruct ((result <? 0) && (errno =? EPIPE)); cbn [andb]; [|exists s1; split; [done|]; apply Hgo; [done|by left]].
  destruct ((action_error =? 0) && bool_decide (handler_of SIGPIPE s = SIG_DFL)) eqn:Ed; [|rewrite andb_false_r; eexists; split; [done|]; apply Hgo; [done|]].
  2: { right. split; [done|]. destruct Hhandler as [[Hd ->]|]; [|by right]. by rewrite bool_decide_true in Ed. }
  rewrite andb_true_r. destruct (decide (SIGPIPE ∈ pending s)) as [Hin|Hnot].
  - rewrite (bool_decide_true (SIGPIPE ∈ pending s)), andb_true_r by done. destruct (Z.eqb_spec pending_error 0) as [_|Hne]; cbn [negb].
    + eexists. split; [done|]. apply Hgo; [done|]. right. auto.
    + unfold sigwait. rewrite bool_decide_true by (cbn; set_solver). eexists. split; [done|]. unfold restore_mask.
      rewrite (bool_decide_true (SIGPIPE ∈ blocked s)), andb_false_r by auto. eexists. split; [done|]. cbn. split_and!; [done..|].
      right. split; [auto|]. right. split; [done|]. by rewrite pending_there.
  - rewrite (bool_decide_false (SIGPIPE ∈ pending s)), andb_false_r by done. cbn [negb]. unfold sigwait. rewrite bool_decide_true by (cbn; set_solver).
    eexists. split; [done|]. apply Hgo; [done|]. left. cbn. by apply pending_added.
Qed.

(** A broken pipe before the handlers are installed. *)
#[local] Instance broken_pipe : WriteFd unit := fun w _ _ => (-1, EPIPE, w).
Lemma php_write_survives_witness :
  ∃ s', php_write_no_sigpipe 1 0 0 (fun _ s => s) 0 0 0 5 ($"quit") default_signals 0 tt = Some (-1, EPIPE, Running s' 0, tt) ∧
    pending s' = ∅ ∧ blocked s' = ∅ ∧
    deliver 1 0 0 (fun _ s => s) SIGPIPE default_signals 0 tt = Some (Killed SIGPIPE, tt).
Proof.
  destruct (php_write_survives 0 0 (fun _ s => s) 0 0 0 5 ($"quit") default_signals 0 tt) as (r & e & s' & [] & E & Ew & _ & Hb & Hp).
  - intros Hin. by apply not_elem_of_empty in Hin.
  - by left.
  - injection Ew as -> ->. exists s'. split; [exact E|]. split; [|split; [exact Hb|reflexivity]].
    destruct Hp as [Hp|[Hin _]]; [exact Hp|by apply not_elem_of_empty in Hin].
Defined.
