(* ===== verification/Threads.v ===== *)
(** What the threads share of the platform: the table of mutexes (src/src/platform/locks.c),
    the attributes of the polling threads (src/src/platform/thread.c), sleeping and clocks
    (src/src/platform/clock.c), and the buffers each thread owns ([log_buffers] of
    src/src/log/log.c, [regex_result_buffer] of src/src/poller/regex.c). *)

From stdpp Require Import gmap.
From S2P Require Import Prelude CLib Buffer Result Settings.

(** * locks.c *)

Module Locks.

Definition LOCK_SNMP : Z := 0.
Definition LOCK_ICMP : Z := 2.
Definition LOCK_GHBN : Z := 3.
Definition LOCK_POOL : Z := 4.
Definition LOCK_PHP : Z := 6.
Definition LOCK_PHP_PROC_0 : Z := 7.
Definition LOCK_PHP_PROC_1 : Z := 8.
Definition LOCK_PHP_PROC_2 : Z := 9.
Definition LOCK_PHP_PROC_3 : Z := 10.
Definition LOCK_PHP_PROC_4 : Z := 11.
Definition LOCK_PHP_PROC_5 : Z := 12.
Definition LOCK_PHP_PROC_6 : Z := 13.
Definition LOCK_PHP_PROC_7 : Z := 14.
Definition LOCK_PHP_PROC_8 : Z := 15.
Definition LOCK_PHP_PROC_9 : Z := 16.
Definition LOCK_PHP_PROC_10 : Z := 17.
Definition LOCK_PHP_PROC_11 : Z := 18.
Definition LOCK_PHP_PROC_12 : Z := 19.
Definition LOCK_PHP_PROC_13 : Z := 20.
Definition LOCK_PHP_PROC_14 : Z := 21.
Definition LOCK_THDET : Z := 40.
Definition LOCK_HOST_TIME : Z := 41.
Definition LOCK_SNMP_O : Z := 0.
Definition LOCK_ICMP_O : Z := 2.
Definition LOCK_GHBN_O : Z := 3.
Definition LOCK_POOL_O : Z := 4.
Definition LOCK_PHP_O : Z := 6.
Definition LOCK_PHP_PROC_0_O : Z := 7.
Definition LOCK_PHP_PROC_1_O : Z := 8.
Definition LOCK_PHP_PROC_2_O : Z := 9.
Definition LOCK_PHP_PROC_3_O : Z := 10.
Definition LOCK_PHP_PROC_4_O : Z := 11.
Definition LOCK_PHP_PROC_5_O : Z := 12.
Definition LOCK_PHP_PROC_6_O : Z := 13.
Definition LOCK_PHP_PROC_7_O : Z := 14.
Definition LOCK_PHP_PROC_8_O : Z := 15.
Definition LOCK_PHP_PROC_9_O : Z := 16.
Definition LOCK_PHP_PROC_10_O : Z := 17.
Definition LOCK_PHP_PROC_11_O : Z := 18.
Definition LOCK_PHP_PROC_12_O : Z := 19.
Definition LOCK_PHP_PROC_13_O : Z := 20.
Definition LOCK_PHP_PROC_14_O : Z := 21.
Definition LOCK_THDET_O : Z := 40.
Definition LOCK_HOST_TIME_O : Z := 41.

(** The objects that DEFINE_SPINE_LOCK defines; each has a mutex, a condition and a once
    flag. *)
Inductive lock_object :=
  | snmp_ | icmp_ | ghbn_ | pool_ | php_ | php_proc_0_ | php_proc_1_ | php_proc_2_ | php_proc_3_ | php_proc_4_
  | php_proc_5_ | php_proc_6_ | php_proc_7_ | php_proc_8_ | php_proc_9_ | php_proc_10_ | php_proc_11_ | php_proc_12_
  | php_proc_13_ | php_proc_14_ | thdet_ | host_time_.
#[global] Instance lock_object_eq_dec : EqDecision lock_object.
Proof. solve_decision. Defined.

Fixpoint case_of {A} (table : list (Z * A)) (lock : Z) : option A :=
  match table with [] => None | (id, x) :: table' => if lock =? id then Some x else case_of table' lock end.

(** [None] is NULL. *)
Definition get_lock : Z → option lock_object := case_of
  [(LOCK_SNMP, snmp_); (LOCK_ICMP, icmp_); (LOCK_GHBN, ghbn_); (LOCK_POOL, pool_); (LOCK_PHP, php_);
   (LOCK_PHP_PROC_0, php_proc_0_); (LOCK_PHP_PROC_1, php_proc_1_); (LOCK_PHP_PROC_2, php_proc_2_);
   (LOCK_PHP_PROC_3, php_proc_3_); (LOCK_PHP_PROC_4, php_proc_4_); (LOCK_PHP_PROC_5, php_proc_5_);
   (LOCK_PHP_PROC_6, php_proc_6_); (LOCK_PHP_PROC_7, php_proc_7_); (LOCK_PHP_PROC_8, php_proc_8_);
   (LOCK_PHP_PROC_9, php_proc_9_); (LOCK_PHP_PROC_10, php_proc_10_); (LOCK_PHP_PROC_11, php_proc_11_);
   (LOCK_PHP_PROC_12, php_proc_12_); (LOCK_PHP_PROC_13, php_proc_13_); (LOCK_PHP_PROC_14, php_proc_14_);
   (LOCK_THDET, thdet_); (LOCK_HOST_TIME, host_time_)].
Definition get_cond : Z → option lock_object := case_of
  [(LOCK_SNMP, snmp_); (LOCK_ICMP, icmp_); (LOCK_GHBN, ghbn_); (LOCK_POOL, pool_); (LOCK_PHP, php_);
   (LOCK_PHP_PROC_0, php_proc_0_); (LOCK_PHP_PROC_1, php_proc_1_); (LOCK_PHP_PROC_2, php_proc_2_);
   (LOCK_PHP_PROC_3, php_proc_3_); (LOCK_PHP_PROC_4, php_proc_4_); (LOCK_PHP_PROC_5, php_proc_5_);
   (LOCK_PHP_PROC_6, php_proc_6_); (LOCK_PHP_PROC_7, php_proc_7_); (LOCK_PHP_PROC_8, php_proc_8_);
   (LOCK_PHP_PROC_9, php_proc_9_); (LOCK_PHP_PROC_10, php_proc_10_); (LOCK_PHP_PROC_11, php_proc_11_);
   (LOCK_PHP_PROC_12, php_proc_12_); (LOCK_PHP_PROC_13, php_proc_13_); (LOCK_PHP_PROC_14, php_proc_14_);
   (LOCK_THDET, thdet_); (LOCK_HOST_TIME, host_time_)].
Definition get_attr : Z → option lock_object := case_of
  [(LOCK_SNMP_O, snmp_); (LOCK_ICMP_O, icmp_); (LOCK_GHBN_O, ghbn_); (LOCK_POOL_O, pool_); (LOCK_PHP_O, php_);
   (LOCK_PHP_PROC_0_O, php_proc_0_); (LOCK_PHP_PROC_1_O, php_proc_1_); (LOCK_PHP_PROC_2_O, php_proc_2_);
   (LOCK_PHP_PROC_3_O, php_proc_3_); (LOCK_PHP_PROC_4_O, php_proc_4_); (LOCK_PHP_PROC_5_O, php_proc_5_);
   (LOCK_PHP_PROC_6_O, php_proc_6_); (LOCK_PHP_PROC_7_O, php_proc_7_); (LOCK_PHP_PROC_8_O, php_proc_8_);
   (LOCK_PHP_PROC_9_O, php_proc_9_); (LOCK_PHP_PROC_10_O, php_proc_10_); (LOCK_PHP_PROC_11_O, php_proc_11_);
   (LOCK_PHP_PROC_12_O, php_proc_12_); (LOCK_PHP_PROC_13_O, php_proc_13_); (LOCK_PHP_PROC_14_O, php_proc_14_);
   (LOCK_THDET_O, thdet_); (LOCK_HOST_TIME_O, host_time_)].
Definition get_name (lock : Z) : cstr := default ($"Unknown lock") (case_of
  [(LOCK_SNMP, $"snmp"); (LOCK_ICMP, $"icmp"); (LOCK_GHBN, $"ghbn"); (LOCK_POOL, $"pool"); (LOCK_PHP, $"php");
   (LOCK_PHP_PROC_0, $"php_proc_0"); (LOCK_PHP_PROC_1, $"php_proc_1"); (LOCK_PHP_PROC_2, $"php_proc_2");
   (LOCK_PHP_PROC_3, $"php_proc_3"); (LOCK_PHP_PROC_4, $"php_proc_4"); (LOCK_PHP_PROC_5, $"php_proc_5");
   (LOCK_PHP_PROC_6, $"php_proc_6"); (LOCK_PHP_PROC_7, $"php_proc_7"); (LOCK_PHP_PROC_8, $"php_proc_8");
   (LOCK_PHP_PROC_9, $"php_proc_9"); (LOCK_PHP_PROC_10, $"php_proc_10"); (LOCK_PHP_PROC_11, $"php_proc_11");
   (LOCK_PHP_PROC_12, $"php_proc_12"); (LOCK_PHP_PROC_13, $"php_proc_13"); (LOCK_PHP_PROC_14, $"php_proc_14");
   (LOCK_THDET, $"thdet"); (LOCK_HOST_TIME, $"host_time")] lock).

(** How often each mutex was initialized, which once flags are set, and who holds what. *)
Record mutexes := { once_ran : lock_object → bool; inits : lock_object → nat; owner : lock_object → option nat }.
Definition uninitialized : mutexes := {| once_ran := fun _ => false; inits := fun _ => 0%nat; owner := fun _ => None |}.

(** [pthread_once(flag, init_<l>_lock)]; a NULL flag is [None]. *)
Definition run_once (flag : option lock_object) (l : lock_object) (s : mutexes) : option mutexes :=
  f ← flag;
  Some (if once_ran s f then s
        else {| once_ran := fun x => if decide (x = f) then true else once_ran s x;
                inits := fun x => if decide (x = l) then S (inits s x) else inits s x; owner := owner s |}).
Definition mutex_inits : list (Z * lock_object) :=
  [(LOCK_SNMP_O, snmp_); (LOCK_ICMP_O, icmp_); (LOCK_GHBN_O, ghbn_); (LOCK_POOL_O, pool_); (LOCK_PHP_O, php_);
   (LOCK_PHP_PROC_0_O, php_proc_0_); (LOCK_PHP_PROC_1_O, php_proc_1_); (LOCK_PHP_PROC_2_O, php_proc_2_);
   (LOCK_PHP_PROC_3_O, php_proc_3_); (LOCK_PHP_PROC_4_O, php_proc_4_); (LOCK_PHP_PROC_5_O, php_proc_5_);
   (LOCK_PHP_PROC_6_O, php_proc_6_); (LOCK_PHP_PROC_7_O, php_proc_7_); (LOCK_PHP_PROC_8_O, php_proc_8_);
   (LOCK_PHP_PROC_9_O, php_proc_9_); (LOCK_PHP_PROC_10_O, php_proc_10_); (LOCK_PHP_PROC_11_O, php_proc_11_);
   (LOCK_PHP_PROC_12_O, php_proc_12_); (LOCK_PHP_PROC_13_O, php_proc_13_); (LOCK_PHP_PROC_14_O, php_proc_14_);
   (LOCK_THDET_O, thdet_); (LOCK_HOST_TIME_O, host_time_)].
Definition init_mutexes (s : mutexes) : option mutexes :=
  foldl (fun s '(o, l) => s ← s; run_once (get_attr o) l s) (Some s) mutex_inits.

Definition EBUSY : Z := 16.
Definition set_owner (l : lock_object) (o : option nat) (s : mutexes) : mutexes :=
  {| once_ran := once_ran s; inits := inits s; owner := fun x => if decide (x = l) then o else owner s x |}.

(** The calls of thread [t]; [None] is a call that cannot return: the mutex is NULL, held, or,
    for an unlock, not the caller's. *)
Definition thread_mutex_lock (t : nat) (mutex : Z) (s : mutexes) : option mutexes :=
  l ← get_lock mutex; match owner s l with None => Some (set_owner l (Some t) s) | Some _ => None end.
Definition thread_mutex_unlock (t : nat) (mutex : Z) (s : mutexes) : option mutexes :=
  l ← get_lock mutex; if decide (owner s l = Some t) then Some (set_owner l None s) else None.
Definition thread_mutex_trylock (t : nat) (mutex : Z) (s : mutexes) : option (Z * mutexes) :=
  l ← get_lock mutex; Some (match owner s l with None => (0, set_owner l (Some t) s) | Some _ => (EBUSY, s) end).

(** [php_process_lock] and [php_process_unlock] of protocol.c. *)
Definition php_process_lock (t : nat) (php_process : Z) : mutexes → option mutexes := thread_mutex_lock t (LOCK_PHP_PROC_0 + php_process).
Definition php_process_unlock (t : nat) (php_process : Z) : mutexes → option mutexes := thread_mutex_unlock t (LOCK_PHP_PROC_0 + php_process).

End Locks.

(** * thread.c *)

Module ThreadAttributes.

Definition SPINE_THREAD_STACK_SIZE : Z := Z.land (2 * (180 * 1024 + 5 * RESULTS_BUFFER) + 65535) (Z.lnot 65535).

(** What the calls on the attributes return: initializing them, the default size (or a
    failure to tell it), and setting a size. *)
Record attr_calls := { attr_init : Z; default_stack : option Z; set_stack : Z → Z; stack_min : option Z }.

(** The status and, for 0, the size of the stack of the threads. *)
Definition spine_thread_attr_init (a : attr_calls) : Z * option Z :=
  let wanted := SPINE_THREAD_STACK_SIZE in
  let wanted := match stack_min a with Some m => if wanted <? m then m else wanted | None => wanted end in
  if negb (attr_init a =? 0) then (attr_init a, None) else
  match default_stack a with
  | Some current => if wanted <=? current then (0, Some current) else (set_stack a wanted, if set_stack a wanted =? 0 then Some wanted else None)
  | None => (set_stack a wanted, if set_stack a wanted =? 0 then Some wanted else None)
  end.

End ThreadAttributes.

(** * clock.c *)

(** [nanosleep] of a number of nanoseconds: 0, or [errno] and what is left. *)
Class Sleep (W : Type) := nanosleep : W → Z * Z → (unit + Z * (Z * Z)) * W.

Module Clock.

Definition EINTR : Z := 4.

(** [None]: the fuel ran out. *)
Fixpoint sleep_loop {W} `{Sleep W} (fuel : nat) (w : W) (requested : Z * Z) : option (outcome W) :=
  match fuel with
  | O => None
  | S f =>
      match nanosleep w requested with
      | (inl _, w) => Some (Ok w)
      | (inr (errno, rest), w) => if negb (errno =? EINTR) then Some (Died EXIT_FAILURE) else sleep_loop f w rest
      end
  end.
Definition spine_sleep_usec {W} `{Sleep W} (fuel : nat) (w : W) (microseconds : Z) : option (outcome W) :=
  sleep_loop fuel w (microseconds / 1000000, microseconds mod 1000000 * 1000).

(** The doubles of a time in seconds and a fraction. *)
Definition spine_monotonic_time (now : option (Z * Z)) : outcome double :=
  match now with
  | None => Died EXIT_FAILURE
  | Some (tv_sec, tv_nsec) => Ok (dadd (of_int tv_sec) (ddiv (of_int tv_nsec) (of_int 1000000000)))
  end.
Definition get_time_as_double (now : Z * Z) : double := dadd (of_int (fst now)) (ddiv (of_int (snd now)) (of_int 1000000)).

End Clock.

(** * The buffers of a thread *)

Module ThreadBuffers.

(** A key whose destructor is [free], made once; the buffer of each thread; the buffers
    that are allocated. *)
Record storage := { once_done : bool; keyed : bool; specific : gmap nat nat; heap : gset nat }.
(** What the calls return this time. *)
Record calls := { once_ok : bool; key_ok : bool; malloc_ok : bool; set_ok : bool }.

Definition no_storage : storage := {| once_done := false; keyed := false; specific := ∅; heap := ∅ |}.

Definition create_key (c : calls) (s : storage) : storage :=
  if once_done s then s else {| once_done := true; keyed := key_ok c; specific := specific s; heap := heap s |}.

(** A new buffer for thread [t], kept or freed again. *)
Definition take_buffer (t : nat) (c : calls) (s : storage) : option nat * storage :=
  if negb (malloc_ok c) then (None, s) else
  let b := fresh (heap s) in
  if set_ok c then (Some b, {| once_done := once_done s; keyed := keyed s; specific := <[t := b]> (specific s); heap := {[ b ]} ∪ heap s |})
  else (None, {| once_done := once_done s; keyed := keyed s; specific := specific s; heap := ({[ b ]} ∪ heap s) ∖ {[ b ]} |}).

Definition log_buffers (t : nat) (c : calls) (s : storage) : option nat * storage :=
  if negb (once_ok c) then (None, s) else
  let s := create_key c s in
  if negb (keyed s) then (None, s) else
  match specific s !! t with
  | Some buffers => (Some buffers, s)
  | None => take_buffer t c s
  end.

Definition regex_result_buffer (t : nat) (c : calls) (s : storage) : outcome (nat * storage) :=
  if negb (once_ok c) then Died EXIT_FAILURE else
  if negb (once_done s) && negb (key_ok c) then Died EXIT_FAILURE else
  let s := create_key c s in
  match specific s !! t with
  | Some buffer => Ok (buffer, s)
  | None => match take_buffer t c s with (Some buffer, s) => Ok (buffer, s) | (None, _) => Died EXIT_FAILURE end
  end.

(** The end of a thread runs the destructor. *)
Definition thread_exits (t : nat) (s : storage) : storage :=
  match specific s !! t with
  | None => s
  | Some b => {| once_done := once_done s; keyed := keyed s; specific := delete t (specific s); heap := heap s ∖ {[ b ]} |}
  end.

(** Calls of any threads, in any order.  The two functions have a key each; either is a run
    with only its own calls. *)
Inductive bevent := BLog (t : nat) (c : calls) | BRegex (t : nat) (c : calls) | BExit (t : nat).
Definition bstep (s : storage) (e : bevent) : option storage :=
  match e with
  | BLog t c => Some (snd (log_buffers t c s))
  | BRegex t c => match regex_result_buffer t c s with Ok (_, s) => Some s | Died _ => None end
  | BExit t => Some (thread_exits t s)
  end.
Inductive breachable : storage → Prop :=
| br_init : breachable no_storage
| br_step s e s' : breachable s → bstep s e = Some s' → breachable s'.

End ThreadBuffers.

(** * Facts *)

Module ThreadsFacts.
Import Locks ThreadAttributes Clock ThreadBuffers.

(** ** Mutexes *)

(** The numbers the program locks with, script server slots included. *)
Definition lock_ids : list Z :=
  [LOCK_SNMP; LOCK_ICMP; LOCK_GHBN; LOCK_POOL; LOCK_PHP; LOCK_THDET; LOCK_HOST_TIME] ++ map (fun i => LOCK_PHP_PROC_0 + Z.of_nat i) (seq 0 15).
Definition all_locks : list lock_object := omap get_lock lock_ids.

Lemma lock_ids_named : Forall (fun id => is_Some (get_lock id) ∧ get_cond id = get_lock id ∧ get_attr id = get_lock id) lock_ids ∧ NoDup all_locks ∧ NoDup lock_ids.
Proof.
  split; [|split; apply (bool_decide_unpack _); vm_compute; exact I].
  repeat constructor; by vm_compute; eauto.
Qed.
Lemma all_locks_complete l : l ∈ all_locks.
Proof. apply (bool_decide_unpack _). destruct l; vm_compute; exact I. Qed.
Lemma slot_lock_id i : 0 ≤ i < 15 → LOCK_PHP_PROC_0 + i ∈ lock_ids.
Proof.
  intros Hi. apply elem_of_app. right. apply list_elem_of_fmap. exists (Z.to_nat i). split; [lia|]. apply elem_of_seq. lia.
Qed.
Lemma get_lock_inj a b l : a ∈ lock_ids → b ∈ lock_ids → get_lock a = Some l → get_lock b = Some l → a = b.
Proof.
  intros Ha Hb. assert (Hdec : bool_decide (Forall (fun a => Forall (fun b => get_lock a = get_lock b → a = b) lock_ids) lock_ids) = true) by (by vm_compute).
  apply bool_decide_eq_true in Hdec. rewrite list.Forall_forall in Hdec. specialize (Hdec a Ha). rewrite list.Forall_forall in Hdec. specialize (Hdec b Hb). intros E1 E2. apply Hdec. congruence.
Qed.

(** [init_mutexes] runs every initializer once, however often it is called. *)
Lemma init_mutexes_once s : (∀ l, inits s l = if once_ran s l then 1%nat else 0%nat) →
  ∃ s', init_mutexes s = Some s' ∧ (∀ l, once_ran s' l = true ∧ inits s' l = 1%nat) ∧ owner s' = owner s.
Proof.
  intros Hs.
  assert (Hstep : ∀ o l s, get_attr o = Some l → (∀ l, inits s l = if once_ran s l then 1%nat else 0%nat) →
    ∃ s', run_once (get_attr o) l s = Some s' ∧ (∀ x, inits s' x = if once_ran s' x then 1%nat else 0%nat) ∧ owner s' = owner s ∧
      once_ran s' l = true ∧ (∀ x, once_ran s x = true → once_ran s' x = true)).
  { intros o l s0 Eo H0. unfold run_once. rewrite Eo. cbn [mbind option_bind]. eexists. split; [done|]. destruct (once_ran s0 l) eqn:El; [done|].
    cbn. split; [|split; [done|split; [by rewrite decide_True by done|intros x Hx; by case_decide]]].
    intros x. pose proof (H0 x) as Hx. case_decide as Ex; [|done]. subst x. by rewrite Hx, El. }
  assert (Hall : ∀ tbl s, Forall (fun '(o, l) => get_attr o = Some l) tbl → (∀ l, inits s l = if once_ran s l then 1%nat else 0%nat) →
    ∃ s', foldl (fun s '(o, l) => s ← s; run_once (get_attr o) l s) (Some s) tbl = Some s' ∧ (∀ x, inits s' x = if once_ran s' x then 1%nat else 0%nat) ∧
      owner s' = owner s ∧ (∀ x, x ∈ map snd tbl ∨ once_ran s x = true → once_ran s' x = true)).
  { induction tbl as [|[o l] tbl IH]; intros s0 Ht H0; [exists s0; split_and!; try done; intros x [Hx|]; [by apply not_elem_of_nil in Hx|done]|].
    apply Forall_cons_1 in Ht as [Eo Ht]. destruct (Hstep o l s0 Eo H0) as (s1 & E1 & H1 & O1 & R1 & M1). cbn [foldl]. cbn [mbind option_bind]. rewrite E1.
    destruct (IH s1 Ht H1) as (s2 & E2 & H2 & O2 & R2). exists s2. split_and!; [done|done|congruence|].
    intros x [[->|Hx]%elem_of_cons|Hx]; apply R2; auto. }
  destruct (Hall mutex_inits s) as (s' & E & H1 & O1 & R1); [by repeat constructor|done|].
  exists s'. split; [done|]. split; [|done]. intros l. assert (Hr : once_ran s' l = true).
  { apply R1. left. apply (bool_decide_unpack _). destruct l; vm_compute; exact I. }
  split; [done|]. by rewrite H1, Hr.
Qed.

(** ** Buffers *)

(** The buffers in use are the allocated ones, one per thread. *)
Record private (s : storage) : Prop := {
  pb_own : ∀ t u b, specific s !! t = Some b → specific s !! u = Some b → t = u;
  pb_heap : ∀ b, b ∈ heap s ↔ ∃ t, specific s !! t = Some b }.

Lemma take_buffer_private t c s : private s → specific s !! t = None →
  private (snd (take_buffer t c s)) ∧ (∀ b, fst (take_buffer t c s) = Some b → specific (snd (take_buffer t c s)) !! t = Some b) ∧
  (∀ u, u ≠ t → specific (snd (take_buffer t c s)) !! u = specific s !! u).
Proof.
  intros Hp Ht. unfold take_buffer. destruct (malloc_ok c); cbn [negb]; [|split_and!; try done]. set (b := fresh (heap s)).
  assert (Hb : b ∉ heap s) by apply is_fresh. assert (Hnone : ∀ u, specific s !! u ≠ Some b) by (intros u Hu; apply Hb, Hp; by exists u).
  destruct (set_ok c); cbn [fst snd specific heap].
  - split_and!; [|intros b' [= <-]; by rewrite lookup_insert_eq|intros u Hu; by rewrite lookup_insert_ne]. split; cbn [specific heap].
    + intros x y b'. destruct (decide (x = t)) as [->|Hx], (decide (y = t)) as [->|Hy]; [done| | |].
      * rewrite lookup_insert_eq, lookup_insert_ne by done. intros [= <-] Hy'. by apply Hnone in Hy'.
      * rewrite lookup_insert_eq, lookup_insert_ne by done. intros Hx' [= <-]. by apply Hnone in Hx'.
      * rewrite !lookup_insert_ne by done. apply Hp.
    + intros b'. rewrite elem_of_union, elem_of_singleton, (pb_heap _ Hp). split.
      * intros [->|[u Hu]]; [exists t; by rewrite lookup_insert_eq|]. exists u. rewrite lookup_insert_ne; [done|]. intros ->. congruence.
      * intros [u Hu]. destruct (decide (u = t)) as [->|]; [rewrite lookup_insert_eq in Hu; left; congruence|rewrite lookup_insert_ne in Hu by done; eauto].
  - split_and!; [|done|done]. split; cbn [specific heap]; [apply Hp|]. intros b'. rewrite <- (pb_heap _ Hp). set_solver.
Qed.
Lemma create_key_private c s : private s → private (create_key c s) ∧ specific (create_key c s) = specific s.
Proof. intros Hp. unfold create_key. destruct (once_done s); [done|]. split; [split; apply Hp|done]. Qed.
Lemma log_buffers_private t c s : private s → private (snd (log_buffers t c s)) ∧
  (∀ b, fst (log_buffers t c s) = Some b → specific (snd (log_buffers t c s)) !! t = Some b) ∧
  (∀ u b, specific s !! u = Some b → specific (snd (log_buffers t c s)) !! u = Some b).
Proof.
  intros Hp. unfold log_buffers. destruct (once_ok c); cbn [negb]; [|by split_and!]. destruct (create_key_private c s Hp) as [Hp1 E1].
  destruct (keyed (create_key c s)); cbn [negb]; [|cbn [fst snd]; split_and!; [done|done|intros u b; by rewrite E1]].
  destruct (specific (create_key c s) !! t) as [b|] eqn:Et.
  - cbn [fst snd]. split_and!; [done|intros b' [= <-]; done|intros u b'; by rewrite E1].
  - destruct (take_buffer_private t c _ Hp1 Et) as (H1 & H2 & H3). split_and!; [done|done|]. intros u b Hu. rewrite <- E1 in Hu.
    rewrite H3; [done|]. intros ->. congruence.
Qed.
Lemma regex_result_buffer_private t c s b s' : private s → regex_result_buffer t c s = Ok (b, s') →
  private s' ∧ specific s' !! t = Some b ∧ (∀ u b', specific s !! u = Some b' → specific s' !! u = Some b').
Proof.
  intros Hp E. unfold regex_result_buffer in E. destruct (negb (once_ok c)); [done|]. destruct (negb (once_done s) && _); [done|].
  destruct (create_key_private c s Hp) as [Hp1 E1]. destruct (specific (create_key c s) !! t) as [b0|] eqn:Et.
  - injection E as -> <-. split_and!; [done|done|]. intros u b'. by rewrite E1.
  - destruct (take_buffer_private t c _ Hp1 Et) as (H1 & H2 & H3). destruct (take_buffer t c _) as [[b1|] s1]; [|done]. injection E as -> <-.
    cbn [fst snd] in *. split_and!; [done|by apply H2|]. intros u b' Hu. rewrite <- E1 in Hu. rewrite H3; [done|]. intros ->. congruence.
Qed.
Lemma thread_exits_private t s : private s → private (thread_exits t s) ∧ (∀ u, u ≠ t → specific (thread_exits t s) !! u = specific s !! u).
Proof.
  intros Hp. unfold thread_exits. destruct (specific s !! t) as [b|] eqn:Et; [|done]. cbn [specific]. split; [|intros u Hu; by rewrite lookup_delete_ne].
  split; cbn [specific heap].
  - intros x y b' [_ Hx]%lookup_delete_Some [_ Hy]%lookup_delete_Some. by eapply Hp.
  - intros b'. rewrite elem_of_difference, elem_of_singleton, (pb_heap _ Hp). split.
    + intros [[u Hu] Hne]. exists u. apply lookup_delete_Some. split; [|done]. intros ->. congruence.
    + intros [u [Hne Hu]%lookup_delete_Some]. split; [by exists u|]. intros ->. apply Hne. by eapply Hp.
Qed.
Lemma breachable_private s : breachable s → private s.
Proof.
  induction 1 as [|s e s' _ IH E]; [split; cbn; [intros t u b Ht; by rewrite lookup_empty in Ht|intros b; split; [set_solver|intros [t Ht]; by rewrite lookup_empty in Ht]]|].
  destruct e as [t c|t c|t]; cbn in E.
  - injection E as <-. by apply log_buffers_private.
  - destruct (regex_result_buffer t c s) as [[b s1]|] eqn:Er; [|done]. injection E as <-. by eapply regex_result_buffer_private in Er as [? _].
  - injection E as <-. by apply thread_exits_private.
Qed.
End ThreadsFacts.
Import Locks ThreadAttributes Clock ThreadBuffers ThreadsFacts.

(** * Properties *)

(** C33: every lock number of the program is a mutex of its own, and so is every script server
    slot.  Numbers in use name a mutex, different numbers different ones; [init_mutexes]
    initializes each exactly once however often it is called, and none that is held.  So while
    one thread is in the section of a slot no other can enter it, not even by trying, while
    the sections of the other slots are as free as before; and leaving it frees it. *)
Theorem locks_separate (s s1 : mutexes) (t u : nat) (i j : Z)
  (Hslots : 0 ≤ i < 15 ∧ 0 ≤ j < 15) (Hinits : ∀ l, inits s l = if once_ran s l then 1%nat else 0%nat) :
  (∀ id, id ∈ lock_ids → ∃ l, get_lock id = Some l ∧ ∀ id', id' ∈ lock_ids → get_lock id' = Some l → id' = id) ∧
  (∃ s', init_mutexes s = Some s' ∧ init_mutexes s' ≫= init_mutexes = init_mutexes s' ∧ owner s' = owner s ∧ ∀ l, inits s' l = 1%nat) ∧
  (php_process_lock t i s = Some s1 →
   php_process_lock u i s1 = None ∧ thread_mutex_trylock u (LOCK_PHP_PROC_0 + i) s1 = Some (EBUSY, s1) ∧
   (u ≠ t → php_process_unlock u i s1 = None) ∧
   (i ≠ j → is_Some (php_process_lock u j s1) ↔ is_Some (php_process_lock u j s)) ∧
   ∃ s2, php_process_unlock t i s1 = Some s2 ∧ ∀ l, owner s2 l = owner s l).
Proof.
  assert (Hname : ∀ k, 0 ≤ k < 15 → ∃ l, get_lock (LOCK_PHP_PROC_0 + k) = Some l).
  { intros k Hk. pose proof lock_ids_named as [Hall _]. rewrite list.Forall_forall in Hall. by destruct (Hall _ (slot_lock_id k Hk)) as ([l El] & _); eauto. }
  split; [|split].
  - intros id Hid. pose proof lock_ids_named as [Hall _]. rewrite list.Forall_forall in Hall. destruct (Hall id Hid) as ([l El] & _).
    exists l. split; [done|]. intros id' Hid' El'. by eapply get_lock_inj.
  - destruct (init_mutexes_once s Hinits) as (s' & E & H1 & HO). exists s'. split; [done|].
    assert (Hagain : init_mutexes s' = Some s').
    { unfold init_mutexes. assert (Hall : ∀ tbl, Forall (fun '(o, l) => get_attr o = Some l) tbl →
        foldl (fun s '(o, l) => s ← s; run_once (get_attr o) l s) (Some s') tbl = Some s').
      { induction 1 as [|[o l] tbl Eo _ IH]; [done|]. cbn [foldl]. replace (Some s' ≫= fun s => run_once (get_attr o) l s) with (Some s'); [done|].
        cbn [mbind option_bind]. unfold run_once. rewrite Eo. cbn [mbind option_bind]. by rewrite (proj1 (H1 l)). }
      apply Hall. by repeat constructor. }
    split; [rewrite Hagain; exact Hagain|]. split; [done|]. intros l. apply H1.
  - intros E. destruct Hslots as [Hi Hj]. destruct (Hname i Hi) as [l El]. destruct (Hname j Hj) as [m Em].
    unfold php_process_lock, php_process_unlock, thread_mutex_lock, thread_mutex_unlock, thread_mutex_trylock in *. rewrite El in *. cbn [mbind option_bind] in *.
    destruct (owner s l) eqn:Eo; [done|]. injection E as <-. cbn [owner set_owner]. rewrite !decide_True by done. split_and!; try done.
    + intros Hu. by rewrite decide_False by congruence.
    + intros Hij. rewrite Em. cbn [mbind option_bind]. assert (Hlm : m ≠ l).
      { intros ->. apply Hij. pose proof (get_lock_inj _ _ l (slot_lock_id i Hi) (slot_lock_id j Hj) El Em). lia. }
      rewrite decide_False by done. destruct (owner s m); split; intros [x Hx]; try discriminate; by eexists.
    + rewrite decide_True by done. eexists. split; [done|]. intros x. cbn. case_decide; [by subst|done].
Qed.

Lemma locks_separate_witness :
  match init_mutexes uninitialized with
  | Some s => match php_process_lock 1 3 s with
              | Some s1 => php_process_lock 2 3 s1 = None ∧ is_Some (php_process_lock 2 4 s1)
              | None => False
              end
  | None => False
  end.
Proof.
  destruct (init_mutexes_once uninitialized (fun _ => eq_refl)) as (s & -> & Hs & HO).
  assert (Hfree : ∀ i, is_Some (get_lock (LOCK_PHP_PROC_0 + i)) → ∀ t, is_Some (php_process_lock t i s)).
  { intros i [l El] t. unfold php_process_lock, thread_mutex_lock. rewrite El. cbn [mbind option_bind]. rewrite HO. by eexists. }
  destruct (Hfree 3 ltac:(by eexists) 1%nat) as [s1 E1]. rewrite E1.
  destruct (locks_separate s s1 1 2 3 4 ltac:(lia)) as (_ & _ & H1).
  { intros l. destruct (Hs l) as [-> ->]. done. }
  destruct (H1 E1) as (Hn & _ & _ & Hf & _). split; [exact Hn|]. apply Hf; [done|]. apply Hfree. by eexists.
Defined.

(** A buffer belongs to one thread: in every order of calls and thread exits no two threads
    have the same buffer, the allocated buffers are exactly those of the threads - none is
    lost when a call fails half way - and a thread is given its own buffer again. *)
Theorem thread_buffers_private (s : storage) (Hr : breachable s) :
  (∀ t u b, specific s !! t = Some b → specific s !! u = Some b → t = u) ∧
  (∀ b, b ∈ heap s ↔ ∃ t, specific s !! t = Some b) ∧
  (∀ t c b, fst (log_buffers t c s) = Some b → fst (log_buffers t {| once_ok := true; key_ok := true; malloc_ok := false; set_ok := false |} (snd (log_buffers t c s))) = Some b) ∧
  (∀ t c b s', regex_result_buffer t c s = Ok (b, s') → ∀ u b', u ≠ t → specific s' !! u = Some b' → b' ≠ b).
Proof.
  apply breachable_private in Hr. split; [apply Hr|]. split; [apply Hr|]. split.
  - intros t c b Hb. destruct (log_buffers_private t c s Hr) as (_ & H2 & _). specialize (H2 b Hb).
    assert (Hk : keyed (snd (log_buffers t c s)) = true ∧ once_done (snd (log_buffers t c s)) = true).
    { unfold log_buffers in *. destruct (negb (once_ok c)); [done|]. destruct (keyed (create_key c s)) eqn:Ek; cbn [negb] in *; [|done].
      assert (Eo : once_done (create_key c s) = true) by (unfold create_key; by destruct (once_done s) eqn:E).
      destruct (specific (create_key c s) !! t); [done|]. unfold take_buffer in *. destruct (negb (malloc_ok c)); [done|]. by destruct (set_ok c). }
    destruct Hk as [Hk Ho]. set (s1 := snd (log_buffers t c s)) in *. unfold log_buffers. cbn [once_ok negb]. unfold create_key. rewrite Ho, Hk. cbn [negb].
    by rewrite H2.
  - intros t c b s' E u b' Hu Hub ->. apply (regex_result_buffer_private t c s b s' Hr) in E as (Hp & Ht & _). apply Hu. by eapply Hp.
Qed.

(** Polling threads never have a smaller stack than the program needs, nor than the default. *)
Theorem worker_stack_enough (a : attr_calls) (size : Z) (Hok : spine_thread_attr_init a = (0, Some size)) :
  SPINE_THREAD_STACK_SIZE ≤ size ∧ (∀ m, stack_min a = Some m → m ≤ size) ∧ (∀ d, default_stack a = Some d → d ≤ size).
Proof.
  unfold spine_thread_attr_init in Hok. set (wanted := match stack_min a with Some m => _ | None => _ end) in Hok.
  assert (Hw : SPINE_THREAD_STACK_SIZE ≤ wanted ∧ ∀ m, stack_min a = Some m → m ≤ wanted).
  { unfold wanted. destruct (stack_min a) as [m|]; [|split; [lia|done]]. destruct (Z.ltb_spec SPINE_THREAD_STACK_SIZE m); (split; [lia|]); intros m' [= <-]; lia. }
  destruct (negb (attr_init a =? 0)); [done|]. destruct (default_stack a) as [d|].
  - destruct (Z.leb_spec wanted d); [injection Hok as <-|destruct (set_stack a wanted =? 0); [injection Hok as _ <-|done]].
    all: split; [lia|]; split; [intros m Hm; destruct Hw as [_ Hw]; specialize (Hw m Hm); lia|intros d' [= <-]; lia].
  - destruct (set_stack a wanted =? 0); [injection Hok as _ <-|done]. split; [lia|]. split; [apply Hw|done].
Qed.

(** A pause lasts as long as it was asked for, whatever signals interrupt it. *)
Theorem sleep_lasts {W} `{Sleep W} (elapsed : W → Z) (signals : W → nat)
  (Hsleep : ∀ w sec nsec, match nanosleep w (sec, nsec) with
     | (inl _, w') => elapsed w + (sec * 1000000000 + nsec) ≤ elapsed w'
     | (inr (_, (s, n)), w') => elapsed w + (sec * 1000000000 + nsec) ≤ elapsed w' + (s * 1000000000 + n) ∧ (signals w' < signals w)%nat
     end)
  (w : W) (microseconds : Z) (fuel : nat) (Hfuel : (signals w < fuel)%nat) :
  ∃ r, spine_sleep_usec fuel w microseconds = Some r ∧ ∀ w', r = Ok w' → elapsed w + microseconds * 1000 ≤ elapsed w'.
Proof.
  unfold spine_sleep_usec.
  assert (Hloop : ∀ fuel w req, (signals w < fuel)%nat → ∃ r, sleep_loop fuel w req = Some r ∧
    ∀ w', r = Ok w' → elapsed w + (fst req * 1000000000 + snd req) ≤ elapsed w').
  { clear w microseconds fuel Hfuel. induction fuel as [|f IH]; intros w [sec nsec] Hf; [lia|]. cbn [sleep_loop]. specialize (Hsleep w sec nsec).
    destruct (nanosleep w (sec, nsec)) as [[[]|[e [s n]]] w1]; [exists (Ok w1); split; [done|]; by intros w' [= <-]|].
    destruct (negb (e =? EINTR)); [by eexists|]. destruct Hsleep as [Hs Hlt]. destruct (IH w1 (s, n)) as (r & E & Hr); [lia|].
    exists r. split; [done|]. intros w' Hw'. specialize (Hr w' Hw'). cbn in *. lia. }
  destruct (Hloop fuel w (microseconds / 1000000, microseconds mod 1000000 * 1000) Hfuel) as (r & E & Hr). exists r. split; [done|].
  intros w' Hw'. specialize (Hr w' Hw'). cbn in Hr. pose proof (Z.div_mod microseconds 1000000 ltac:(lia)). lia.
Qed.
