(* ===== verification/Ping.v ===== *)
(** The network probes: src/src/ping/icmp4.c, icmp6.c, udp.c and tcp.c, the sockets of
    src/src/ping/icmp_shared.c and the waits of src/src/platform/socket.c.

    Sockets, clocks and the resolver are an interface ([Class Sockets]) over a world that
    also holds the shared ICMP sockets and the sequence counters.  The two ICMP probes
    share their retry and listen loops, which the two source files spell out separately;
    what differs between them (the packet, the test of a reply, a failed send) is a
    parameter or a case on the family.  A loop that only a clock or a signal ends takes
    fuel, and [None] means that it ran out, or that a byte outside a received datagram
    was read.  Log output and Cygwin are not modelled. *)

From Stdlib Require Import SpecFloat.
From S2P Require Import Prelude CLib Buffer Result Address Icmp Settings.

(** A system call returns a value or fails with an error number. *)
Inductive res := Val (v : Z) | Err (errno : Z).
#[global] Instance res_eq_dec : EqDecision res.
Proof. solve_decision. Defined.

Inductive sock_type := SOCK_DGRAM | SOCK_RAW | SOCK_STREAM.
Record sockaddr_in6 := { sin6_addr : list ascii; sin6_port : Z; sin6_scope_id : Z }.
Inductive sockaddr := Sin (a : Resolve.sockaddr_in) | Sin6 (a : sockaddr_in6).
Inductive sockopt :=
| SO_RCVTIMEO (tv : Z * Z) | SO_SNDTIMEO (tv : Z * Z) | SO_RCVBUF (n : Z) | SO_RCVBUFFORCE (n : Z)
| ICMP_FILTER (blocked : Z) | ICMP6_FILTER_only (type : Z) | IPV6_CHECKSUM (offset : Z).
Inductive fcntl_t := F_SETFD (flags : Z) | F_GETFL | F_SETFL (flags : Z).
Inductive recv_result := Received (bytes : list ascii) (from : sockaddr) | RecvErr (errno : Z).

(** One entry of the list [getaddrinfo] returns, and its verdict for an IPv6 lookup. *)
Record addrinfo6 := { ai_inet6 : bool; ai_addrlen : Z; ai_addr : sockaddr_in6 }.
Inductive gai6 := Gai6Ok (l : list addrinfo6) | Gai6Again | Gai6Error.
Record ifaddr := { ifa_inet6 : option bool (* [None]: no address *); ifa_loopback : bool; ifa_name : cstr }.

(** [shared_fd], [shared_await] and the registration are the shared sockets of [Icmp];
    [get_seq] and [put_seq] are the static counter [seq] of each ICMP probe, which
    [seq_lock] and [seq_unlock] (LOCK_GHBN) protect. *)
Class Sockets (W : Type) := {
  socket : W → Shared.family_t → sock_type → bool (* SOCK_CLOEXEC *) → Z → res * W;
  fcntl : W → Z → fcntl_t → res * W;
  setsockopt : W → Z → sockopt → res * W;
  getsockopt_error : W → Z → res * W;
  connect : W → Z → sockaddr → res * W;
  send : W → Z → list ascii → res * W;
  sendto : W → Z → list ascii → sockaddr → res * W;
  recv : W → Z → recv_result * W;
  recvfrom : W → Z → recv_result * W;
  select : W → Z → bool (* writable *) → Z * Z → res * W;
  close : W → Z → W;
  monotonic_time : W → double * W;
  get_time_as_double : W → double * W;
  usleep : W → Z → W;
  getaddrinfo : W → cstr → Resolve.gai * W;
  getaddrinfo6 : W → cstr → gai6 * W;
  getifaddrs : W → option (list ifaddr) * W;
  if_nametoindex : W → cstr → Z * W;
  getpid : W → Z;
  seq_lock : W → W;
  seq_unlock : W → W;
  get_seq : W → Shared.family_t → Z;
  put_seq : W → Shared.family_t → Z → W;
  shared_fd : W → Shared.family_t → Z;
  set_shared_fd : W → Shared.family_t → Z → W;
  shared_register : W → Shared.request → W;
  shared_unregister : W → Shared.request → W;
  shared_await : W → Shared.request → double → bool * W }.

Module Ping.
Import Shared Reply.

Definition EINTR : Z := 4.
Definition EBADF : Z := 9.
Definition EAGAIN : Z := 11.
Definition EINVAL : Z := 22.
Definition ECONNRESET : Z := 104.
Definition ETIMEDOUT : Z := 110.
Definition ECONNREFUSED : Z := 111.
Definition EHOSTUNREACH : Z := 113.
Definition EINPROGRESS : Z := 115.
Definition FD_CLOEXEC : Z := 1.
Definition O_NONBLOCK : Z := 2048.
Definition FD_SETSIZE : Z := 1024.
Definition ICMP_ECHO : Z := 8.
Definition ICMP6_ECHO_REQUEST : Z := 128.
Definition IPPROTO_TCP : Z := 6.
Definition IPPROTO_UDP : Z := 17.
Definition IPPROTO_ICMPV6 : Z := 58.
Definition ICMP_SHARED_RCVBUF : Z := 4194304.
Definition sizeof_sockaddr_in6 : Z := 28.

(** [(time_t) d] for a finite [d]: the fraction is dropped. *)
Definition dtrunc (d : double) : Z :=
  match d with
  | S754_finite s m e => let n := if 0 <=? e then Zpos m * 2 ^ e else Zpos m / 2 ^ (- e) in if s then - n else n
  | _ => 0
  end.
Definition timeval (remaining : double) : Z * Z :=
  let tv_sec := dtrunc remaining in
  (tv_sec, dtrunc (dmul (dsub remaining (of_int tv_sec)) (of_int 1000000))).

(** The result of a probe; [cstr] is the text of the time or of the reason. *)
Definition ping_result (status response : cstr) (ping : ping_t) : ping_t :=
  {| ping_status := snprintf_s 50 status; ping_response := strncopy_s SMALL_BUFSIZE response;
     snmp_ping_status := snmp_ping_status ping; snmp_response := snmp_response ping |}.
Definition ping_down (ping : ping_t) (message : cstr) : Z * ping_t :=
  (HOST_DOWN, ping_result ($"down") message ping).
Definition ping_up (ping : ping_t) (message : cstr) (total_time : double) : Z * ping_t :=
  (HOST_UP, ping_result (print_fixed 5 total_time) message ping).

Section Probe.
Context {W : Type} `{Sockets W}.

(** ** Waiting on a descriptor (platform/socket.c) *)

Fixpoint wait_loop (fuel : nat) (w : W) (fd : Z) (deadline : double) (writable : bool) : option (res * W) :=
  match fuel with
  | O => None
  | S f =>
      let '(now, w) := monotonic_time w in
      let remaining := dsub deadline now in
      if dle remaining dzero then Some (Val 0, w)
      else if dlt (of_int INT_MAX) remaining then Some (Err EINVAL, w)
      else
        match select w fd writable (timeval remaining) with
        | (Err e, w) => if e =? EINTR then wait_loop f w fd deadline writable else Some (Err e, w)
        | (Val n, w) => Some (Val n, w)
        end
  end.
Definition spine_wait_fd (fuel : nat) (w : W) (fd : Z) (deadline : double) (writable : bool) : option (res * W) :=
  if (fd <? 0) || (FD_SETSIZE <=? fd) then Some (Err EBADF, w)
  else if negb (isfinite deadline) then Some (Err EINVAL, w)
  else wait_loop fuel w fd deadline writable.

(** ** UDP (udp.c) *)

(** 1 for an answer, 0 for none in time, -1 for an error. *)
Fixpoint ping_udp_response (fuel : nat) (w : W) (fd : Z) (deadline : double) : option (Z * W) :=
  match fuel with
  | O => None
  | S f =>
      '(ready, w) ← spine_wait_fd fuel w fd deadline false;
      match ready with
      | Err _ => Some (-1, w)
      | Val n =>
          if n <=? 0 then Some (n, w) else
          match recv w fd with
          | (Received _ _, w) => Some (1, w)
          | (RecvErr e, w) =>
              if (e =? EHOSTUNREACH) || (e =? ECONNRESET) || (e =? ECONNREFUSED) then Some (1, w)
              else if negb (e =? EINTR) && negb (e =? EAGAIN) then Some (-1, w)
              else ping_udp_response f w fd deadline
          end
      end
  end.

Definition udp_request : list ascii := $"cacti-monitoring-system".

Fixpoint send_loop (fuel : nat) (w : W) (fd : Z) (deadline : double) : option (res * W) :=
  match fuel with
  | O => None
  | S f =>
      match send w fd udp_request with
      | (Err e, w) =>
          if e =? EINTR then
            let '(now, w) := monotonic_time w in
            if dlt now deadline then send_loop f w fd deadline else Some (Err e, w)
          else Some (Err e, w)
      | (Val n, w) => Some (Val n, w)
      end
  end.

Definition attempt_deadline (now : double) (timeout : Z) : double := dadd now (ddiv (of_int timeout) (of_int 1000)).

Fixpoint udp_attempts (turns fuel : nat) (w : W) (host : host_t) (ping : ping_t) (fd : Z) (begin : double) (attempt : Z) :
    option (Z * ping_t * W) :=
  match turns with
  | O => None
  | S t =>
      let '(now, w) := monotonic_time w in
      let deadline := attempt_deadline now (av_timeout (host_avail host)) in
      '(sent, w) ← send_loop fuel w fd deadline;
      '(result, w) ← match sent with
                     | Val n => if n =? slen udp_request then ping_udp_response fuel w fd deadline else Some (-1, w)
                     | Err _ => Some (-1, w)
                     end;
      let '(now, w) := monotonic_time w in
      let elapsed := dmul (dsub now begin) (of_int 1000) in
      if 0 <? result then Some (ping_up ping ($"UDP: Device is Alive") elapsed, close w fd)
      else if (result <? 0) || (av_retries (host_avail host) <=? attempt) then
        Some (ping_down ping (if result <? 0 then $"UDP: Device is Down" else $"UDP: Ping timed out"), close w fd)
      else udp_attempts t fuel w host ping fd begin (attempt + 1)
  end.

(** [fcntl(fd, F_SETFL, fcntl(fd, F_GETFL, 0) | O_NONBLOCK)], with its error. *)
Definition set_nonblock (w : W) (fd : Z) : res * W :=
  match fcntl w fd F_GETFL with
  | (Err e, w) => (Err e, w)
  | (Val flags, w) => fcntl w fd (F_SETFL (Z.lor flags O_NONBLOCK))
  end.

Definition udp_connect (w : W) (fd : Z) (servername : sockaddr) : res * W :=
  match set_nonblock w fd with
  | (Err e, w) => (Err e, w)
  | (Val _, w) => connect w fd servername
  end.

Definition turns_of (host : host_t) : nat := S (Z.to_nat (av_retries (host_avail host))).

Definition ping_udp (fuel : nat) (w : W) (host : host_t) (ping : ping_t) : option (Z * ping_t * W) :=
  if bool_decide (hostname host = []) then
    Some (ping_down ping ($"UDP: Destination address invalid or unable to create socket"), w)
  else
    let '(address, w, _) := Resolve.init_sockaddr getaddrinfo w (hostname host) (av_port (host_avail host)) in
    match address with
    | None => Some (ping_down ping ($"UDP: Destination hostname invalid"), w)
    | Some servername =>
        if (av_timeout (host_avail host) <=? 0) || (av_retries (host_avail host) <? 0) then
          Some (ping_down ping ($"UDP: Ping timed out"), w)
        else
          match socket w AF_INET SOCK_DGRAM false IPPROTO_UDP with
          | (Err _, w) => Some (ping_down ping ($"UDP: Destination address invalid or unable to create socket"), w)
          | (Val fd, w) =>
              match udp_connect w fd (Sin servername) with
              | (Err _, w) => Some (ping_down ping ($"UDP: Cannot connect to host"), close w fd)
              | (Val _, w) =>
                  let '(begin, w) := monotonic_time w in
                  udp_attempts (turns_of host) fuel w host ping fd begin 0
              end
          end
    end.

(** ** TCP (tcp.c) *)

(** The error number of the connection, 0 for none. *)
Definition ping_tcp_complete (fuel : nat) (w : W) (fd : Z) (deadline : double) : option (Z * W) :=
  '(ready, w) ← spine_wait_fd fuel w fd deadline true;
  match ready with
  | Err e => Some (e, w)
  | Val n =>
      if n <=? 0 then Some (ETIMEDOUT, w) else
      match getsockopt_error w fd with
      | (Err e, w) => Some (e, w)
      | (Val error, w) => Some (error, w)
      end
  end.

Definition ping_tcp_attempt (fuel : nat) (w : W) (fd : Z) (address : sockaddr) (deadline : double) : option (Z * W) :=
  match set_nonblock w fd with
  | (Err e, w) => Some (e, w)
  | (Val _, w) =>
      match connect w fd address with
      | (Val _, w) => Some (0, w)
      | (Err error, w) =>
          if negb (error =? EINPROGRESS) && negb (error =? EINTR) then Some (error, w)
          else ping_tcp_complete fuel w fd deadline
      end
  end.

Definition ping_tcp_connect (fuel : nat) (w : W) (address : sockaddr) (deadline : double) : option (Z * W) :=
  match socket w AF_INET SOCK_STREAM false IPPROTO_TCP with
  | (Err e, w) => Some (e, w)
  | (Val fd, w) =>
      '(error, w) ← ping_tcp_attempt fuel w fd address deadline;
      Some (error, close w fd)
  end.

Definition tcp_alive (host : host_t) (error : Z) : bool :=
  (error =? 0) || ((error =? ECONNREFUSED) && (av_ping_method (host_avail host) =? PING_TCP_CLOSED)).

Fixpoint tcp_attempts (turns fuel : nat) (w : W) (host : host_t) (ping : ping_t) (address : sockaddr) (begin : double)
    (attempt : Z) : option (Z * ping_t * W) :=
  match turns with
  | O => None
  | S t =>
      let '(now, w) := monotonic_time w in
      '(error, w) ← ping_tcp_connect fuel w address (attempt_deadline now (av_timeout (host_avail host)));
      if tcp_alive host error then
        let '(now, w) := monotonic_time w in
        Some (ping_up ping ($"TCP: Device is Alive") (dmul (dsub now begin) (of_int 1000)), w)
      else if av_retries (host_avail host) <=? attempt then Some (ping_down ping ($"TCP: Cannot connect to host"), w)
      else tcp_attempts t fuel w host ping address begin (attempt + 1)
  end.

Definition ping_tcp (fuel : nat) (w : W) (host : host_t) (ping : ping_t) : option (Z * ping_t * W) :=
  if bool_decide (hostname host = []) then
    Some (ping_down ping ($"TCP: Destination address invalid or unable to create socket"), w)
  else
    let '(address, w, _) := Resolve.init_sockaddr getaddrinfo w (hostname host) (av_port (host_avail host)) in
    match address with
    | None => Some (ping_down ping ($"TCP: Destination hostname invalid"), w)
    | Some address =>
        if (av_timeout (host_avail host) <=? 0) || (av_retries (host_avail host) <? 0) then
          Some (ping_down ping ($"TCP: Cannot connect to host"), w)
        else
          let '(begin, w) := monotonic_time w in
          tcp_attempts (turns_of host) fuel w host ping (Sin address) begin 0
    end.

(** ** ICMP sockets (icmp_shared.c) *)

Definition icmp_open_socket (w : W) (family : family_t) (type : sock_type) (protocol : Z) : Z * W :=
  match socket w family type true protocol with
  | (Val fd, w) => (fd, w)
  | (Err e, w) =>
      if negb (e =? EINVAL) then (-1, w) else
      match socket w family type false protocol with
      | (Err _, w) => (-1, w)
      | (Val fd, w) =>
          match fcntl w fd (F_SETFD FD_CLOEXEC) with
          | (Err _, w) => (-1, close w fd)
          | (Val _, w) => (fd, w)
          end
      end
  end.

Definition icmp_open_shared (w : W) (family : family_t) (protocol : Z) : Z * W :=
  let '(fd, w) := icmp_open_socket w family SOCK_RAW protocol in
  if fd =? -1 then (-1, w)
  else if FD_SETSIZE <=? fd then (-1, close w fd)
  else
    let w := match family with
             | AF_INET => snd (setsockopt w fd (ICMP_FILTER (Z.lxor (Z.shiftl 1 ICMP_ECHOREPLY) 4294967295)))
             | AF_INET6 => w
             end in
    match setsockopt w fd (SO_RCVBUFFORCE ICMP_SHARED_RCVBUF) with
    | (Val _, w) => (fd, w)
    | (Err _, w) => (fd, snd (setsockopt w fd (SO_RCVBUF ICMP_SHARED_RCVBUF)))
    end.

Definition open_shared_once (w : W) (family : family_t) (protocol : Z) : W :=
  if shared_fd w family =? -1 then
    let '(fd, w) := icmp_open_shared w family protocol in set_shared_fd w family fd
  else w.
Definition ping_icmp_shared_available (w : W) : bool := negb (shared_fd w AF_INET =? -1).
Definition ping_icmp_open_shared (w : W) : bool * W :=
  let w := open_shared_once w AF_INET IPPROTO_ICMP in
  let w := open_shared_once w AF_INET6 IPPROTO_ICMPV6 in
  (negb (shared_fd w AF_INET =? -1), w).

(** ** ICMP (icmp4.c, icmp6.c) *)

Definition ping_wait_left (w : W) (deadline : double) : Z * Z * W :=
  let '(now, w) := monotonic_time w in
  let remaining := dsub deadline now in
  (timeval (if dlt remaining dzero then dzero else remaining), w).

Definition protocol_of (family : family_t) : Z := match family with AF_INET => IPPROTO_ICMP | AF_INET6 => IPPROTO_ICMPV6 end.

(** [while (icmp_socket == -1)]: five attempts at most, half a second apart. *)
Fixpoint open_raw (left : nat) (w : W) (family : family_t) : option Z * W :=
  match left with
  | O => (None, w)
  | S l =>
      let '(fd, w) := icmp_open_socket w family SOCK_RAW (protocol_of family) in
      if negb (fd =? -1) then (Some fd, w)
      else
        match family, l with
        | AF_INET, O => (None, w)
        | _, _ => open_raw l (usleep w 500000) family
        end
  end.

(** [icmp_socket], [icmp_dgram] and [icmp_use_shared]. *)
Record probe_socket := { icmp_socket : Z; icmp_dgram : bool; icmp_use_shared : bool }.

Definition open_probe_socket (w : W) (family : family_t) : option probe_socket * W :=
  let '(fd, w) := icmp_open_socket w family SOCK_DGRAM (protocol_of family) in
  if negb (fd =? -1) then (Some {| icmp_socket := fd; icmp_dgram := true; icmp_use_shared := false |}, w)
  else if negb (shared_fd w family =? -1) then
    (Some {| icmp_socket := shared_fd w family; icmp_dgram := false; icmp_use_shared := true |}, w)
  else
    match open_raw 5 w family with
    | (Some fd, w) => (Some {| icmp_socket := fd; icmp_dgram := false; icmp_use_shared := false |}, w)
    | (None, w) => (None, w)
    end.

(** [lock; x = seq++; unlock], with [seq] an [unsigned int]. *)
Definition take_seq (w : W) (family : family_t) : Z * W :=
  let w := seq_lock w in
  let seq := get_seq w family in
  let w := put_seq w family (wrap_u 32 (seq + 1)) in
  (wrap_u 16 seq, seq_unlock w).

Definition our_id (w : W) : Z := Z.land (getpid w) 65535.

(** A 16-bit field in memory on a little-endian host. *)
Definition le16 (z : Z) : list ascii := [byte_of z; byte_of (z / 256)].
Definition echo_header (type cksum id seq : Z) : list ascii := [byte_of type; byte_of 0] ++ le16 cksum ++ le16 id ++ le16 seq.
Definition echo_packet (id seq : Z) : list ascii :=
  let zeroed := echo_header ICMP_ECHO 0 id seq ++ icmp6_payload in
  echo_header ICMP_ECHO (Checksum.get_checksum zeroed) id seq ++ icmp6_payload.
Definition echo6_packet (id seq : Z) : list ascii :=
  echo_header ICMP6_ECHO_REQUEST 0 (Resolve.htons id) (Resolve.htons seq) ++ icmp6_payload.

(** Everything one probe keeps while it waits: its socket, the request, where it goes and
    how it is registered.  [rq_id] and [rq_seq] are the fields as they stand in memory. *)
Record probe := { p_socket : probe_socket; p_packet : list ascii; p_dest : sockaddr; p_request : request }.

(** Whether a received datagram ends the wait with success.  Every other datagram goes
    back to [keep_listening]. *)
Definition accepts (p : probe) (bytes : list ascii) (from : sockaddr) : option bool :=
  let len := Z.of_nat (length bytes) in
  let rq := p_request p in
  match p_dest p with
  | Sin fromname =>
      verdict ← (if icmp_dgram (p_socket p)
                 then fst <$> spine_icmp_classify_dgram_reply (Some bytes) len (rq_seq rq)
                 else fst <$> spine_icmp_classify_reply (Some bytes) len (rq_id rq) (rq_seq rq));
      if bool_decide (verdict ≠ SPINE_ICMP_REPLY_OK) && bool_decide (verdict ≠ SPINE_ICMP_REPLY_NOT_ECHO) then Some false
      else
        match from with
        | Sin recvname =>
            if Resolve.sin_addr fromname =? Resolve.sin_addr recvname then Some (bool_decide (verdict = SPINE_ICMP_REPLY_OK))
            else Some false
        | Sin6 _ => Some false
        end
  | Sin6 fromname =>
      match from with
      | Sin6 recvname =>
          if negb (bool_decide (sin6_addr fromname = sin6_addr recvname)) then Some false
          else icmp6_reply_matches bytes len (rq_id rq) (rq_seq rq) (negb (icmp_dgram (p_socket p)))
      | Sin _ => Some false
      end
  end.

(** How one attempt ends. *)
Inductive heard := Alive (total_time : double) | Silence | FdTooLarge.

(** From the label [keep_listening]. *)
Fixpoint listen (fuel : nat) (w : W) (p : probe) (host_timeout begin_time deadline : double) : option (heard * W) :=
  match fuel with
  | O => None
  | S f =>
      let fd := icmp_socket (p_socket p) in
      if FD_SETSIZE <=? fd then Some (FdTooLarge, w) else
      let '(timeout, w) := ping_wait_left w deadline in
      let '(ready, w) := select w fd false timeout in
      if bool_decide (ready = Err EINTR) then listen f w p host_timeout begin_time deadline else
      let '(now, w) := monotonic_time w in
      let total_time := dmul (dsub now begin_time) (of_int 1000) in
      if (match ready with Val n => 0 <? n | Err _ => false end) && dlt total_time host_timeout then
        match recvfrom w fd with
        | (RecvErr e, w) => if e =? EINTR then listen f w p host_timeout begin_time deadline else Some (Silence, w)
        | (Received bytes from, w) =>
            ok ← accepts p bytes from;
            if (ok : bool) then Some (Alive total_time, w) else listen f w p host_timeout begin_time deadline
        end
      else Some (Silence, w)
  end.

(** One attempt through the shared socket: the time it took when it is answered. *)
Definition shared_attempt (w : W) (p : probe) (host_timeout : double) : option double * W :=
  let '(attempt_begin, w) := get_time_as_double w in
  match sendto w (icmp_socket (p_socket p)) (p_packet p) (p_dest p) with
  | (Err _, w) => (None, w)
  | (Val _, w) =>
      match shared_await w (p_request p) (dadd attempt_begin (ddiv host_timeout (of_int 1000))) with
      | (false, w) => (None, w)
      | (true, w) => let '(now, w) := get_time_as_double w in (Some (dmul (dsub now attempt_begin) (of_int 1000)), w)
      end
  end.

(** One attempt through a socket of our own.  icmp6.c goes on at once when it cannot
    send, icmp4.c listens all the same; [Some] attempt was made and heard. *)
Definition own_attempt (fuel : nat) (w : W) (p : probe) (host_timeout : double) : option (option heard * W) :=
  let fd := icmp_socket (p_socket p) in
  let '(begin_time, w) := monotonic_time w in
  let deadline := dadd begin_time (ddiv host_timeout (of_int 1000)) in
  let '(timeout, w) := ping_wait_left w deadline in
  let w := snd (setsockopt w fd (SO_RCVTIMEO timeout)) in
  let w := snd (setsockopt w fd (SO_SNDTIMEO timeout)) in
  let '(sent, w) := sendto w fd (p_packet p) (p_dest p) in
  match rq_family (p_request p), sent with
  | AF_INET6, Err _ => Some (None, w)
  | _, _ => '(h, w) ← listen fuel w p host_timeout begin_time deadline; Some (Some h, w)
  end.

(** [while (1)]; [waiting] is [icmp_use_shared] from the registration on. *)
Fixpoint icmp_attempts (turns fuel : nat) (w : W) (host : host_t) (ping : ping_t) (name : cstr) (p : probe) (retry_count : Z) :
    option (Z * ping_t * W) :=
  match turns with
  | O => None
  | S t =>
      let host_timeout := of_int (av_timeout (host_avail host)) in
      if av_retries (host_avail host) <? retry_count then Some (ping_down ping (name ++ $": Ping timed out"), w)
      else if icmp_use_shared (p_socket p) then
        match shared_attempt w p host_timeout with
        | (Some total_time, w) => Some (ping_up ping (name ++ $": Device is Alive") total_time, w)
        | (None, w) => icmp_attempts t fuel w host ping name p (retry_count + 1)
        end
      else
        '(h, w) ← own_attempt fuel w p host_timeout;
        match h with
        | Some (Alive total_time) => Some (ping_up ping (name ++ $": Device is Alive") total_time, w)
        | Some FdTooLarge => Some (ping_down ping (name ++ $": fd exceeds FD_SETSIZE"), w)
        | Some Silence => icmp_attempts t fuel (usleep w 1000) host ping name p (retry_count + 1)
        | None => icmp_attempts t fuel w host ping name p (retry_count + 1)
        end
  end.

(** The end of both probes, from the label [cleanup] when nothing is registered. *)
Definition close_probe_socket (w : W) (s : probe_socket) : W :=
  if negb (icmp_socket s =? -1) && negb (icmp_use_shared s) then close w (icmp_socket s) else w.

(** Register when the socket is shared, make the attempts, clean up. *)
Definition run_probe (fuel : nat) (w : W) (host : host_t) (ping : ping_t) (name : cstr) (p : probe) : option (Z * ping_t * W) :=
  let waiting := icmp_use_shared (p_socket p) in
  let w := if waiting then shared_register w (p_request p) else w in
  let ping := ping_result ($"down") ($"default") ping in
  '(r, w) ← icmp_attempts (S (turns_of host)) fuel w host ping name p 0;
  let w := if waiting then shared_unregister w (p_request p) else w in
  Some (r, close_probe_socket w (p_socket p)).

(** The memory of [struct in_addr]. *)
Definition in_addr_bytes (a : Z) : list ascii := [byte_of a; byte_of (a / 256); byte_of (a / 65536); byte_of (a / 16777216)].

Definition ping_icmp (fuel : nat) (w : W) (host : host_t) (ping : ping_t) : option (Z * ping_t * W) :=
  match open_probe_socket w AF_INET with
  | (None, w) => Some (ping_down ping ($"ICMP: Ping unable to create ICMP Socket"), w)
  | (Some s, w) =>
      let id := our_id w in
      let '(seq, w) := take_seq w AF_INET in
      let packet := echo_packet id seq in
      if bool_decide (hostname host = []) || (icmp_socket s =? -1) then
        Some (ping_down ping ($"ICMP: Destination address not specified"), close_probe_socket w s)
      else
        let '(address, w, _) := Resolve.init_sockaddr getaddrinfo w (hostname host) 7 in
        match address with
        | None => Some (ping_down ping ($"ICMP: Destination hostname invalid"), close_probe_socket w s)
        | Some fromname =>
            run_probe fuel w host ping ($"ICMP")
              {| p_socket := s; p_packet := packet; p_dest := Sin fromname;
                 p_request := {| rq_family := AF_INET; rq_id := id; rq_seq := seq;
                                 rq_peer := in_addr_bytes (Resolve.sin_addr fromname) |} |}
        end
  end.

(** [for (;;)] of [init_sockaddr6] around [getaddrinfo]. *)
Fixpoint resolve6_loop (left : nat) (w : W) (address : cstr) (retry_count : Z) : option (list addrinfo6) * W :=
  match left with
  | O => (None, w)
  | S l =>
      match getaddrinfo6 w address with
      | (Gai6Ok hostinfo, w) => (Some hostinfo, w)
      | (Gai6Again, w) => if retry_count <? 3 then resolve6_loop l (usleep w 50000) address (retry_count + 1) else (None, w)
      | (Gai6Error, w) => (None, w)
      end
  end.

Definition init_sockaddr6 (w : W) (hostname : cstr) : option sockaddr_in6 * W :=
  match resolve6_loop 4 w (HostSpec.ping_address hostname BUFSIZE) 0 with
  | (Some (a :: _), w) =>
      if negb (ai_inet6 a) || (ai_addrlen a <? sizeof_sockaddr_in6) then (None, w)
      else (Some {| sin6_addr := sin6_addr (ai_addr a); sin6_port := 0; sin6_scope_id := sin6_scope_id (ai_addr a) |}, w)
  | (_, w) => (None, w)
  end.

Fixpoint scope_loop (w : W) (ifas : list ifaddr) (name : sockaddr_in6) : sockaddr_in6 * W :=
  match ifas with
  | [] => (name, w)
  | ifa :: ifas' =>
      if negb (bool_decide (ifa_inet6 ifa = Some true)) || ifa_loopback ifa then scope_loop w ifas' name
      else
        let '(if_index, w) := if_nametoindex w (ifa_name ifa) in
        if negb (if_index =? 0) then
          ({| sin6_addr := sin6_addr name; sin6_port := sin6_port name; sin6_scope_id := if_index |}, w)
        else scope_loop w ifas' name
  end.
Definition apply_ipv6_scope_id (w : W) (name : sockaddr_in6) : sockaddr_in6 * W :=
  match getifaddrs w with
  | (None, w) => (name, w)
  | (Some ifa_list, w) => scope_loop w ifa_list name
  end.

Definition IN6_IS_ADDR_LINKLOCAL (addr : list ascii) : bool :=
  match addr with
  | a :: b :: _ => (code a =? 254) && (Z.land (code b) 192 =? 128)
  | _ => false
  end.

Definition ping_icmp_ipv6 (fuel : nat) (w : W) (host : host_t) (ping : ping_t) : option (Z * ping_t * W) :=
  match open_probe_socket w AF_INET6 with
  | (None, w) => Some (ping_down ping ($"ICMPv6: Ping unable to create ICMPv6 Socket"), w)
  | (Some s, w) =>
      let w := snd (setsockopt w (icmp_socket s) (ICMP6_FILTER_only ICMP6_ECHO_REPLY)) in
      let w := snd (setsockopt w (icmp_socket s) (IPV6_CHECKSUM 2)) in
      let id := our_id w in
      let '(seq, w) := take_seq w AF_INET6 in
      let packet := echo6_packet id seq in
      if bool_decide (hostname host = []) then
        Some (ping_down ping ($"ICMPv6: Destination address not specified"), close_probe_socket w s)
      else
        match init_sockaddr6 w (hostname host) with
        | (None, w) => Some (ping_down ping ($"ICMPv6: Destination hostname invalid"), close_probe_socket w s)
        | (Some fromname, w) =>
            let '(fromname, w) :=
              if IN6_IS_ADDR_LINKLOCAL (sin6_addr fromname) && (sin6_scope_id fromname =? 0)
              then apply_ipv6_scope_id w fromname else (fromname, w) in
            run_probe fuel w host ping ($"ICMPv6")
              {| p_socket := s; p_packet := packet; p_dest := Sin6 fromname;
                 p_request := {| rq_family := AF_INET6; rq_id := Resolve.htons id; rq_seq := Resolve.htons seq;
                                 rq_peer := sin6_addr fromname |} |}
        end
  end.

End Probe.
End Ping.
