(* ===== verification/PingFacts.v ===== *)
(** The network probes: what the sockets promise, and the theorems on the four probes.

    [Class SocketLaws] states what the calls of [Class Sockets] do to the part of the
    world a probe is responsible for ([net]): the descriptors it holds, the requests it
    has registered, what it sent and was handed, the clock and the signals still to come.
    Other threads may do anything to the rest of the world between two calls. *)

From stdpp Require Import gmap.
From Stdlib Require Import SpecFloat.
From S2P Require Import Prelude CLib Buffer Result Address Icmp IcmpFacts Settings Ping.
Import Shared Reply ReplyFacts SharedFacts Ping.Ping.

(** [sent] are the calls of [sendto], each with its socket and whether it succeeded;
    [readings] are the readings of the wall clock, [ticks] counts those of the monotonic one. *)
Record net := {
  opened : gset Z; waiters : list request; sent : list (Z * list ascii * sockaddr * bool);
  got : list (list ascii * sockaddr); ticks : nat; signals : nat; readings : list double }.

Definition set_opened (x : gset Z) (v : net) : net :=
  {| opened := x; waiters := waiters v; sent := sent v; got := got v; ticks := ticks v; signals := signals v; readings := readings v |}.
Definition set_waiters (x : list request) (v : net) : net :=
  {| opened := opened v; waiters := x; sent := sent v; got := got v; ticks := ticks v; signals := signals v; readings := readings v |}.
Definition set_sent x (v : net) : net :=
  {| opened := opened v; waiters := waiters v; sent := x; got := got v; ticks := ticks v; signals := signals v; readings := readings v |}.
Definition set_got x (v : net) : net :=
  {| opened := opened v; waiters := waiters v; sent := sent v; got := x; ticks := ticks v; signals := signals v; readings := readings v |}.
Definition set_readings x (v : net) : net :=
  {| opened := opened v; waiters := waiters v; sent := sent v; got := got v; ticks := ticks v; signals := signals v; readings := x |}.

(** Nothing of the probe's own changes; time may pass and signals may come. *)
Record later (v v' : net) : Prop := {
  later_opened : opened v' = opened v;
  later_waiters : waiters v' ≡ₚ waiters v;
  later_sent : sent v' = sent v;
  later_got : got v' = got v;
  later_ticks : (ticks v ≤ ticks v')%nat;
  later_signals : (signals v' ≤ signals v)%nat;
  later_readings : readings v' = readings v }.

(** A call that failed with [e]: an interruption uses up a signal. *)
Definition interrupted (e : Z) (v v' : net) : Prop :=
  later v v' ∧ (e = EINTR → (signals v' < signals v)%nat).

Definition addr_bytes (a : sockaddr) : list ascii :=
  match a with Sin a => in_addr_bytes (Resolve.sin_addr a) | Sin6 a => sin6_addr a end.

(** [await_law] is what [Icmp] promises of [icmp_shared_await]: when it returns TRUE, the
    dispatcher has handed over a datagram that passed its test for this request.
    [time_of] is the monotonic clock, which moves on with every reading. *)
Class SocketLaws (W : Type) `{Sockets W} := {
  view : W → net;
  time_of : nat → double;
  socket_law w f t c p :
    match socket w f t c p with
    | (Val fd, w') => 0 ≤ fd ∧ (fd ∉ opened (view w)) ∧ (later (set_opened ({[fd]} ∪ opened (view w)) (view w)) (view w'))
    | (Err _, w') => later (view w) (view w')
    end;
  close_law w fd : later (set_opened (opened (view w) ∖ {[fd]}) (view w)) (view (close w fd));
  fcntl_law w fd c : later (view w) (view (snd (fcntl w fd c)));
  setsockopt_law w fd o : later (view w) (view (snd (setsockopt w fd o)));
  getsockopt_law w fd : later (view w) (view (snd (getsockopt_error w fd)));
  connect_law w fd a : later (view w) (view (snd (connect w fd a)));
  send_law w fd b :
    match send w fd b with
    | (Val _, w') => later (view w) (view w')
    | (Err e, w') => interrupted e (view w) (view w')
    end;
  sendto_law w fd b a :
    let '(r, w') := sendto w fd b a in
    later (set_sent (sent (view w) ++ [(fd, b, a, match r with Val _ => true | Err _ => false end)]) (view w)) (view w');
  recv_law w fd :
    match recv w fd with
    | (Received _ _, w') => later (view w) (view w')
    | (RecvErr e, w') => interrupted e (view w) (view w')
    end;
  recvfrom_law w fd :
    match recvfrom w fd with
    | (Received b a, w') => later (set_got (got (view w) ++ [(b, a)]) (view w)) (view w')
    | (RecvErr e, w') => interrupted e (view w) (view w')
    end;
  select_law w fd b tv :
    match select w fd b tv with
    | (Val _, w') => later (view w) (view w')
    | (Err e, w') => interrupted e (view w) (view w')
    end;
  clock_law w :
    let '(t, w') := monotonic_time w in
    t = time_of (ticks (view w')) ∧ (ticks (view w) < ticks (view w'))%nat ∧ later (view w) (view w');
  wall_law w : let '(t, w') := get_time_as_double w in later (set_readings (readings (view w) ++ [t]) (view w)) (view w');
  usleep_law w n : later (view w) (view (usleep w n));
  getaddrinfo_law w a : later (view w) (view (snd (getaddrinfo w a)));
  getaddrinfo6_law w a : later (view w) (view (snd (getaddrinfo6 w a)));
  getifaddrs_law w : later (view w) (view (snd (getifaddrs w)));
  if_index_law w n : later (view w) (view (snd (if_nametoindex w n)));
  seq_lock_law w : later (view w) (view (seq_lock w));
  seq_unlock_law w : later (view w) (view (seq_unlock w));
  put_seq_law w f n : later (view w) (view (put_seq w f n));
  register_law w r : later (set_waiters (r :: waiters (view w)) (view w)) (view (shared_register w r));
  unregister_law w r l : waiters (view w) ≡ₚ r :: l → later (set_waiters l (view w)) (view (shared_unregister w r));
  await_law w r d :
    match shared_await w r d with
    | (false, w') => later (view w) (view w')
    | (true, w') => ∃ b a,
        later (set_got (got (view w) ++ [(b, a)]) (view w)) (view w') ∧
        (r ∈ waiters (view w) →
         answers (rq_family r) {| dg_family := rq_family r; dg_bytes := b; dg_from := addr_bytes a |} r = true)
    end }.

#[global] Instance later_preorder : PreOrder later.
Proof.
  split.
  - intros v. by split.
  - intros a b c [] []. split; try lia; try congruence. by etrans.
Qed.

Module ProbeFacts.
#[local] Hint Extern 1 (later _ _) => reflexivity : core.
Section Laws.
Context {W : Type} `{SocketLaws W}.

Abbreviation quiet w w' := (later (view w) (view w')).

(** ** Functions that change nothing of the probe's own *)

Lemma clock_quiet w t w' : monotonic_time w = (t, w') → quiet w w'.
Proof. intros E. pose proof (clock_law w) as L. rewrite E in L. tauto. Qed.

Lemma clock_reads w : ∃ w', monotonic_time w = (time_of (ticks (view w')), w') ∧
  (ticks (view w) < ticks (view w'))%nat ∧ quiet w w'.
Proof. pose proof (clock_law w) as L. destruct (monotonic_time w) as [t w']. destruct L as (-> & ? & ?). eauto. Qed.

Lemma wait_loop_quiet fuel : ∀ w fd d b r w', wait_loop fuel w fd d b = Some (r, w') → quiet w w'.
Proof.
  induction fuel as [|f IH]; intros w fd d b r w' E; [done|]. cbn [wait_loop] in E.
  destruct (monotonic_time w) as [t w1] eqn:E1. apply clock_quiet in E1.
  do 2 (case_match; [by injection E as <- <-|]).
  pose proof (select_law w1 fd b (timeval (dsub d t))) as L.
  destruct (select w1 fd b _) as [[n|e] w2].
  - injection E as <- <-. by etrans.
  - destruct L as [L _]. case_match.
    + etrans; [done|]. etrans; [done|]. by eapply IH.
    + injection E as <- <-. by etrans.
Qed.

Lemma wait_fd_quiet fuel w fd d b r w' : spine_wait_fd fuel w fd d b = Some (r, w') → quiet w w'.
Proof.
  unfold spine_wait_fd. intros E. do 2 (case_match; [by injection E as <- <-|]). by eapply wait_loop_quiet.
Qed.

Lemma udp_response_quiet fuel : ∀ w fd d r w', ping_udp_response fuel w fd d = Some (r, w') → quiet w w'.
Proof.
  induction fuel as [|f IH]; intros w fd d r w' E; [done|]. cbn [ping_udp_response] in E.
  apply bind_Some in E as ([ready w1] & E1%wait_fd_quiet & E).
  destruct ready as [n|e]; [|by injection E as <- <-]. case_match; [by injection E as <- <-|].
  pose proof (recv_law w1 fd) as L. destruct (recv w1 fd) as [[b a|e] w2].
  - injection E as <- <-. by etrans.
  - destruct L as [L _]. do 2 (case_match; [injection E as <- <-; by etrans|]).
    etrans; [done|]. etrans; [done|]. by eapply IH.
Qed.

Lemma send_loop_quiet fuel : ∀ w fd d r w', send_loop fuel w fd d = Some (r, w') → quiet w w'.
Proof.
  induction fuel as [|f IH]; intros w fd d r w' E; [done|]. cbn [send_loop] in E.
  pose proof (send_law w fd udp_request) as L. destruct (send w fd udp_request) as [[n|e] w1].
  - by injection E as <- <-.
  - destruct L as [L _]. case_match; [|by injection E as <- <-].
    destruct (monotonic_time w1) as [t w2] eqn:E1. apply clock_quiet in E1. case_match.
    + etrans; [done|]. etrans; [done|]. by eapply IH.
    + injection E as <- <-. by etrans.
Qed.

Lemma nonblock_quiet w fd : quiet w (snd (set_nonblock w fd)).
Proof.
  unfold set_nonblock. pose proof (fcntl_law w fd F_GETFL) as L1. destruct (fcntl w fd F_GETFL) as [[n|e] w1]; [|done].
  etrans; [exact L1|]. apply fcntl_law.
Qed.
Lemma udp_connect_quiet w fd a : quiet w (snd (udp_connect w fd a)).
Proof.
  unfold udp_connect. pose proof (nonblock_quiet w fd) as L1. destruct (set_nonblock w fd) as [[n|e] w1]; [|done].
  etrans; [exact L1|]. apply connect_law.
Qed.
Lemma tcp_complete_quiet fuel w fd d e w' : ping_tcp_complete fuel w fd d = Some (e, w') → quiet w w'.
Proof.
  unfold ping_tcp_complete. intros ([r w1] & E1%wait_fd_quiet & E)%bind_Some.
  destruct r as [n|x]; [|by injection E as <- <-]. case_match; [by injection E as <- <-|].
  pose proof (getsockopt_law w1 fd) as L. destruct (getsockopt_error w1 fd) as [[v|x] w2]; injection E as <- <-; by etrans.
Qed.
Lemma tcp_attempt_quiet fuel w fd a d e w' : ping_tcp_attempt fuel w fd a d = Some (e, w') → quiet w w'.
Proof.
  unfold ping_tcp_attempt. intros E. pose proof (nonblock_quiet w fd) as L1.
  destruct (set_nonblock w fd) as [[n|x] w1]; [|by injection E as <- <-].
  pose proof (connect_law w1 fd a) as L2. destruct (connect w1 fd a) as [[v|x] w2]; [injection E as <- <-; by etrans|].
  case_match; [injection E as <- <-; by etrans|]. etrans; [done|]. etrans; [done|]. by eapply tcp_complete_quiet.
Qed.
Lemma resolve_quiet fuel : ∀ w a k r w' n, Resolve.resolve_loop getaddrinfo fuel w a k = (r, w', n) → quiet w w'.
Proof.
  induction fuel as [|f IH]; intros w a k r w' n E; cbn [Resolve.resolve_loop] in E; [by simplify_eq|].
  pose proof (getaddrinfo_law w a) as L. destruct (getaddrinfo w a) as [[l| |] w1]; [by simplify_eq| |by simplify_eq].
  case_match; [|by simplify_eq]. etrans; [exact L|]. by eapply IH.
Qed.
Lemma init_sockaddr_quiet w h p r w' n : Resolve.init_sockaddr getaddrinfo w h p = (r, w', n) → quiet w w'.
Proof.
  unfold Resolve.init_sockaddr. intros E. case_match; [by simplify_eq|].
  destruct (Resolve.resolve_loop _ _ _ _ _) as [[l w1] m] eqn:E1. apply resolve_quiet in E1. by repeat case_match; simplify_eq.
Qed.
Lemma resolve6_quiet n : ∀ w a k, quiet w (snd (resolve6_loop n w a k)).
Proof.
  induction n as [|n IH]; intros w a k; cbn [resolve6_loop]; [done|].
  pose proof (getaddrinfo6_law w a) as L. destruct (getaddrinfo6 w a) as [[l| |] w1]; cbn [snd] in *; [done| |done].
  case_match; [|done]. etrans; [exact L|]. etrans; [apply usleep_law|]. apply IH.
Qed.
Lemma init_sockaddr6_quiet w h : quiet w (snd (init_sockaddr6 w h)).
Proof.
  unfold init_sockaddr6. pose proof (resolve6_quiet 4 w (HostSpec.ping_address h BUFSIZE) 0) as L.
  destruct (resolve6_loop _ _ _ _) as [[[|a l]|] w1]; cbn [snd] in *; [done| |done]. by case_match.
Qed.
Lemma scope_quiet l : ∀ w a, quiet w (snd (scope_loop w l a)).
Proof.
  induction l as [|i l IH]; intros w a; cbn [scope_loop]; [done|]. case_match; [apply IH|].
  pose proof (if_index_law w (ifa_name i)) as L. destruct (if_nametoindex w (ifa_name i)) as [n w1].
  case_match; [done|]. etrans; [exact L|]. apply IH.
Qed.
Lemma scope_id_quiet w a : quiet w (snd (apply_ipv6_scope_id w a)).
Proof.
  unfold apply_ipv6_scope_id. pose proof (getifaddrs_law w) as L. destruct (getifaddrs w) as [[l|] w1]; [|done].
  etrans; [exact L|]. apply scope_quiet.
Qed.
Lemma scope_id_addr w a : sin6_addr (fst (apply_ipv6_scope_id w a)) = sin6_addr a.
Proof.
  unfold apply_ipv6_scope_id. destruct (getifaddrs w) as [[l|] w1]; [|done]. revert w1.
  induction l as [|i l IH]; intros w1; cbn [scope_loop]; [done|]. case_match; [apply IH|]. destruct (if_nametoindex _ _). case_match; [done|apply IH].
Qed.
Lemma take_seq_quiet w f : quiet w (snd (take_seq w f)).
Proof.
  unfold take_seq. cbn [snd]. etrans; [apply seq_lock_law|]. etrans; [apply put_seq_law|apply seq_unlock_law].
Qed.
Lemma wait_left_quiet w d : quiet w (snd (ping_wait_left w d)).
Proof. unfold ping_wait_left. destruct (monotonic_time w) as [t w1] eqn:E. by apply clock_quiet in E. Qed.

(** ** A socket of the probe's own *)

(** From [w] to [w'] the descriptor [fd] was opened and is held. *)
Definition holds (fd : Z) (w w' : W) : Prop :=
  0 ≤ fd ∧ (fd ∉ opened (view w)) ∧ (later (set_opened ({[fd]} ∪ opened (view w)) (view w)) (view w')).

Lemma later_holds fd w0 w w' : quiet w0 w → holds fd w w' → holds fd w0 w'.
Proof.
  intros L (Hp & Hn & L'). rewrite (later_opened _ _ L) in *. split; [done|]. split; [done|].
  etrans; [|exact L']. destruct L. by split; cbn.
Qed.
Lemma holds_later fd w w1 w' : holds fd w w1 → quiet w1 w' → holds fd w w'.
Proof. intros (Hp & Hn & L) L'. split; [done|]. split; [done|]. by etrans. Qed.
Lemma holds_close fd w w' : holds fd w w' → quiet w (close w' fd).
Proof.
  intros (Hp & Hn & L). pose proof (close_law w' fd) as C. destruct L, C.
  cbn [opened waiters sent got ticks signals readings set_opened] in *. split; try lia; try congruence; [set_solver|by etrans].
Qed.

Lemma open_socket_cases w f t p fd w' :
  icmp_open_socket w f t p = (fd, w') → (fd = -1 ∧ quiet w w') ∨ holds fd w w'.
Proof.
  unfold icmp_open_socket. intros E. pose proof (socket_law w f t true p) as L1.
  destruct (socket w f t true p) as [[n|e] w1]; [simplify_eq; by right|]. case_match; [simplify_eq; by left|].
  pose proof (socket_law w1 f t false p) as L2. destruct (socket w1 f t false p) as [[n|e'] w2]; [|simplify_eq; left; split; [done|by etrans]].
  apply (later_holds _ _ _ _ L1) in L2. pose proof (fcntl_law w2 n (F_SETFD FD_CLOEXEC)) as L3.
  destruct (fcntl w2 n _) as [[x|x] w3]; simplify_eq; apply (holds_later _ _ _ _ L2) in L3.
  - by right.
  - left. split; [done|]. by apply holds_close.
Qed.

Lemma open_raw_cases n : ∀ w f r w',
  open_raw n w f = (r, w') → match r with None => quiet w w' | Some fd => holds fd w w' end.
Proof.
  induction n as [|n IH]; intros w f r w' E; cbn [open_raw] in E; [by simplify_eq|].
  destruct (icmp_open_socket w f SOCK_RAW (protocol_of f)) as [fd w1] eqn:E1. apply open_socket_cases in E1 as [[-> L]|Hh].
  - change (negb (-1 =? -1)) with false in E. cbn iota in E.
    assert (Hl : open_raw n (usleep w1 500000) f = (r, w') → match r with None => quiet w w' | Some fd => holds fd w w' end).
    { intros E'. apply IH in E'. pose proof (usleep_law w1 500000).
      destruct r; [eapply later_holds; [|exact E']|etrans; [|exact E']]; by etrans. }
    destruct f; [destruct n; [by simplify_eq|]|]; exact (Hl E).
  - destruct Hh as (Hp & Hh). rewrite (proj2 (Z.eqb_neq fd (-1))) in E by lia. injection E as <- <-. exact (conj Hp Hh).
Qed.

(** What [open_probe_socket] leaves: the shared socket, or a new one. *)
Definition has_socket (s : probe_socket) (w w' : W) : Prop :=
  if icmp_use_shared s then quiet w w' else holds (icmp_socket s) w w'.

Lemma open_probe_socket_cases w f r w' :
  open_probe_socket w f = (r, w') → match r with None => quiet w w' | Some s => has_socket s w w' end.
Proof.
  unfold open_probe_socket. intros E. destruct (icmp_open_socket w f SOCK_DGRAM (protocol_of f)) as [fd w1] eqn:E1.
  apply open_socket_cases in E1 as [[-> L]|(Hp & Hh)].
  - change (negb (-1 =? -1)) with false in E. cbn iota in E. case_match; [by simplify_eq|].
    destruct (open_raw 5 w1 f) as [[fd|] w2] eqn:E2; apply open_raw_cases in E2; simplify_eq.
    + unfold has_socket. by eapply later_holds.
    + by etrans.
  - rewrite (proj2 (Z.eqb_neq fd (-1))) in E by lia. injection E as <- <-. exact (conj Hp Hh).
Qed.

Lemma has_socket_later s w w1 w' : has_socket s w w1 → quiet w1 w' → has_socket s w w'.
Proof. unfold has_socket. case_match; [intros; by etrans|apply holds_later]. Qed.
Lemma has_socket_signals s w w' : has_socket s w w' → (signals (view w') ≤ signals (view w))%nat.
Proof. unfold has_socket. case_match; [by intros []|]. intros (_ & _ & []). done. Qed.
Lemma has_socket_close s w w' : has_socket s w w' → quiet w (close_probe_socket w' s).
Proof.
  unfold has_socket, close_probe_socket. destruct (icmp_use_shared s); rewrite ?andb_false_r, ?andb_true_r; [done|].
  intros Hh. pose proof Hh as (Hp & _). rewrite (proj2 (Z.eqb_neq _ (-1))) by lia. by apply holds_close.
Qed.

Lemma tcp_connect_quiet fuel w a d e w' : ping_tcp_connect fuel w a d = Some (e, w') → quiet w w'.
Proof.
  unfold ping_tcp_connect. intros E. pose proof (socket_law w AF_INET SOCK_STREAM false IPPROTO_TCP) as L.
  destruct (socket w _ _ _ _) as [[fd|x] w1]; [|by simplify_eq].
  apply bind_Some in E as ([y w2] & E2%tcp_attempt_quiet & E). simplify_eq. eapply holds_close, holds_later; done.
Qed.
Lemma tcp_attempts_quiet turns fuel : ∀ w host ping a b k r w',
  tcp_attempts turns fuel w host ping a b k = Some (r, w') → quiet w w'.
Proof.
  induction turns as [|t IH]; intros w host ping a b k r w' E; [done|]. cbn [tcp_attempts] in E.
  destruct (monotonic_time w) as [now w1] eqn:E1. apply clock_quiet in E1.
  apply bind_Some in E as ([e w2] & E2%tcp_connect_quiet & E). case_match.
  - destruct (monotonic_time w2) as [now' w3] eqn:E3. apply clock_quiet in E3. simplify_eq. etrans; [done|]. by etrans.
  - case_match; [simplify_eq; by etrans|]. etrans; [done|]. etrans; [done|]. by eapply IH.
Qed.
Lemma udp_attempts_close turns fuel fd w0 : ∀ w host ping b k r w',
  holds fd w0 w → udp_attempts turns fuel w host ping fd b k = Some (r, w') → quiet w0 w'.
Proof.
  induction turns as [|t IH]; intros w host ping b k r w' Hh E; [done|]. cbn [udp_attempts] in E.
  destruct (monotonic_time w) as [now w1] eqn:E1. apply clock_quiet in E1.
  apply bind_Some in E as ([s w2] & E2%send_loop_quiet & E). apply bind_Some in E as ([x w3] & E3 & E).
  assert (L3 : quiet w2 w3).
  { destruct s as [n|]; [|by injection E3 as <- <-]. destruct (n =? _); [by eapply udp_response_quiet|by injection E3 as <- <-]. }
  destruct (monotonic_time w3) as [now' w4] eqn:E4. apply clock_quiet in E4.
  assert (Hh4 : holds fd w0 w4) by (do 4 (eapply holds_later; [|eassumption]); exact Hh).
  do 2 (case_match; [simplify_eq; by apply holds_close|]). by eapply IH.
Qed.

(** The two connectionless checks leave the probe's part of the world as it was. *)
Lemma ping_udp_quiet fuel w host ping r w' : ping_udp fuel w host ping = Some (r, w') → quiet w w'.
Proof.
  unfold ping_udp. intros E. case_match; [by simplify_eq|].
  destruct (Resolve.init_sockaddr _ _ _ _) as [[a w1] n] eqn:E1. apply init_sockaddr_quiet in E1.
  destruct a as [a|]; [|by simplify_eq]. case_match; [by simplify_eq|].
  pose proof (socket_law w1 AF_INET SOCK_DGRAM false IPPROTO_UDP) as L.
  destruct (socket w1 _ _ _ _) as [[fd|e] w2]; [|simplify_eq; by etrans]. apply (later_holds _ _ _ _ E1) in L.
  pose proof (udp_connect_quiet w2 fd (Sin a)) as L3. destruct (udp_connect w2 fd (Sin a)) as [[v|e] w3];
    apply (holds_later _ _ _ _ L) in L3; [|simplify_eq; by apply holds_close].
  destruct (monotonic_time w3) as [b w4] eqn:E4. apply clock_quiet in E4. eapply udp_attempts_close; [|done]. by eapply holds_later.
Qed.
Lemma ping_tcp_quiet fuel w host ping r w' : ping_tcp fuel w host ping = Some (r, w') → quiet w w'.
Proof.
  unfold ping_tcp. intros E. case_match; [by simplify_eq|].
  destruct (Resolve.init_sockaddr _ _ _ _) as [[a w1] n] eqn:E1. apply init_sockaddr_quiet in E1.
  destruct a as [a|]; [|by simplify_eq]. case_match; [by simplify_eq|].
  destruct (monotonic_time w1) as [b w2] eqn:E2. apply clock_quiet in E2. apply tcp_attempts_quiet in E. etrans; [done|]. by etrans.
Qed.

(** ** What one ICMP probe sends and hears *)

(** A call that sends the request. *)
Definition attempt (p : probe) (ok : bool) : Z * list ascii * sockaddr * bool := (icmp_socket (p_socket p), p_packet p, p_dest p, ok).

(** The request was handed to [sendto] once per element of [oks], which say whether it was
    sent, and datagrams were received; the rest is as before. *)
Record exchange (p : probe) (oks : list bool) (v v' : net) : Prop := {
  exchange_opened : opened v' = opened v;
  exchange_waiters : waiters v' ≡ₚ waiters v;
  exchange_sent : sent v' = sent v ++ map (attempt p) oks;
  exchange_got : got v `prefix_of` got v';
  exchange_ticks : (ticks v ≤ ticks v')%nat;
  exchange_signals : (signals v' ≤ signals v)%nat;
  exchange_readings : readings v `prefix_of` readings v' }.

Lemma later_exchange p v v' : later v v' → exchange p [] v v'.
Proof. intros [? ? ? Hg ? ? Hr]. split; try done; [by rewrite app_nil_r|by rewrite Hg|by rewrite Hr]. Qed.
Lemma exchange_trans p l l' v1 v2 v3 : exchange p l v1 v2 → exchange p l' v2 v3 → exchange p (l ++ l') v1 v3.
Proof.
  intros [] []. split; try lia; [congruence|by etrans| |by etrans|by etrans].
  rewrite map_app, app_assoc. congruence.
Qed.
Lemma exchange_later p l v1 v2 v3 : exchange p l v1 v2 → later v2 v3 → exchange p l v1 v3.
Proof. intros H1 H2. rewrite <- (app_nil_r l). eapply exchange_trans; [done|]. by apply later_exchange. Qed.
Lemma later_exchange_trans p l v1 v2 v3 : later v1 v2 → exchange p l v2 v3 → exchange p l v1 v3.
Proof. intros H1 H2. apply (exchange_trans p [] l _ v2); [by apply later_exchange|done]. Qed.
Lemma sent_exchange p ok w w' :
  later (set_sent (sent (view w) ++ [attempt p ok]) (view w)) (view w') → exchange p [ok] (view w) (view w').
Proof. intros [? ? ? Hg ? ? Hr]. cbn [opened waiters sent got ticks signals readings set_sent] in *. split; try done; [by rewrite Hg|by rewrite Hr]. Qed.
Lemma read_exchange p t w w' : later (set_readings (readings (view w) ++ [t]) (view w)) (view w') → exchange p [] (view w) (view w').
Proof.
  intros [? ? ? Hg ? ? Hr]. cbn [opened waiters sent got ticks signals readings set_readings] in *.
  split; try done; [by rewrite app_nil_r|by rewrite Hg|]. rewrite Hr. by apply prefix_app_r.
Qed.
Lemma got_exchange p w w' b a :
  later (set_got (got (view w) ++ [(b, a)]) (view w)) (view w') → exchange p [] (view w) (view w').
Proof.
  intros [? ? ? Hg ? ? Hr]. cbn [opened waiters sent got ticks signals readings set_got] in *. split; try done; [by rewrite app_nil_r| |by rewrite Hr].
  rewrite Hg. by apply prefix_app_r.
Qed.

(** The datagram answers the probe: it comes from the address the request went to and is
    an echo reply with its sequence, and with its identifier too unless the kernel has
    replaced that one, as it does on a datagram socket. *)
Definition replies (p : probe) (b : list ascii) (a : sockaddr) : Prop :=
  let rq := p_request p in
  addr_bytes a = addr_bytes (p_dest p) ∧
  ∃ id, (icmp_dgram (p_socket p) = false → id = rq_id rq) ∧
  match rq_family rq with
  | AF_INET => if icmp_dgram (p_socket p) then echo_reply id (rq_seq rq) b else ∃ ihl, ip_echo_reply ihl id (rq_seq rq) b
  | AF_INET6 => echo_reply6 id (rq_seq rq) b
  end.
(** The last datagram handed over answers the probe. *)
Definition answered_by (p : probe) (v : net) : Prop := ∃ l b a, got v = l ++ [(b, a)] ∧ replies p b a.

Record wf_probe (p : probe) : Prop := {
  wf_dest : match p_dest p with Sin _ => rq_family (p_request p) = AF_INET | Sin6 _ => rq_family (p_request p) = AF_INET6 end;
  wf_peer : rq_peer (p_request p) = addr_bytes (p_dest p);
  wf_id : 0 ≤ rq_id (p_request p) < 65536;
  wf_seq : 0 ≤ rq_seq (p_request p) < 65536;
  wf_shared : icmp_use_shared (p_socket p) = true → icmp_dgram (p_socket p) = false }.

(** Without the test of the identifier, ICMPv6 accepts the reply with any. *)
Lemma icmp6_any_id b id seq v :
  0 ≤ seq < 65536 → icmp6_reply_matches b (Z.of_nat (length b)) id seq false = Some v →
  v = true → ∃ id', 0 ≤ id' < 65536 ∧ echo_reply6 id' seq b.
Proof.
  intros Hs E ->. unfold icmp6_reply_matches in E. case_match eqn:El; [done|].
  apply bind_Some in E as (ty & Ety & (i & Ei & (q & Eq & E)%bind_Some)%bind_Some).
  pose proof (rd16_range _ _ _ Ei) as Hi. exists i. split; [done|].
  destruct (icmp6_matches_exact b i seq Hi Hs) as (v & Ev & Hv). apply Hv.
  unfold icmp6_reply_matches in Ev. rewrite El, Ety, Ei, Eq in Ev. cbn [mbind option_bind] in Ev.
  rewrite Z.eqb_refl in Ev. cbn [negb andb] in Ev. case_match; [done|]. cbn [andb] in E. congruence.
Qed.
Lemma icmp6_total b id seq check :
  0 ≤ id < 65536 → 0 ≤ seq < 65536 → is_Some (icmp6_reply_matches b (Z.of_nat (length b)) id seq check).
Proof.
  intros Hi Hs. destruct (icmp6_matches_exact b id seq Hi Hs) as (v & Ev & _).
  unfold icmp6_reply_matches in *. case_match eqn:El; [eauto|].
  apply bind_Some in Ev as (ty & Ety & (i & Ei & (q & Eq & Ev)%bind_Some)%bind_Some).
  destruct (icmp6_matches_exact b i seq) as (v' & Ev' & _); [by eapply rd16_range|done|].
  unfold icmp6_reply_matches in Ev'. rewrite El, Ety, Ei, Eq in *. cbn [mbind option_bind] in *. rewrite Z.eqb_refl in Ev'.
  cbn [negb andb] in Ev'. destruct (negb (ty =? _) || _); [eauto|]. destruct (check && _); eauto.
Qed.

Lemma accepts_total p b a : wf_probe p → is_Some (accepts p b a).
Proof.
  intros [Hd _ Hi Hs _]. unfold accepts. destruct (p_dest p) as [d|d].
  - assert (Hv : ∃ v, (if icmp_dgram (p_socket p)
        then fst <$> spine_icmp_classify_dgram_reply (Some b) (Z.of_nat (length b)) (rq_seq (p_request p))
        else fst <$> spine_icmp_classify_reply (Some b) (Z.of_nat (length b)) (rq_id (p_request p)) (rq_seq (p_request p))) = Some v).
    { destruct (icmp_dgram _).
      - destruct (proj1 (classify_dgram_exact b _ Hs)) as [x ->]. cbn. eauto.
      - destruct (proj1 (classify_reply_exact b _ _ Hi Hs)) as [x ->]. cbn. eauto. }
    destruct Hv as [v ->]. cbn [mbind option_bind]. repeat case_match; eauto.
  - destruct a as [x|x]; [eauto|]. case_match; [eauto|]. by apply icmp6_total.
Qed.

Lemma accepts_replies p b a : wf_probe p → accepts p b a = Some true → replies p b a.
Proof.
  intros [Hd _ Hi Hs _] E. unfold accepts in E. unfold replies. destruct (p_dest p) as [d|d]; rewrite Hd.
  - apply bind_Some in E as (v & Ev & E). case_match; [done|]. destruct a as [x|x]; [|done].
    case_match eqn:Ea; [|done]. apply Z.eqb_eq in Ea. injection E as Ev'%bool_decide_eq_true. subst v.
    split; [cbn; by rewrite Ea|]. destruct (icmp_dgram (p_socket p)) eqn:Edg.
    + apply fmap_Some in Ev as ([v o] & Ev & Hv). cbn in Hv. subst v.
      apply (classify_dgram_exact b _ Hs) in Ev as (_ & id & _ & He). by exists id.
    + apply fmap_Some in Ev as ([v o] & Ev & Hv). cbn in Hv. subst v.
      apply (classify_reply_exact b _ _ Hi Hs) in Ev as (ihl & _ & He). exists (rq_id (p_request p)). eauto.
  - destruct a as [x|x]; [done|]. case_match eqn:Ea; [done|]. apply negb_false_iff, bool_decide_eq_true in Ea.
    split; [cbn; by rewrite Ea|]. destruct (icmp_dgram (p_socket p)); cbn [negb] in E.
    + apply (icmp6_any_id _ _ _ _ Hs) in E as (id & _ & He); [|done]. by exists id.
    + destruct (icmp6_matches_exact b _ _ Hi Hs) as (v & Ev & Hv). exists (rq_id (p_request p)). split; [done|].
      apply Hv. congruence.
Qed.

Lemma answers_replies p b a :
  wf_probe p → icmp_use_shared (p_socket p) = true →
  answers (rq_family (p_request p)) {| dg_family := rq_family (p_request p); dg_bytes := b; dg_from := addr_bytes a |} (p_request p) = true →
  replies p b a.
Proof.
  intros [Hd Hp Hi Hs Hsh] Hu [Hf Hg]%answers_genuine. cbn [dg_from dg_bytes] in *. specialize (Hsh Hu).
  split; [congruence|]. exists (rq_id (p_request p)). split; [done|]. destruct (rq_family _); [rewrite Hsh|]; done.
Qed.

Lemma listen_exchange fuel p ht bt d : wf_probe p → ∀ w h w',
  listen fuel w p ht bt d = Some (h, w') →
  exchange p [] (view w) (view w') ∧ (∀ t, h = Alive t → answered_by p (view w')).
Proof.
  intros Hwf. induction fuel as [|f IH]; intros w h w' E; [done|]. cbn [listen] in E.
  case_match; [injection E as <- <-; split; [by apply later_exchange|done]|].
  pose proof (wait_left_quiet w d) as L1. destruct (ping_wait_left w d) as [tv w1]. cbn [snd] in L1.
  pose proof (select_law w1 (icmp_socket (p_socket p)) false tv) as L2.
  destruct (select w1 _ false tv) as [ready w2].
  assert (L3 : quiet w w2). { etrans; [exact L1|]. destruct ready; [done|apply L2]. }
  clear L1 L2. assert (Hgo : ∀ w3, exchange p [] (view w) (view w3) → listen f w3 p ht bt d = Some (h, w') →
    exchange p [] (view w) (view w') ∧ (∀ t, h = Alive t → answered_by p (view w'))).
  { intros w3 Hx E'. apply IH in E' as [Hx' Ha]. split; [|done]. by apply (exchange_trans p [] [] _ (view w3)). }
  case_match; [apply (Hgo w2); [by apply later_exchange|done]|].
  destruct (monotonic_time w2) as [now w3] eqn:E3. apply clock_quiet in E3. assert (L4 : quiet w w3) by (by etrans).
  case_match; [|injection E as <- <-; split; [by apply later_exchange|done]].
  pose proof (recvfrom_law w3 (icmp_socket (p_socket p))) as L. destruct (recvfrom w3 _) as [[b a|e] w4].
  - pose proof (got_exchange p _ _ _ _ L) as Hx. apply (later_exchange_trans p [] _ _ _ L4) in Hx.
    apply bind_Some in E as (ok & Eok & E). destruct ok; [|by apply (Hgo w4)].
    injection E as <- <-. split; [done|]. intros t _. exists (got (view w3)), b, a. split; [|by apply accepts_replies].
    by destruct L.
  - destruct L as [L _]. assert (L5 : quiet w w4) by (by etrans).
    case_match; [apply (Hgo w4); [by apply later_exchange|done]|]. injection E as <- <-. split; [by apply later_exchange|done].
Qed.

Lemma shared_attempt_exchange p ht w r w' :
  wf_probe p → icmp_use_shared (p_socket p) = true → p_request p ∈ waiters (view w) →
  shared_attempt w p ht = (r, w') →
  ∃ ok, exchange p [ok] (view w) (view w') ∧ (is_Some r → ok = true ∧ answered_by p (view w')).
Proof.
  intros Hwf Hs Hin E. unfold shared_attempt in E. pose proof (wall_law w) as L1.
  destruct (get_time_as_double w) as [b w1]. apply (read_exchange p) in L1.
  pose proof (sendto_law w1 (icmp_socket (p_socket p)) (p_packet p) (p_dest p)) as L2.
  destruct (sendto w1 _ _ _) as [sent w2]. fold (attempt p (match sent with Val _ => true | Err _ => false end)) in L2. apply sent_exchange in L2.
  apply (exchange_trans p [] _ _ _ _ L1) in L2. cbn [app] in L2. exists (match sent with Val _ => true | Err _ => false end).
  destruct sent as [n|e]; [|simplify_eq; split; [exact L2|by intros []]].
  set (dl := dadd b _) in E. pose proof (await_law w2 (p_request p) dl) as L3.
  destruct (shared_await w2 _ dl) as [[] w3].
  - destruct L3 as (x & a & L3 & Ha). pose proof (wall_law w3) as L4. destruct (get_time_as_double w3) as [t w4].
    pose proof (read_exchange p _ _ _ L4) as X4. simplify_eq. split.
    + apply (exchange_trans p [true] [] _ (view w3)); [|done]. apply (exchange_trans p [true] [] _ (view w2)); [done|]. by eapply got_exchange.
    + intros _. split; [done|]. exists (got (view w2)), x, a. split; [destruct L3, L4; cbn [got set_got set_readings] in *; congruence|].
      apply answers_replies; [done..|]. apply Ha. by rewrite (exchange_waiters _ _ _ _ L2).
  - simplify_eq. split; [by eapply exchange_later|by intros []].
Qed.

(** The one probe that listens although it could not send. *)
Definition listens_unsent (p : probe) : Prop := rq_family (p_request p) = AF_INET ∧ icmp_use_shared (p_socket p) = false.

Lemma own_attempt_exchange fuel p ht w h w' :
  wf_probe p → icmp_use_shared (p_socket p) = false → own_attempt fuel w p ht = Some (h, w') →
  ∃ ok, exchange p [ok] (view w) (view w') ∧ (∀ t, h = Some (Alive t) → (ok = true ∨ listens_unsent p) ∧ answered_by p (view w')).
Proof.
  intros Hwf Hu E. unfold own_attempt in E. destruct (monotonic_time w) as [b w1] eqn:E1. apply clock_quiet in E1.
  set (dl := dadd b _) in E. pose proof (wait_left_quiet w1 dl) as L1. destruct (ping_wait_left w1 dl) as [tv w2]. cbn [snd] in L1.
  pose proof (setsockopt_law w2 (icmp_socket (p_socket p)) (SO_RCVTIMEO tv)) as L2.
  destruct (setsockopt w2 _ (SO_RCVTIMEO tv)) as [r2 w3]. cbn [snd] in *.
  pose proof (setsockopt_law w3 (icmp_socket (p_socket p)) (SO_SNDTIMEO tv)) as L3.
  destruct (setsockopt w3 _ (SO_SNDTIMEO tv)) as [r3 w4]. cbn [snd] in *.
  pose proof (sendto_law w4 (icmp_socket (p_socket p)) (p_packet p) (p_dest p)) as L4.
  destruct (sendto w4 _ _ _) as [sent w5]. fold (attempt p (match sent with Val _ => true | Err _ => false end)) in L4. apply sent_exchange in L4.
  do 4 (eapply later_exchange_trans in L4; [|eassumption]). exists (match sent with Val _ => true | Err _ => false end).
  assert (Hl : ∀ ok h', ok = true ∨ listens_unsent p → exchange p [ok] (view w) (view w5) →
    ('(h, w) ← listen fuel w5 p ht b dl; Some (Some h, w)) = Some (h', w') →
    exchange p [ok] (view w) (view w') ∧ (∀ t, h' = Some (Alive t) → (ok = true ∨ listens_unsent p) ∧ answered_by p (view w'))).
  { intros ok h' Hok X ([g w6] & El & Eh)%bind_Some. apply (listen_exchange _ _ _ _ _ Hwf) in El as [Hx Ha]. simplify_eq.
    split; [by apply (exchange_trans p [ok] [] _ (view w5))|]. intros t [= ->]. split; [done|]. by eapply Ha. }
  destruct (rq_family (p_request p)) eqn:Ef, sent; try (by apply Hl; auto).
  - apply Hl; [by right; split|done|done].
  - simplify_eq. split; [exact L4|done].
Qed.

(** What the calls of [sendto] say when the device is reported up. *)
Definition sent_last (p : probe) (oks : list bool) : Prop := ∃ l ok, oks = l ++ [ok] ∧ (ok = true ∨ listens_unsent p).
Lemma sent_last_cons p ok oks : sent_last p oks → sent_last p (ok :: oks).
Proof. intros (l & x & -> & Hx). by exists (ok :: l), x. Qed.

Lemma icmp_attempts_exchange fuel host name p : wf_probe p → ∀ turns w ping k r w',
  (icmp_use_shared (p_socket p) = true → p_request p ∈ waiters (view w)) →
  icmp_attempts turns fuel w host ping name p k = Some (r, w') →
  ∃ oks, Z.of_nat (length oks) ≤ Z.max 0 (av_retries (host_avail host) + 1 - k) ∧ exchange p oks (view w) (view w') ∧
    (fst r = HOST_UP → sent_last p oks ∧ answered_by p (view w')).
Proof.
  intros Hwf. induction turns as [|t IH]; intros w ping k r w' Hin E; [done|]. cbn [icmp_attempts] in E.
  destruct (Z.ltb_spec (av_retries (host_avail host)) k) as [Hk|Hk].
  { simplify_eq. exists []. split; [cbn; lia|]. split; [by apply later_exchange|done]. }
  assert (Hend : ∀ ws x ok, exchange p [ok] (view w) (view ws) → Some (x, ws) = Some (r, w') →
    (fst x = HOST_UP → (ok = true ∨ listens_unsent p) ∧ answered_by p (view ws)) →
    ∃ oks, Z.of_nat (length oks) ≤ Z.max 0 (av_retries (host_avail host) + 1 - k) ∧
    exchange p oks (view w) (view w') ∧ (fst r = HOST_UP → sent_last p oks ∧ answered_by p (view w'))).
  { intros ws x ok Hx [= <- <-] Ha. exists [ok]. split; [cbn; lia|]. split; [done|]. intros Hr. destruct (Ha Hr). split; [by exists [], ok|done]. }
  assert (Hnext : ∀ ws ok, exchange p [ok] (view w) (view ws) → icmp_attempts t fuel ws host ping name p (k + 1) = Some (r, w') →
    ∃ oks, Z.of_nat (length oks) ≤ Z.max 0 (av_retries (host_avail host) + 1 - k) ∧ exchange p oks (view w) (view w') ∧
      (fst r = HOST_UP → sent_last p oks ∧ answered_by p (view w'))).
  { intros ws ok Hx E'. apply IH in E' as (oks & Hn & Hx' & Ha); [|intros; rewrite (exchange_waiters _ _ _ _ Hx); auto].
    exists (ok :: oks). split; [cbn [length]; lia|]. split; [by apply (exchange_trans p [ok] oks _ (view ws))|].
    intros Hr. destruct (Ha Hr). split; [by apply sent_last_cons|done]. }
  destruct (icmp_use_shared (p_socket p)) eqn:Hs.
  - destruct (shared_attempt w p _) as [o w1] eqn:E1. apply shared_attempt_exchange in E1 as (ok & Hx & Ha); auto.
    destruct o as [tt|]; [eapply Hend; [done|done|]|by eapply Hnext]. intros _. destruct Ha; eauto.
  - apply bind_Some in E as ([h w1] & E1 & E). apply own_attempt_exchange in E1 as (ok & Hx & Ha); [|done|done].
    destruct h as [[tt| |]|].
    + eapply Hend; eauto.
    + apply (Hnext (usleep w1 1000) ok); [|done]. eapply exchange_later; [done|]. apply usleep_law.
    + by eapply Hend.
    + by eapply Hnext.
Qed.

Lemma holds_exchange_close fd p n w0 w w' :
  holds fd w0 w → exchange p n (view w) (view w') → exchange p n (view w0) (view (close w' fd)).
Proof.
  intros (Hp & Hn & L) X. pose proof (close_law w' fd) as C. destruct L, X, C.
  cbn [opened waiters sent got ticks signals readings set_opened] in *. split; try lia.
  - set_solver.
  - etrans; [done|]. by etrans.
  - congruence.
  - congruence.
  - congruence.
Qed.
Lemma registered_exchange p n w w1 w2 r :
  later (set_waiters (r :: waiters (view w)) (view w)) (view w1) → exchange p n (view w1) (view w2) →
  exchange p n (view w) (view (shared_unregister w2 r)).
Proof.
  intros L X. assert (Hw : waiters (view w2) ≡ₚ r :: waiters (view w)).
  { etrans; [apply (exchange_waiters _ _ _ _ X)|]. apply (later_waiters _ _ L). }
  pose proof (unregister_law w2 r _ Hw) as U. destruct L, X, U.
  cbn [opened waiters sent got ticks signals readings set_waiters] in *. split; try lia; congruence || done.
Qed.

Lemma run_probe_exchange fuel w0 w host ping name p r w' :
  wf_probe p → has_socket (p_socket p) w0 w → run_probe fuel w host ping name p = Some (r, w') →
  ∃ oks, Z.of_nat (length oks) ≤ Z.max 0 (av_retries (host_avail host) + 1) ∧ exchange p oks (view w0) (view w') ∧
    (fst r = HOST_UP → sent_last p oks ∧ answered_by p (view w')).
Proof.
  intros Hwf Hh E. unfold run_probe in E. apply bind_Some in E as ([x w1] & E1 & E).
  unfold has_socket in Hh. unfold close_probe_socket in E. destruct (icmp_use_shared (p_socket p)) eqn:Hs.
  - rewrite andb_false_r in E. injection E as <- <-.
    pose proof (register_law w (p_request p)) as L. apply icmp_attempts_exchange in E1 as (n & Hn & Hx & Ha); [|done|].
    2:{ intros _. rewrite (later_waiters _ _ L). cbn. set_solver. }
    exists n. split; [lia|].
    pose proof (registered_exchange p n _ _ _ _ L Hx) as Hx'. apply (later_exchange_trans _ _ _ _ _ Hh) in Hx' as Hx0.
    split; [done|]. intros Hr. destruct (Ha Hr) as [Hp (l & b & a & Hg & Hrep)]. split; [done|]. exists l, b, a. split; [|done].
    assert (Hw : waiters (view w1) ≡ₚ p_request p :: waiters (view w)).
    { etrans; [apply (exchange_waiters _ _ _ _ Hx)|]. apply (later_waiters _ _ L). }
    destruct (unregister_law w1 _ _ Hw). cbn in *. congruence.
  - destruct Hh as (Hp & Hh). rewrite (proj2 (Z.eqb_neq _ (-1))) in E by lia. injection E as <- <-.
    apply icmp_attempts_exchange in E1 as (n & Hn & Hx & Ha); [|done|congruence]. exists n. split; [lia|].
    split; [eapply holds_exchange_close; [exact (conj Hp Hh)|done]|].
    intros Hr. destruct (Ha Hr) as [Hn' (l & b & a & Hg & Hrep)]. split; [done|]. exists l, b, a. split; [|done].
    destruct (close_law w1 (icmp_socket (p_socket p))). cbn in *. congruence.
Qed.

(** ** The verdict *)

(** The time, in milliseconds, between two readings of the monotonic clock made between [v] and
    [v'], or between the last two readings of the wall clock. *)
Definition measured (v v' : net) (t : double) : Prop :=
  (∃ b e, (ticks v < b < e)%nat ∧ (e ≤ ticks v')%nat ∧ t = dmul (dsub (time_of e) (time_of b)) (of_int 1000)) ∨
  ∃ l b e, readings v' = readings v ++ l ++ [b; e] ∧ t = dmul (dsub e b) (of_int 1000).

(** The verdict and the text that goes with it: the status is "down", or the time measured. *)
Definition verdict (v v' : net) (ping : ping_t) (r : Z * ping_t) : Prop :=
  snmp_ping_status (snd r) = snmp_ping_status ping ∧ snmp_response (snd r) = snmp_response ping ∧
  ((fst r = HOST_DOWN ∧ ping_status (snd r) = $"down") ∨
   (fst r = HOST_UP ∧ ∃ t, measured v v' t ∧ ping_status (snd r) = snprintf_s 50 (print_fixed 5 t))).

Lemma verdict_down v v' ping msg : verdict v v' ping (ping_down ping msg).
Proof. split; [done|]. split; [done|]. left. split; [done|]. by vm_compute. Qed.
Lemma verdict_up v v' ping msg t : measured v v' t → verdict v v' ping (ping_up ping msg t).
Proof. intros Ht. split; [done|]. split; [done|]. right. split; [done|]. by exists t. Qed.

(** A part of a run, and what comes after it. *)
Definition before (v v' : net) : Prop := (ticks v ≤ ticks v')%nat ∧ readings v `prefix_of` readings v'.
#[local] Instance before_preorder : PreOrder before.
Proof. split; [by split|]. intros a b c [] []. split; [lia|by etrans]. Qed.
Lemma later_before v v' : later v v' → before v v'.
Proof. intros []. split; [done|]. by rewrite later_readings0. Qed.
Lemma exchange_before p l v v' : exchange p l v v' → before v v'.
Proof. by intros []. Qed.
(** Nothing but time passes: the wall clock is not read. *)
Definition calm (v v' : net) : Prop := (ticks v ≤ ticks v')%nat ∧ readings v' = readings v.
Lemma later_calm v v' : later v v' → calm v v'.
Proof. by intros []. Qed.
Lemma close_calm w fd : calm (view w) (view (close w fd)).
Proof. by destruct (close_law w fd). Qed.
Lemma measured_within v1 v v' v2 t : before v1 v → measured v v' t → calm v' v2 → measured v1 v2 t.
Proof.
  intros [Ht [l0 Hr]] Hm [Ht' Hr']. destruct Hm as [(b & e & H1 & H2 & ->)|(l & b & e & H1 & ->)].
  - left. exists b, e. split; [lia|]. split; [lia|done].
  - right. exists (l0 ++ l), b, e. split; [|done]. by rewrite Hr', H1, Hr, <- !app_assoc.
Qed.
Lemma verdict_within v1 v v' v2 ping r : before v1 v → verdict v v' ping r → calm v' v2 → verdict v1 v2 ping r.
Proof.
  intros Hb (H1 & H2 & Hv) L. split; [done|]. split; [done|]. destruct Hv as [Hv|(Hu & t & Hm & Ht)]; [by left|right].
  split; [done|]. exists t. split; [by eapply measured_within|done].
Qed.

Lemma listen_time p ht b d fuel : ∀ w t w', (b ≤ ticks (view w))%nat → listen fuel w p ht (time_of b) d = Some (Alive t, w') →
  ∃ e, (b < e ≤ ticks (view w'))%nat ∧ t = dmul (dsub (time_of e) (time_of b)) (of_int 1000).
Proof.
  induction fuel as [|f IH]; intros w t w' Hb E; [done|]. cbn [listen] in E. case_match; [done|].
  pose proof (wait_left_quiet w d) as L1. destruct (ping_wait_left w d) as [tv w1]. cbn [snd] in L1.
  pose proof (select_law w1 (icmp_socket (p_socket p)) false tv) as L2. destruct (select w1 _ false tv) as [ready w2].
  assert (L3 : (ticks (view w) ≤ ticks (view w2))%nat) by (destruct L1, ready; [destruct L2|destruct L2 as [[] _]]; lia).
  destruct (bool_decide (ready = Err EINTR)).
  { apply IH in E; [done|lia]. }
  destruct (clock_reads w2) as (w3 & E3 & Ht & L4). rewrite E3 in E.
  destruct (_ && dlt _ _); [|done]. pose proof (recvfrom_law w3 (icmp_socket (p_socket p))) as L. destruct (recvfrom w3 _) as [[x a|e] w4].
  - destruct L as [_ _ _ _ Ht4 _ _]. cbn in Ht4. apply bind_Some in E as (ok & _ & E). destruct ok; [|apply IH in E; [done|lia]].
    injection E as <- <-. exists (ticks (view w3)). split; [lia|done].
  - destruct L as [[_ _ _ _ Ht4 _ _] _]. destruct (e =? EINTR); [apply IH in E; [done|lia]|done].
Qed.
Lemma own_attempt_time fuel p ht w t w' : own_attempt fuel w p ht = Some (Some (Alive t), w') → measured (view w) (view w') t.
Proof.
  intros E. unfold own_attempt in E. destruct (clock_reads w) as (w1 & E1 & Ht & L0). rewrite E1 in E.
  set (dl := dadd _ _) in E. pose proof (wait_left_quiet w1 dl) as L1. destruct (ping_wait_left w1 dl) as [tv w2]. cbn [snd] in L1.
  pose proof (setsockopt_law w2 (icmp_socket (p_socket p)) (SO_RCVTIMEO tv)) as L2.
  destruct (setsockopt w2 _ (SO_RCVTIMEO tv)) as [r2 w3]. cbn [snd] in *.
  pose proof (setsockopt_law w3 (icmp_socket (p_socket p)) (SO_SNDTIMEO tv)) as L3.
  destruct (setsockopt w3 _ (SO_SNDTIMEO tv)) as [r3 w4]. cbn [snd] in *.
  pose proof (sendto_law w4 (icmp_socket (p_socket p)) (p_packet p) (p_dest p)) as L4. destruct (sendto w4 _ _ _) as [sent w5].
  assert (Hb : (ticks (view w1) ≤ ticks (view w5))%nat) by (destruct L1, L2, L3, L4; cbn [ticks set_sent] in *; lia).
  assert (Hl : ('(h, w) ← listen fuel w5 p ht (time_of (ticks (view w1))) dl; Some (Some h, w)) = Some (Some (Alive t), w') → measured (view w) (view w') t).
  { intros ([h w6] & El & [= -> <-])%bind_Some. apply listen_time in El as (e & He & ->); [|done]. left. exists (ticks (view w1)), e.
    split; [lia|]. split; [lia|done]. }
  destruct (rq_family (p_request p)), sent; by try apply Hl.
Qed.
Lemma shared_attempt_time p ht w t w' : shared_attempt w p ht = (Some t, w') → measured (view w) (view w') t.
Proof.
  intros E. unfold shared_attempt in E. pose proof (wall_law w) as L1. destruct (get_time_as_double w) as [b w1].
  pose proof (sendto_law w1 (icmp_socket (p_socket p)) (p_packet p) (p_dest p)) as L2. destruct (sendto w1 _ _ _) as [[n|e] w2]; [|done].
  set (dl := dadd b _) in E. pose proof (await_law w2 (p_request p) dl) as L3. destruct (shared_await w2 _ dl) as [[] w3]; [|done].
  destruct L3 as (x & a & L3 & _). pose proof (wall_law w3) as L4. destruct (get_time_as_double w3) as [e w4]. injection E as <- <-.
  right. exists [], b, e. split; [|done]. destruct L1, L2, L3, L4. cbn [readings set_readings set_sent set_got app] in *.
  repeat match goal with Hr : readings _ = _ |- _ => rewrite Hr; clear Hr end. by rewrite <- app_assoc.
Qed.

Lemma icmp_attempts_verdict fuel host name p : wf_probe p → ∀ turns w ping k r w',
  (icmp_use_shared (p_socket p) = true → p_request p ∈ waiters (view w)) →
  icmp_attempts turns fuel w host ping name p k = Some (r, w') → verdict (view w) (view w') ping r.
Proof.
  intros Hwf. induction turns as [|t IH]; intros w ping k r w' Hin E; [done|]. cbn [icmp_attempts] in E.
  destruct (_ <? k); [simplify_eq; apply verdict_down|].
  assert (Hnext : ∀ ws ok, exchange p [ok] (view w) (view ws) → icmp_attempts t fuel ws host ping name p (k + 1) = Some (r, w') →
    verdict (view w) (view w') ping r).
  { intros ws ok X E'. apply IH in E'; [|intros; rewrite (exchange_waiters _ _ _ _ X); auto]. eapply verdict_within; [by eapply exchange_before|done|done]. }
  destruct (icmp_use_shared (p_socket p)) eqn:Hs.
  - destruct (shared_attempt w p _) as [o w1] eqn:E1. destruct o as [tt|].
    + injection E as <- <-. apply verdict_up. by eapply shared_attempt_time.
    + apply shared_attempt_exchange in E1 as (ok & X & _); auto. by eapply Hnext.
  - apply bind_Some in E as ([h w1] & E1 & E). destruct h as [[tt| |]|].
    + injection E as <- <-. apply verdict_up. by eapply own_attempt_time.
    + apply own_attempt_exchange in E1 as (ok & X & _); [|done|done]. apply (Hnext _ ok) in E; [done|]. eapply exchange_later; [done|]. apply usleep_law.
    + simplify_eq. apply verdict_down.
    + apply own_attempt_exchange in E1 as (ok & X & _); [|done|done]. by eapply Hnext.
Qed.
Lemma has_socket_before s w w' : has_socket s w w' → before (view w) (view w').
Proof.
  unfold has_socket. case_match; [apply later_before|]. intros (_ & _ & [_ _ _ _ Ht _ Hr]). cbn in Ht, Hr. split; [done|]. by rewrite Hr.
Qed.
Lemma run_probe_verdict fuel w0 w host ping name p r w' :
  wf_probe p → has_socket (p_socket p) w0 w → run_probe fuel w host ping name p = Some (r, w') → verdict (view w0) (view w') ping r.
Proof.
  intros Hwf Hh%has_socket_before E. unfold run_probe in E. apply bind_Some in E as ([x w1] & E1 & E).
  destruct (icmp_use_shared (p_socket p)) eqn:Hs.
  - pose proof (register_law w (p_request p)) as L. pose proof E1 as X. apply icmp_attempts_exchange in X as (oks & _ & X & _); [|done|].
    2:{ intros _. rewrite (later_waiters _ _ L). cbn. set_solver. }
    apply icmp_attempts_verdict in E1; [|done|intros _; rewrite (later_waiters _ _ L); cbn; set_solver].
    assert (Hw : waiters (view w1) ≡ₚ p_request p :: waiters (view w)).
    { etrans; [apply (exchange_waiters _ _ _ _ X)|]. apply (later_waiters _ _ L). }
    unfold close_probe_socket in E. rewrite Hs, andb_false_r in E. injection E as <- <-. eapply (verdict_within _ _ _ _ _ _ _ E1).
    destruct (unregister_law w1 _ _ Hw). done.
  - apply icmp_attempts_verdict in E1; [|done|congruence]. injection E as <- <-. eapply (verdict_within _ _ _ _ _ _ Hh E1).
    unfold close_probe_socket. destruct (_ && _); [apply close_calm|done].
Unshelve.
  etrans; [exact Hh|]. destruct L as [_ _ _ _ Ht _ Hr]. cbn in Ht, Hr. split; [done|]. by rewrite Hr.
Qed.

(** ** The two ICMP probes *)

Definition icmp_name (f : family_t) : cstr := match f with AF_INET => $"ICMP" | AF_INET6 => $"ICMPv6" end.
Definition icmp_probe (f : family_t) : nat → W → host_t → ping_t → option (Z * ping_t * W) :=
  match f with AF_INET => ping_icmp | AF_INET6 => ping_icmp_ipv6 end.
(** The request that carries a sequence of ours and identifies this process. *)
Definition echo_request (f : family_t) (id seq : Z) : list ascii :=
  match f with AF_INET => echo_packet id seq | AF_INET6 => echo6_packet id seq end.
Definition in_memory (f : family_t) (z : Z) : Z := match f with AF_INET => z | AF_INET6 => Resolve.htons z end.

(** The address the name of the device resolves to, in a lookup that the probe made once it
    had its socket; a link-local one may be given an interface. *)
Definition resolved (f : family_t) (host : host_t) (p : probe) (w : W) : Prop :=
  ∃ w1, has_socket (p_socket p) w w1 ∧
  match f with
  | AF_INET => ∃ a w2 n, Resolve.init_sockaddr getaddrinfo w1 (hostname host) 7 = (Some a, w2, n) ∧ p_dest p = Sin a
  | AF_INET6 => ∃ a w2 a', init_sockaddr6 w1 (hostname host) = (Some a, w2) ∧ p_dest p = Sin6 a' ∧ sin6_addr a' = sin6_addr a
  end.

(** What an ICMP probe did when it got as far as sending. *)
Definition probed (f : family_t) (host : host_t) (ping : ping_t) (p : probe) (oks : list bool) (r : Z * ping_t) (w w' : W) : Prop :=
  wf_probe p ∧ rq_family (p_request p) = f ∧
  (∃ id seq, 0 ≤ id < 65536 ∧ 0 ≤ seq < 65536 ∧ p_packet p = echo_request f id seq ∧
     rq_id (p_request p) = in_memory f id ∧ rq_seq (p_request p) = in_memory f seq) ∧
  (∃ w1, open_probe_socket w f = (Some (p_socket p), w1)) ∧ resolved f host p w ∧
  Z.of_nat (length oks) ≤ Z.max 0 (av_retries (host_avail host) + 1) ∧ exchange p oks (view w) (view w') ∧
  verdict (view w) (view w') ping r ∧ (fst r = HOST_UP → sent_last p oks ∧ answered_by p (view w')).

Lemma htons_range z : 0 ≤ z < 65536 → 0 ≤ Resolve.htons z < 65536.
Proof. intros Hz. unfold Resolve.htons. pose proof (Z.mod_pos_bound z 256). pose proof (Z.div_lt_upper_bound z 256 256).
  pose proof (Z.div_pos z 256). lia. Qed.
Lemma our_id_range w : 0 ≤ our_id w < 65536.
Proof. unfold our_id. change 65535 with (Z.ones 16). rewrite Z.land_ones by lia. by apply Z.mod_pos_bound. Qed.
Lemma take_seq_range w f seq w' : take_seq w f = (seq, w') → 0 ≤ seq < 65536.
Proof. unfold take_seq. intros [= <- _]. unfold wrap_u. by apply Z.mod_pos_bound. Qed.
Lemma open_probe_dgram w f s w' : open_probe_socket w f = (Some s, w') → icmp_use_shared s = true → icmp_dgram s = false.
Proof. unfold open_probe_socket. intros E. repeat case_match; simplify_eq; done. Qed.

(** The IPv4 request carries its own checksum. *)
Lemma echo_packet_valid id seq : Checksum.get_checksum (echo_packet id seq) = 0.
Proof.
  pose proof (get_checksum_verifies [byte_of ICMP_ECHO; byte_of 0] (le16 id ++ le16 seq ++ icmp6_payload)) as Hc.
  apply Hc; [by exists 1%nat|cbn; lia].
Qed.

Lemma ping_icmp_probed fuel w host ping r w' :
  ping_icmp fuel w host ping = Some (r, w') →
  ((∃ msg, r = ping_down ping msg) ∧ quiet w w') ∨ ∃ p oks, probed AF_INET host ping p oks r w w'.
Proof.
  unfold ping_icmp. intros E. destruct (open_probe_socket w AF_INET) as [[s|] w1] eqn:E1;
    pose proof (open_probe_socket_cases _ _ _ _ E1) as Hs; [|simplify_eq; left; split; [by eexists|done]].
  pose proof (take_seq_quiet w1 AF_INET) as L2. destruct (take_seq w1 AF_INET) as [seq w2] eqn:E2. cbn [snd] in L2.
  apply (has_socket_later _ _ _ _ Hs) in L2.
  destruct (bool_decide (hostname host = []) || _); [injection E as <- <-; left; split; [by eexists|by apply has_socket_close]|].
  destruct (Resolve.init_sockaddr _ _ _ _) as [[a w3] m] eqn:E3. pose proof (init_sockaddr_quiet _ _ _ _ _ _ E3) as L3.
  apply (has_socket_later _ _ _ _ L2) in L3. destruct a as [a|]; [|injection E as <- <-; left; split; [by eexists|by apply has_socket_close]].
  right. apply take_seq_range in E2. pose proof (our_id_range w1).
  match type of E with run_probe _ _ _ _ _ ?p = _ => exists p; assert (Hwf : wf_probe p) end.
  { split; cbn; try done. by eapply open_probe_dgram. }
  pose proof (run_probe_verdict fuel w w3 _ _ _ _ _ _ Hwf ltac:(done) E) as Hv.
  apply (run_probe_exchange fuel w w3) in E as (oks & Hn & Hx & Ha); [|done|done]. exists oks.
  split; [done|]. split; [done|]. split; [by exists (our_id w1), seq|]. split; [by exists w1|]. split; [|split_and!; done].
  exists w2. split; [done|]. by exists a, w3, m.
Qed.

Lemma ping_icmp6_probed fuel w host ping r w' :
  ping_icmp_ipv6 fuel w host ping = Some (r, w') →
  ((∃ msg, r = ping_down ping msg) ∧ quiet w w') ∨ ∃ p oks, probed AF_INET6 host ping p oks r w w'.
Proof.
  unfold ping_icmp_ipv6. intros E. destruct (open_probe_socket w AF_INET6) as [[s|] w1] eqn:E1;
    pose proof (open_probe_socket_cases _ _ _ _ E1) as Hs; [|simplify_eq; left; split; [by eexists|done]].
  pose proof (setsockopt_law w1 (icmp_socket s) (ICMP6_FILTER_only ICMP6_ECHO_REPLY)) as La.
  destruct (setsockopt w1 _ (ICMP6_FILTER_only _)) as [ra wa]. cbn [snd] in *.
  pose proof (setsockopt_law wa (icmp_socket s) (IPV6_CHECKSUM 2)) as Lb.
  destruct (setsockopt wa _ (IPV6_CHECKSUM 2)) as [rb wb]. cbn [snd] in *.
  pose proof (take_seq_quiet wb AF_INET6) as L2. destruct (take_seq wb AF_INET6) as [seq w2] eqn:E2. cbn [snd] in L2.
  do 3 (eapply has_socket_later in Hs; [|eassumption]).
  destruct (bool_decide (hostname host = [])); [injection E as <- <-; left; split; [by eexists|by apply has_socket_close]|].
  pose proof (init_sockaddr6_quiet w2 (hostname host)) as L3. destruct (init_sockaddr6 w2 _) as [[a|] w3] eqn:E3; cbn [snd] in L3;
    apply (has_socket_later _ _ _ _ Hs) in L3; [|injection E as <- <-; left; split; [by eexists|by apply has_socket_close]].
  assert (Hscope : ∃ a' w4, (if IN6_IS_ADDR_LINKLOCAL (sin6_addr a) && (sin6_scope_id a =? 0)
    then apply_ipv6_scope_id w3 a else (a, w3)) = (a', w4) ∧ has_socket s w w4 ∧ sin6_addr a' = sin6_addr a).
  { destruct (IN6_IS_ADDR_LINKLOCAL _ && _); [|eauto]. pose proof (scope_id_quiet w3 a) as L4. pose proof (scope_id_addr w3 a) as Ha'.
    destruct (apply_ipv6_scope_id w3 a) as [a' w4]. exists a', w4. split; [done|]. split; [by eapply has_socket_later|done]. }
  destruct Hscope as (a' & w4 & Eq & H4 & Ha'). rewrite Eq in E. right. apply take_seq_range in E2. pose proof (our_id_range wb).
  match type of E with run_probe _ _ _ _ _ ?p = _ => exists p; assert (Hwf : wf_probe p) end.
  { split; cbn; try done; [by apply htons_range..|]. by eapply open_probe_dgram. }
  pose proof (run_probe_verdict fuel w w4 _ _ _ _ _ _ Hwf ltac:(done) E) as Hv.
  apply (run_probe_exchange fuel w w4) in E as (oks & Hn & Hx & Ha); [|done|done]. exists oks.
  split; [done|]. split; [done|]. split; [by exists (our_id wb), seq|]. split; [by exists w1|]. split; [|split_and!; done].
  exists w2. split; [done|]. by exists a, w3, a'.
Qed.

Lemma icmp_probe_probed f fuel w host ping r w' :
  icmp_probe f fuel w host ping = Some (r, w') →
  ((∃ msg, r = ping_down ping msg) ∧ quiet w w') ∨ ∃ p oks, probed f host ping p oks r w w'.
Proof. destruct f; [apply ping_icmp_probed|apply ping_icmp6_probed]. Qed.

(** ** The probes return *)

(** After [span] readings of the clock an attempt with this timeout is over. *)
Definition clock_passes (span : nat) (timeout : Z) : Prop :=
  ∀ b k, (span ≤ k)%nat →
  let deadline := attempt_deadline (time_of b) timeout in
  (isfinite deadline = true → dle (dsub deadline (time_of (b + k))) dzero = true) ∧
  dlt (dmul (dsub (time_of (b + k)) (time_of b)) (of_int 1000)) (of_int timeout) = false.

Lemma wait_loop_returns fuel : ∀ w fd d b, (signals (view w) < fuel)%nat → is_Some (wait_loop fuel w fd d b).
Proof.
  induction fuel as [|f IH]; intros w fd d b Hf; [lia|]. cbn [wait_loop].
  destruct (clock_reads w) as (w1 & -> & _ & L1). do 2 (case_match; [eauto|]).
  pose proof (select_law w1 fd b (timeval (dsub d (time_of (ticks (view w1)))))) as L.
  destruct (select w1 fd b _) as [[n|e] w2]; [eauto|]. destruct L as [L Hs]. case_match eqn:Ee; [|eauto].
  apply IH. apply Z.eqb_eq in Ee. specialize (Hs Ee). destruct L1. lia.
Qed.
Lemma wait_fd_returns fuel w fd d b : (signals (view w) < fuel)%nat → is_Some (spine_wait_fd fuel w fd d b).
Proof. intros Hf. unfold spine_wait_fd. do 2 (case_match; [eauto|]). by apply wait_loop_returns. Qed.

(** A wait that ends with the descriptor ready read the clock before the deadline. *)
Lemma wait_loop_ready fuel : ∀ w fd d b n w', wait_loop fuel w fd d b = Some (Val n, w') → 0 < n →
  ∃ t, (ticks (view w) < t ≤ ticks (view w'))%nat ∧ dle (dsub d (time_of t)) dzero = false.
Proof.
  induction fuel as [|f IH]; intros w fd d b n w' E Hn; [done|]. cbn [wait_loop] in E.
  destruct (clock_reads w) as (w1 & E1 & Ht & L1). rewrite E1 in E. case_match eqn:Ed; [simplify_eq; lia|].
  case_match; [done|]. pose proof (select_law w1 fd b (timeval (dsub d (time_of (ticks (view w1)))))) as L.
  destruct (select w1 fd b _) as [[m|e] w2].
  - simplify_eq. exists (ticks (view w1)). split; [|done]. destruct L. lia.
  - case_match; [|done]. destruct L as [L _]. apply IH in E as (t & Ht' & Hd); [|done]. exists t. split; [|done]. destruct L. lia.
Qed.
Lemma wait_fd_ready fuel w fd d b n w' : spine_wait_fd fuel w fd d b = Some (Val n, w') → 0 < n →
  isfinite d = true ∧ ∃ t, (ticks (view w) < t ≤ ticks (view w'))%nat ∧ dle (dsub d (time_of t)) dzero = false.
Proof.
  unfold spine_wait_fd. intros E Hn. case_match; [done|]. destruct (isfinite d); cbn [negb] in E; [|done].
  split; [done|]. by eapply wait_loop_ready.
Qed.

Lemma send_loop_returns fuel : ∀ w fd d, (signals (view w) < fuel)%nat → is_Some (send_loop fuel w fd d).
Proof.
  induction fuel as [|f IH]; intros w fd d Hf; [lia|]. cbn [send_loop].
  pose proof (send_law w fd udp_request) as L. destruct (send w fd udp_request) as [[n|e] w1]; [eauto|].
  destruct L as [L Hs]. case_match eqn:Ee; [|eauto]. apply Z.eqb_eq in Ee. specialize (Hs Ee).
  destruct (clock_reads w1) as (w2 & -> & _ & L2). case_match; [|eauto]. apply IH. destruct L2. lia.
Qed.

Section Passing.
Context (span : nat) (timeout : Z) (Hclock : clock_passes span timeout).

Lemma udp_response_returns b fuel : ∀ w fd, (b ≤ ticks (view w))%nat →
  (signals (view w) + (b + span - ticks (view w)) < fuel)%nat →
  is_Some (ping_udp_response fuel w fd (attempt_deadline (time_of b) timeout)).
Proof.
  induction fuel as [|f IH]; intros w fd Hb Hf; [lia|]. cbn [ping_udp_response].
  destruct (wait_fd_returns (S f) w fd (attempt_deadline (time_of b) timeout) false) as [[r w1] E1]; [lia|].
  rewrite E1. cbn [mbind option_bind]. destruct r as [n|e]; [|eauto]. destruct (Z.leb_spec n 0) as [Hn|Hn]; [eauto|].
  pose proof (wait_fd_quiet _ _ _ _ _ _ _ E1) as L1. apply wait_fd_ready in E1 as (Hfin & t & Ht & Hd); [|done].
  assert (Hlt : (t < b + span)%nat).
  { destruct (decide (b + span ≤ t)%nat) as [Hle|]; [|lia]. destruct (Hclock b (t - b)%nat) as [Hp _]; [lia|].
    replace (b + (t - b))%nat with t in Hp by lia. rewrite Hp in Hd; done. }
  pose proof (recv_law w1 fd) as L. destruct (recv w1 fd) as [[x a|e] w2]; [eauto|]. destruct L as [L _].
  do 2 (case_match; [eauto|]). apply IH; destruct L, L1; lia.
Qed.

Lemma listen_returns p b d : wf_probe p → ∀ fuel w, (b ≤ ticks (view w))%nat →
  (signals (view w) + (b + span - ticks (view w)) < fuel)%nat →
  is_Some (listen fuel w p (of_int timeout) (time_of b) d).
Proof.
  intros Hwf fuel. induction fuel as [|f IH]; intros w Hb Hf; [lia|]. cbn [listen]. case_match; [eauto|].
  pose proof (wait_left_quiet w d) as L1. destruct (ping_wait_left w d) as [tv w1]. cbn [snd] in L1.
  pose proof (select_law w1 (icmp_socket (p_socket p)) false tv) as L2. destruct (select w1 _ false tv) as [ready w2].
  destruct (bool_decide (ready = Err EINTR)) eqn:Er.
  { apply bool_decide_eq_true in Er. subst. destruct L2 as [L2 Hs]. specialize (Hs eq_refl). apply IH; destruct L1, L2; lia. }
  assert (L3 : quiet w w2). { etrans; [exact L1|]. destruct ready; [done|apply L2]. }
  destruct (clock_reads w2) as (w3 & E3 & Ht & L4). rewrite E3.
  destruct (_ && dlt _ _) eqn:Eok; [|eauto].
  apply andb_true_iff in Eok as [_ Hlt].
  assert (Hb' : (ticks (view w3) < b + span)%nat).
  { destruct (decide (b + span ≤ ticks (view w3))%nat) as [Hle|]; [|lia].
    destruct (Hclock b (ticks (view w3) - b)%nat) as [_ Hp]; [lia|].
    replace (b + (ticks (view w3) - b))%nat with (ticks (view w3)) in Hp by lia. congruence. }
  pose proof (recvfrom_law w3 (icmp_socket (p_socket p))) as L. destruct (recvfrom w3 _) as [[x a|e] w4].
  - destruct (accepts_total p x a Hwf) as [ok ->]. cbn [mbind option_bind]. destruct ok; [eauto|].
    apply IH; destruct L, L3, L4; cbn [ticks signals set_got] in *; lia.
  - destruct L as [L _]. destruct (e =? EINTR); [|eauto]. apply IH; destruct L, L3, L4; lia.
Qed.

Lemma own_attempt_returns p fuel w : wf_probe p → (signals (view w) + span < fuel)%nat →
  is_Some (own_attempt fuel w p (of_int timeout)).
Proof.
  intros Hwf Hf. unfold own_attempt. destruct (clock_reads w) as (w1 & -> & _ & L0).
  set (dl := dadd _ _). pose proof (wait_left_quiet w1 dl) as L1. destruct (ping_wait_left w1 dl) as [tv w2]. cbn [snd] in L1.
  pose proof (setsockopt_law w2 (icmp_socket (p_socket p)) (SO_RCVTIMEO tv)) as L2.
  destruct (setsockopt w2 _ (SO_RCVTIMEO tv)) as [r2 w3]. cbn [snd] in *.
  pose proof (setsockopt_law w3 (icmp_socket (p_socket p)) (SO_SNDTIMEO tv)) as L3.
  destruct (setsockopt w3 _ (SO_SNDTIMEO tv)) as [r3 w4]. cbn [snd] in *.
  pose proof (sendto_law w4 (icmp_socket (p_socket p)) (p_packet p) (p_dest p)) as L4.
  destruct (sendto w4 _ _ _) as [sent w5]. cbn [snd] in L4.
  assert (Hl : is_Some ('(h, w) ← listen fuel w5 p (of_int timeout) (time_of (ticks (view w1))) dl; Some (Some h, w))).
  { destruct (listen_returns p (ticks (view w1)) dl Hwf fuel w5) as [[h w6] ->]; [..|cbn; eauto];
      destruct L0, L1, L2, L3, L4; cbn [ticks signals set_sent] in *; lia. }
  destruct (rq_family (p_request p)), sent; eauto.
Qed.

Lemma icmp_attempts_returns host name p : wf_probe p → av_timeout (host_avail host) = timeout →
  ∀ turns fuel w ping k,
  (icmp_use_shared (p_socket p) = true → p_request p ∈ waiters (view w)) →
  Z.max 0 (av_retries (host_avail host) + 1 - k) < Z.of_nat turns → (signals (view w) + span < fuel)%nat →
  is_Some (icmp_attempts turns fuel w host ping name p k).
Proof.
  intros Hwf Ht turns. induction turns as [|t IH]; intros fuel w ping k Hin Hk Hf; [lia|]. cbn [icmp_attempts].
  destruct (Z.ltb_spec (av_retries (host_avail host)) k); [eauto|].
  assert (Hnext : ∀ ws ok, exchange p [ok] (view w) (view ws) → is_Some (icmp_attempts t fuel ws host ping name p (k + 1))).
  { intros ws ok X. apply IH; [intros Hs; rewrite (exchange_waiters _ _ _ _ X); auto|lia|]. destruct X. lia. }
  destruct (icmp_use_shared (p_socket p)) eqn:Hs.
  - destruct (shared_attempt w p _) as [o w1] eqn:E1. apply shared_attempt_exchange in E1 as (ok & X & _); auto. destruct o; eauto.
  - rewrite Ht. destruct (own_attempt_returns p fuel w Hwf Hf) as [[h w1] E1]. rewrite E1. cbn [mbind option_bind].
    apply own_attempt_exchange in E1 as (ok & X & _); [|done|done]. destruct h as [[| |]|]; eauto.
    apply (Hnext _ ok). eapply exchange_later; [done|]. apply usleep_law.
Qed.

Lemma turns_enough host : Z.max 0 (av_retries (host_avail host) + 1 - 0) < Z.of_nat (S (turns_of host)).
Proof. unfold turns_of. lia. Qed.

Lemma run_probe_returns fuel w host ping name p :
  wf_probe p → av_timeout (host_avail host) = timeout → (signals (view w) + span < fuel)%nat →
  is_Some (run_probe fuel w host ping name p).
Proof.
  intros Hwf Ht Hf. unfold run_probe. set (wr := if icmp_use_shared (p_socket p) then _ else _).
  assert (Hr : (signals (view wr) ≤ signals (view w))%nat ∧ (icmp_use_shared (p_socket p) = true → p_request p ∈ waiters (view wr))).
  { unfold wr. destruct (icmp_use_shared _); [|done]. pose proof (register_law w (p_request p)) as L.
    split; [by destruct L|]. intros _. rewrite (later_waiters _ _ L). cbn. set_solver. }
  destruct (icmp_attempts_returns host name p Hwf Ht (S (turns_of host)) fuel wr (ping_result ($"down") ($"default") ping) 0)
    as [[r w1] ->]; [apply Hr|apply turns_enough|lia|]. cbn. eauto.
Qed.

Lemma ping_icmp_returns fuel w host ping :
  av_timeout (host_avail host) = timeout → (signals (view w) + span < fuel)%nat → is_Some (ping_icmp fuel w host ping).
Proof.
  intros Ht Hf. unfold ping_icmp. destruct (open_probe_socket w AF_INET) as [[s|] w1] eqn:E1; [|eauto].
  pose proof (open_probe_socket_cases _ _ _ _ E1) as Hs. pose proof (take_seq_quiet w1 AF_INET) as L2.
  destruct (take_seq w1 AF_INET) as [seq w2] eqn:E2. cbn [snd] in L2. apply take_seq_range in E2. pose proof (our_id_range w1).
  destruct (bool_decide (hostname host = []) || _); [eauto|].
  destruct (Resolve.init_sockaddr _ _ _ _) as [[a w3] m] eqn:E3. apply init_sockaddr_quiet in E3. destruct a as [a|]; [|eauto].
  apply run_probe_returns; [|done|].
  - split; cbn; try done. by eapply open_probe_dgram.
  - pose proof (has_socket_signals _ _ _ Hs). destruct L2, E3. lia.
Qed.

Lemma ping_icmp6_returns fuel w host ping :
  av_timeout (host_avail host) = timeout → (signals (view w) + span < fuel)%nat → is_Some (ping_icmp_ipv6 fuel w host ping).
Proof.
  intros Ht Hf. unfold ping_icmp_ipv6. destruct (open_probe_socket w AF_INET6) as [[s|] w1] eqn:E1; [|eauto].
  pose proof (has_socket_signals _ _ _ (open_probe_socket_cases _ _ _ _ E1)) as Hs.
  pose proof (setsockopt_law w1 (icmp_socket s) (ICMP6_FILTER_only ICMP6_ECHO_REPLY)) as La.
  destruct (setsockopt w1 _ (ICMP6_FILTER_only _)) as [ra wa]. cbn [snd] in *.
  pose proof (setsockopt_law wa (icmp_socket s) (IPV6_CHECKSUM 2)) as Lb.
  destruct (setsockopt wa _ (IPV6_CHECKSUM 2)) as [rb wb]. cbn [snd] in *.
  pose proof (take_seq_quiet wb AF_INET6) as L2. destruct (take_seq wb AF_INET6) as [seq w2] eqn:E2. cbn [snd] in L2.
  apply take_seq_range in E2. pose proof (our_id_range wb). destruct (bool_decide (hostname host = [])); [eauto|].
  pose proof (init_sockaddr6_quiet w2 (hostname host)) as L3. destruct (init_sockaddr6 w2 _) as [[a|] w3]; cbn [snd] in L3; [|eauto].
  assert (Hscope : ∃ a' w4, (if IN6_IS_ADDR_LINKLOCAL (sin6_addr a) && (sin6_scope_id a =? 0)
    then apply_ipv6_scope_id w3 a else (a, w3)) = (a', w4) ∧ quiet w3 w4).
  { destruct (IN6_IS_ADDR_LINKLOCAL _ && _); [|eauto]. pose proof (scope_id_quiet w3 a).
    destruct (apply_ipv6_scope_id w3 a). eauto. }
  destruct Hscope as (a' & w4 & -> & L4). apply run_probe_returns; [|done|].
  - split; cbn; try done; [by apply htons_range..|]. by eapply open_probe_dgram.
  - destruct La, Lb, L2, L3, L4. lia.
Qed.

Lemma udp_attempts_returns host fd : av_timeout (host_avail host) = timeout → ∀ turns fuel w ping b k,
  Z.max 0 (av_retries (host_avail host) - k) < Z.of_nat turns → (signals (view w) + span < fuel)%nat →
  is_Some (udp_attempts turns fuel w host ping fd b k).
Proof.
  intros Ht turns. induction turns as [|t IH]; intros fuel w ping b k Hk Hf; [lia|]. cbn [udp_attempts].
  destruct (clock_reads w) as (w1 & -> & _ & L1). rewrite Ht. set (dl := attempt_deadline _ _).
  destruct (send_loop_returns fuel w1 fd dl) as [[s w2] E2]; [destruct L1; lia|]. rewrite E2. apply send_loop_quiet in E2.
  cbn [mbind option_bind].
  assert (Hr : ∃ x w3, match s with
      | Val n => if n =? slen udp_request then ping_udp_response fuel w2 fd dl else Some (-1, w2)
      | Err _ => Some (-1, w2) end = Some (x, w3) ∧ quiet w2 w3).
  { destruct s as [n|]; [|eauto]. destruct (n =? _); [|eauto].
    destruct (udp_response_returns (ticks (view w1)) fuel w2 fd) as [[x w3] E3]; [destruct L1, E2; lia..|].
    exists x, w3. split; [done|]. by eapply udp_response_quiet. }
  destruct Hr as (x & w3 & -> & L3). cbn [mbind option_bind]. destruct (clock_reads w3) as (w4 & -> & _ & L4).
  destruct (0 <? x); [eauto|]. destruct (x <? 0); cbn [orb]; [eauto|].
  destruct (Z.leb_spec (av_retries (host_avail host)) k); [eauto|]. apply IH; [lia|]. destruct L1, E2, L3, L4. lia.
Qed.

Lemma ping_udp_returns fuel w host ping :
  av_timeout (host_avail host) = timeout → (signals (view w) + span < fuel)%nat → is_Some (ping_udp fuel w host ping).
Proof.
  intros Ht Hf. unfold ping_udp. case_match; [eauto|].
  destruct (Resolve.init_sockaddr _ _ _ _) as [[a w1] n] eqn:E1. apply init_sockaddr_quiet in E1.
  destruct a as [a|]; [|eauto]. case_match; [eauto|].
  pose proof (socket_law w1 AF_INET SOCK_DGRAM false IPPROTO_UDP) as L.
  destruct (socket w1 _ _ _ _) as [[fd|e] w2]; [|eauto]. destruct L as (_ & _ & L).
  pose proof (udp_connect_quiet w2 fd (Sin a)) as L3. destruct (udp_connect w2 fd (Sin a)) as [[v|e] w3]; [|eauto].
  destruct (clock_reads w3) as (w4 & -> & _ & L4). apply udp_attempts_returns; [done|unfold turns_of; lia|].
  destruct E1, L, L3, L4. cbn [signals set_opened snd] in *. lia.
Qed.

Lemma tcp_connect_returns fuel w a d : (signals (view w) < fuel)%nat → is_Some (ping_tcp_connect fuel w a d).
Proof.
  intros Hf. unfold ping_tcp_connect. pose proof (socket_law w AF_INET SOCK_STREAM false IPPROTO_TCP) as L.
  destruct (socket w _ _ _ _) as [[fd|x] w1]; [|eauto]. destruct L as (_ & _ & L).
  assert (Ha : is_Some (ping_tcp_attempt fuel w1 fd a d)).
  { unfold ping_tcp_attempt. pose proof (nonblock_quiet w1 fd) as L2. destruct (set_nonblock w1 fd) as [[n|x] w2]; [|eauto].
    pose proof (connect_law w2 fd a) as L3. destruct (connect w2 fd a) as [[v|x] w3]; [eauto|].
    destruct (negb _ && _); [eauto|]. unfold ping_tcp_complete.
    destruct (wait_fd_returns fuel w3 fd d true) as [[r w4] ->]; [destruct L, L2, L3; cbn [signals set_opened snd] in *; lia|].
    cbn [mbind option_bind]. destruct r; [|eauto]. destruct (_ <=? 0); [eauto|]. destruct (getsockopt_error w4 fd) as [[] ?]; eauto. }
  destruct Ha as [[e w2] ->]. cbn. eauto.
Qed.
Lemma tcp_attempts_returns host : ∀ turns fuel w ping a b k,
  Z.max 0 (av_retries (host_avail host) - k) < Z.of_nat turns → (signals (view w) < fuel)%nat →
  is_Some (tcp_attempts turns fuel w host ping a b k).
Proof.
  intros turns. induction turns as [|t IH]; intros fuel w ping a b k Hk Hf; [lia|]. cbn [tcp_attempts].
  destruct (clock_reads w) as (w1 & -> & _ & L1). set (dl := attempt_deadline _ _).
  destruct (tcp_connect_returns fuel w1 a dl) as [[e w2] E2]; [destruct L1; lia|]. rewrite E2. apply tcp_connect_quiet in E2.
  cbn [mbind option_bind]. destruct (tcp_alive host e); [destruct (monotonic_time w2); eauto|].
  destruct (Z.leb_spec (av_retries (host_avail host)) k); [eauto|]. apply IH; [lia|]. destruct L1, E2. lia.
Qed.
Lemma ping_tcp_returns fuel w host ping : (signals (view w) < fuel)%nat → is_Some (ping_tcp fuel w host ping).
Proof.
  intros Hf. unfold ping_tcp. case_match; [eauto|].
  destruct (Resolve.init_sockaddr _ _ _ _) as [[a w1] n] eqn:E1. apply init_sockaddr_quiet in E1.
  destruct a as [a|]; [|eauto]. case_match; [eauto|]. destruct (clock_reads w1) as (w2 & -> & _ & L2).
  apply tcp_attempts_returns; [unfold turns_of; lia|]. destruct E1, L2. lia.
Qed.
End Passing.

(** ** The four probes *)

Inductive probe_kind := ProbeIcmp (f : family_t) | ProbeUdp | ProbeTcp.
Definition run_kind (k : probe_kind) : nat → W → host_t → ping_t → option (Z * ping_t * W) :=
  match k with ProbeIcmp f => icmp_probe f | ProbeUdp => ping_udp | ProbeTcp => ping_tcp end.

Lemma run_kind_returns span k fuel w host ping :
  clock_passes span (av_timeout (host_avail host)) → (signals (view w) + span < fuel)%nat →
  is_Some (run_kind k fuel w host ping).
Proof.
  intros Hc Hf. destruct k as [[]| |].
  - by eapply ping_icmp_returns.
  - by eapply ping_icmp6_returns.
  - by eapply ping_udp_returns.
  - apply ping_tcp_returns. lia.
Qed.

(** ** The verdicts of the connectionless checks *)

Lemma udp_attempts_verdict turns fuel host ping fd v b : (ticks v < b)%nat → ∀ w k r w', (b ≤ ticks (view w))%nat → readings v = readings (view w) →
  udp_attempts turns fuel w host ping fd (time_of b) k = Some (r, w') → verdict v (view w') ping r.
Proof.
  intros Hv. induction turns as [|t IH]; intros w k r w' Hb Hr E; [done|]. cbn [udp_attempts] in E.
  destruct (clock_reads w) as (w1 & E1 & Ht1 & L1). rewrite E1 in E. set (dl := attempt_deadline _ _) in E.
  apply bind_Some in E as ([s w2] & L2%send_loop_quiet & E). apply bind_Some in E as ([x w3] & E3 & E).
  assert (L3 : quiet w2 w3).
  { destruct s as [n|]; [|by injection E3 as <- <-]. destruct (n =? _); [by eapply udp_response_quiet|by injection E3 as <- <-]. }
  destruct (clock_reads w3) as (w4 & E4 & Ht4 & L4). rewrite E4 in E. assert (L : quiet w w4) by (repeat (etrans; [eassumption|]); done).
  destruct (0 <? x).
  - injection E as <- <-. apply verdict_up. left. exists b, (ticks (view w4)). destruct (close_law w4 fd) as [_ _ _ _ Ht _ _]. cbn in Ht.
    destruct L1, L2, L3. split; [lia|]. split; [lia|done].
  - destruct (_ || _); [simplify_eq; apply verdict_down|]. destruct L. eapply IH; [| |exact E]; [lia|congruence].
Qed.
Lemma ping_udp_verdict fuel w host ping r w' : ping_udp fuel w host ping = Some (r, w') → verdict (view w) (view w') ping r.
Proof.
  unfold ping_udp. intros E. case_match; [simplify_eq; apply verdict_down|].
  destruct (Resolve.init_sockaddr _ _ _ _) as [[a w1] n] eqn:E1. apply init_sockaddr_quiet in E1.
  destruct a as [a|]; [|simplify_eq; apply verdict_down]. case_match; [simplify_eq; apply verdict_down|].
  pose proof (socket_law w1 AF_INET SOCK_DGRAM false IPPROTO_UDP) as L.
  destruct (socket w1 _ _ _ _) as [[fd|e] w2]; [|simplify_eq; apply verdict_down]. destruct L as (_ & _ & [_ _ _ _ Ht2 _ Hr2]). cbn in Ht2, Hr2.
  pose proof (udp_connect_quiet w2 fd (Sin a)) as L3. destruct (udp_connect w2 fd (Sin a)) as [[v|e] w3]; [|simplify_eq; apply verdict_down].
  destruct (clock_reads w3) as (w4 & E4 & Ht4 & L4). rewrite E4 in E. cbn [snd] in L3.
  destruct E1, L3, L4. eapply udp_attempts_verdict; [| | |exact E]; [lia|lia|congruence].
Qed.
Lemma tcp_attempts_verdict turns fuel host ping a v b : (ticks v < b)%nat → ∀ w k r w', (b ≤ ticks (view w))%nat →
  tcp_attempts turns fuel w host ping a (time_of b) k = Some (r, w') → verdict v (view w') ping r.
Proof.
  intros Hv. induction turns as [|t IH]; intros w k r w' Hb E; [done|]. cbn [tcp_attempts] in E.
  destruct (clock_reads w) as (w1 & E1 & Ht1 & L1). rewrite E1 in E. set (dl := attempt_deadline _ _) in E.
  apply bind_Some in E as ([e w2] & L2%tcp_connect_quiet & E). destruct (tcp_alive host e).
  - destruct (clock_reads w2) as (w3 & E3 & Ht3 & L3). rewrite E3 in E. injection E as <- <-. apply verdict_up. left.
    exists b, (ticks (view w3)). destruct L1, L2. split; [lia|]. split; [lia|done].
  - destruct (_ <=? k); [simplify_eq; apply verdict_down|]. destruct L1, L2. eapply IH; [|exact E]; lia.
Qed.
Lemma ping_tcp_verdict fuel w host ping r w' : ping_tcp fuel w host ping = Some (r, w') → verdict (view w) (view w') ping r.
Proof.
  unfold ping_tcp. intros E. case_match; [simplify_eq; apply verdict_down|].
  destruct (Resolve.init_sockaddr _ _ _ _) as [[a w1] n] eqn:E1. apply init_sockaddr_quiet in E1.
  destruct a as [a|]; [|simplify_eq; apply verdict_down]. case_match; [simplify_eq; apply verdict_down|].
  destruct (clock_reads w1) as (w2 & E2 & Ht2 & L2). rewrite E2 in E. destruct E1, L2. eapply tcp_attempts_verdict; [| |exact E]; lia.
Qed.
Lemma run_kind_verdict k fuel w host ping r w' : run_kind k fuel w host ping = Some (r, w') → verdict (view w) (view w') ping r.
Proof.
  destruct k as [f| |]; cbn [run_kind]; [|apply ping_udp_verdict|apply ping_tcp_verdict].
  intros [[[msg ->] _]|(p & oks & _ & _ & _ & _ & _ & _ & _ & Hv & _)]%icmp_probe_probed; [apply verdict_down|done].
Qed.

(** What a probe leaves of its part of the world. *)
Lemma run_kind_balanced k fuel w host ping r w' : run_kind k fuel w host ping = Some (r, w') →
  opened (view w') = opened (view w) ∧ waiters (view w') ≡ₚ waiters (view w).
Proof.
  intros E. destruct k as [f| |]; cbn [run_kind] in E.
  - apply icmp_probe_probed in E as [[_ []]|(p & oks & _ & _ & _ & _ & _ & _ & [] & _)]; done.
  - apply ping_udp_quiet in E as []. done.
  - apply ping_tcp_quiet in E as []. done.
Qed.

End Laws.
End ProbeFacts.
Import ProbeFacts.

(** * A simulated network

    One descriptor, a queue of datagrams to receive, signals that interrupt [select], and
    a clock that first ticks every 1/64 second and then ever faster, so that every
    timeout of a second passes within 64 readings. *)

Module SimNet.

Record sim := { s_net : net; s_inbox : list (list ascii * sockaddr); s_peer : Z; s_seq : Z }.

#[global] Instance request_eq_dec : EqDecision request.
Proof. solve_decision. Defined.

Definition sim_time (n : nat) : double :=
  if (n <? 64)%nat then ddiv (of_int (Z.of_nat n)) (of_int 64)
  else if (n <? 128)%nat then of_int (2 ^ (Z.of_nat n - 63)) else S754_infinity false.

Definition on_net (f : net → net) (w : sim) : sim :=
  {| s_net := f (s_net w); s_inbox := s_inbox w; s_peer := s_peer w; s_seq := s_seq w |}.
Definition set_ticks (n : nat) (v : net) : net :=
  {| opened := opened v; waiters := waiters v; sent := sent v; got := got v; ticks := n; signals := signals v; readings := readings v |}.
Definition set_signals (n : nat) (v : net) : net :=
  {| opened := opened v; waiters := waiters v; sent := sent v; got := got v; ticks := ticks v; signals := n; readings := readings v |}.

Fixpoint remove_one (r : request) (l : list request) : list request :=
  match l with [] => [] | x :: l' => if decide (x = r) then l' else x :: remove_one r l' end.

Definition sim_recv (w : sim) : recv_result * sim :=
  match s_inbox w with
  | [] => (RecvErr EAGAIN, w)
  | (b, a) :: rest => (Received b a, {| s_net := set_got (got (s_net w) ++ [(b, a)]) (s_net w); s_inbox := rest; s_peer := s_peer w; s_seq := s_seq w |})
  end.

#[global] Instance sim_sockets : Sockets sim := {
  socket w f t c p := if decide (3 ∈ opened (s_net w)) then (Err 24, w)
                      else (Val 3, on_net (fun v => set_opened ({[3]} ∪ opened v) v) w);
  fcntl w fd c := (Val 0, w);
  setsockopt w fd o := (Val 0, w);
  getsockopt_error w fd := (Val 0, w);
  connect w fd a := (Err EINPROGRESS, w);
  send w fd b := (Val (Z.of_nat (length b)), w);
  sendto w fd b a := (Val (Z.of_nat (length b)), on_net (fun v => set_sent (sent v ++ [(fd, b, a, true)]) v) w);
  recv w fd := (Received [] (Sin {| Resolve.sin_addr := s_peer w; Resolve.sin_port := 0 |}), w);
  recvfrom w fd := sim_recv w;
  select w fd b tv :=
    match signals (s_net w) with
    | S n => (Err EINTR, on_net (set_signals n) w)
    | O => (Val (if b then 1 else Z.of_nat (length (s_inbox w))), w)
    end;
  close w fd := on_net (fun v => set_opened (opened v ∖ {[fd]}) v) w;
  monotonic_time w := (sim_time (S (ticks (s_net w))), on_net (fun v => set_ticks (S (ticks v)) v) w);
  get_time_as_double w := (dzero, on_net (fun v => set_readings (readings v ++ [dzero]) v) w);
  usleep w n := w;
  getaddrinfo w a := (Resolve.GaiOk [s_peer w], w);
  getaddrinfo6 w a := (Gai6Error, w);
  getifaddrs w := (None, w);
  if_nametoindex w n := (0, w);
  getpid w := 4242;
  seq_lock w := w;
  seq_unlock w := w;
  get_seq w f := s_seq w;
  put_seq w f n := {| s_net := s_net w; s_inbox := s_inbox w; s_peer := s_peer w; s_seq := n |};
  shared_fd w f := -1;
  set_shared_fd w f n := w;
  shared_register w r := on_net (fun v => set_waiters (r :: waiters v) v) w;
  shared_unregister w r := on_net (fun v => set_waiters (remove_one r (waiters v)) v) w;
  shared_await w r d := (false, w) }.

Lemma remove_one_perm r l : r ∈ l → l ≡ₚ r :: remove_one r l.
Proof.
  induction l as [|x l IH]; [set_solver|]. intros Hin. cbn. case_decide as Hx; [by subst|].
  rewrite Permutation_swap. constructor. apply IH. set_solver.
Qed.

#[global] Program Instance sim_laws : SocketLaws sim := { view := s_net; time_of := sim_time }.
Next Obligation. intros w f t c p. cbn. case_decide; [done|]. split; [lia|]. split; [done|]. reflexivity. Qed.
Next Obligation. intros w fd. reflexivity. Qed.
Next Obligation. intros w fd c. reflexivity. Qed.
Next Obligation. intros w fd o. reflexivity. Qed.
Next Obligation. intros w fd. reflexivity. Qed.
Next Obligation. intros w fd a. reflexivity. Qed.
Next Obligation. intros w fd b. cbn. reflexivity. Qed.
Next Obligation. intros w fd b a. cbn. reflexivity. Qed.
Next Obligation. intros w fd. cbn. reflexivity. Qed.
Next Obligation.
  intros w fd. cbn. unfold sim_recv. destruct (s_inbox w) as [|[b a] l]; cbn; [split; [reflexivity|done]|reflexivity].
Qed.
Next Obligation.
  intros w fd b tv. cbn. destruct (signals (s_net w)) eqn:E; cbn; [reflexivity|].
  split; [split; cbn; auto with lia|intros _; cbn; lia].
Qed.
Next Obligation. intros w. cbn. split; [done|]. split; [lia|]. split; cbn; auto with lia. Qed.
Next Obligation. intros w. cbn. reflexivity. Qed.
Next Obligation. intros w n. reflexivity. Qed.
Next Obligation. intros w a. reflexivity. Qed.
Next Obligation. intros w a. reflexivity. Qed.
Next Obligation. intros w. reflexivity. Qed.
Next Obligation. intros w n. reflexivity. Qed.
Next Obligation. intros w. reflexivity. Qed.
Next Obligation. intros w. reflexivity. Qed.
Next Obligation. intros w f n. reflexivity. Qed.
Next Obligation. intros w r. reflexivity. Qed.
Next Obligation.
  intros w r l Hp. cbn. split; cbn; try done. apply (Permutation_cons_inv (a := r)). rewrite <- Hp.
  symmetry. apply remove_one_perm. rewrite Hp. set_solver.
Qed.
Next Obligation. intros w r d. cbn. reflexivity. Qed.

(** The clock, checked on every pair of readings that are not past its end. *)
Definition passes_at (timeout : Z) (b m : nat) : bool :=
  let deadline := attempt_deadline (sim_time b) timeout in
  (negb (isfinite deadline) || dle (dsub deadline (sim_time m)) dzero) &&
  negb (dlt (dmul (dsub (sim_time m) (sim_time b)) (of_int 1000)) (of_int timeout)).
Lemma sim_clock_passes : clock_passes (W := sim) 64 500.
Proof.
  assert (Hcap : ∀ n, sim_time n = sim_time (min n 128)).
  { intros n. destruct (decide (n < 128)%nat); [by rewrite Nat.min_l by lia|]. rewrite Nat.min_r by lia. unfold sim_time.
    rewrite (proj2 (Nat.ltb_ge n 64)), (proj2 (Nat.ltb_ge n 128)) by lia. done. }
  assert (Hall : forallb (fun b => forallb (passes_at 500 b) (filter (fun m => min (b + 64) 128 ≤ m)%nat (seq 0 129))) (seq 0 129) = true)
    by (by vm_compute).
  rewrite forallb_forall in Hall.
  intros b k Hk. cbn [time_of sim_laws]. rewrite (Hcap b), (Hcap (b + k)%nat).
  specialize (Hall (min b 128) ltac:(apply in_seq; lia)). rewrite forallb_forall in Hall.
  specialize (Hall (min (b + k) 128)). unfold passes_at in Hall.
  apply andb_true_iff in Hall as [H1 H2].
  - split; [intros Hf; by rewrite Hf in H1|by apply negb_true_iff in H2].
  - apply list_elem_of_In, list_elem_of_filter. split; [lia|]. apply list_elem_of_In, in_seq. lia.
Qed.

(** A stray datagram, the reply to sequence 0 from another address, then the reply. *)
Definition peer : sockaddr := Sin {| Resolve.sin_addr := 16777343; Resolve.sin_port := 0 |}.
Definition other : sockaddr := Sin {| Resolve.sin_addr := 33554559; Resolve.sin_port := 0 |}.
Definition sim_reply : list ascii := map byte_of [0; 0; 0; 0; 7; 7; 0; 0].
Definition sim_world : sim := {|
  s_net := {| opened := ∅; waiters := []; sent := []; got := []; ticks := 0; signals := 2; readings := [] |};
  s_inbox := [($"noise", peer); (sim_reply, other); (sim_reply, peer)]; s_peer := 16777343; s_seq := 65536 |}.
Definition sim_host : host_t := {|
  host_id := 1; hostname := $"device"; ignore_host := false;
  snmp := {| profile := {| community := []; version := 1; username := []; password := []; auth_protocol := [];
                           priv_passphrase := []; priv_protocol := []; context := []; engine_id := [];
                           port := 161; timeout := 500 |};
             retries := 3; max_oids := 10; session := None; snmp_status := 0 |};
  system := {| snmp_sysDescr := []; snmp_sysObjectID := []; snmp_sysUpTimeInstance := 0; snmp_sysContact := [];
               snmp_sysName := []; snmp_sysLocation := [] |};
  host_avail := {| av_method := 2; av_ping_method := 1; av_port := 23; av_timeout := 500; av_retries := 2 |};
  hstate := {| status := HOST_UP; status_event_count := 0; status_fail_date := []; status_rec_date := []; status_last_error := [] |};
  statistics := {| min_time := dzero; max_time := dzero; cur_time := dzero; avg_time := dzero; total_polls := 0;
                   failed_polls := 0; availability := of_int 100 |} |}.
Definition sim_ping : ping_t := {| ping_status := []; ping_response := []; snmp_ping_status := []; snmp_response := [] |}.

End SimNet.
Import SimNet.

(** * Properties *)

(** C14: a device is reported up by an ICMP probe, of either family, only after it answered.
    What the probe hands to [sendto] is one and the same echo request, with a correct checksum
    under IPv4, at most once per attempt, on the socket it opened for the family or the shared
    one, and for the address that its lookup of the device's name gave.  When it returns
    HOST_UP, the last datagram it was handed, by its own socket or by the reader of the shared
    one, came from that address and is an echo reply to that request; and the call of [sendto]
    before it succeeded - except that the IPv4 probe, on a socket of its own, also listens
    after a call that failed. *)
Theorem icmp_up_genuine {W} `{SocketLaws W} (f : family_t) (fuel : nat) (w : W) (host : host_t) (ping : ping_t) r w'
  (Hrun : icmp_probe f fuel w host ping = Some (r, w')) :
  (fst r = HOST_DOWN ∧ sent (view w') = sent (view w) ∧ got (view w') = got (view w)) ∨
  ∃ p oks id seq,
    (∃ w1, open_probe_socket w f = (Some (p_socket p), w1)) ∧ resolved f host p w ∧
    p_packet p = echo_request f id seq ∧ (f = AF_INET → Checksum.get_checksum (p_packet p) = 0) ∧
    rq_id (p_request p) = in_memory f id ∧ rq_seq (p_request p) = in_memory f seq ∧ rq_family (p_request p) = f ∧
    Z.of_nat (length oks) ≤ Z.max 0 (av_retries (host_avail host) + 1) ∧
    sent (view w') = sent (view w) ++ map (fun ok => (icmp_socket (p_socket p), p_packet p, p_dest p, ok)) oks ∧
    (fst r = HOST_UP →
     (∃ l ok, oks = l ++ [ok] ∧ (ok = true ∨ f = AF_INET ∧ icmp_use_shared (p_socket p) = false)) ∧
     ∃ earlier bytes from, got (view w') = earlier ++ [(bytes, from)] ∧ replies p bytes from).
Proof.
  apply icmp_probe_probed in Hrun as [[[msg ->] L]|(p & oks & Hwf & Hf & (id & seq & Hid & Hseq & Hp & Hi & Hs) & Ho & Hr & Hn & X & _ & Ha)].
  - left. split; [done|]. by destruct L.
  - right. exists p, oks, id, seq. do 3 (split; [done|]). split; [intros ->; rewrite Hp; apply echo_packet_valid|].
    do 4 (split; [done|]). split; [apply X|]. intros Hu. destruct (Ha Hu) as [(l & ok & Hl & Hok) Hans]. split; [|exact Hans].
    exists l, ok. split; [done|]. destruct Hok as [Hok|[H1 H2]]; [by left|right; by split; [congruence|]].
Qed.

Lemma icmp_up_genuine_witness :
  match icmp_probe AF_INET 200 sim_world sim_host sim_ping with
  | Some (r, w') => fst r = HOST_UP ∧ ∃ p, ∃ earlier bytes from, got (view w') = earlier ++ [(bytes, from)] ∧ replies p bytes from
  | None => False
  end.
Proof.
  destruct (icmp_probe AF_INET 200 sim_world sim_host sim_ping) as [[r w']|] eqn:E; [|by vm_compute in E].
  assert (Hu : fst r = HOST_UP) by (vm_compute in E; by injection E as <- _).
  split; [done|]. destruct (icmp_up_genuine AF_INET 200 sim_world sim_host sim_ping r w' E) as [[Hd _]|(p & oks & id & seq & _ & _ & _ & _ & _ & _ & _ & _ & _ & Hup)].
  - by rewrite Hd in Hu.
  - exists p. apply (Hup Hu).
Defined.

(** C34: whatever the network and the system do, a probe that returns has closed the socket
    it opened, on every path, has left the shared socket open and its request
    unregistered, and gives HOST_DOWN with the status [down] or HOST_UP with the time it
    measured - the milliseconds, to five places, between two of its readings of the
    monotonic clock, or its last two of the wall clock - leaving the SNMP part of the result
    alone. *)
Theorem probes_balanced {W} `{SocketLaws W} (k : probe_kind) (fuel : nat) (w : W) (host : host_t) (ping : ping_t) r w'
  (Hrun : run_kind k fuel w host ping = Some (r, w')) :
  opened (view w') = opened (view w) ∧ waiters (view w') ≡ₚ waiters (view w) ∧ verdict (view w) (view w') ping r.
Proof.
  destruct (run_kind_balanced k fuel w host ping r w' Hrun) as [Ho Hw]. split; [done|]. split; [done|].
  by eapply run_kind_verdict.
Qed.

Lemma probes_balanced_witness :
  match run_kind ProbeUdp 200 sim_world sim_host sim_ping with
  | Some (r, w') => opened (view w') = ∅ ∧ waiters (view w') ≡ₚ [] ∧ verdict (view sim_world) (view w') sim_ping r
  | None => False
  end.
Proof.
  destruct (run_kind ProbeUdp 200 sim_world sim_host sim_ping) as [[r w']|] eqn:E; [|by vm_compute in E].
  exact (probes_balanced ProbeUdp 200 sim_world sim_host sim_ping r w' E).
Defined.

(** C15: every probe returns.  When the clock passes the timeout of an attempt within
    [span] readings and [signals] interruptions are still to come, all four probes end
    with a verdict, however many stray or forged datagrams arrive and whatever the calls
    return, and no byte outside a received datagram is read. *)
Theorem probes_return {W} `{SocketLaws W} (k : probe_kind) (fuel span : nat) (w : W) (host : host_t) (ping : ping_t)
  (Hclock : clock_passes span (av_timeout (host_avail host))) (Hfuel : (signals (view w) + span < fuel)%nat) :
  ∃ r w', run_kind k fuel w host ping = Some (r, w') ∧ (fst r = HOST_UP ∨ fst r = HOST_DOWN).
Proof.
  destruct (run_kind_returns span k fuel w host ping Hclock Hfuel) as [[r w'] E]. exists r, w'. split; [done|].
  apply run_kind_verdict in E as (_ & _ & [[Hd _]|[Hu _]]); [by right|by left].
Qed.

Lemma probes_return_witness :
  ∃ r w', run_kind ProbeTcp 67 sim_world sim_host sim_ping = Some (r, w') ∧ (fst r = HOST_UP ∨ fst r = HOST_DOWN).
Proof. apply (probes_return ProbeTcp 67 64 sim_world sim_host sim_ping sim_clock_passes). cbn. lia. Defined.
