(* ===== verification/Privileges.v ===== *)
(** Giving up root: src/src/platform/privileges.c.

    Spine may be installed setuid root, only to open raw ICMP sockets.  The process's
    credentials are an interface ([Class Credentials]); [Class CredentialLaws] states what
    the calls do to the user and group ids and to the permitted capabilities, as Linux and
    capabilities(7) document it, where any call may also fail.  [have_lcap] is the build
    option HAVE_LCAP; the Solaris privileges are not modelled, nor is log output. *)

From stdpp Require Import gmap.
From Stdlib Require Import SpecFloat.
From S2P Require Import Prelude CLib Buffer Address Icmp IcmpFacts Settings Ping PingFacts.
Import Shared Reply.

(** [true] is success.  [cap_set_net_raw] is [cap_set_proc] of [cap_net_raw=eip];
    [cap_permitted] and [cap_effective] are [cap_get_flag] of a capability, [None] when
    [cap_get_proc] or the query fails. *)
Class Credentials (W : Type) := {
  getuid : W → Z;
  geteuid : W → Z;
  getgid : W → Z;
  getegid : W → Z;
  setuid : W → Z → bool * W;
  setgid : W → Z → bool * W;
  seteuid : W → Z → bool * W;
  setegid : W → Z → bool * W;
  setreuid : W → Z → Z → bool * W;
  setregid : W → Z → Z → bool * W;
  setgroups_none : W → bool * W;
  set_keepcaps : W → bool → bool * W;
  cap_from_text : W → bool * W;
  cap_set_net_raw : W → bool * W;
  cap_get_proc : W → bool * W;
  cap_permitted : W → Z → bool;
  cap_effective : W → Z → option bool }.

Module Privileges.

Definition CAP_SETGID : Z := 6.
Definition CAP_SETUID : Z := 7.
Definition CAP_NET_RAW : Z := 13.

Section Drop.
Context {W : Type} `{Sockets W} `{Credentials W}.
Context (have_lcap : bool).

(** [if (!call) die(...)]. *)
Definition or_die (r : bool * W) : outcome W := if fst r then Ok (snd r) else Died EXIT_FAILURE.

(** Whether CAP_NET_RAW was kept. *)
Definition drop_root (w : W) (server_uid server_gid : Z) : outcome (bool * W) :=
  let* w := or_die (set_keepcaps w true) in
  let* w := or_die (setgroups_none w) in
  let* w := or_die (setegid w server_gid) in
  let* w := or_die (seteuid w server_uid) in
  let '(caps, w) := cap_from_text w in
  let '(kept, w) := if caps then cap_set_net_raw w else (false, w) in
  let* w := if kept then Ok w else or_die (set_keepcaps w false) in
  let* w := or_die (setregid w server_gid server_gid) in
  let* w := or_die (setreuid w server_uid server_uid) in
  Ok (kept, w).

Definition only_net_raw (w : W) : bool :=
  forallb (fun value => negb (cap_permitted w value && negb (value =? CAP_NET_RAW))) (map Z.of_nat (seq 0 64)).

Definition privileges_dropped (w : W) (uid gid : Z) : bool * W :=
  if (uid =? 0) || negb (getuid w =? uid) || negb (geteuid w =? uid) || negb (getgid w =? gid) || negb (getegid w =? gid)
  then (false, w)
  else
    let '(caps_ok, w) :=
      if have_lcap then
        let '(caps, w) := cap_get_proc w in
        (caps && only_net_raw w, w)
      else (true, w) in
    if negb caps_ok then (false, w) else
    let '(regained, w) := seteuid w 0 in
    if regained then (false, w)
    else if gid =? 0 then (true, w)
    else
      let '(regained, w) := setegid w 0 in
      (negb regained, w).

(** [true] in the result is [setuid_icmp_lost]. *)
Definition drop_privileges (w : W) : outcome (bool * W) :=
  let uid := getuid w in let gid := getgid w in
  if negb (geteuid w =? 0) || (uid =? 0) then
    if have_lcap && (geteuid w =? 0) then
      let* (kept, w) := drop_root w uid gid in
      if kept : bool then Ok (false, w) else Died EXIT_FAILURE
    else Ok (false, w)
  else
    let* (icmp_ready, w) :=
      if have_lcap then drop_root w uid gid
      else
        let '(icmp_ready, w) := Ping.ping_icmp_open_shared w in
        let* w := or_die (setgid w gid) in
        let* w := or_die (setuid w uid) in
        Ok (icmp_ready, w) in
    let '(dropped, w) := privileges_dropped w uid gid in
    if negb dropped then Died EXIT_FAILURE else Ok (negb icmp_ready, w).

Definition hasCaps (w : W) : bool * W :=
  if have_lcap then
    let '(caps, w) := cap_get_proc w in
    if negb caps then (false, w) else
    (match cap_effective w CAP_NET_RAW with Some set => set | None => false end, w)
  else (false, w).

(** Whether a socket of this type can be opened; it is closed again. *)
Definition can_open (w : W) (type : sock_type) : bool * W :=
  match socket w AF_INET type false IPPROTO_ICMP with
  | (Val probe, w) => (true, close w probe)
  | (Err _, w) => (false, w)
  end.

(** [icmp_avail] and [icmp_uses_caps]. *)
Definition checkAsRoot (w : W) : bool * bool * W :=
  let '(caps, w) := hasCaps w in
  if caps then (true, true, w)
  else if Ping.ping_icmp_shared_available w then (true, false, w)
  else if negb (geteuid w =? 0) then
    let '(raw, w) := can_open w SOCK_RAW in
    if raw then (true, false, w)
    else let '(dgram, w) := can_open w SOCK_DGRAM in (dgram, false, w)
  else (true, false, w).

End Drop.
End Privileges.
Import Privileges.

(** * What the credential calls do *)

(** Real, effective and saved ids, the permitted capabilities and the keep flag. *)
Record cred := {
  ruid : Z; euid : Z; suid : Z; rgid : Z; egid : Z; sgid : Z; permitted : gset Z; keepcaps : bool }.

Definition with_uids (r e s : Z) (c : cred) : cred :=
  {| ruid := r; euid := e; suid := s; rgid := rgid c; egid := egid c; sgid := sgid c;
     (* the kernel clears the capabilities when the last root id goes, unless told not to *)
     permitted := if ((ruid c =? 0) || (euid c =? 0) || (suid c =? 0)) && negb ((r =? 0) || (e =? 0) || (s =? 0)) && negb (keepcaps c)
                  then ∅ else permitted c;
     keepcaps := keepcaps c |}.
Definition with_gids (r e s : Z) (c : cred) : cred :=
  {| ruid := ruid c; euid := euid c; suid := suid c; rgid := r; egid := e; sgid := s; permitted := permitted c; keepcaps := keepcaps c |}.
Definition with_keepcaps (b : bool) (c : cred) : cred :=
  {| ruid := ruid c; euid := euid c; suid := suid c; rgid := rgid c; egid := egid c; sgid := sgid c; permitted := permitted c; keepcaps := b |}.
Definition with_permitted (p : gset Z) (c : cred) : cred :=
  {| ruid := ruid c; euid := euid c; suid := suid c; rgid := rgid c; egid := egid c; sgid := sgid c; permitted := p; keepcaps := keepcaps c |}.

(** The kernel keeps 64 bits; a number outside them is no capability. *)
Definition has_cap (c : cred) (k : Z) : bool := (0 <=? k) && (k <? 64) && bool_decide (k ∈ permitted c).
Definition net_raw_at_most (c : cred) : Prop := ∀ k, has_cap c k = true → k = CAP_NET_RAW.

(** Who may take on user id [u] or group id [g]: the holder of that id as a real,
    effective or saved one, root, and the holder of the capability. *)
Definition may_uid (c : cred) (u : Z) : bool :=
  (u =? ruid c) || (u =? euid c) || (u =? suid c) || (euid c =? 0) || has_cap c CAP_SETUID.
Definition may_gid (c : cred) (g : Z) : bool :=
  (g =? rgid c) || (g =? egid c) || (g =? sgid c) || (euid c =? 0) || has_cap c CAP_SETGID.
(** [-1] leaves the real or the effective id as it is. *)
Definition unless_minus_one (new old : Z) : Z := if new =? -1 then old else new.

(** A call that succeeded had leave and took effect; one that failed changed nothing. *)
Definition outcome_of (ok : bool) (leave : bool) (before effect after : cred) : Prop :=
  if ok then leave = true ∧ after = effect else after = before.

(** [setuid] and [setgid] set all three ids for a privileged process and the effective one
    otherwise; the law leaves open which.  [seteuid_zero] and [setegid_zero] are what [privileges_dropped] relies on: setting an
    effective id to one of the process's own ids does not fail. *)
Class CredentialLaws (W : Type) `{Sockets W} `{Credentials W} := {
  cred_of : W → cred;
  getuid_law w : getuid w = ruid (cred_of w);
  geteuid_law w : geteuid w = euid (cred_of w);
  getgid_law w : getgid w = rgid (cred_of w);
  getegid_law w : getegid w = egid (cred_of w);
  seteuid_law w u : outcome_of (fst (seteuid w u)) (may_uid (cred_of w) u) (cred_of w)
    (with_uids (ruid (cred_of w)) u (suid (cred_of w)) (cred_of w)) (cred_of (snd (seteuid w u)));
  seteuid_zero w : fst (seteuid w 0) = false → ruid (cred_of w) ≠ 0 ∧ suid (cred_of w) ≠ 0;
  setegid_law w g : outcome_of (fst (setegid w g)) (may_gid (cred_of w) g) (cred_of w)
    (with_gids (rgid (cred_of w)) g (sgid (cred_of w)) (cred_of w)) (cred_of (snd (setegid w g)));
  setegid_zero w : fst (setegid w 0) = false → rgid (cred_of w) ≠ 0 ∧ sgid (cred_of w) ≠ 0;
  setuid_law w u : ∃ r s, (r = u ∨ r = ruid (cred_of w)) ∧ (s = u ∨ s = suid (cred_of w)) ∧
    outcome_of (fst (setuid w u)) (may_uid (cred_of w) u) (cred_of w) (with_uids r u s (cred_of w)) (cred_of (snd (setuid w u)));
  setgid_law w g : ∃ r s, (r = g ∨ r = rgid (cred_of w)) ∧ (s = g ∨ s = sgid (cred_of w)) ∧
    outcome_of (fst (setgid w g)) (may_gid (cred_of w) g) (cred_of w) (with_gids r g s (cred_of w)) (cred_of (snd (setgid w g)));
  setreuid_law w r e :
    let c := cred_of w in let r' := unless_minus_one r (ruid c) in let e' := unless_minus_one e (euid c) in
    outcome_of (fst (setreuid w r e)) (may_uid c r' && may_uid c e') c
      (with_uids r' e' (if negb (r =? -1) || negb (e' =? ruid c) then e' else suid c) c) (cred_of (snd (setreuid w r e)));
  setregid_law w r e :
    let c := cred_of w in let r' := unless_minus_one r (rgid c) in let e' := unless_minus_one e (egid c) in
    outcome_of (fst (setregid w r e)) (may_gid c r' && may_gid c e') c
      (with_gids r' e' (if negb (r =? -1) || negb (e' =? rgid c) then e' else sgid c) c) (cred_of (snd (setregid w r e)));
  setgroups_law w : cred_of (snd (setgroups_none w)) = cred_of w;
  keepcaps_law w b : outcome_of (fst (set_keepcaps w b)) true (cred_of w) (with_keepcaps b (cred_of w))
    (cred_of (snd (set_keepcaps w b)));
  cap_from_text_law w : cred_of (snd (cap_from_text w)) = cred_of w;
  cap_set_law w : outcome_of (fst (cap_set_net_raw w)) (has_cap (cred_of w) CAP_NET_RAW) (cred_of w)
    (with_permitted {[CAP_NET_RAW]} (cred_of w)) (cred_of (snd (cap_set_net_raw w)));
  cap_get_law w : cred_of (snd (cap_get_proc w)) = cred_of w;
  cap_permitted_law w k : cap_permitted w k = has_cap (cred_of w) k;
  cred_socket w f t c p : cred_of (snd (socket w f t c p)) = cred_of w;
  cred_close w fd : cred_of (close w fd) = cred_of w;
  cred_fcntl w fd c : cred_of (snd (fcntl w fd c)) = cred_of w;
  cred_setsockopt w fd o : cred_of (snd (setsockopt w fd o)) = cred_of w;
  cred_set_shared w f n : cred_of (set_shared_fd w f n) = cred_of w }.

(** * Lemmas *)

Module PrivilegesFacts.
Section Laws.
Context {W : Type} `{CredentialLaws W}.

(** Any call a process may make on its own credentials. *)
Inductive call :=
| CSetuid (u : Z) | CSetgid (g : Z) | CSeteuid (u : Z) | CSetegid (g : Z) | CSetreuid (r e : Z) | CSetregid (r e : Z)
| CSetgroups | CKeepcaps (b : bool) | CCapSetNetRaw.
Definition do_call (w : W) (c : call) : W :=
  snd (match c with
       | CSetuid u => setuid w u | CSetgid g => setgid w g | CSeteuid u => seteuid w u | CSetegid g => setegid w g
       | CSetreuid r e => setreuid w r e | CSetregid r e => setregid w r e | CSetgroups => setgroups_none w
       | CKeepcaps b => set_keepcaps w b | CCapSetNetRaw => cap_set_net_raw w
       end).
Definition do_calls (w : W) (l : list call) : W := foldl do_call w l.

(** Root is out of reach, and its group too unless [g], the caller's own, is that one. *)
Record rootless (g : Z) (c : cred) : Prop := {
  rootless_uids : ruid c ≠ 0 ∧ euid c ≠ 0 ∧ suid c ≠ 0;
  rootless_gids : g ≠ 0 → rgid c ≠ 0 ∧ egid c ≠ 0 ∧ sgid c ≠ 0;
  rootless_caps : net_raw_at_most c }.

Lemma rootless_may_uid g c u : rootless g c → may_uid c u = true → u ≠ 0.
Proof.
  intros [(Hr & He & Hs) _ Hc] Hm. unfold may_uid in Hm. intros ->.
  destruct (has_cap c CAP_SETUID) eqn:Ec; [by apply Hc in Ec|]. rewrite !orb_false_r in Hm.
  apply orb_true_iff in Hm as [Hm|Hm%Z.eqb_eq]; [|done]. apply orb_true_iff in Hm as [Hm|Hm%Z.eqb_eq]; [|done].
  apply orb_true_iff in Hm as [Hm%Z.eqb_eq|Hm%Z.eqb_eq]; congruence.
Qed.
Lemma rootless_may_gid g c x : rootless g c → g ≠ 0 → may_gid c x = true → x ≠ 0.
Proof.
  intros [(_ & He & _) Hg Hc] Hne Hm. destruct (Hg Hne) as (Hr & He' & Hs). unfold may_gid in Hm. intros ->.
  destruct (has_cap c CAP_SETGID) eqn:Ec; [by apply Hc in Ec|]. rewrite !orb_false_r in Hm.
  apply orb_true_iff in Hm as [Hm|Hm%Z.eqb_eq]; [|done]. apply orb_true_iff in Hm as [Hm|Hm%Z.eqb_eq]; [|congruence].
  apply orb_true_iff in Hm as [Hm%Z.eqb_eq|Hm%Z.eqb_eq]; congruence.
Qed.

Lemma with_uids_caps r e s c : net_raw_at_most c → net_raw_at_most (with_uids r e s c).
Proof.
  intros Hc k Hk. apply Hc. unfold has_cap in *. cbn [permitted with_uids] in Hk. case_match; [|done].
  by rewrite bool_decide_eq_false_2, andb_false_r in Hk by set_solver.
Qed.
Lemma no_caps c : permitted c = ∅ → net_raw_at_most c.
Proof. intros Hp k Hk. unfold has_cap in Hk. by rewrite Hp, bool_decide_eq_false_2, andb_false_r in Hk by set_solver. Qed.
Lemma only_raw_caps c : net_raw_at_most (with_permitted {[CAP_NET_RAW]} c).
Proof.
  intros k Hk. unfold has_cap in Hk. apply andb_true_iff in Hk as [_ Hk%bool_decide_eq_true]. cbn in Hk. set_solver.
Qed.
Lemma with_uids_rootless g c r e s : rootless g c → r ≠ 0 → e ≠ 0 → s ≠ 0 → rootless g (with_uids r e s c).
Proof.
  intros Hc Hr He Hs. split; [done|apply Hc|]. apply with_uids_caps, Hc.
Qed.
Lemma with_gids_rootless g c r e s : rootless g c → (g ≠ 0 → r ≠ 0 ∧ e ≠ 0 ∧ s ≠ 0) → rootless g (with_gids r e s c).
Proof. intros Hc Hg. split; [apply Hc|done|apply Hc]. Qed.
Lemma outcome_rootless g ok leave c c1 c' :
  outcome_of ok leave c c1 c' → rootless g c → (leave = true → rootless g c1) → rootless g c'.
Proof. unfold outcome_of. destruct ok; [intros [Hl ->]; auto|by intros ->]. Qed.
#[local] Hint Resolve with_uids_rootless with_gids_rootless : core.

Lemma do_call_rootless g w c : rootless g (cred_of w) → rootless g (cred_of (do_call w c)).
Proof.
  intros Hc. pose proof (rootless_uids _ _ Hc) as (Hr & He & Hs). pose proof (rootless_gids _ _ Hc) as Hg.
  unfold do_call. destruct c as [u|x|u|x|r e|r e| |b|].
  - destruct (setuid_law w u) as (r & s & Hr' & Hs' & L). eapply outcome_rootless; [exact L|done|].
    intros Hm%(rootless_may_uid _ _ _ Hc). apply with_uids_rootless; naive_solver.
  - destruct (setgid_law w x) as (r & s & Hr' & Hs' & L). eapply outcome_rootless; [exact L|done|].
    intros Hm. apply with_gids_rootless; [done|]. intros Hne. pose proof (rootless_may_gid _ _ _ Hc Hne Hm). naive_solver.
  - eapply outcome_rootless; [apply seteuid_law|done|]. intros Hm%(rootless_may_uid _ _ _ Hc). auto.
  - eapply outcome_rootless; [apply setegid_law|done|]. intros Hm. apply with_gids_rootless; [done|]. intros Hne.
    pose proof (rootless_may_gid _ _ _ Hc Hne Hm). naive_solver.
  - eapply outcome_rootless; [apply setreuid_law|done|].
    intros [Hm1%(rootless_may_uid _ _ _ Hc) Hm2%(rootless_may_uid _ _ _ Hc)]%andb_true_iff.
    apply with_uids_rootless; [done..|]. by case_match.
  - eapply outcome_rootless; [apply setregid_law|done|]. intros [Hm1 Hm2]%andb_true_iff.
    apply with_gids_rootless; [done|]. intros Hne.
    pose proof (rootless_may_gid _ _ _ Hc Hne Hm1). pose proof (rootless_may_gid _ _ _ Hc Hne Hm2).
    case_match; naive_solver.
  - by rewrite setgroups_law.
  - eapply outcome_rootless; [apply keepcaps_law|done|]. intros _. split; apply Hc.
  - eapply outcome_rootless; [apply cap_set_law|done|]. intros _. split; [apply Hc..|]. apply only_raw_caps.
Qed.
Lemma do_calls_rootless g l : ∀ w, rootless g (cred_of w) → rootless g (cred_of (do_calls w l)).
Proof. induction l as [|c l IH]; intros w Hw; [done|]. apply IH. by apply do_call_rootless. Qed.

(** ** The checks *)

Lemma only_net_raw_spec w : only_net_raw w = true → net_raw_at_most (cred_of w).
Proof.
  unfold only_net_raw. rewrite forallb_forall. intros Hall k Hk. specialize (Hall k). rewrite cap_permitted_law, Hk in Hall.
  cbn [andb] in Hall. rewrite negb_involutive in Hall. apply Z.eqb_eq, Hall. unfold has_cap in Hk. bool_to_prop.
  apply in_map_iff. exists (Z.to_nat k). split; [lia|]. apply in_seq. lia.
Qed.

(** A failed attempt to become root changes nothing. *)
Lemma privileges_dropped_spec lcap w uid gid w' :
  privileges_dropped lcap w uid gid = (true, w') →
  let c := cred_of w in
  cred_of w' = c ∧ uid ≠ 0 ∧ ruid c = uid ∧ euid c = uid ∧ rgid c = gid ∧ egid c = gid ∧ suid c ≠ 0 ∧
  (gid ≠ 0 → sgid c ≠ 0) ∧ (lcap = true → net_raw_at_most c).
Proof.
  unfold privileges_dropped. rewrite getuid_law, geteuid_law, getgid_law, getegid_law. intros E.
  destruct (_ || _) eqn:Eids in E; [done|]. bool_to_prop.
  set (r := if lcap then _ else _) in E.
  assert (Hr : cred_of (snd r) = cred_of w ∧ (fst r = true → lcap = true → net_raw_at_most (cred_of w))).
  { unfold r. destruct lcap; [|done]. pose proof (cap_get_law w) as L. destruct (cap_get_proc w) as [ok w1]. cbn in *.
    split; [done|]. intros [_ Ho]%andb_true_iff _. rewrite <- L. by apply only_net_raw_spec. }
  destruct r as [ok w1]. cbn [fst snd] in Hr. destruct Hr as [Hc1 Hp], ok; [|done]. cbn [negb] in E.
  pose proof (seteuid_law w1 0) as L1. pose proof (seteuid_zero w1) as Z1. destruct (seteuid w1 0) as [[] w2]; [done|].
  cbn [fst snd outcome_of] in *. destruct (Z1 eq_refl) as [_ Hs]. rewrite Hc1 in *.
  destruct (Z.eqb_spec gid 0).
  - injection E as <-. repeat (split; [congruence || done || auto|]). auto.
  - pose proof (setegid_law w2 0) as L2. pose proof (setegid_zero w2) as Z2. destruct (setegid w2 0) as [[] w3]; [done|].
    cbn [fst snd outcome_of] in *. injection E as <-. destruct (Z2 eq_refl) as [_ Hsg]. rewrite L1 in *.
    repeat (split; [congruence || done || auto|]). auto.
Qed.

Lemma or_die_Ok (r : bool * W) w : or_die r = Ok w → fst r = true ∧ w = snd r.
Proof. unfold or_die. destruct r as [[] w1]; cbn; [by intros [= ->]|done]. Qed.

Lemma outcome_Ok ok leave c c1 c' : ok = true → outcome_of ok leave c c1 c' → c' = c1.
Proof. intros ->. by intros [_ ->]. Qed.

(** When CAP_NET_RAW is kept, nothing else is. *)
Lemma drop_root_confined w uid gid w' : drop_root w uid gid = Ok (true, w') → net_raw_at_most (cred_of w').
Proof.
  unfold drop_root. intros Hd.
  apply obind_Ok in Hd as (w1 & _ & Hd). apply obind_Ok in Hd as (w2 & _ & Hd).
  apply obind_Ok in Hd as (w3 & _ & Hd). apply obind_Ok in Hd as (w4 & _ & Hd).
  destruct (cap_from_text w4) as [caps w5]. set (r := if caps then _ else _) in Hd.
  assert (Hr : fst r = true → net_raw_at_most (cred_of (snd r))).
  { unfold r. destruct caps; [|done]. intros Ht. pose proof (cap_set_law w5) as L. apply (outcome_Ok _ _ _ _ _ Ht) in L. rewrite L. apply only_raw_caps. }
  destruct r as [kept w6]. cbn [fst snd] in Hr.
  apply obind_Ok in Hd as (w7 & E7 & Hd). apply obind_Ok in Hd as (w8 & [T8 ->]%or_die_Ok & Hd).
  apply obind_Ok in Hd as (w9 & [T9 ->]%or_die_Ok & Hd). injection Hd as -> <-. injection E7 as <-.
  pose proof (outcome_Ok _ _ _ _ _ T9 (setreuid_law _ uid uid)) as L9. cbn zeta in L9. rewrite L9.
  apply with_uids_caps.
  pose proof (outcome_Ok _ _ _ _ _ T8 (setregid_law _ gid gid)) as L8. cbn zeta in L8. rewrite L8. auto.
Qed.

Lemma open_socket_cred w f t p : cred_of (snd (Ping.icmp_open_socket w f t p)) = cred_of w.
Proof.
  unfold Ping.icmp_open_socket. pose proof (cred_socket w f t true p) as L1. destruct (socket w f t true p) as [[n|e] w1]; [done|].
  case_match; [done|]. pose proof (cred_socket w1 f t false p) as L2. destruct (socket w1 f t false p) as [[n|e'] w2]; cbn in *; [|congruence].
  pose proof (cred_fcntl w2 n (F_SETFD Ping.FD_CLOEXEC)) as L3. destruct (fcntl w2 n _) as [[] w3]; cbn in *; rewrite ?cred_close; congruence.
Qed.
Lemma open_shared_cred w f p : cred_of (snd (Ping.icmp_open_shared w f p)) = cred_of w.
Proof.
  unfold Ping.icmp_open_shared. pose proof (open_socket_cred w f SOCK_RAW p) as L1.
  destruct (Ping.icmp_open_socket w f SOCK_RAW p) as [fd w1]. cbn [snd] in L1. case_match; [done|].
  case_match; [cbn; by rewrite cred_close|]. set (w2 := match f with AF_INET => _ | AF_INET6 => _ end).
  assert (L2 : cred_of w2 = cred_of w1) by (unfold w2; destruct f; [apply cred_setsockopt|done]).
  pose proof (cred_setsockopt w2 fd (SO_RCVBUFFORCE Ping.ICMP_SHARED_RCVBUF)) as L3.
  destruct (setsockopt w2 fd _) as [[] w3]; cbn [snd] in *; rewrite ?cred_setsockopt; congruence.
Qed.
Lemma open_once_cred w f p : cred_of (Ping.open_shared_once w f p) = cred_of w.
Proof.
  unfold Ping.open_shared_once. case_match; [|done]. pose proof (open_shared_cred w f p) as L.
  destruct (Ping.icmp_open_shared w f p) as [fd w1]. cbn in *. by rewrite cred_set_shared.
Qed.
Lemma open_shared_both_cred w : cred_of (snd (Ping.ping_icmp_open_shared w)) = cred_of w.
Proof. unfold Ping.ping_icmp_open_shared. cbn [snd]. by rewrite !open_once_cred. Qed.

(** Without libcap: the kernel has cleared the capabilities with the last root id. *)
Lemma plain_drop_caps w gid uid ready w' :
  euid (cred_of w) = 0 → keepcaps (cred_of w) = false →
  (let '(icmp_ready, w) := Ping.ping_icmp_open_shared w in
   let* w := or_die (setgid w gid) in let* w := or_die (setuid w uid) in Ok (icmp_ready, w)) = Ok (ready, w') →
  ruid (cred_of w') ≠ 0 → euid (cred_of w') ≠ 0 → suid (cred_of w') ≠ 0 → permitted (cred_of w') = ∅.
Proof.
  intros He Hk Hd Hr' He' Hs'. pose proof (open_shared_both_cred w) as L0.
  destruct (Ping.ping_icmp_open_shared w) as [rd w1]. cbn [snd] in L0.
  apply obind_Ok in Hd as (w2 & [T2 ->]%or_die_Ok & Hd). apply obind_Ok in Hd as (w3 & [T3 ->]%or_die_Ok & Hd).
  injection Hd as <- <-. destruct (setgid_law w1 gid) as (rg & sg & _ & _ & L2). apply (outcome_Ok _ _ _ _ _ T2) in L2.
  destruct (setuid_law (snd (setgid w1 gid)) uid) as (ru & su & _ & _ & L3). apply (outcome_Ok _ _ _ _ _ T3) in L3.
  rewrite L3 in *. cbn [with_uids permitted ruid euid suid] in *. rewrite L2, L0. cbn [with_gids ruid euid suid keepcaps].
  rewrite He, Hk, Z.eqb_refl, orb_true_r, (proj2 (Z.eqb_neq ru 0)), (proj2 (Z.eqb_neq uid 0)), (proj2 (Z.eqb_neq su 0)) by done.
  done.
Qed.

Lemma drop_privileges_rootless lcap w lost w' :
  euid (cred_of w) = 0 → ruid (cred_of w) ≠ 0 → keepcaps (cred_of w) = false →
  drop_privileges lcap w = Ok (lost, w') →
  ruid (cred_of w') = ruid (cred_of w) ∧ euid (cred_of w') = ruid (cred_of w) ∧
  rgid (cred_of w') = rgid (cred_of w) ∧ egid (cred_of w') = rgid (cred_of w) ∧ rootless (rgid (cred_of w)) (cred_of w').
Proof.
  intros He Hr Hk Hd. unfold drop_privileges in Hd. rewrite geteuid_law, getuid_law, getgid_law, He in Hd.
  rewrite (proj2 (Z.eqb_neq (ruid _) 0)) in Hd by done. cbn [Z.eqb negb orb] in Hd.
  apply obind_Ok in Hd as ([ready w1] & E1 & Hd).
  destruct (privileges_dropped lcap w1 _ _) as [[] w2] eqn:E2; [|done]. injection Hd as _ <-.
  apply privileges_dropped_spec in E2 as (Hc & _ & Hi1 & Hi2 & Hi3 & Hi4 & Hi5 & Hi6 & Hi7). rewrite Hc.
  do 4 (split; [done|]). split; [by rewrite Hi1, Hi2|rewrite Hi3, Hi4; auto|].
  destruct lcap; [by apply Hi7|]. apply no_caps. apply (plain_drop_caps _ _ _ _ _ He Hk E1); [congruence|congruence|done].
Qed.

Lemma drop_privileges_confined w lost w' :
  euid (cred_of w) = 0 → ruid (cred_of w) = 0 → drop_privileges true w = Ok (lost, w') →
  net_raw_at_most (cred_of w').
Proof.
  intros He Hr Hd. unfold drop_privileges in Hd. rewrite geteuid_law, getuid_law, getgid_law, He, Hr in Hd.
  cbn [Z.eqb negb orb andb] in Hd. apply obind_Ok in Hd as ([kept w1] & E1 & Hd). destruct kept; [|done].
  injection Hd as _ <-. by eapply drop_root_confined.
Qed.

End Laws.
End PrivilegesFacts.
Import PrivilegesFacts.

(** * A kernel

    The simulated network of [PingFacts] beside a set of credentials, on which every call
    that is allowed succeeds. *)

Module SimKernel.
Import SimNet.

Definition kernel : Type := sim * cred.
Definition lift {A} (f : sim → A * sim) (w : kernel) : A * kernel := let '(a, s) := f (fst w) in (a, (s, snd w)).
Definition lift_ (f : sim → sim) (w : kernel) : kernel := (f (fst w), snd w).

#[global] Instance kernel_sockets : Sockets kernel := {
  socket w f t c p := lift (fun s => socket s f t c p) w;
  fcntl w fd c := lift (fun s => fcntl s fd c) w;
  setsockopt w fd o := lift (fun s => setsockopt s fd o) w;
  getsockopt_error w fd := lift (fun s => getsockopt_error s fd) w;
  connect w fd a := lift (fun s => connect s fd a) w;
  send w fd b := lift (fun s => send s fd b) w;
  sendto w fd b a := lift (fun s => sendto s fd b a) w;
  recv w fd := lift (fun s => recv s fd) w;
  recvfrom w fd := lift (fun s => recvfrom s fd) w;
  select w fd b tv := lift (fun s => select s fd b tv) w;
  close w fd := lift_ (fun s => close s fd) w;
  monotonic_time w := lift monotonic_time w;
  get_time_as_double w := lift get_time_as_double w;
  usleep w n := lift_ (fun s => usleep s n) w;
  getaddrinfo w a := lift (fun s => getaddrinfo s a) w;
  getaddrinfo6 w a := lift (fun s => getaddrinfo6 s a) w;
  getifaddrs w := lift getifaddrs w;
  if_nametoindex w n := lift (fun s => if_nametoindex s n) w;
  getpid w := getpid (fst w);
  seq_lock w := lift_ seq_lock w;
  seq_unlock w := lift_ seq_unlock w;
  get_seq w f := get_seq (fst w) f;
  put_seq w f n := lift_ (fun s => put_seq s f n) w;
  shared_fd w f := shared_fd (fst w) f;
  set_shared_fd w f n := lift_ (fun s => set_shared_fd s f n) w;
  shared_register w r := lift_ (fun s => shared_register s r) w;
  shared_unregister w r := lift_ (fun s => shared_unregister s r) w;
  shared_await w r d := lift (fun s => shared_await s r d) w }.

Definition attempt (leave : bool) (effect : cred → cred) (w : kernel) : bool * kernel :=
  if leave then (true, (fst w, effect (snd w))) else (false, w).

#[global] Instance kernel_credentials : Credentials kernel := {
  getuid w := ruid (snd w); geteuid w := euid (snd w); getgid w := rgid (snd w); getegid w := egid (snd w);
  setuid w u := attempt (may_uid (snd w) u)
    (fun c => if euid c =? 0 then with_uids u u u c else with_uids (ruid c) u (suid c) c) w;
  setgid w g := attempt (may_gid (snd w) g)
    (fun c => if euid c =? 0 then with_gids g g g c else with_gids (rgid c) g (sgid c) c) w;
  seteuid w u := attempt (may_uid (snd w) u) (fun c => with_uids (ruid c) u (suid c) c) w;
  setegid w g := attempt (may_gid (snd w) g) (fun c => with_gids (rgid c) g (sgid c) c) w;
  setreuid w r e := let c := snd w in let r' := unless_minus_one r (ruid c) in let e' := unless_minus_one e (euid c) in
    attempt (may_uid c r' && may_uid c e')
      (with_uids r' e' (if negb (r =? -1) || negb (e' =? ruid c) then e' else suid c)) w;
  setregid w r e := let c := snd w in let r' := unless_minus_one r (rgid c) in let e' := unless_minus_one e (egid c) in
    attempt (may_gid c r' && may_gid c e')
      (with_gids r' e' (if negb (r =? -1) || negb (e' =? rgid c) then e' else sgid c)) w;
  setgroups_none w := (true, w);
  set_keepcaps w b := attempt true (with_keepcaps b) w;
  cap_from_text w := (true, w);
  cap_set_net_raw w := attempt (has_cap (snd w) CAP_NET_RAW) (with_permitted {[CAP_NET_RAW]}) w;
  cap_get_proc w := (true, w);
  cap_permitted w k := has_cap (snd w) k;
  cap_effective w k := Some (has_cap (snd w) k) }.

Lemma attempt_outcome leave effect (w : kernel) :
  outcome_of (fst (attempt leave effect w)) leave (snd w) (effect (snd w)) (snd (snd (attempt leave effect w))).
Proof. unfold attempt. by destruct leave. Qed.

#[global] Program Instance kernel_laws : CredentialLaws kernel := { cred_of := snd }.
Next Obligation. done. Qed.
Next Obligation. done. Qed.
Next Obligation. done. Qed.
Next Obligation. done. Qed.
Next Obligation. intros w u. exact (attempt_outcome (may_uid (snd w) u) (fun c => with_uids (ruid c) u (suid c) c) w). Qed.
Next Obligation.
  intros w. cbn. unfold attempt. destruct (may_uid (snd w) 0) eqn:E; [done|]. intros _. unfold may_uid in E. bool_to_prop. lia.
Qed.
Next Obligation. intros w g. exact (attempt_outcome (may_gid (snd w) g) (fun c => with_gids (rgid c) g (sgid c) c) w). Qed.
Next Obligation.
  intros w. cbn. unfold attempt. destruct (may_gid (snd w) 0) eqn:E; [done|]. intros _. unfold may_gid in E. bool_to_prop. lia.
Qed.
Next Obligation.
  intros w u. cbn. destruct (euid (snd w) =? 0) eqn:E; [exists u, u|exists (ruid (snd w)), (suid (snd w))];
    (split; [auto|]); (split; [auto|]); unfold attempt; destruct (may_uid (snd w) u); cbn; rewrite ?E; done.
Qed.
Next Obligation.
  intros w g. cbn. destruct (euid (snd w) =? 0) eqn:E; [exists g, g|exists (rgid (snd w)), (sgid (snd w))];
    (split; [auto|]); (split; [auto|]); unfold attempt; destruct (may_gid (snd w) g); cbn; rewrite ?E; done.
Qed.
Next Obligation. intros w r e. apply attempt_outcome. Qed.
Next Obligation. intros w r e. apply attempt_outcome. Qed.
Next Obligation. done. Qed.
Next Obligation. intros w b. apply (attempt_outcome true). Qed.
Next Obligation. done. Qed.
Next Obligation. intros w. apply (attempt_outcome (has_cap (snd w) CAP_NET_RAW)). Qed.
Next Obligation. done. Qed.
Next Obligation. done. Qed.
Next Obligation. intros w f t c p. cbn. unfold lift. by destruct (decide _). Qed.
Next Obligation. done. Qed.
Next Obligation. done. Qed.
Next Obligation. done. Qed.
Next Obligation. done. Qed.

(** User 1000 starts the setuid root program. *)
Definition setuid_start : kernel := (sim_world, {|
  ruid := 1000; euid := 0; suid := 0; rgid := 100; egid := 100; sgid := 100;
  permitted := {[CAP_SETGID; CAP_SETUID; CAP_NET_RAW]}; keepcaps := false |}).

End SimKernel.
Import SimKernel.

(** * Properties *)

(** C16: spine never runs on as setuid root.  When a process that was started setuid root
    by an ordinary user gets past [drop_privileges], with libcap or without, its real and
    effective ids are that user's, no capability but CAP_NET_RAW is left, and no sequence
    of calls on its credentials, whichever of them fail, brings back root or, for a user
    who is not in it, the root group.  A process of root itself, with libcap, keeps no
    capability but CAP_NET_RAW. *)
Theorem root_given_up {W} `{CredentialLaws W} (lcap : bool) (w : W) lost w'
  (Heuid : euid (cred_of w) = 0) (Hkeep : keepcaps (cred_of w) = false)
  (Hrun : drop_privileges lcap w = Ok (lost, w')) :
  (ruid (cred_of w) ≠ 0 →
   ruid (cred_of w') = ruid (cred_of w) ∧ euid (cred_of w') = ruid (cred_of w) ∧
   rgid (cred_of w') = rgid (cred_of w) ∧ egid (cred_of w') = rgid (cred_of w) ∧
   ∀ calls, rootless (rgid (cred_of w)) (cred_of (do_calls w' calls))) ∧
  (lcap = true → net_raw_at_most (cred_of w')).
Proof.
  split.
  - intros Hruid. destruct (drop_privileges_rootless lcap w lost w' Heuid Hruid Hkeep Hrun) as (Hi1 & Hi2 & Hi3 & Hi4 & Hr).
    do 4 (split; [done|]). intros calls. by apply do_calls_rootless.
  - intros ->. destruct (decide (ruid (cred_of w) = 0)) as [Hz|Hz]; [by eapply drop_privileges_confined|].
    by destruct (drop_privileges_rootless true w lost w' Heuid Hz Hkeep Hrun) as (_ & _ & _ & _ & []).
Qed.

Lemma root_given_up_witness :
  match drop_privileges true setuid_start with
  | Ok (lost, w') => lost = false ∧ euid (cred_of w') = 1000 ∧
      rootless 100 (cred_of (do_calls w' [CKeepcaps true; CSetreuid (-1) 0; CSeteuid 0; CSetegid 0]))
  | Died _ => False
  end.
Proof.
  destruct (drop_privileges true setuid_start) as [[lost w']|] eqn:E; [|by vm_compute in E].
  assert (Hl : lost = false) by (vm_compute in E; by injection E as <- _).
  destruct (proj1 (root_given_up true setuid_start lost w' ltac:(by vm_compute) ltac:(by vm_compute) E)) as (_ & He & _ & _ & Hc); [done|].
  split; [done|]. split; [exact He|]. exact (Hc [CKeepcaps true; CSetreuid (-1) 0; CSeteuid 0; CSetegid 0]).
Defined.
