(* ===== verification/Sql.v ===== *)
(** SQL statements over one connection: src/src/database/sql.c and
    src/src/database/connection.c.

    The MySQL client library is an interface ([Class MySQL]) over a world [W] that its
    calls read and change; the operations here are its clients.  Log output and the
    text of [printf] messages are not modelled. *)

From S2P Require Import Prelude CLib Buffer Result Settings.

(** A result set kept by the client. *)
Record mysql_res := { res_fields : Z; res_rows : list row_t }.

(** A connection handle: a slot that owns one MYSQL structure. *)
Abbreviation conn := nat.

Record connect_args := {
  ca_hostname : option cstr; ca_user : cstr; ca_password : cstr; ca_database : cstr; ca_port : Z; ca_socket : option cstr }.

(** The options of a connection, and which of them the client library has. *)
Inductive mysql_option :=
| MYSQL_OPT_READ_TIMEOUT (seconds : Z) | MYSQL_OPT_WRITE_TIMEOUT (seconds : Z) | MYSQL_OPT_CONNECT_TIMEOUT (seconds : Z)
| MYSQL_OPT_RETRY_COUNT (tries : Z) | MYSQL_OPT_SSL_VERIFY_SERVER_CERT (enforce : bool)
| MYSQL_OPT_SSL_KEY (path : cstr) | MYSQL_OPT_SSL_CA (path : cstr) | MYSQL_OPT_SSL_CERT (path : cstr).
Inductive mysql_feature := HAS_MYSQL_OPT_RETRY_COUNT | HAS_MYSQL_OPT_SSL_KEY | HAS_MYSQL_OPT_SSL_VERIFY_SERVER_CERT.
#[global] Instance mysql_feature_eq_dec : EqDecision mysql_feature.
Proof. solve_decision. Defined.

(** What the code uses of the client library.  [mysql_query] and
    [mysql_real_connect] return 0 or the error that [mysql_errno] reports next. *)
Class MySQL (W : Type) := {
  mysql_query : W → conn → cstr → Z * W;
  mysql_store_result : W → conn → option mysql_res * W;
  mysql_thread_id : W → conn → Z;
  mysql_ping : W → conn → Z * W;
  mysql_close : W → conn → W;
  mysql_init : W → conn → bool * W;
  mysql_options : W → conn → mysql_option → Z * W;
  mysql_real_connect : W → conn → connect_args → Z * W;
  mysql_real_escape_string : W → conn → cstr → cstr;
  errno_is_EINTR : W → bool;
  stat_socket : W → cstr → option bool;   (* [stat]: None if it fails, else S_ISSOCK *)
  sleep_usec : W → Z → W }.

(** * Connecting *)

Module Connection.

Record db_address_t := { ad_hostname : option cstr; ad_socket : option cstr }.

Definition db_address_init {W} `{MySQL W} (w : W) (value : cstr) (parse_socket : bool) : db_address_t :=
  if negb parse_socket then {| ad_hostname := Some value; ad_socket := None |}
  else match stat_socket w value with
       | Some true => {| ad_hostname := None; ad_socket := Some value |}
       | Some false => {| ad_hostname := Some value; ad_socket := None |}
       | None =>
           match strchr value ":" with
           | Some i => {| ad_hostname := Some (take i value); ad_socket := Some (drop (S i) value) |}
           | None => {| ad_hostname := Some value; ad_socket := None |}
           end
       end.

Definition db_set_option {W} `{MySQL W} (w : W) (mysql : conn) (opt : mysql_option) : outcome W :=
  let '(rc, w) := mysql_options w mysql opt in if rc =? 0 then Ok w else Died EXIT_FAILURE.

Fixpoint db_set_options {W} `{MySQL W} (w : W) (mysql : conn) (opts : list mysql_option) : outcome W :=
  match opts with
  | [] => Ok w
  | o :: opts' => let* w := db_set_option w mysql o in db_set_options w mysql opts'
  end.

(** [while (tries > 0)]: every failed attempt spends a try, a fatal error spends all. *)
Fixpoint connect_loop {W} `{MySQL W} (tries : nat) (w : W) (mysql : conn) (args : connect_args) : bool * W :=
  match tries with
  | O => (false, w)
  | S tries' =>
      let '(error, w) := mysql_real_connect w mysql args in
      if error =? 0 then (true, w)
      else if error =? 2002 then connect_loop tries' (sleep_usec w 1000000) mysql args
      else if negb (error =? 1049) && negb (error =? 2005) && negb (error =? 1045)
           then connect_loop tries' (sleep_usec w 50000) mysql args
      else (false, w)
  end.

Definition has_feature (f : mysql_feature) (ssl : list mysql_feature) : bool := bool_decide (f ∈ ssl).

(** The options [db_set_ssl_options] sets, in order. *)
Definition db_set_ssl_options (set : config_t) (ssl : list mysql_feature) (type : Z) : list mysql_option :=
  let ssl_enabled := if type =? LOCAL then da_ssl (c_database set) else da_ssl (c_remote_database set) in
  let d := if type =? REMOTE then c_remote_database set else c_database set in
  (if has_feature HAS_MYSQL_OPT_SSL_VERIFY_SERVER_CERT ssl && (ssl_enabled =? 0) then [MYSQL_OPT_SSL_VERIFY_SERVER_CERT false] else []) ++
  (if slen (da_ssl_key d) =? 0 then [] else [MYSQL_OPT_SSL_KEY (da_ssl_key d)]) ++
  (if slen (da_ssl_ca d) =? 0 then [] else [MYSQL_OPT_SSL_CA (da_ssl_ca d)]) ++
  (if slen (da_ssl_cert d) =? 0 then [] else [MYSQL_OPT_SSL_CERT (da_ssl_cert d)]).

Definition connection_options (set : config_t) (ssl : list mysql_feature) (type : Z) : list mysql_option :=
  [MYSQL_OPT_READ_TIMEOUT 30; MYSQL_OPT_WRITE_TIMEOUT 30; MYSQL_OPT_CONNECT_TIMEOUT 5] ++
  (if has_feature HAS_MYSQL_OPT_RETRY_COUNT ssl then [MYSQL_OPT_RETRY_COUNT 2] else []) ++
  (if has_feature HAS_MYSQL_OPT_SSL_KEY ssl then db_set_ssl_options set ssl type else []).

(** [ssl] are the features of the client library. *)
Definition db_connect {W} `{MySQL W} (set : config_t) (ssl : list mysql_feature) (w : W) (type : Z) (mysql : conn) : outcome (bool * W) :=
  let local_address := (poller_id set <=? 1) || (type =? LOCAL) in
  let address := db_address_init w (if local_address then db_host set else remote_host set) local_address in
  let '(ok, w) := mysql_init w mysql in
  if negb ok then Ok (false, w) else
  let* w := db_set_options w mysql (connection_options set ssl type) in
  let d := if 1 <? poller_id set then (if type =? LOCAL then c_database set else c_remote_database set) else c_database set in
  Ok (connect_loop 2 w mysql {| ca_hostname := ad_hostname address; ca_user := da_user d; ca_password := da_password d;
                                ca_database := da_database d; ca_port := da_port d; ca_socket := ad_socket address |}).

End Connection.

(** * Statements *)

Module Sql.
Import Connection.

(** [%lu] in ["KILL %lu;"]. *)
Definition kill_query (thread : Z) : cstr := $"KILL " ++ udec thread ++ $";".

Definition session_modes : list cstr :=
  [$"NO_ZERO_DATE"; $"NO_ZERO_IN_DATE"; $"ONLY_FULL_GROUP_BY"; $"NO_AUTO_VALUE_ON_ZERO";
   $"TRADITIONAL"; $"STRICT_ALL_TABLES"; $"STRICT_TRANS_TABLES"].
Definition session_mode_query (m : cstr) : cstr :=
  snprintf_s BUFSIZE ($"SET SESSION sql_mode = (SELECT REPLACE(@@sql_mode,'" ++ m ++ $"', ''))").

Fixpoint set_modes {W} `{MySQL W} (w : W) (mysql : conn) (ms : list cstr) : bool * W :=
  match ms with
  | [] => (true, w)
  | m :: ms' => let '(rc, w) := mysql_query w mysql (session_mode_query m) in
                if rc =? 0 then set_modes w mysql ms' else (false, w)
  end.
Definition db_set_session_mode {W} `{MySQL W} (w : W) (mysql : conn) : bool * W := set_modes w mysql session_modes.

Section Statements.
Context {W : Type} `{MySQL W} (set : config_t) (ssl : list mysql_feature).

(** 1 after a reconnect, 0 when the session was alive, -1 when the server is gone. *)
Definition db_reconnect (w : W) (mysql : conn) (type : Z) : outcome (Z * W) :=
  let thread := mysql_thread_id w mysql in
  let '(ping_status, w) := mysql_ping w mysql in
  if negb (mysql_thread_id w mysql =? thread) then
    let '(_, w) := mysql_query w mysql (snprintf_s 100 (kill_query thread)) in
    let '(ok, w) := db_set_session_mode w mysql in
    if negb ok then Ok (-1, w) else Ok (1, sleep_usec w 1000000)
  else if ping_status =? 0 then Ok (0, w)
  else
    let w := mysql_close w mysql in
    let* (connected, w) := db_connect set ssl w type mysql in
    if connected && (0 <? mysql_thread_id w mysql) then
      let '(ok, w) := db_set_session_mode w mysql in
      Ok ((if ok : bool then 1 else -1), w)
    else Ok (-1, w).

(** Whether to retry, and the new error count. *)
Definition retry_disconnected_query (w : W) (mysql : conn) (type error_count : Z) : outcome (bool * Z * W) :=
  let error_count := error_count + 1 in
  if 30 <? error_count then Ok (false, error_count, w)
  else if errno_is_EINTR w && (error_count <=? 3) then Ok (true, error_count, sleep_usec w 50000)
  else let* (r, w) := db_reconnect w mysql type in Ok (0 <=? r, error_count, w).

(** The statement loop that [db_insert] and [db_query] share: whether the statement
    succeeded.  Every round but the last raises [error_count], and a count above 30
    ends it, so 31 rounds are enough ([None] would mean the fuel ran out). *)
Fixpoint statement_loop (fuel : nat) (w : W) (mysql : conn) (type : Z) (query : cstr) (error_count : Z) :
    outcome (option bool * W) :=
  match fuel with
  | O => Ok (None, w)
  | S f =>
      let '(error, w) := mysql_query w mysql query in
      if error =? 0 then Ok (Some true, w)
      else if (error =? 2013) || (error =? 2006) then
        let* (again, error_count, w) := retry_disconnected_query w mysql type error_count in
        if again : bool then statement_loop f w mysql type query error_count else Ok (Some false, w)
      else if (error =? 1213) || (error =? 1205) then
        let w := sleep_usec w 50000 in
        let error_count := error_count + 1 in
        if 30 <? error_count then Ok (Some false, w) else statement_loop f w mysql type query error_count
      else Ok (Some false, w)
  end.
Definition statement_fuel : nat := 31.

Definition db_insert (w : W) (mysql : conn) (type : Z) (query : cstr) : outcome (bool * W) :=
  if SQL_readonly set then Ok (true, w)
  else let* (r, w) := statement_loop statement_fuel w mysql type query 0 in Ok (default false r, w).

Definition db_query (w : W) (mysql : conn) (type : Z) (query : cstr) : outcome (option mysql_res * W) :=
  let* (r, w) := statement_loop statement_fuel w mysql type query 0 in
  if default false r then Ok (mysql_store_result w mysql) else Ok (None, w).

(** 1, 0, or -1 when the probe failed. *)
Definition db_column_exists (w : W) (mysql : conn) (type : Z) (table col : cstr) : outcome (Z * W) :=
  let query_frag := snprintf_s BUFSIZE ($"SHOW COLUMNS FROM `" ++ table ++ $"` LIKE '" ++ col ++ $"'") in
  let* (result, w) := db_query w mysql type query_frag in
  match result with
  | None => Ok (-1, w)
  | Some r => Ok ((match res_rows r with [] => 0 | _ => 1 end), w)
  end.

End Statements.

(** [db_escape]: the new content of the destination, of [max_size] bytes. *)
Definition db_escape (escape : cstr → cstr) (output : cstr) (max_size : Z) (input : option cstr) : cstr :=
  match input with
  | None => output
  | Some input =>
      if max_size <=? 1 then (if max_size =? 1 then [] else output)
      else
        let max_input := (max_size - 1) / 2 in
        let input_len := if max_input <? slen input then max_input else slen input in
        escape (take (Z.to_nat input_len) input)
  end.

(** [HOSTID_DEFINED]. *)
Definition append_hostrange (set : config_t) (capacity : Z) (colname : cstr) : outcome cstr :=
  if (0 <=? start_host_id set) && (0 <=? end_host_id set) then
    spine_snprintf capacity ($" AND " ++ colname ++ $" BETWEEN " ++ sdec (start_host_id set) ++ $" AND " ++ sdec (end_host_id set))
  else Ok [].

End Sql.

(** * Facts *)

Module SqlFacts.
Import Sql.

Section Loop.
Context {W : Type} `{MySQL W} (set : config_t) (ssl : list mysql_feature).

Lemma retry_count w mysql type ec again ec' w' :
  retry_disconnected_query set ssl w mysql type ec = Ok (again, ec', w') →
  ec' = ec + 1 ∧ (again = true → ec' ≤ 30).
Proof.
  unfold retry_disconnected_query. destruct (Z.ltb_spec 30 (ec + 1)) as [|Hle].
  - intros E. injection E as <- <- <-. done.
  - destruct (errno_is_EINTR w && _).
    + intros E. injection E as <- <- <-. lia.
    + destruct (db_reconnect _ _ _ _ _) as [[r w1]|s]; cbn; [|done]. intros E. injection E as <- <- <-. lia.
Qed.

(** The loop ends with a verdict within [31 - error_count] rounds, and more fuel does
    not change it; a success means that the last statement executed succeeded. *)
Lemma statement_loop_verdict mysql type query : ∀ (f : nat) w ec,
  0 ≤ ec ≤ 30 → 31 - ec ≤ Z.of_nat f →
  (∃ s, ∀ n, statement_loop set ssl (f + n) w mysql type query ec = Died s) ∨
  ∃ b w', (∀ n, statement_loop set ssl (f + n) w mysql type query ec = Ok (Some b, w')) ∧
    (b = true → ∃ w0, mysql_query w0 mysql query = (0, w')).
Proof.
  induction f as [|f IH]; intros w ec Hec Hf; [lia|]. cbn [statement_loop plus].
  destruct (mysql_query w mysql query) as [error w1] eqn:Eq.
  destruct (Z.eqb_spec error 0) as [->|]; [right; exists true, w1; eauto|].
  destruct ((error =? 2013) || (error =? 2006)).
  - destruct (retry_disconnected_query set ssl w1 mysql type ec) as [[[again ec'] w2]|s] eqn:Er; cbn; [|left; by exists s].
    destruct (retry_count _ _ _ _ _ _ _ Er) as [-> Hle]. destruct again; [|right; exists false, w2; split; [done|done]].
    apply IH; [specialize (Hle eq_refl)|]; lia.
  - destruct ((error =? 1213) || (error =? 1205)); [|right; exists false, w1; done].
    destruct (Z.ltb_spec 30 (ec + 1)); [right; exists false, (sleep_usec w1 50000); done|]. apply IH; lia.
Qed.

End Loop.

Lemma db_escape_length escape output max_size input :
  (∀ s, slen (escape s) ≤ 2 * slen s) → 1 < max_size → slen (db_escape escape output max_size (Some input)) < max_size.
Proof.
  intros He Hm. unfold db_escape. rewrite (proj2 (Z.leb_gt _ _)) by lia.
  assert (2 * ((max_size - 1) / 2) ≤ max_size - 1) by (apply Z.mul_div_le; lia).
  assert (0 ≤ (max_size - 1) / 2) by (apply Z.div_pos; lia).
  destruct (Z.ltb_spec ((max_size - 1) / 2) (slen input));
    (eapply Z.le_lt_trans; [apply He|]); rewrite slen_take; lia.
Qed.

(** A text of at most half the destination is escaped whole. *)
Lemma db_escape_whole escape output max_size input :
  1 < max_size → 2 * slen input ≤ max_size - 1 → db_escape escape output max_size (Some input) = escape input.
Proof.
  intros Hm Hl. unfold db_escape. rewrite (proj2 (Z.leb_gt _ _)) by lia.
  assert (slen input ≤ (max_size - 1) / 2) by (apply Z.div_le_lower_bound; lia).
  rewrite (proj2 (Z.ltb_ge _ _)) by lia. f_equal. apply take_ge. unfold slen. lia.
Qed.


(** ** The calls of a connection *)

Inductive db_call := CInit | COption (o : mysql_option) | CConnect (a : connect_args).
Definition traced_client {W} (E : MySQL W) : MySQL (W * list db_call) := {|
  mysql_query '(w, T) c q := let '(r, w) := mysql_query w c q in (r, (w, T));
  mysql_store_result '(w, T) c := let '(r, w) := mysql_store_result w c in (r, (w, T));
  mysql_thread_id '(w, T) c := mysql_thread_id w c;
  mysql_ping '(w, T) c := let '(r, w) := mysql_ping w c in (r, (w, T));
  mysql_close '(w, T) c := (mysql_close w c, T);
  mysql_init '(w, T) c := let '(r, w) := mysql_init w c in (r, (w, T ++ [CInit]));
  mysql_options '(w, T) c o := let '(r, w) := mysql_options w c o in (r, (w, T ++ [COption o]));
  mysql_real_connect '(w, T) c a := let '(r, w) := mysql_real_connect w c a in (r, (w, T ++ [CConnect a]));
  mysql_real_escape_string '(w, T) c t := mysql_real_escape_string w c t;
  errno_is_EINTR '(w, T) := errno_is_EINTR w; stat_socket '(w, T) p := stat_socket w p; sleep_usec '(w, T) n := (sleep_usec w n, T) |}.

Section Traced.
Context {W : Type} (E : MySQL W).
Abbreviation TE := (traced_client E).

Lemma set_options_traced mysql opts : ∀ w T x, Connection.db_set_options (H := TE) (w, T) mysql opts = Ok x → x.2 = T ++ map COption opts.
Proof.
  induction opts as [|o opts IH]; intros w T x Hx; [injection Hx as <-; by rewrite app_nil_r|]. cbn [Connection.db_set_options] in Hx.
  unfold Connection.db_set_option in Hx. cbn [mysql_options traced_client] in Hx. destruct (mysql_options w mysql o) as [rc w1].
  destruct (rc =? 0); [|done]. cbn [obind] in Hx. rewrite (IH _ _ _ Hx). by rewrite <- app_assoc.
Qed.
Lemma connect_loop_traced mysql a n : ∀ w T ok x, Connection.connect_loop (H := TE) n (w, T) mysql a = (ok, x) →
  ∃ k, (k ≤ n)%nat ∧ (ok = true → 0 < k)%nat ∧ x.2 = T ++ replicate k (CConnect a).
Proof.
  induction n as [|n IH]; intros w T ok x Hx; cbn [Connection.connect_loop] in Hx; [injection Hx as <- <-; exists 0%nat; cbn; rewrite app_nil_r; by split_and!|].
  cbn [mysql_real_connect traced_client] in Hx. destruct (mysql_real_connect w mysql a) as [e w1].
  assert (Hone : ∃ k, (k ≤ S n)%nat ∧ (ok = true → 0 < k)%nat ∧ T ++ [CConnect a] = T ++ replicate k (CConnect a)) by (exists 1%nat; split; [lia|auto]).
  assert (Hmore : ∀ w', Connection.connect_loop (H := TE) n (w', T ++ [CConnect a]) mysql a = (ok, x) →
    ∃ k, (k ≤ S n)%nat ∧ (ok = true → 0 < k)%nat ∧ x.2 = T ++ replicate k (CConnect a)).
  { intros w' (k & Hk & _ & ->)%IH. exists (S k). split; [lia|]. split; [lia|]. by rewrite <- app_assoc. }
  destruct (e =? 0); [by injection Hx as <- <-|]. destruct (e =? 2002); [by apply Hmore in Hx|].
  destruct (_ && _); [by apply Hmore in Hx|by injection Hx as <- <-].
Qed.

(** A connection is opened as configured.  Whatever the client library answers, the
    timeouts and the TLS options of this database are set before the first attempt, there
    are at most two attempts, and all of them carry the user, password, name and port of
    the local database - of the remote one exactly for a remote connection of a remote
    poller. *)
Theorem connection_as_configured (set : config_t) (ssl : list mysql_feature) (w w' : W) (type : Z) (mysql : conn) (ok : bool) (T : list db_call)
  (Hrun : Connection.db_connect (H := TE) set ssl (w, []) type mysql = Ok (ok, (w', T))) :
  (ok = false ∧ T = [CInit]) ∨
  ∃ n a, T = CInit :: map COption (Connection.connection_options set ssl type) ++ replicate n (CConnect a) ∧ (n ≤ 2)%nat ∧ (ok = true → 0 < n)%nat ∧
    let d := if (1 <? poller_id set) && negb (type =? LOCAL) then c_remote_database set else c_database set in
    (ca_user a, ca_password a, ca_database a, ca_port a) = (da_user d, da_password d, da_database d, da_port d).
Proof.
  unfold Connection.db_connect in Hrun. cbn [mysql_init traced_client] in Hrun. destruct (mysql_init w mysql) as [started w1].
  destruct started; cbn [negb] in Hrun; [|injection Hrun as <- <- <-; by left]. right.
  apply obind_Ok in Hrun as ([w2 T2] & E2 & Hrun). apply set_options_traced in E2. cbn [snd app] in E2.
  assert (Hinj : ∀ A (x y : A), Ok x = Ok y → x = y) by (by intros ? ? ? [=]). apply Hinj in Hrun.
  destruct (connect_loop_traced _ _ _ _ _ _ _ Hrun) as (n & Hn & Hok & HT). cbn [snd] in HT. subst T2 T. eexists n, _. split_and!; [done|done|done|].
  cbv zeta. cbn [ca_user ca_password ca_database ca_port]. destruct (1 <? poller_id set), (type =? LOCAL); done.
Qed.
End Traced.

End SqlFacts.

(** * Properties *)

(** C37: a statement is retried at most thirty times and success is never reported
    without execution.  For any client library: when [db_insert] returns, its verdict
    is the one a loop with unlimited retries allowed would give (31 rounds always
    suffice); TRUE means either a read-only run or that the last thing done on the
    connection was the statement, executed without error. *)
Theorem db_insert_executes {W} `{MySQL W} (set : config_t) (ssl : list mysql_feature) (w w' : W) (mysql : conn)
  (type : Z) (query : cstr) (b : bool) (Hrun : Sql.db_insert set ssl w mysql type query = Ok (b, w')) :
  if SQL_readonly set then b = true ∧ w' = w
  else (∀ n, Sql.statement_loop set ssl (Sql.statement_fuel + n) w mysql type query 0 = Ok (Some b, w')) ∧
       (b = true → ∃ w0, mysql_query w0 mysql query = (0, w')).
Proof.
  unfold Sql.db_insert in Hrun. destruct (SQL_readonly set); [by injection Hrun as <- <-|].
  destruct (SqlFacts.statement_loop_verdict set ssl mysql type query Sql.statement_fuel w 0)
    as [[s Hs]|(b' & w1 & Hv & Hb)]; [lia|unfold Sql.statement_fuel; lia|..].
  - specialize (Hs 0%nat). rewrite Nat.add_0_r in Hs. by rewrite Hs in Hrun.
  - pose proof (Hv 0%nat) as H0. rewrite Nat.add_0_r in H0. rewrite H0 in Hrun. cbn in Hrun.
    injection Hrun as <- <-. done.
Qed.

(** A client library whose server reports a deadlock for the first [n] statements;
    the world counts the statements executed. *)
Definition deadlocking (n : Z) : MySQL Z := {|
  mysql_query w _ _ := (if w <? n then 1213 else 0, w + 1);
  mysql_store_result w _ := (None, w);
  mysql_thread_id _ _ := 1; mysql_ping w _ := (0, w); mysql_close w _ := w; mysql_init w _ := (true, w);
  mysql_options w _ _ := (0, w); mysql_real_connect w _ _ := (0, w); mysql_real_escape_string _ _ s := s;
  errno_is_EINTR _ := false; stat_socket _ _ := None; sleep_usec w _ := w |}.

Definition sample_config : config_t := example_config 1 false.

Lemma db_insert_executes_witness :
  ∃ w0 : Z, mysql_query (MySQL := deadlocking 30) w0 0%nat ($"UPDATE host SET status='3'") = (0, 31).
Proof.
  refine (proj2 (@db_insert_executes Z (deadlocking 30) sample_config [] 0 31 0%nat LOCAL ($"UPDATE host SET status='3'") true _) eq_refl).
  by vm_compute.
Defined.
