(* ===== verification/Pool.v ===== *)
(** The connection pools (src/src/database/pool.c) and the counting permits of
    src/src/platform/thread.c: shared resources that every worker takes and returns
    under a lock.  Each operation is one critical section. *)

From S2P Require Import Prelude CLib Buffer Result Settings Sql.

Module Pool.
Import Connection.

(** The two arrays of [pool_t]; an entry is its [free] flag, its position its id. *)
Record pools := { db_pool_local : list bool; db_pool_remote : list bool }.

Definition pool_of (type : Z) (p : pools) : list bool :=
  if type =? LOCAL then db_pool_local p else db_pool_remote p.
Definition set_pool (type : Z) (l : list bool) (p : pools) : pools :=
  if type =? LOCAL then {| db_pool_local := l; db_pool_remote := db_pool_remote p |}
  else {| db_pool_local := db_pool_local p; db_pool_remote := l |}.

(** [for (id = 0; id < threads; id++)]: the handles of one pool are [base + id]. *)
Fixpoint create_loop {W} `{MySQL W} (set : config_t) (ssl : list mysql_feature) (w : W) (type : Z) (base id : nat) (n : nat) :
    outcome (list bool * W) :=
  match n with
  | O => Ok ([], w)
  | S n' =>
      let* (connected, w) := db_connect set ssl w type (base + id) in
      if negb connected then Died EXIT_FAILURE else
      let '(ok, w) := Sql.db_set_session_mode w (base + id) in
      if negb ok then Died EXIT_FAILURE else
      let* (rest, w) := create_loop set ssl w type base (S id) n' in
      Ok (true :: rest, w)
  end.
Definition db_create_connection_pool {W} `{MySQL W} (set : config_t) (ssl : list mysql_feature) (w : W) (p : pools)
    (type : Z) (base : nat) : outcome (pools * W) :=
  let* (l, w) := create_loop set ssl w type base 0 (Z.to_nat (threads set)) in
  Ok (set_pool type l p, w).

Fixpoint close_loop {W} `{MySQL W} (w : W) (base id n : nat) : W :=
  match n with
  | O => w
  | S n' => close_loop (mysql_close w (base + id)) base (S id) n'
  end.
Definition db_close_connection_pool {W} `{MySQL W} (set : config_t) (w : W) (base : nat) : W :=
  close_loop w base 0 (Z.to_nat (threads set)).

(** The scan for a free entry, which it takes. *)
Fixpoint take_free (l : list bool) : option (nat * list bool) :=
  match l with
  | [] => None
  | true :: l' => Some (0%nat, false :: l')
  | false :: l' => '(id, l'') ← take_free l'; Some (S id, false :: l'')
  end.
Definition db_get_connection (p : pools) (type : Z) : option nat * pools :=
  match take_free (pool_of type p) with
  | Some (id, l) => (Some id, set_pool type l p)
  | None => (None, p)
  end.
Definition db_release_connection (p : pools) (type : Z) (id : nat) : pools :=
  set_pool type (<[id := true]> (pool_of type p)) p.

(** ** Workers that use the pools *)

(** The connections handed out and not yet returned: (thread, type, id). *)
Record pool_state := { ps_pools : pools; ps_held : list (nat * Z * nat) }.

Inductive pool_event := PGet (t : nat) (type : Z) | PRelease (t : nat) (type : Z) (id : nat).

Fixpoint remove_held (x : nat * Z * nat) (l : list (nat * Z * nat)) : list (nat * Z * nat) :=
  match l with
  | [] => []
  | y :: l' => if bool_decide (y = x) then l' else y :: remove_held x l'
  end.

(** A worker returns only what it holds. *)
Definition pool_step (s : pool_state) (e : pool_event) : option pool_state :=
  match e with
  | PGet t type =>
      let '(r, p) := db_get_connection (ps_pools s) type in
      Some {| ps_pools := p; ps_held := match r with Some id => (t, type, id) :: ps_held s | None => ps_held s end |}
  | PRelease t type id =>
      if bool_decide ((t, type, id) ∈ ps_held s) then
        Some {| ps_pools := db_release_connection (ps_pools s) type id; ps_held := remove_held (t, type, id) (ps_held s) |}
      else None
  end.

(** Only the two pool types occur. *)
Definition event_ok (e : pool_event) : Prop :=
  match e with PGet _ type | PRelease _ type _ => type = LOCAL ∨ type = REMOTE end.

Definition fresh_pools (n : nat) : pool_state :=
  {| ps_pools := {| db_pool_local := replicate n true; db_pool_remote := replicate n true |}; ps_held := [] |}.

Inductive pool_reachable (n : nat) : pool_state → Prop :=
| pr_init : pool_reachable n (fresh_pools n)
| pr_step s e s' : pool_reachable n s → event_ok e → pool_step s e = Some s' → pool_reachable n s'.

End Pool.

(** * Counting permits (platform/thread.c) *)

Module Permits.

Definition EINVAL : Z := 22.
Definition EAGAIN : Z := 11.
Definition EOVERFLOW : Z := 75.

(** The state is [permits->available]; the result is the status and the new state. *)
Definition spine_permits_init (count : Z) : Z * option Z :=
  if count <? 0 then (EINVAL, None) else (0, Some count).
Definition spine_permits_try_acquire (available : Z) : Z * Z :=
  if 0 <? available then (0, available - 1) else (EAGAIN, available).
Definition spine_permits_release (available : Z) : Z * Z :=
  if available <? INT_MAX then (0, available + 1) else (EOVERFLOW, available).
Definition spine_permits_available (available : Z) : Z := available.

End Permits.

(** * Facts *)

Module PoolFacts.
Import Pool.

Lemma take_free_spec l : match take_free l with
  | Some (id, l') => l !! id = Some true ∧ l' = <[id := false]> l ∧ ∀ j, (j < id)%nat → l !! j = Some false
  | None => ∀ j b, l !! j = Some b → b = false
  end.
Proof.
  induction l as [|[] l IH]; cbn; [done|split_and!; try done; lia|].
  destruct (take_free l) as [[id l']|]; cbn.
  - destruct IH as (H1 & -> & H2). split_and!; try done. intros [|j] Hj; [done|]. apply H2. lia.
  - intros [|j] b Hj; [by injection Hj|]. by apply (IH j).
Qed.

Lemma remove_held_elem x l y : NoDup l → y ∈ remove_held x l ↔ y ∈ l ∧ y ≠ x.
Proof.
  induction l as [|z l IH]; intros Hn; cbn; [split; [intros H|intros [H _]]; by apply not_elem_of_nil in H|].
  apply list.NoDup_cons in Hn as [Hz Hn]. rewrite elem_of_cons. case_bool_decide as E.
  - subst z. split; [|intros [[->|H] ?]; done]. intros Hy. split; [by right|]. by intros ->.
  - rewrite elem_of_cons, (IH Hn). naive_solver.
Qed.
Lemma remove_held_nodup x l : NoDup l → NoDup (remove_held x l).
Proof.
  induction l as [|z l IH]; intros Hn; cbn; [done|]. apply list.NoDup_cons in Hn as [Hz Hn]. case_bool_decide; [done|].
  apply list.NoDup_cons. split; [|auto]. intros H1. by apply remove_held_elem in H1 as [? _].
Qed.

Lemma pool_of_set type l p : pool_of type (set_pool type l p) = l.
Proof. unfold pool_of, set_pool. by destruct (type =? LOCAL). Qed.
Lemma pool_of_set_other type type' l p :
  (type =? LOCAL) ≠ (type' =? LOCAL) → pool_of type (set_pool type' l p) = pool_of type p.
Proof. unfold pool_of, set_pool. by destruct (type =? LOCAL), (type' =? LOCAL). Qed.

(** An entry is taken exactly when one worker holds it. *)
Record pool_inv (n : nat) (s : pool_state) : Prop := {
  pi_len type : length (pool_of type (ps_pools s)) = n;
  pi_nodup : NoDup (ps_held s);
  pi_type t type id : (t, type, id) ∈ ps_held s → type = LOCAL ∨ type = REMOTE;
  pi_one t t' type id : (t, type, id) ∈ ps_held s → (t', type, id) ∈ ps_held s → t = t';
  pi_taken type id : type = LOCAL ∨ type = REMOTE →
    pool_of type (ps_pools s) !! id = Some false ↔ ∃ t, (t, type, id) ∈ ps_held s }.

Lemma type_other type type' :
  type = LOCAL ∨ type = REMOTE → type' = LOCAL ∨ type' = REMOTE → type ≠ type' → (type =? LOCAL) ≠ (type' =? LOCAL).
Proof. by intros [->| ->] [->| ->]. Qed.

Lemma get_inv n s t type id l :
  pool_inv n s → type = LOCAL ∨ type = REMOTE → take_free (pool_of type (ps_pools s)) = Some (id, l) →
  pool_inv n {| ps_pools := set_pool type l (ps_pools s); ps_held := (t, type, id) :: ps_held s |}.
Proof.
  intros [I1 I2 I3 I4 I5] Ht Et. pose proof (take_free_spec (pool_of type (ps_pools s))) as Hs. rewrite Et in Hs.
  destruct Hs as (Hfree & -> & _).
  assert (Hnot : ∀ u, (u, type, id) ∉ ps_held s).
  { intros u Hu. assert (pool_of type (ps_pools s) !! id = Some false) by (apply I5; eauto). congruence. }
  constructor; cbn.
  - intros type'. destruct (decide (type' = type)) as [->|Hne]; [rewrite pool_of_set, length_insert; apply I1|].
    unfold pool_of, set_pool in *. destruct (type' =? LOCAL), (type =? LOCAL) eqn:E; cbn;
      rewrite ?length_insert; try (specialize (I1 LOCAL); done); specialize (I1 REMOTE); done.
  - apply list.NoDup_cons. eauto.
  - intros u ty i [[= -> -> ->]|Hin]%elem_of_cons; eauto.
  - intros u u' ty i [E|Hu]%elem_of_cons [E'|Hu']%elem_of_cons; simplify_eq; try done; try (by destruct (Hnot _ Hu)); try (by destruct (Hnot _ Hu')). eauto.
  - intros ty i Hty. destruct (decide (ty = type)) as [->|Hne].
    + rewrite pool_of_set. destruct (decide (i = id)) as [->|Hi].
      * rewrite list_lookup_insert_eq by (by eapply lookup_lt_Some). split; [|done]. intros _. exists t. left.
      * rewrite list_lookup_insert_ne, I5 by done. split; intros [u Hu]; exists u; [by right|].
        apply elem_of_cons in Hu as [[= -> ->]|Hu]; done.
    + rewrite pool_of_set_other, I5 by (auto using type_other). split; intros [u Hu]; exists u; [by right|].
      apply elem_of_cons in Hu as [[= -> -> ->]|Hu]; done.
Qed.

Lemma release_inv n s t type id :
  pool_inv n s → type = LOCAL ∨ type = REMOTE → (t, type, id) ∈ ps_held s →
  pool_inv n {| ps_pools := db_release_connection (ps_pools s) type id; ps_held := remove_held (t, type, id) (ps_held s) |}.
Proof.
  intros [I1 I2 I3 I4 I5] Ht Hin. assert (Hel := fun y => remove_held_elem (t, type, id) (ps_held s) y I2).
  unfold db_release_connection. constructor; cbn.
  - intros type'. unfold pool_of, set_pool in *. destruct (type' =? LOCAL) eqn:E, (type =? LOCAL) eqn:E'; cbn;
      rewrite ?length_insert; try (specialize (I1 LOCAL); done); specialize (I1 REMOTE); done.
  - by apply remove_held_nodup.
  - intros u ty i [Hu _]%Hel. eauto.
  - intros u u' ty i [Hu _]%Hel [Hu' _]%Hel. eauto.
  - intros ty i Hty. destruct (decide (ty = type)) as [->|Hne].
    + rewrite pool_of_set. destruct (decide (i = id)) as [->|Hi].
      * pose proof (lookup_lt_Some _ _ _ (proj2 (I5 type id Ht) ltac:(eauto))). rewrite list_lookup_insert_eq by done.
        split; [done|]. intros [u [Hu Hneq]%Hel]. destruct Hneq. by rewrite (I4 u t type id).
      * rewrite list_lookup_insert_ne, I5 by done. split; intros [u Hu]; exists u; [apply Hel; split; congruence|by apply Hel in Hu as [? _]].
    + rewrite pool_of_set_other, I5 by (auto using type_other). split; intros [u Hu]; exists u; [apply Hel; split; congruence|by apply Hel in Hu as [? _]].
Qed.

Lemma pool_reachable_inv n s : pool_reachable n s → pool_inv n s.
Proof.
  intros H. induction H as [|s e s' _ IH He Hs].
  - constructor; cbn.
    + intros type. unfold pool_of. cbn. destruct (type =? LOCAL); apply length_replicate.
    + apply base.NoDup_nil_2.
    + intros t type id Hin. by apply not_elem_of_nil in Hin.
    + intros t t' type id Hin. by apply not_elem_of_nil in Hin.
    + intros type id _. split; [|intros [t Hin]; by apply not_elem_of_nil in Hin].
      unfold pool_of. cbn. destruct (type =? LOCAL); intros [? _]%lookup_replicate; done.
  - destruct e as [t type|t type id]; cbn in *.
    + unfold db_get_connection in Hs. destruct (take_free _) as [[id l]|] eqn:E; injection Hs as <-.
      * by apply get_inv.
      * by destruct s.
    + case_bool_decide; [|done]. injection Hs as <-. by apply release_inv.
Qed.

End PoolFacts.
Import PoolFacts.

(** * Properties *)

(** C13: the pool never hands one connection to two workers, and never refuses a
    worker while a connection is idle.  In every order of requests and returns: the
    connection handed out was held by nobody, is the lowest free one, and is taken
    afterwards; and a request fails only when all connections of that pool are held. *)
Theorem pool_exclusive (n : nat) (s : Pool.pool_state) (Hr : Pool.pool_reachable n s) (type : Z)
  (Htype : type = LOCAL ∨ type = REMOTE) :
  let '(r, p) := Pool.db_get_connection (Pool.ps_pools s) type in
  (∀ t t' id, (t, type, id) ∈ Pool.ps_held s → (t', type, id) ∈ Pool.ps_held s → t = t') ∧
  match r with
  | Some id => (id < n)%nat ∧ (∀ t, (t, type, id) ∉ Pool.ps_held s) ∧
               (∀ j, (j < id)%nat → ∃ t, (t, type, j) ∈ Pool.ps_held s) ∧
               Pool.pool_of type p !! id = Some false
  | None => ∀ id, (id < n)%nat → ∃ t, (t, type, id) ∈ Pool.ps_held s
  end.
Proof.
  destruct (pool_reachable_inv n s Hr) as [I1 I2 I3 I4 I5]. unfold Pool.db_get_connection.
  pose proof (take_free_spec (Pool.pool_of type (Pool.ps_pools s))) as Hs.
  destruct (Pool.take_free _) as [[id l]|]; (split; [intros t t' i; apply I4|]).
  - destruct Hs as (Hfree & -> & Hlow). apply lookup_lt_Some in Hfree as Hlt. split_and!.
    + by rewrite <- (I1 type).
    + intros t Hin. assert (Pool.pool_of type (Pool.ps_pools s) !! id = Some false) by (apply I5; eauto). congruence.
    + intros j Hj. apply I5; auto.
    + rewrite pool_of_set. by apply list_lookup_insert_eq.
  - intros id Hid. apply I5; [done|]. rewrite <- (I1 type) in Hid.
    destruct (lookup_lt_is_Some_2 _ _ Hid) as [b Hb]. by rewrite Hb, (Hs id b Hb).
Qed.

Lemma pool_exclusive_witness :
  let s := {| Pool.ps_pools := {| Pool.db_pool_local := [false; true]; Pool.db_pool_remote := [true; true] |};
              Pool.ps_held := [(7%nat, LOCAL, 0%nat)] |} in
  Pool.db_get_connection (Pool.ps_pools s) LOCAL =
    (Some 1%nat, {| Pool.db_pool_local := [false; false]; Pool.db_pool_remote := [true; true] |}) ∧
  ∀ t, (t, LOCAL, 1%nat) ∉ Pool.ps_held s.
Proof.
  intros s. split; [reflexivity|].
  refine (proj1 (proj2 (proj2 (pool_exclusive 2 s _ LOCAL (or_introl eq_refl))))).
  apply (Pool.pr_step 2 (Pool.fresh_pools 2) (Pool.PGet 7 LOCAL)); [constructor|by left|reflexivity].
Defined.
