(* ===== verification/Semaphore.v ===== *)
(** The counting semaphore of src/src/platform/spine_sem.h, a counter under a mutex with a
    condition variable.

    A call of the library is one step, except that [spine_sem_wait] gives up the mutex while it
    sleeps: a thread enters it, sleeps, is woken by the signal of a post or for no reason, and
    then looks at the counter again.  [posted] and [taken] count the calls that changed it. *)

From stdpp Require Import gmap.
From S2P Require Import Prelude CLib Buffer Settings Pool.

Module Semaphore.

Record spine_sem_t := { value : Z; asleep : gset nat; woken : gset nat; posted : Z; taken : Z }.

(** The status, and the semaphore for 0; the arguments are what the two calls return. *)
Definition spine_sem_init (mutex_init cond_init v : Z) : Z * option spine_sem_t :=
  if negb (mutex_init =? 0) then (-1, None)
  else if negb (cond_init =? 0) then (-1, None)   (* the mutex is destroyed *)
  else (0, Some {| value := v; asleep := ∅; woken := ∅; posted := 0; taken := 0 |}).

Definition with_asleep (a w : gset nat) (s : spine_sem_t) : spine_sem_t :=
  {| value := value s; asleep := a; woken := w; posted := posted s; taken := taken s |}.
Definition take_one (s : spine_sem_t) : spine_sem_t :=
  {| value := value s - 1; asleep := asleep s; woken := woken s; posted := posted s; taken := taken s + 1 |}.

(** [pthread_cond_signal] wakes one of the threads that sleep, if there are any. *)
Definition sem_signal (t : option nat) (s : spine_sem_t) : option spine_sem_t :=
  match t with
  | Some t => if decide (t ∈ asleep s) then Some (with_asleep (asleep s ∖ {[t]}) (woken s ∪ {[t]}) s) else None
  | None => if decide (asleep s = ∅) then Some s else None
  end.
(** [value++] of the largest int is undefined. *)
Definition spine_sem_post (t : option nat) (s : spine_sem_t) : option spine_sem_t :=
  if INT_MAX <=? value s then None
  else sem_signal t {| value := value s + 1; asleep := asleep s; woken := woken s; posted := posted s + 1; taken := taken s |}.

Definition spine_sem_getvalue (s : spine_sem_t) : Z * spine_sem_t := (value s, s).

(** The loop of [spine_sem_wait], when thread [t] holds the mutex: it returns with a token, or
    sleeps. *)
Definition sem_wait_turn (t : nat) (s : spine_sem_t) : spine_sem_t :=
  if value s <=? 0 then with_asleep (asleep s ∪ {[t]}) (woken s) s else take_one s.
Definition spine_sem_wait (t : nat) (s : spine_sem_t) : option spine_sem_t :=
  if decide (t ∈ asleep s ∪ woken s) then None else Some (sem_wait_turn t s).
Definition wait_again (t : nat) (s : spine_sem_t) : option spine_sem_t :=
  if decide (t ∈ woken s) then Some (sem_wait_turn t (with_asleep (asleep s) (woken s ∖ {[t]}) s)) else None.
Definition wakes_up (t : nat) (s : spine_sem_t) : option spine_sem_t :=
  if decide (t ∈ asleep s) then Some (with_asleep (asleep s ∖ {[t]}) (woken s ∪ {[t]}) s) else None.

(** The status, with the [errno] of a failure. *)
Definition spine_sem_trywait (s : spine_sem_t) : Z * option Z * spine_sem_t :=
  if value s <=? 0 then (-1, Some Permits.EAGAIN, s) else (0, None, take_one s).

(** [None]: a thread still uses it. *)
Definition spine_sem_destroy (s : spine_sem_t) : option Z := if decide (asleep s ∪ woken s = ∅) then Some 0 else None.

Inductive sevent := SPost (t : option nat) | SGetvalue | SWait (t : nat) | SWaitAgain (t : nat) | SWakesUp (t : nat) | STrywait.
Definition sstep (s : spine_sem_t) (e : sevent) : option spine_sem_t :=
  match e with
  | SPost t => spine_sem_post t s
  | SGetvalue => Some (spine_sem_getvalue s).2
  | SWait t => spine_sem_wait t s
  | SWaitAgain t => wait_again t s
  | SWakesUp t => wakes_up t s
  | STrywait => Some (spine_sem_trywait s).2
  end.

Inductive sreachable (v : Z) : spine_sem_t → Prop :=
| sreach_init s : spine_sem_init 0 0 v = (0, Some s) → sreachable v s
| sreach_step s e s' : sreachable v s → sstep s e = Some s' → sreachable v s'.

End Semaphore.

(** * Facts *)

Module SemaphoreFacts.
Import Semaphore.

(** A thread sleeps only while the tokens are fewer than the threads woken for them. *)
Record sound (v : Z) (s : spine_sem_t) : Prop := {
  so_count : value s = v + posted s - taken s;
  so_range : 0 ≤ value s ≤ INT_MAX;
  so_apart : asleep s ## woken s;
  so_wake : asleep s ≠ ∅ → value s ≤ Z.of_nat (size (woken s)) }.

Lemma wake_sound v t s : t ∈ asleep s → value s = v + posted s - taken s → 0 ≤ value s ≤ INT_MAX → asleep s ## woken s →
  value s ≤ Z.of_nat (size (woken s)) + 1 → sound v (with_asleep (asleep s ∖ {[t]}) (woken s ∪ {[t]}) s).
Proof.
  intros Ht Hc Hr Ha Hw. split; cbn; [done|done|set_solver|]. intros _. rewrite size_union by set_solver. rewrite size_singleton. lia.
Qed.
Lemma turn_sound v t s : value s = v + posted s - taken s → 0 ≤ value s ≤ INT_MAX → asleep s ## woken s → t ∉ woken s →
  (asleep s ≠ ∅ → value s ≤ Z.of_nat (size (woken s)) + 1) → sound v (sem_wait_turn t s).
Proof.
  intros Hc Hr Ha Ht Hw. unfold sem_wait_turn. destruct (Z.leb_spec (value s) 0).
  - split; cbn; [done|done|set_solver|]. intros _. lia.
  - split; cbn; [lia|lia|done|]. intros Hs. specialize (Hw Hs). lia.
Qed.
Lemma sstep_sound v s e s' : sound v s → sstep s e = Some s' → sound v s'.
Proof.
  intros [Hc Hr Ha Hw] E. destruct e as [t| |t|t|t|]; cbn in E.
  - unfold spine_sem_post in E. destruct (Z.leb_spec INT_MAX (value s)); [done|]. destruct t as [t|]; cbn in E; case_decide as Ht; try done; injection E as <-.
    + apply (wake_sound v t {| value := value s + 1; asleep := asleep s; woken := woken s; posted := posted s + 1; taken := taken s |}); cbn; try done; [lia|lia|].
      assert (value s ≤ Z.of_nat (size (woken s))); [apply Hw; set_solver|lia].
    + split; cbn; [lia|lia|done|done].
  - by injection E as <-.
  - unfold spine_sem_wait in E. case_decide as Ht; [done|]. injection E as <-. apply turn_sound; try done; [set_solver|]. intros Hs. specialize (Hw Hs). lia.
  - unfold wait_again in E. case_decide as Ht; [|done]. injection E as <-. apply turn_sound; cbn; try done; [set_solver|set_solver|].
    intros Hs. specialize (Hw Hs). assert (size (woken s) = S (size (woken s ∖ {[t]}))); [|lia].
    rewrite (union_difference_singleton_L t (woken s) Ht) at 1. rewrite size_union by set_solver. by rewrite size_singleton.
  - unfold wakes_up in E. case_decide as Ht; [|done]. injection E as <-. apply wake_sound; try done. assert (value s ≤ Z.of_nat (size (woken s))); [apply Hw; set_solver|lia].
  - injection E as <-. unfold spine_sem_trywait. destruct (Z.leb_spec (value s) 0); [done|]. split; cbn; [lia|lia|done|]. intros Hs. specialize (Hw Hs). lia.
Qed.
Lemma sreachable_sound v s : 0 ≤ v ≤ INT_MAX → sreachable v s → sound v s.
Proof.
  intros Hv. induction 1 as [s E|s e s' _ IH E]; [|by eapply sstep_sound]. injection E as <-. split; cbn; [lia|lia|set_solver|done].
Qed.
End SemaphoreFacts.
Import Semaphore SemaphoreFacts.

(** * Properties *)

(** C39: the semaphore counts and loses no wakeup.  From an initial value that is not negative, in
    every interleaving of posts, waits, tries and spurious wakeups, the value is the initial one
    with the posts added and the tokens taken out, and never negative; a try fails exactly when
    it is 0; and whenever there is a token and a thread sleeps in [spine_sem_wait], some thread
    was woken that has not run yet, and each of those returns with a token once it does. *)
Theorem semaphore_counts (v : Z) (s : spine_sem_t) : 0 ≤ v ≤ INT_MAX → sreachable v s →
  value s = v + posted s - taken s ∧ 0 ≤ value s ≤ INT_MAX ∧
  ((spine_sem_trywait s).1.1 = -1 ↔ value s = 0) ∧
  (0 < value s → asleep s ≠ ∅ → ∃ t, t ∈ woken s) ∧
  ∀ t, t ∈ woken s → 0 < value s → ∃ s', wait_again t s = Some s' ∧ taken s' = taken s + 1 ∧ t ∉ asleep s' ∪ woken s'.
Proof.
  intros Hv Hs. pose proof (sreachable_sound v s Hv Hs) as [Hc Hr Ha Hw]. split_and!; [done|lia|lia| | |].
  - unfold spine_sem_trywait. destruct (Z.leb_spec (value s) 0); cbn; split; try done; lia.
  - intros Hp Hsl. apply set_choose_L. intros He. specialize (Hw Hsl). rewrite He, size_empty in Hw. lia.
  - intros t Ht Hp. unfold wait_again. rewrite decide_True by done. eexists. split; [done|]. unfold sem_wait_turn. cbn.
    rewrite (proj2 (Z.leb_gt _ _)) by done. cbn. split; [done|set_solver].
Qed.
Lemma semaphore_counts_witness :
  ∃ s, sreachable 0 s ∧ value s = 1 ∧ asleep s = {[2%nat]} ∧ ∃ t, t ∈ woken s.
Proof.
  assert (H : ∃ s, sreachable 0 s ∧ value s = 1 ∧ asleep s = {[2%nat]}).
  { eexists. split; [|split].
    - eapply (sreach_step 0 _ (SPost (Some 1%nat))); [eapply (sreach_step 0 _ (SWait 2)); [eapply (sreach_step 0 _ (SWait 1)); [by apply sreach_init|]|]|]; reflexivity.
    - reflexivity.
    - by apply (bool_decide_unpack _); vm_compute. }
  destruct H as (s & Hr & Hv & Ha). exists s. split; [exact Hr|]. split; [exact Hv|]. split; [exact Ha|].
  apply (proj1 (proj2 (proj2 (proj2 (semaphore_counts 0 s ltac:(done) Hr))))); [lia|]. rewrite Ha. apply (bool_decide_unpack _). by vm_compute.
Defined.
