(* ===== verification/Queries.v ===== *)
(** The statements the poller sends: src/src/database/cacti_query.c.  Every buffer is
    filled through [spine_snprintf], which ends the process instead of truncating. *)

From S2P Require Import Prelude CLib Buffer Result Settings Sql.

Module Queries.

(** [cursor += spine_snprintf(cursor, capacity - (cursor - buffer), ...)]. *)
Definition append_sql (capacity : Z) (buffer text : cstr) : outcome cstr :=
  let* t := spine_snprintf (capacity - slen buffer) text in Ok (buffer ++ t).

Record poller_query_filter_t := { f_host_id : Z; f_limits : cstr; f_due_only : bool; f_group_ports : bool }.

Record poller_queries_t := {
  q_items : cstr; q_host : cstr; q_reindex : cstr; q_due_items : cstr; q_schedule : cstr; q_output : cstr;
  q_agents : cstr; q_due_agents : cstr; q_boost_output : cstr; q_suffix : cstr }.

Section WithSettings.
Context (set : config_t).

Definition poller_item_query (capacity : Z) (columns : cstr) (filter : poller_query_filter_t) : outcome cstr :=
  let* b := spine_snprintf capacity ($"SELECT SQL_NO_CACHE " ++ columns ++ $" FROM poller_item WHERE host_id = " ++ sdec (f_host_id filter)) in
  let* b := (if negb (poller_id set =? 0) then append_sql capacity b ($" AND poller_id = " ++ sdec (poller_id set)) else Ok b) in
  let* b := (if f_due_only filter then append_sql capacity b ($" AND rrd_next_step <= 0") else Ok b) in
  let* b := (if f_group_ports filter then append_sql capacity b ($" GROUP BY snmp_port")
             else if negb (total_snmp_ports set =? 1) then append_sql capacity b ($" ORDER BY snmp_port") else Ok b) in
  append_sql capacity b ($" " ++ f_limits filter).

Definition item_columns : cstr :=
  $"action, hostname, snmp_community, snmp_version, snmp_username, snmp_password, rrd_name, rrd_path, arg1, arg2, arg3, local_data_id, rrd_num, snmp_port, snmp_timeout, snmp_auth_protocol, snmp_priv_passphrase, snmp_priv_protocol, snmp_context, snmp_engine_id".

Definition host_query (host_id : Z) : cstr :=
  $"SELECT SQL_NO_CACHE id, hostname, snmp_community, snmp_version, snmp_username, snmp_password, snmp_auth_protocol, snmp_priv_passphrase, snmp_priv_protocol, snmp_context, snmp_engine_id, snmp_port, snmp_timeout, max_oids, availability_method, ping_method, ping_port, ping_timeout, ping_retries, status, status_event_count, UNIX_TIMESTAMP(status_fail_date), UNIX_TIMESTAMP(status_rec_date), status_last_error, min_time, max_time, cur_time, avg_time, total_polls, failed_polls, availability, snmp_sysUpTimeInstance, snmp_sysDescr, snmp_sysObjectID, snmp_sysContact, snmp_sysName, snmp_sysLocation FROM host WHERE id = "
  ++ sdec host_id ++ $" AND deleted = ''".

Definition schedule_query (host_id : Z) : cstr :=
  let interval := sdec (poller_interval set) in
  $"UPDATE poller_item SET rrd_next_step = IF(rrd_step = " ++ interval ++ $", 0, IF(rrd_next_step - " ++ interval ++
  $" < 0, rrd_step - " ++ interval ++ $", rrd_next_step - " ++ interval ++ $")) WHERE host_id = " ++ sdec host_id.

Definition output_prefix : cstr := $"INSERT INTO poller_output (local_data_id, rrd_name, time, output) VALUES".
Definition boost_prefix : cstr := $"INSERT INTO poller_output_boost (local_data_id, rrd_name, time, output) VALUES".
Definition output_suffix : cstr := $" ON DUPLICATE KEY UPDATE output=VALUES(output)".

(** The LIMIT clause of a device split over several threads. *)
Definition limits_clause (host_thread host_data_ids : Z) : outcome cstr :=
  if 0 <? host_data_ids then
    if host_thread <? 1 then Died EXIT_FAILURE
    else spine_snprintf SMALL_BUFSIZE ($"LIMIT " ++ sdec (host_data_ids * (host_thread - 1)) ++ $", " ++ sdec host_data_ids)
  else Ok [].

Definition poller_prepare_queries (host_id host_thread host_data_ids : Z) : outcome poller_queries_t :=
  let* limits := limits_clause host_thread host_data_ids in
  let* columns := spine_snprintf BUFSIZE (item_columns ++ if has_output_regex set then $", output_regex" else []) in
  let due := negb (active_profiles set =? 1) in
  let filter due_only group_ports :=
    {| f_host_id := host_id; f_limits := limits; f_due_only := due_only; f_group_ports := group_ports |} in
  let* items := poller_item_query BUFSIZE columns (filter false false) in
  let* due_items := poller_item_query BUFSIZE columns (filter due false) in
  let* agents := poller_item_query BUFSIZE ($"snmp_port, count(snmp_port)") (filter false true) in
  let* due_agents := poller_item_query BUFSIZE ($"snmp_port, count(snmp_port)") (filter due true) in
  let* host := spine_snprintf BIG_BUFSIZE (host_query host_id) in
  let* reindex := spine_snprintf BUFSIZE
    ($"SELECT SQL_NO_CACHE data_query_id, action, op, assert_value, arg1 FROM poller_reindex WHERE host_id = " ++ sdec host_id) in
  let* schedule := spine_snprintf BUFSIZE (schedule_query host_id) in
  let* schedule := (if negb (poller_id set =? 0)
                    then append_sql BUFSIZE schedule ($" AND poller_id = " ++ sdec (poller_id set)) else Ok schedule) in
  Ok {| q_items := items; q_host := host; q_reindex := reindex; q_due_items := due_items; q_schedule := schedule;
        q_output := strncopy_s BUFSIZE output_prefix; q_agents := agents; q_due_agents := due_agents;
        q_boost_output := strncopy_s BUFSIZE boost_prefix; q_suffix := strncopy_s BUFSIZE output_suffix |}.

(** The rows to poll: the result set and its size. *)
Definition select_poll_items {W} `{MySQL W} (ssl : list mysql_feature) (w : W) (mysql : conn) (queries : poller_queries_t) :
    outcome (option mysql_res * Z * W) :=
  let query := if poller_interval set =? 0 then q_items queries else q_due_items queries in
  let* (result, w) := Sql.db_query set ssl w mysql LOCAL query in
  match result with
  | Some r => let* n := spine_count_to_int (Z.of_nat (length (res_rows r))) in Ok (result, n, w)
  | None => Ok (None, 0, w)
  end.

Definition poll_hosts_query : outcome cstr :=
  let cap := MEGA_BUFSIZE in
  let* q := append_sql cap [] ($"SELECT SQL_NO_CACHE id, device_threads, picount, picount/device_threads AS tppi FROM host AS h LEFT JOIN (SELECT host_id, COUNT(*) AS picount FROM poller_item GROUP BY host_id) AS pi ON h.id = pi.host_id") in
  let* q := append_sql cap q ($" WHERE disabled = ''") in
  let* q := append_sql cap q ($" AND availability_method != " ++ sdec AVAIL_STREAM) in
  let* q := (match host_id_list set with
             | [] => let* r := Sql.append_hostrange set (cap - slen q) ($"h.id") in Ok (q ++ r)
             | ids => append_sql cap q ($" AND h.id IN(" ++ ids ++ $")")
             end) in
  let* q := append_sql cap q ($" AND h.poller_id = " ++ sdec (poller_id set)) in
  append_sql cap q ($" ORDER BY picount DESC").
Definition select_poll_hosts {W} `{MySQL W} (ssl : list mysql_feature) (w : W) (mysql : conn) : outcome (option mysql_res * W) :=
  let* q := poll_hosts_query in Sql.db_query set ssl w mysql LOCAL q.

End WithSettings.
End Queries.

(** * Facts *)

Module QueriesFacts.
Import Queries.

Definition is_int (z : Z) : Prop := INT_MIN ≤ z ≤ INT_MAX.

Lemma sdec_length z k : Z.abs z < 10 ^ Z.of_nat (S k) → slen (sdec z) ≤ Z.of_nat k + 2.
Proof.
  intros Hz. unfold sdec. destruct (Z.ltb_spec z 0).
  - rewrite slen_cons. pose proof (udec_length (- z) k ltac:(lia)). unfold slen. lia.
  - pose proof (udec_length z k ltac:(lia)). unfold slen. lia.
Qed.
Lemma sdec_int z : is_int z → slen (sdec z) ≤ 11.
Proof. unfold is_int, INT_MIN, INT_MAX. intros H. pose proof (sdec_length z 9). lia. Qed.

Lemma spine_snprintf_ok cap text : slen text < cap → spine_snprintf cap text = Ok text.
Proof. intros H. unfold spine_snprintf. by rewrite (proj2 (Z.leb_gt _ _)). Qed.
Lemma append_sql_ok cap buffer text : slen buffer + slen text < cap → append_sql cap buffer text = Ok (buffer ++ text).
Proof. intros H. unfold append_sql. rewrite spine_snprintf_ok by lia. done. Qed.

(** Lengths of literals. *)
Ltac slen_lits :=
  autorewrite with spine;
  repeat match goal with
         | |- context [slen (lit ?s)] => let v := eval vm_compute in (slen (lit s)) in change (slen (lit s)) with v
         end.

(** A query of at most 400 column bytes and 60 limit bytes fits its buffer, and names
    the device. *)
Lemma poller_item_query_ok set columns filter :
  is_int (poller_id set) → is_int (f_host_id filter) → slen columns ≤ 400 → slen (f_limits filter) ≤ 60 →
  ∃ q, poller_item_query set BUFSIZE columns filter = Ok q.
Proof.
  intros Hp Hh Hc Hl. unfold poller_item_query, BUFSIZE.
  pose proof (sdec_int _ Hp). pose proof (sdec_int _ Hh).
  rewrite spine_snprintf_ok by (slen_lits; lia). cbn [obind].
  set (b0 := ($"SELECT SQL_NO_CACHE ") ++ columns ++ _).
  assert (Hb0 : slen b0 ≤ 500) by (unfold b0; slen_lits; lia). clearbody b0.
  assert (Hstep : ∀ (c : bool) b t n, slen b ≤ n → slen t ≤ 40 → n + 40 < 1024 → ∃ b',
    (if c then append_sql 1024 b t else Ok b) = Ok b' ∧ slen b' ≤ n + 40).
  { intros [] b t n Hb Ht Hn; [|exists b; split; [done|lia]]. exists (b ++ t). rewrite append_sql_ok by lia.
    split; [done|]. autorewrite with spine. lia. }
  destruct (Hstep (negb (poller_id set =? 0)) b0 ($" AND poller_id = " ++ sdec (poller_id set)) 500) as (b1 & -> & Hb1);
    [done|slen_lits; lia|done|]. cbn [obind].
  destruct (Hstep (f_due_only filter) b1 ($" AND rrd_next_step <= 0") 540) as (b2 & -> & Hb2); [lia|slen_lits; lia|done|]. cbn [obind].
  assert (∃ b3, (if f_group_ports filter then append_sql 1024 b2 ($" GROUP BY snmp_port")
    else if negb (total_snmp_ports set =? 1) then append_sql 1024 b2 ($" ORDER BY snmp_port") else Ok b2) = Ok b3 ∧ slen b3 ≤ 620) as (b3 & -> & Hb3).
  { destruct (f_group_ports filter).
    - destruct (Hstep true b2 ($" GROUP BY snmp_port") 580) as (b3 & E & ?); [lia|slen_lits; lia|done|]. exists b3. split; [done|lia].
    - destruct (Hstep (negb (total_snmp_ports set =? 1)) b2 ($" ORDER BY snmp_port") 580) as (b3 & E & ?); [lia|slen_lits; lia|done|].
      exists b3. split; [done|lia]. }
  cbn [obind]. rewrite append_sql_ok by (slen_lits; lia). eauto.
Qed.

End QueriesFacts.
Import QueriesFacts.

(** * Properties *)

(** C38: preparing the queries of a device never ends the process.  For any 32-bit
    identifiers and settings, with a positive thread number when the device is split,
    every query fits its buffer. *)
Theorem prepare_queries_total (set : config_t) (host_id host_thread host_data_ids : Z)
  (Hset : is_int (poller_id set) ∧ is_int (poller_interval set))
  (Hargs : is_int host_id ∧ is_int host_thread ∧ is_int host_data_ids)
  (Hthread : 0 < host_data_ids → 1 ≤ host_thread) :
  ∃ q, Queries.poller_prepare_queries set host_id host_thread host_data_ids = Ok q ∧
    Queries.q_output q = Queries.output_prefix ∧ Queries.q_boost_output q = Queries.boost_prefix ∧
    Queries.q_suffix q = Queries.output_suffix.
Proof.
  destruct Hset as [Hpid Hint], Hargs as (Hh & Ht & Hd). unfold Queries.poller_prepare_queries, Queries.limits_clause.
  assert (∃ l, (if 0 <? host_data_ids then if host_thread <? 1 then Died EXIT_FAILURE
    else spine_snprintf SMALL_BUFSIZE ($"LIMIT " ++ sdec (host_data_ids * (host_thread - 1)) ++ $", " ++ sdec host_data_ids)
    else Ok []) = Ok l ∧ slen l ≤ 60) as (l & -> & Hl).
  { destruct (Z.ltb_spec 0 host_data_ids); [|exists []; split; [done|slen_lits; lia]].
    rewrite (proj2 (Z.ltb_ge _ _)) by auto. eexists. unfold is_int, INT_MIN, INT_MAX in *.
    pose proof (sdec_length (host_data_ids * (host_thread - 1)) 18 ltac:(nia)). pose proof (sdec_int _ Hd).
    unfold SMALL_BUFSIZE. rewrite spine_snprintf_ok by (slen_lits; lia). split; [done|]. slen_lits. lia. }
  cbn [obind]. pose proof (sdec_int _ Hpid). pose proof (sdec_int _ Hint). pose proof (sdec_int _ Hh).
  unfold Queries.item_columns. rewrite spine_snprintf_ok by (destruct (has_output_regex set); unfold BUFSIZE; slen_lits; lia).
  cbn [obind]. set (columns := _ ++ (if has_output_regex set then _ else _)).
  assert (slen columns ≤ 400) by (unfold columns; destruct (has_output_regex set); slen_lits; lia). clearbody columns.
  assert (Hq : ∀ cols due gp, slen cols ≤ 400 → ∃ q, Queries.poller_item_query set BUFSIZE cols
    {| Queries.f_host_id := host_id; Queries.f_limits := l; Queries.f_due_only := due; Queries.f_group_ports := gp |} = Ok q)
    by (intros; by apply poller_item_query_ok).
  destruct (Hq columns false false) as [q1 ->]; [done|]. cbn [obind].
  destruct (Hq columns (negb (active_profiles set =? 1)) false) as [q2 ->]; [done|]. cbn [obind].
  destruct (Hq ($"snmp_port, count(snmp_port)") false true) as [q3 ->]; [by vm_compute|]. cbn [obind].
  destruct (Hq ($"snmp_port, count(snmp_port)") (negb (active_profiles set =? 1)) true) as [q4 ->]; [by vm_compute|]. cbn [obind].
  rewrite (spine_snprintf_ok BIG_BUFSIZE) by (unfold Queries.host_query, BIG_BUFSIZE; slen_lits; lia). cbn [obind].
  rewrite (spine_snprintf_ok BUFSIZE) by (unfold BUFSIZE; slen_lits; lia). cbn [obind].
  assert (slen (Queries.schedule_query set host_id) ≤ 300) by (unfold Queries.schedule_query; slen_lits; lia).
  rewrite (spine_snprintf_ok BUFSIZE) by (unfold BUFSIZE; lia). cbn [obind].
  destruct (negb (poller_id set =? 0)); [rewrite append_sql_ok by (unfold BUFSIZE; slen_lits; lia)|]; cbn [obind];
    (eexists; split; [reflexivity|split_and!; reflexivity]).
Qed.

Lemma prepare_queries_total_witness :
  ∃ q, Queries.poller_prepare_queries sample_config 42 2 25 = Ok q ∧ Queries.q_output q = Queries.output_prefix ∧
    Queries.q_boost_output q = Queries.boost_prefix ∧ Queries.q_suffix q = Queries.output_suffix.
Proof. apply prepare_queries_total; unfold is_int; cbn; unfold INT_MIN, INT_MAX; lia. Defined.
