(* ===== verification/Persist.v ===== *)
(** Writing results and device state: src/src/database/persistence.c.

    The statements go to whatever executes them ([Class StatementSink]); [Sql.db_insert]
    is the implementation.  Memory is checked: a [strncat] past the end of its buffer
    gives [Ok None]. *)

From S2P Require Import Prelude CLib Buffer Result Settings Sql Queries.

(** Execute a statement on a connection of the given type; whether it succeeded. *)
Class StatementSink (W : Type) := insert : W → conn → Z → cstr → outcome (bool * W).
#[global] Instance db_sink {W} `{MySQL W} (set : config_t) (ssl : list mysql_feature) : StatementSink W := Sql.db_insert set ssl.

Module Persist.
Import Queries Output.

Definition query_capacity : Z := MAX_MYSQL_BUF_SIZE + RESULTS_BUFFER.

(** [strncat(buffer, s, n)] into a buffer of [capacity] bytes. *)
Definition strncat (capacity : Z) (buffer s : cstr) (n : Z) : option cstr :=
  let r := buffer ++ take (Z.to_nat n) s in if slen r <? capacity then Some r else None.

Definition allocate_output_query (prefix : cstr) : outcome (option cstr) :=
  let* n := spine_count_to_int (slen prefix) in Ok (strncat query_capacity [] prefix n).

(** The verdict, the buffer afterwards and the world.  [query] is [None] for NULL; a
    [prefix] of [None] leaves the buffer to be freed. *)
Definition flush_output_query {W} `{StatementSink W} (w : W) (mysql : conn) (mode : Z) (query : option cstr)
    (suffix : cstr) (prefix : option cstr) : outcome (option (bool * option cstr * W)) :=
  match query with
  | None => Ok (Some (true, None, w))
  | Some query =>
      let* n := spine_count_to_int (slen suffix) in
      match strncat query_capacity query suffix n with
      | None => Ok None
      | Some query =>
          let* (success, w) := insert w mysql mode query in
          match prefix with
          | None => Ok (Some (success, Some query, w))
          | Some prefix =>
              let* n := spine_count_to_int (slen prefix) in
              match strncat query_capacity [] prefix n with
              | None => Ok None
              | Some query => Ok (Some (success, Some query, w))
              end
          end
      end
  end.

(** The locals of [write_poll_results]. *)
Record writer := { query3 : cstr; query12 : option cstr; out_buffer : Z; new_buffer : bool; failed : bool }.

Definition result_string_size : Z := RESULTS_BUFFER * 2 + DBL_BUFSIZE + SMALL_BUFSIZE.

(** The row of one item, or [None] when [format_poller_output_row] rejects it. *)
Definition item_row (escape : cstr → cstr) (host_time : cstr) (item : target_t) : option cstr :=
  let escaped_result := Sql.db_escape escape [] (RESULTS_BUFFER * 2 + 1) (Some (result item)) in
  let escaped_rrd_name := Sql.db_escape escape [] DBL_BUFSIZE (Some (rrd_name item)) in
  let '(row, ok) := format_poller_output_row [] result_string_size (local_data_id item) escaped_rrd_name host_time escaped_result in
  if ok then Some row else None.

(** [result_string[0] = c]. *)
Definition set_first (c : ascii) (s : cstr) : cstr := match s with [] => [c] | _ :: r => c :: r end.

Section Write.
Context {W : Type} `{StatementSink W} (set : config_t) (escape : conn → cstr → cstr) (queries : poller_queries_t).

(** Both buffers are written and start over. *)
Definition flush_both (w : W) (mysqlt : conn) (mode : Z) (s : writer) : outcome (option (writer * W)) :=
  let* r := flush_output_query w mysqlt mode (Some (query3 s)) (q_suffix queries) (Some (q_output queries)) in
  match r with
  | Some (ok3, Some q3, w) =>
      let* r := flush_output_query w mysqlt mode (query12 s) (q_suffix queries) (Some (q_boost_output queries)) in
      match r with
      | Some (ok12, q12, w) =>
          Ok (Some ({| query3 := q3; query12 := q12; out_buffer := slen q3; new_buffer := true;
                       failed := failed s || negb ok3 || negb ok12 |}, w))
      | None => Ok None
      end
  | _ => Ok None
  end.

Definition append_row (s : writer) (row : cstr) (result_length : Z) : option writer :=
  let row := set_first (if new_buffer s then " "%char else ","%char) row in
  q3 ← strncat query_capacity (query3 s) row result_length;
  q12 ← match query12 s with
        | None => Some None
        | Some q => q' ← strncat query_capacity q row result_length; Some (Some q')
        end;
  Some {| query3 := q3; query12 := q12; out_buffer := out_buffer s + slen row; new_buffer := false; failed := failed s |}.

Fixpoint write_loop (w : W) (mysqlt : conn) (mode : Z) (host_time : cstr) (items : list target_t) (s : writer) :
    outcome (option (writer * W)) :=
  match items with
  | [] => Ok (Some (s, w))
  | item :: items' =>
      match item_row (escape mysqlt) host_time item with
      | None => write_loop w mysqlt mode host_time items' s
      | Some row =>
          let* result_length := spine_count_to_int (slen row) in
          let* r := (if MAX_MYSQL_BUF_SIZE <=? out_buffer s + result_length
                     then flush_both w mysqlt mode s else Ok (Some (s, w))) in
          match r with
          | None => Ok None
          | Some (s, w) =>
              match append_row s row result_length with
              | None => Ok None
              | Some s => write_loop w mysqlt mode host_time items' s
              end
          end
      end
  end.

(** The last insert, if there is data to process. *)
Definition last_insert (w : W) (mysqlt : conn) (md : Z) (s : writer) : outcome (option (bool * W)) :=
  if slen (q_output queries) <? out_buffer s then
    let* r := flush_output_query w mysqlt md (Some (query3 s)) (q_suffix queries) None in
    match r with
    | None => Ok None
    | Some (ok3, _, w) =>
        let* r := flush_output_query w mysqlt md (query12 s) (q_suffix queries) None in
        match r with
        | None => Ok None
        | Some (ok12, _, w) => Ok (Some (failed s || negb ok3 || negb ok12, w))
        end
    end
  else Ok (Some (failed s, w)).

(** The [failed] flag of the result; [items] are the first [rows_processed] items. *)
Definition write_poll_results (w : W) (mysql mysqlr : conn) (items : list target_t) (host_time : cstr) :
    outcome (option (bool * W)) :=
  let* q3 := allocate_output_query (q_output queries) in
  let* q12 := (if boost_redirect set && boost_enabled set
               then let* q := allocate_output_query (q_boost_output queries) in
                    Ok (match q with Some q => Some (Some q) | None => None end)
               else Ok (Some None)) in
  match q3, q12 with
  | Some q3, Some q12 =>
      let '(mysqlt, md) := if (1 <? poller_id set) && (mode set =? REMOTE_ONLINE) then (mysqlr, REMOTE) else (mysql, LOCAL) in
      let* r := write_loop w mysqlt md host_time items
                  {| query3 := q3; query12 := q12; out_buffer := slen q3; new_buffer := true; failed := false |} in
      match r with
      | None => Ok None
      | Some (s, w) =>
          last_insert w mysqlt md s
      end
  | _, _ => Ok None
  end.

End Write.

(** ** Device status *)

(** [UPDATE host SET ...]; times are printed with %f and the availability with %.4f. *)
Definition host_status_sql (escaped_last_error : cstr) (host : host_t) (include_system_information : bool) : cstr :=
  let st := hstate host in let sx := statistics host in let sy := system host in
  $"UPDATE host SET status='" ++ sdec (status st) ++ $"', status_event_count='" ++ sdec (status_event_count st) ++
  $"', status_fail_date=FROM_UNIXTIME(" ++ status_fail_date st ++ $"), status_rec_date=FROM_UNIXTIME(" ++ status_rec_date st ++
  $"), status_last_error='" ++ escaped_last_error ++ $"', min_time='" ++ print_fixed 6 (min_time sx) ++
  $"', max_time='" ++ print_fixed 6 (max_time sx) ++ $"', cur_time='" ++ print_fixed 6 (cur_time sx) ++
  $"', avg_time='" ++ print_fixed 6 (avg_time sx) ++ $"', total_polls='" ++ sdec (total_polls sx) ++
  $"', failed_polls='" ++ sdec (failed_polls sx) ++ $"', availability='" ++ print_fixed 4 (availability sx) ++
  (if include_system_information then
     $"', snmp_sysDescr='" ++ snmp_sysDescr sy ++ $"',  snmp_sysObjectID='" ++ snmp_sysObjectID sy ++
     $"', snmp_sysUpTimeInstance='" ++ udec (snmp_sysUpTimeInstance sy) ++ $"',  snmp_sysContact='" ++ snmp_sysContact sy ++
     $"', snmp_sysName='" ++ snmp_sysName sy ++ $"', snmp_sysLocation='" ++ snmp_sysLocation sy ++ $"' "
   else $"' ") ++
  $"WHERE id='" ++ sdec (host_id host) ++ $"'".

Definition persist_host_status {W} `{StatementSink W} (escape : cstr → cstr) (w : W) (mysql : conn) (host : host_t)
    (include_system_information : bool) : outcome W :=
  let escaped_last_error := Sql.db_escape escape [] BUFSIZE (Some (status_last_error (hstate host))) in
  let update_sql := snprintf_s BIG_BUFSIZE (host_status_sql escaped_last_error host include_system_information) in
  let* (_, w) := insert w mysql LOCAL update_sql in Ok w.

End Persist.

(** * Facts *)

Module PersistFacts.
Import Queries Output Persist.

(** A sink that records what it is asked to execute, and the verdicts. *)
Record executed := { ex_conn : conn; ex_type : Z; ex_text : cstr; ex_ok : bool }.
#[global] Instance logged {W} (I : StatementSink W) : StatementSink (W * list executed) := fun '(w, log) c t q =>
  let* (ok, w) := I w c t q in
  Ok (ok, (w, log ++ [{| ex_conn := c; ex_type := t; ex_text := q; ex_ok := ok |}])).

(** ** What the statements should be *)

Definition join_batch (rows : list cstr) : cstr :=
  match rows with
  | [] => []
  | r :: rs => set_first " " r ++ concat (map (set_first ",") rs)
  end.
Definition batch_statements (queries : poller_queries_t) (boost : bool) (rows : list cstr) : list cstr :=
  (q_output queries ++ join_batch rows ++ q_suffix queries) ::
  (if boost then [q_boost_output queries ++ join_batch rows ++ q_suffix queries] else []).

Lemma set_first_length c s : s ≠ [] → slen (set_first c s) = slen s.
Proof. by destruct s. Qed.
Lemma join_batch_snoc rows r : r ≠ [] →
  join_batch (rows ++ [r]) = join_batch rows ++ set_first (if bool_decide (rows = []) then " "%char else ","%char) r.
Proof.
  intros Hr. destruct rows as [|r0 rs]; [cbn; by rewrite app_nil_r|]. cbn [join_batch app].
  rewrite map_app, concat_app. cbn. by rewrite app_nil_r, app_assoc.
Qed.

(** ** The pieces *)

Lemma strncat_ok cap b s n : n = slen s → slen b + slen s < cap → strncat cap b s n = Some (b ++ s).
Proof.
  intros -> Hl. unfold strncat. replace (Z.to_nat (slen s)) with (length s) by (unfold slen; lia). rewrite take_ge by lia.
  rewrite slen_app, (proj2 (Z.ltb_lt _ _)) by lia. done.
Qed.
Lemma count_ok n : n ≤ INT_MAX → spine_count_to_int n = Ok n.
Proof. intros Hn. unfold spine_count_to_int. by rewrite (proj2 (Z.ltb_ge _ _)). Qed.

Section Logged.
Context {W : Type} (I : StatementSink W) (set : config_t) (escape : conn → cstr → cstr) (queries : poller_queries_t).
Hypothesis Hout : slen (q_output queries) < BUFSIZE.
Hypothesis Hboost : slen (q_boost_output queries) < BUFSIZE.
Hypothesis Hsuf : slen (q_suffix queries) < BUFSIZE.

Definition verdict (ok : bool) (c : conn) (t : Z) (q : cstr) : executed :=
  {| ex_conn := c; ex_type := t; ex_text := q; ex_ok := ok |}.

Lemma flush_some w log c t q prefix :
  slen q < MAX_MYSQL_BUF_SIZE + BUFSIZE → (∀ p, prefix = Some p → slen p < BUFSIZE) →
  flush_output_query (w, log) c t (Some q) (q_suffix queries) prefix =
  let* (ok, w) := I w c t (q ++ q_suffix queries) in
  Ok (Some (ok, Some (default (q ++ q_suffix queries) prefix), (w, log ++ [verdict ok c t (q ++ q_suffix queries)]))).
Proof.
  intros Hq Hp. unfold flush_output_query, BUFSIZE, MAX_MYSQL_BUF_SIZE in *. rewrite count_ok by (unfold INT_MAX; lia). cbn [obind].
  rewrite strncat_ok by (unfold query_capacity, MAX_MYSQL_BUF_SIZE, RESULTS_BUFFER; lia).
  unfold insert, logged. destruct (I w c t (q ++ q_suffix queries)) as [[ok w']|s]; [|done]. cbn [obind].
  destruct prefix as [p|]; [|done]. specialize (Hp p eq_refl). rewrite count_ok by (unfold INT_MAX; lia). cbn [obind].
  by rewrite strncat_ok by (autorewrite with spine; unfold query_capacity, MAX_MYSQL_BUF_SIZE, RESULTS_BUFFER; lia).
Qed.

Definition boost : bool := boost_redirect set && boost_enabled set.

(** The writer holds the batch [cur] and has written [batches]; [seen] are all rows. *)
Record winv (c : conn) (t : Z) (seen : list cstr) (batches : list (list cstr)) (cur : list cstr) (s : writer)
    (log : list executed) : Prop := {
  wi_rows : concat batches ++ cur = seen;
  wi_full : Forall (fun b => b ≠ []) batches;
  wi_q3 : query3 s = q_output queries ++ join_batch cur;
  wi_q12 : query12 s = if boost then Some (q_boost_output queries ++ join_batch cur) else None;
  wi_out : out_buffer s = slen (query3 s);
  wi_new : new_buffer s = bool_decide (cur = []);
  wi_bound : slen (query3 s) < MAX_MYSQL_BUF_SIZE;
  wi_log : ex_text <$> log = concat (map (batch_statements queries boost) batches);
  wi_dest : Forall (fun e => ex_conn e = c ∧ ex_type e = t ∧ slen (ex_text e) < query_capacity) log;
  wi_failed : failed s = existsb (fun e => negb (ex_ok e)) log }.

Lemma q12_length c t seen batches cur s log q :
  winv c t seen batches cur s log → query12 s = Some q → slen q < MAX_MYSQL_BUF_SIZE + BUFSIZE.
Proof.
  intros [? ? E3 E12 ? ? Hb ? ? ?] E. rewrite E12 in E. destruct boost; [|done]. injection E as <-.
  rewrite E3 in Hb. autorewrite with spine in *. pose proof (slen_nonneg (q_output queries)). lia.
Qed.

(** The statements of the current batch, executed. *)
Definition flushed (c : conn) (t : Z) (w : W) (log : list executed) (q3 : cstr) (q12 : option cstr) : outcome (bool * (W * list executed)) :=
  let* (ok3, w) := I w c t (q3 ++ q_suffix queries) in
  match q12 with
  | None => Ok (ok3, (w, log ++ [verdict ok3 c t (q3 ++ q_suffix queries)]))
  | Some q12 =>
      let* (ok12, w) := I w c t (q12 ++ q_suffix queries) in
      Ok (ok3 && ok12, (w, log ++ [verdict ok3 c t (q3 ++ q_suffix queries); verdict ok12 c t (q12 ++ q_suffix queries)]))
  end.

Lemma flush_both_spec w log c t s :
  slen (query3 s) < MAX_MYSQL_BUF_SIZE + BUFSIZE → (∀ q, query12 s = Some q → slen q < MAX_MYSQL_BUF_SIZE + BUFSIZE) →
  flush_both queries (w, log) c t s =
  let* (ok, wl) := flushed c t w log (query3 s) (query12 s) in
  Ok (Some ({| query3 := q_output queries; query12 := (fun _ => q_boost_output queries) <$> query12 s;
               out_buffer := slen (q_output queries); new_buffer := true; failed := failed s || negb ok |}, wl)).
Proof.
  intros H3 H12. unfold flush_both, flushed. rewrite flush_some by (done || (by intros p [= <-])).
  destruct (I w c t (query3 s ++ q_suffix queries)) as [[ok3 w1]|e]; [|done]. cbn [obind default].
  destruct (query12 s) as [q|]; cbn [fmap option_fmap option_map].
  - rewrite flush_some by (auto || (by intros p [= <-])).
    destruct (I w1 c t (q ++ q_suffix queries)) as [[ok12 w2]|e]; [|done]. cbn [obind default].
    rewrite <- app_assoc. cbn. by rewrite negb_andb, orb_assoc.
  - cbn. by rewrite orb_false_r.
Qed.

Lemma log_texts log log' : ex_text <$> (log ++ log') = (ex_text <$> log) ++ (ex_text <$> log').
Proof. apply fmap_app. Qed.

(** After a flush, the batch has become statements. *)
Lemma flushed_spec c t seen batches cur s w log ok w' log' :
  winv c t seen batches cur s log → cur ≠ [] →
  flushed c t w log (query3 s) (query12 s) = Ok (ok, (w', log')) →
  ex_text <$> log' = concat (map (batch_statements queries boost) (batches ++ [cur])) ∧
  Forall (fun e => ex_conn e = c ∧ ex_type e = t ∧ slen (ex_text e) < query_capacity) log' ∧
  failed s || negb ok = existsb (fun e => negb (ex_ok e)) log'.
Proof.
  intros Hi Hcur Hf. pose proof (q12_length _ _ _ _ _ _ _ (default [] (query12 s)) Hi) as Hl12.
  destruct Hi as [Hrows Hfull E3 E12 Eout Enew Hb Hlog Hdest Hfail]. unfold flushed in Hf.
  assert (Hcap : ∀ q, slen q < MAX_MYSQL_BUF_SIZE + BUFSIZE → slen (q ++ q_suffix queries) < query_capacity).
  { intros q Hq. rewrite slen_app. unfold query_capacity, RESULTS_BUFFER, BUFSIZE in *. lia. }
  assert (Hq3 : slen (query3 s ++ q_suffix queries) < query_capacity) by (apply Hcap; unfold BUFSIZE; lia).
  rewrite map_app, concat_app, <- Hlog. cbn [map concat]. rewrite app_nil_r. unfold batch_statements.
  destruct (I w c t (query3 s ++ q_suffix queries)) as [[ok3 w1]|e]; [|done]. cbn [obind] in Hf. rewrite E12 in *.
  destruct boost.
  - destruct (I w1 c t _) as [[ok12 w2]|e]; [|done]. cbn in Hf. injection Hf as <- <- <-.
    split_and!.
    + rewrite log_texts. cbn. by rewrite E3, <- !app_assoc.
    + apply Forall_app. split; [done|]. repeat apply Forall_cons; [by split_and!|split_and!; [done|done|]|apply Forall_nil].
      apply Hcap, Hl12. done.
    + rewrite existsb_app, <- Hfail. cbn. destruct ok3, ok12, (failed s); done.
  - injection Hf as <- <- <-. split_and!.
    + rewrite log_texts. cbn. by rewrite E3, <- !app_assoc.
    + apply Forall_app. split; [done|]. apply Forall_cons; [by split_and!|apply Forall_nil].
    + rewrite existsb_app, <- Hfail. cbn. by rewrite orb_false_r.
Qed.

Lemma item_row_some e host_time item row :
  item_row e host_time item = Some row → row ≠ [] ∧ slen row < result_string_size ∧
  row = output_row (local_data_id item) (Sql.db_escape e [] DBL_BUFSIZE (Some (rrd_name item))) host_time
          (Sql.db_escape e [] (RESULTS_BUFFER * 2 + 1) (Some (result item))).
Proof.
  unfold item_row, format_poller_output_row. destruct (_ || _); [done|].
  destruct (host_time_scan _ _ _) as [[p d]|]; [|done]. destruct (d =? 0); [done|].
  set (r := output_row _ _ _ _). destruct (Z.ltb_spec (slen r) result_string_size) as [Hl|]; [|done].
  assert (snprintf_s result_string_size r = r) as ->.
  { unfold snprintf_s. apply take_ge. unfold slen in Hl. lia. }
  intros [= <-]. split_and!; [|done|done]. unfold r, output_row. done.
Qed.

Lemma append_row_spec c t seen batches cur s log row :
  winv c t seen batches cur s log → row ≠ [] → slen (query3 s) + slen row < MAX_MYSQL_BUF_SIZE →
  ∃ s', append_row s row (slen row) = Some s' ∧ winv c t (seen ++ [row]) batches (cur ++ [row]) s' log.
Proof.
  intros Hi Hrow Hfit. pose proof (q12_length _ _ _ _ _ _ _ (default [] (query12 s)) Hi) as Hl12.
  destruct Hi as [Hrows Hfull E3 E12 Eout Enew Hb Hlog Hdest Hfail]. unfold append_row.
  set (row' := set_first _ row). assert (Hlen : slen row' = slen row) by (by apply set_first_length).
  assert (Hjoin : join_batch cur ++ row' = join_batch (cur ++ [row])) by (by rewrite join_batch_snoc, <- Enew).
  rewrite strncat_ok by (done || (unfold query_capacity, RESULTS_BUFFER; lia)). cbn [mbind option_bind].
  assert (Hq12 : match query12 s with None => Some None
      | Some q => q' ← strncat query_capacity q row' (slen row); Some (Some q') end =
      Some (if boost then Some (q_boost_output queries ++ join_batch (cur ++ [row])) else None)).
  { rewrite E12 in *. destruct boost; [|done]. rewrite strncat_ok; [|done|].
    - cbn. by rewrite <- app_assoc, Hjoin.
    - rewrite E3 in Hfit. autorewrite with spine in *. pose proof (slen_nonneg (q_output queries)).
      unfold query_capacity, RESULTS_BUFFER, BUFSIZE in *. lia. }
  rewrite Hq12. cbn [mbind option_bind]. eexists. split; [done|]. constructor; cbn.
  - by rewrite app_assoc, Hrows.
  - done.
  - by rewrite E3, <- app_assoc, Hjoin.
  - done.
  - by rewrite Eout, slen_app.
  - rewrite bool_decide_eq_false_2; [done|]. by destruct cur.
  - rewrite slen_app. lia.
  - done.
  - done.
  - done.
Qed.

Definition dies (e : Z) : Prop := ∃ w c t q, I w c t q = Died e.

Lemma flushed_dies c t w log q3 q12 e : flushed c t w log q3 q12 = Died e → dies e.
Proof.
  unfold flushed. destruct (I w c t _) as [[ok3 w1]|e1] eqn:E1; cbn; [|intros [= <-]; by do 4 eexists].
  destruct q12 as [q|]; [|done]. destruct (I w1 c t _) as [[ok12 w2]|e2] eqn:E2; cbn; [done|intros [= <-]; by do 4 eexists].
Qed.

Lemma write_loop_spec c t host_time items : ∀ (w : W) (log : list executed) s seen batches cur,
  winv c t seen batches cur s log →
  match write_loop escape queries (w, log) c t host_time items s with
  | Ok None => False
  | Ok (Some (s', (_, log'))) =>
      ∃ batches' cur', winv c t (seen ++ omap (item_row (escape c) host_time) items) batches' cur' s' log'
  | Died e => dies e
  end.
Proof.
  induction items as [|item items IH]; intros w log s seen batches cur Hi; cbn [write_loop omap list_omap].
  { exists batches, cur. by rewrite app_nil_r. }
  destruct (item_row (escape c) host_time item) as [row|] eqn:Er; [|by apply (IH w log s seen batches cur)].
  destruct (item_row_some _ _ _ _ Er) as (Hne & Hlen & _). unfold result_string_size, RESULTS_BUFFER, DBL_BUFSIZE, SMALL_BUFSIZE in Hlen.
  rewrite count_ok by (unfold INT_MAX; lia). cbn [obind].
  assert (Hgo : ∀ (w : W) (log : list executed) s batches cur, winv c t seen batches cur s log → slen (query3 s) + slen row < MAX_MYSQL_BUF_SIZE →
    match (match append_row s row (slen row) with None => Ok None
           | Some s => write_loop escape queries (w, log) c t host_time items s end) with
    | Ok None => False
    | Ok (Some (s', (_, log'))) =>
        ∃ batches' cur', winv c t (seen ++ row :: omap (item_row (escape c) host_time) items) batches' cur' s' log'
    | Died e => dies e
    end).
  { clear Hi w log s batches cur. intros w log s batches cur Hi Hfit.
    destruct (append_row_spec _ _ _ _ _ _ _ row Hi Hne Hfit) as (s' & -> & Hi').
    specialize (IH w log s' _ _ _ Hi'). by rewrite <- app_assoc in IH. }
  destruct (Z.leb_spec MAX_MYSQL_BUF_SIZE (out_buffer s + slen row)) as [Hfull|Hfit].
  2:{ cbn [obind]. apply (Hgo w log s batches cur Hi). by rewrite <- (wi_out _ _ _ _ _ _ _ Hi). }
  pose proof (wi_bound _ _ _ _ _ _ _ Hi) as Hb. pose proof (wi_out _ _ _ _ _ _ _ Hi) as Eout.
  assert (Hcur : cur ≠ []).
  { intros ->. rewrite Eout, (wi_q3 _ _ _ _ _ _ _ Hi), app_nil_r in Hfull. unfold MAX_MYSQL_BUF_SIZE, BUFSIZE in *. lia. }
  rewrite flush_both_spec by (unfold BUFSIZE; lia || (intros q; by eapply q12_length)).
  destruct (flushed c t w log (query3 s) (query12 s)) as [[ok [w' log']]|e] eqn:Ef; [|by apply flushed_dies in Ef].
  destruct (flushed_spec _ _ _ _ _ _ _ _ _ _ _ Hi Hcur Ef) as (Hlog & Hdest & Hfail). cbn [obind].
  apply (Hgo w' log' _ (batches ++ [cur]) []); cbn [query3]; [|unfold MAX_MYSQL_BUF_SIZE, BUFSIZE in *; lia].
  constructor; cbn; try done.
  - rewrite concat_app. cbn. by rewrite !app_nil_r, (wi_rows _ _ _ _ _ _ _ Hi).
  - apply Forall_app. split; [apply (wi_full _ _ _ _ _ _ _ Hi)|]. by apply Forall_cons.
  - by rewrite app_nil_r.
  - rewrite (wi_q12 _ _ _ _ _ _ _ Hi). destruct boost; cbn; [by rewrite app_nil_r|done].
  - unfold MAX_MYSQL_BUF_SIZE, BUFSIZE in *. lia.
Qed.

(** What [write_poll_results] returns after the loop. *)
Lemma last_insert_spec c t seen batches cur s (w : W) (log : list executed) :
  winv c t seen batches cur s log →
  match last_insert queries (w, log) c t s with
  | Ok None => False
  | Ok (Some (failed, (_, log'))) =>
      ∃ batches', concat batches' = seen ∧ Forall (fun b => b ≠ []) batches' ∧
        ex_text <$> log' = concat (map (batch_statements queries boost) batches') ∧
        Forall (fun e => ex_conn e = c ∧ ex_type e = t ∧ slen (ex_text e) < query_capacity) log' ∧
        failed = existsb (fun e => negb (ex_ok e)) log'
  | Died e => dies e
  end.
Proof.
  intros Hw. pose proof (wi_bound _ _ _ _ _ _ _ Hw) as Hb. pose proof (wi_out _ _ _ _ _ _ _ Hw) as Eout.
  pose proof (wi_q3 _ _ _ _ _ _ _ Hw) as E3. pose proof (wi_rows _ _ _ _ _ _ _ Hw) as Erows. unfold last_insert.
  destruct (Z.ltb_spec (slen (q_output queries)) (out_buffer s)) as [Hmore|Hnone].
  - assert (Hcur : cur ≠ []) by (intros ->; rewrite Eout, E3, app_nil_r in Hmore; lia).
    assert (Hend : ∀ ok w1 log1, flushed c t w log (query3 s) (query12 s) = Ok (ok, (w1, log1)) →
      ∃ batches', concat batches' = seen ∧ Forall (fun b => b ≠ []) batches' ∧
        ex_text <$> log1 = concat (map (batch_statements queries boost) batches') ∧
        Forall (fun e => ex_conn e = c ∧ ex_type e = t ∧ slen (ex_text e) < query_capacity) log1 ∧
        failed s || negb ok = existsb (fun e => negb (ex_ok e)) log1).
    { intros ok w1 log1 Hf. destruct (flushed_spec _ _ _ _ _ _ _ _ _ _ _ Hw Hcur Hf) as (? & ? & ?).
      exists (batches ++ [cur]). rewrite concat_app. cbn. rewrite app_nil_r. split_and!; try done.
      apply Forall_app. split; [apply (wi_full _ _ _ _ _ _ _ Hw)|by apply Forall_cons]. }
    unfold flushed in Hend. rewrite flush_some by (done || (unfold BUFSIZE; lia)).
    destruct (I w c t _) as [[ok3 w1]|e] eqn:E1; cbn [obind] in *; [|by do 4 eexists].
    destruct (query12 s) as [q|] eqn:Eq; cbn [obind].
    + rewrite flush_some by (done || by eapply q12_length). destruct (I w1 c t _) as [[ok12 w2]|e] eqn:E2; cbn [obind] in *; [|by do 4 eexists].
      rewrite <- orb_assoc, <- negb_andb, <- app_assoc. by eapply Hend.
    + cbn. rewrite orb_false_r. by eapply Hend.
  - assert (cur = []) as ->.
    { destruct cur as [|r rs]; [done|]. rewrite Eout, E3 in Hnone. exfalso. cbn [join_batch] in Hnone.
      autorewrite with spine in Hnone. pose proof (slen_nonneg (concat (map (set_first ",") rs))).
      assert (0 < slen (set_first " " r)); [|lia]. destruct r; unfold slen; cbn [set_first length]; lia. }
    rewrite app_nil_r in Erows. exists batches. destruct Hw. done.
Qed.

End Logged.
End PersistFacts.
Import PersistFacts.

(** * Properties *)

(** C5: every accepted result is written exactly once, in order, within the buffers.
    Whatever executes the statements, [write_poll_results] never writes past a query
    buffer, and the statements it issues are, batch by batch, the output statement and
    with boost the boost statement of non-empty batches of rows that together are the
    rows of the items in order; all go to the one connection the settings select, and
    failure is reported exactly when one of them failed.  The process ends only if
    executing a statement ends it. *)
Theorem write_poll_results_complete {W} (I : StatementSink W) (set : config_t) (escape : conn → cstr → cstr)
  (queries : Queries.poller_queries_t) (w : W) (mysql mysqlr : conn) (items : list target_t) (host_time : cstr)
  (Hout : slen (Queries.q_output queries) < BUFSIZE) (Hboost : slen (Queries.q_boost_output queries) < BUFSIZE)
  (Hsuf : slen (Queries.q_suffix queries) < BUFSIZE) :
  let remote := (1 <? poller_id set) && (mode set =? REMOTE_ONLINE) in
  let c := if remote then mysqlr else mysql in
  match Persist.write_poll_results set escape queries (w, []) mysql mysqlr items host_time with
  | Ok None => False
  | Ok (Some (failed, (_, log))) =>
      ∃ batches, concat batches = omap (Persist.item_row (escape c) host_time) items ∧
        Forall (fun b => b ≠ []) batches ∧
        ex_text <$> log = concat (map (batch_statements queries (boost set)) batches) ∧
        Forall (fun e => ex_conn e = c ∧ ex_type e = (if remote then REMOTE else LOCAL) ∧
                         slen (ex_text e) < Persist.query_capacity) log ∧
        failed = existsb (fun e => negb (ex_ok e)) log
  | Died e => dies I e
  end.
Proof.
  intros remote c. unfold Persist.write_poll_results, Persist.allocate_output_query.
  rewrite !count_ok by (unfold INT_MAX, BUFSIZE in *; lia). cbn [obind].
  assert (Hcat : ∀ p, slen p < BUFSIZE → Persist.strncat Persist.query_capacity [] p (slen p) = Some p).
  { intros p Hp. rewrite strncat_ok; [done|done|]. unfold Persist.query_capacity, MAX_MYSQL_BUF_SIZE, RESULTS_BUFFER, BUFSIZE in *.
    autorewrite with spine. lia. }
  rewrite !Hcat by done. fold (boost set).
  assert (Hq12 : (if boost set then Ok (Some (Some (Queries.q_boost_output queries))) else Ok (Some None)) =
    Ok (Some (if boost set then Some (Queries.q_boost_output queries) else None))) by (by destruct (boost set)).
  rewrite Hq12. cbn [obind]. clear Hq12. fold remote.
  assert ((if remote then (mysqlr, REMOTE) else (mysql, LOCAL)) = (c, if remote then REMOTE else LOCAL)) as -> by (unfold c; by destruct remote).
  set (t := if remote then REMOTE else LOCAL).
  match goal with |- context [Persist.write_loop _ _ _ _ _ _ _ ?s] => set (s0 := s) end.
  assert (Hi : winv set queries c t [] [] [] s0 []).
  { constructor; cbn; try done; rewrite ?app_nil_r; try done. unfold MAX_MYSQL_BUF_SIZE, BUFSIZE in *. lia. }
  pose proof (write_loop_spec I set escape queries Hout Hboost Hsuf c t host_time items w [] s0 [] [] [] Hi) as Hl.
  destruct (Persist.write_loop _ _ _ _ _ _ _ _) as [[[s [w' log]]|]|e]; cbn [obind]; [|done|done].
  destruct Hl as (batches & cur & Hw). cbn [app] in Hw.
  by eapply (last_insert_spec I set queries Hboost Hsuf).
Qed.

(** A sink that accepts everything and counts. *)
Definition accepting : StatementSink Z := fun w _ _ _ => Ok (true, w + 1).
Definition sample_queries : Queries.poller_queries_t := {|
  Queries.q_items := []; Queries.q_host := []; Queries.q_reindex := []; Queries.q_due_items := []; Queries.q_schedule := [];
  Queries.q_output := Queries.output_prefix; Queries.q_agents := []; Queries.q_due_agents := [];
  Queries.q_boost_output := Queries.boost_prefix; Queries.q_suffix := Queries.output_suffix |}.
Definition empty_profile : snmp_profile_t := {|
  community := []; version := 1; username := []; password := []; auth_protocol := []; priv_passphrase := [];
  priv_protocol := []; context := []; engine_id := []; port := 161; timeout := 500 |}.
Definition sample_item (id : Z) (value : cstr) : target_t := {|
  result := value; local_data_id := id; action := 0; it_hostname := []; rrd_name := $"traffic_in"; rrd_path := []; rrd_num := 1;
  arg1 := []; arg2 := []; arg3 := []; output_regex := []; it_snmp := empty_profile |}.

Lemma write_poll_results_complete_witness :
  match Persist.write_poll_results (H := logged accepting) sample_config (fun _ s => s) sample_queries (0, []) 0%nat 1%nat
          [sample_item 7 ($"12"); sample_item 8 ($"U")] ($"1700000000.5") with
  | Ok (Some (failed, (n, log))) =>
      failed = false ∧ n = 1 ∧
      ex_text <$> log = [$"INSERT INTO poller_output (local_data_id, rrd_name, time, output) VALUES (7, 'traffic_in', FROM_UNIXTIME(1700000000.5), '12'),(8, 'traffic_in', FROM_UNIXTIME(1700000000.5), 'U') ON DUPLICATE KEY UPDATE output=VALUES(output)"] ∧
      ∃ batches, concat batches = omap (Persist.item_row (fun s => s) ($"1700000000.5")) [sample_item 7 ($"12"); sample_item 8 ($"U")]
  | _ => False
  end.
Proof.
  pose proof (write_poll_results_complete accepting sample_config (fun _ s => s) sample_queries 0 0%nat 1%nat
    [sample_item 7 ($"12"); sample_item 8 ($"U")] ($"1700000000.5") ltac:(by vm_compute) ltac:(by vm_compute) ltac:(by vm_compute)) as H.
  cbv zeta in H. match type of H with match ?x with _ => _ end => set (r := x) in * end. vm_compute in r. subst r.
  destruct H as (batches & H & _). split; [reflexivity|]. split; [reflexivity|]. split; [reflexivity|]. exists batches. exact H.
Defined.
