(* ===== verification/Transfer.v ===== *)
(** Synchronizing a remote collector: src/src/database/transfer.c and
    [persist_poll_completion] of src/src/database/persistence.c.

    Each table of the plan is read from the local database and replayed on the main
    server in batches of one INSERT statement.  Every buffer is filled through
    [spine_snprintf], which ends the process instead of truncating. *)

From S2P Require Import Prelude CLib Buffer Result Settings Sql Pool Queries Persist.

Module Transfer.
Import Queries.

Record poller_transfer_t := {
  table : cstr; columns : cstr; filter_column : cstr; order_column : cstr; tr_updates : list cstr; field_count : nat; row_limit : Z }.

(** ** Statements *)

(** ["%s%s=VALUES(%s)"] for each column, after the first with a comma. *)
Fixpoint append_updates (first : bool) (cols : list cstr) (suffix : cstr) : outcome cstr :=
  match cols with
  | [] => Ok suffix
  | c :: cols' =>
      let* suffix := append_sql BUFSIZE suffix ((if first then [] else $", ") ++ c ++ $"=VALUES(" ++ c ++ $")") in
      append_updates false cols' suffix
  end.

(** The query, the prefix and the suffix. *)
Definition transfer_queries (set : config_t) (plan : poller_transfer_t) : outcome (cstr * cstr * cstr) :=
  let* q := spine_snprintf MEGA_BUFSIZE ($"SELECT SQL_NO_CACHE " ++ columns plan ++ $" FROM " ++ table plan ++ $" WHERE poller_id = " ++ sdec (poller_id set)) in
  let* q := (match host_id_list set with
             | [] => Ok q
             | ids => append_sql MEGA_BUFSIZE q ($" AND " ++ filter_column plan ++ $" IN (" ++ ids ++ $")")
             end) in
  let* q := append_sql MEGA_BUFSIZE q ($" ORDER BY " ++ order_column plan) in
  let* prefix := spine_snprintf BUFSIZE ($"INSERT INTO " ++ table plan ++ $" (" ++ columns plan ++ $") VALUES ") in
  let* suffix := spine_snprintf BUFSIZE ($" ON DUPLICATE KEY UPDATE ") in
  let* suffix := append_updates true (tr_updates plan) suffix in
  Ok (q, prefix, suffix).

(** ** Rows *)

Definition escaped_size : Z := DBL_BUFSIZE * 2.

(** NULL, or the escaped value in quotes. *)
Definition field_sql (escape : cstr → cstr) (v : option cstr) : cstr :=
  match v with
  | None => $"NULL"
  | Some t => $"'" ++ Sql.db_escape escape [] escaped_size (Some t) ++ $"'"
  end.
Fixpoint append_fields (escape : cstr → cstr) (capacity : Z) (row : row_t) (index n : nat) (output : cstr) : outcome cstr :=
  match n with
  | O => Ok output
  | S n' =>
      let* output := append_sql capacity output ((match index with O => [] | _ => $", " end) ++ field_sql escape (column row index)) in
      append_fields escape capacity row (S index) n' output
  end.
Definition transfer_row (escape : cstr → cstr) (row : row_t) (n : nat) (capacity : Z) : outcome cstr :=
  let* output := spine_snprintf capacity ($"(") in
  let* output := append_fields escape capacity row 0 n output in
  append_sql capacity output ($")").

Section Batches.
Context {W : Type} `{StatementSink W} (escape : cstr → cstr) (destination : conn) (plan : poller_transfer_t) (prefix suffix : cstr).

Definition transfer_batch (w : W) (buffer : cstr) : outcome (bool * W) :=
  let* statement := append_sql HUGE_BUFSIZE buffer suffix in
  insert w destination REMOTE statement.

Definition row_capacity : Z := Z.of_nat (field_count plan) * (DBL_BUFSIZE * 2 + 4) + 2.

(** [while ((row = mysql_fetch_row(result)) != NULL)]: success, the buffer, the rows in
    it. *)
Fixpoint transfer_rows (w : W) (rows_left : list row_t) (buffer : cstr) (rows : nat) : outcome (bool * cstr * nat * W) :=
  match rows_left with
  | [] => Ok (true, buffer, rows, w)
  | row :: rows_left' =>
      let* row_sql := transfer_row escape row (field_count plan) row_capacity in
      let* (ok, rows, w) :=
        (if (0 <? rows)%nat && ((Z.of_nat rows =? row_limit plan) || (HUGE_BUFSIZE - slen buffer <? slen row_sql + slen suffix + 3))
         then let* (ok, w) := transfer_batch w buffer in Ok (ok, 0%nat, w) else Ok (true, rows, w)) in
      if negb ok then Ok (false, buffer, rows, w) else
      let* buffer := (match rows with O => spine_snprintf HUGE_BUFSIZE prefix | S _ => append_sql HUGE_BUFSIZE buffer ($", ") end) in
      let* buffer := append_sql HUGE_BUFSIZE buffer row_sql in
      transfer_rows w rows_left' buffer (S rows)
  end.

(** All rows, then the batch that is left; [fetch_error] is [mysql_errno(source)], read after
    the loop. *)
Definition transfer_result (w : W) (rows_left : list row_t) (fetch_error : W → Z) : outcome (bool * W) :=
  let* (success, buffer, rows, w) := transfer_rows w rows_left [] 0 in
  let success := success && (fetch_error w =? 0) in
  if success && (0 <? rows)%nat then transfer_batch w buffer else Ok (success, w).

End Batches.

(** ** The tables *)

Section Status.
Context {W : Type} `{MySQL W} (set : config_t) (ssl : list mysql_feature) (fetch_error : W → conn → Z).
#[local] Instance sink : StatementSink W := db_sink set ssl.

Definition transfer_table (w : W) (source destination : conn) (plan : poller_transfer_t) : outcome (bool * W) :=
  let* (q, prefix, suffix) := transfer_queries set plan in
  let* (result, w) := Sql.db_query set ssl w source LOCAL q in
  match result with
  | None => Ok (false, w)
  | Some r =>
      if negb (res_fields r =? Z.of_nat (field_count plan)) then Ok (false, w)
      else transfer_result (mysql_real_escape_string w destination) destination plan prefix suffix w (res_rows r) (fun w => fetch_error w source)
  end.

Definition host_plan : poller_transfer_t := {|
  table := $"host";
  columns := $"id, snmp_sysDescr, snmp_sysObjectID, snmp_sysUpTimeInstance, snmp_sysContact, snmp_sysName, snmp_sysLocation, status, status_event_count, status_fail_date, status_rec_date, status_last_error, min_time, max_time, cur_time, avg_time, polling_time, total_polls, failed_polls, availability, last_updated";
  filter_column := $"id"; order_column := $"id";
  tr_updates := [$"snmp_sysDescr"; $"snmp_sysObjectID"; $"snmp_sysUpTimeInstance"; $"snmp_sysContact"; $"snmp_sysName"; $"snmp_sysLocation";
    $"status"; $"status_event_count"; $"status_fail_date"; $"status_rec_date"; $"status_last_error"; $"min_time"; $"max_time";
    $"cur_time"; $"avg_time"; $"polling_time"; $"total_polls"; $"failed_polls"; $"availability"; $"last_updated"];
  field_count := 21; row_limit := 500 |}.
Definition item_plan : poller_transfer_t := {|
  table := $"poller_item"; columns := $"local_data_id, host_id, rrd_name, rrd_step, rrd_next_step";
  filter_column := $"host_id"; order_column := $"local_data_id, rrd_name"; tr_updates := [$"rrd_next_step"];
  field_count := 5; row_limit := 10000 |}.

Definition poller_transfer_status (w : W) (source destination : conn) : outcome (bool * W) :=
  let* (ok, w) := transfer_table w source destination host_plan in
  if negb ok then Ok (false, w) else transfer_table w source destination item_plan.

(** [a && b && ...] over statements. *)
Fixpoint insert_all (w : W) (stmts : list (conn * Z * cstr)) : outcome (bool * W) :=
  match stmts with
  | [] => Ok (true, w)
  | (c, t, q) :: stmts' => let* (ok, w) := Sql.db_insert set ssl w c t q in if ok : bool then insert_all w stmts' else Ok (false, w)
  end.

Definition zero_date_mode : cstr := $"SET SESSION sql_mode = (SELECT REPLACE(@@sql_mode,'NO_ZERO_DATE', ''))".
Definition group_by_mode : cstr := $"SET SESSION sql_mode = (SELECT REPLACE(@@sql_mode,'ONLY_FULL_GROUP_BY', ''))".

(** Whether the exit code becomes EXIT_FAILURE. *)
Definition poller_push_data_to_main (w : W) (source destination : conn) : outcome (bool * W) :=
  let* (ok, w) := Connection.db_connect set ssl w LOCAL source in
  if negb ok then Ok (true, mysql_close w source) else
  let* (ok, w) := Connection.db_connect set ssl w REMOTE destination in
  if negb ok then Ok (true, mysql_close (mysql_close w destination) source) else
  let* (configured, w) := insert_all w [(source, LOCAL, zero_date_mode); (source, LOCAL, group_by_mode);
                                        (destination, REMOTE, zero_date_mode); (destination, REMOTE, group_by_mode)] in
  let* (done_, w) := (if configured : bool then poller_transfer_status w source destination else Ok (false, w)) in
  Ok (negb done_, mysql_close (mysql_close w source) destination).

Definition end_time_query (pid : Z) : cstr :=
  snprintf_s BIG_BUFSIZE ($"UPDATE poller_time SET end_time=NOW() WHERE poller_id=" ++ sdec (poller_id set) ++ $" AND pid=" ++ sdec pid).

(** The two handles of the transfer are locals of the function; [local_base] and
    [remote_base] are the pools, if they exist. *)
Definition persist_poll_completion (w : W) (mysql mysqlr source destination : conn) (local_base remote_base : option nat)
    (pid md : Z) : outcome (bool * W) :=
  let* (exit_failure, w) := (if (1 <? poller_id set) && (mode set =? REMOTE_ONLINE) && negb (SQL_readonly set)
                             then poller_push_data_to_main w source destination else Ok (false, w)) in
  let* w := (if negb (ping_only set) then
               let* (_, w) := (if poller_id set =? 1
                               then Sql.db_insert set ssl w mysql LOCAL ($"REPLACE INTO settings (name,value) VALUES ('date',NOW())")
                               else Ok (true, w)) in
               let* (_, w) := (if md =? REMOTE then Sql.db_insert set ssl w mysqlr REMOTE (end_time_query pid)
                               else Sql.db_insert set ssl w mysql LOCAL (end_time_query pid)) in Ok w
             else Ok w) in
  let w := match local_base with Some b => Pool.db_close_connection_pool set w b | None => w end in
  let w := match remote_base with Some b => Pool.db_close_connection_pool set w b | None => w end in
  Ok (exit_failure, w).

End Status.
End Transfer.

(** * Facts *)

Module TransferFacts.
Import Queries QueriesFacts Persist PersistFacts Transfer.

(** ** What the statements should be *)

Fixpoint join (sep : cstr) (l : list cstr) : cstr :=
  match l with
  | [] => []
  | x :: l' => match l' with [] => x | _ => x ++ sep ++ join sep l' end
  end.
Lemma join_snoc sep l x : l ≠ [] → join sep (l ++ [x]) = join sep l ++ sep ++ x.
Proof.
  induction l as [|y l IH]; intros Hl; [done|]. destruct l as [|z l]; [done|].
  change (y ++ sep ++ join sep ((z :: l) ++ [x]) = (y ++ sep ++ join sep (z :: l)) ++ sep ++ x).
  rewrite IH by done. by rewrite <- !app_assoc.
Qed.

Definition row_text (escape : cstr → cstr) (n : nat) (row : row_t) : cstr :=
  $"(" ++ join ($", ") (map (fun i => field_sql escape (column row i)) (seq 0 n)) ++ $")".
Definition batch_text (prefix suffix : cstr) (rows : list cstr) : cstr := prefix ++ join ($", ") rows ++ suffix.

(** [mysql_real_escape_string] at most doubles its input. *)
Definition doubles (escape : cstr → cstr) : Prop := ∀ s, slen (escape s) ≤ 2 * slen s.

Lemma field_sql_bound escape v : doubles escape → slen (field_sql escape v) ≤ 4096.
Proof.
  intros He. destruct v as [t|]; cbn [field_sql]; [|done]. rewrite !slen_app. change (slen ($"'")) with 1.
  unfold Sql.db_escape. change (escaped_size <=? 1) with false. cbv iota zeta. change ((escaped_size - 1) / 2) with 2047.
  set (n := if _ : bool then _ else _). assert (Hn : n ≤ 2047) by (unfold n; destruct (Z.ltb_spec 2047 (slen t)); lia).
  pose proof (He (take (Z.to_nat n) t)) as Hd. rewrite slen_take in Hd. lia.
Qed.

Lemma append_fields_ok escape row n : doubles escape → ∀ m i out,
  (i + m = n)%nat → (match i with O => out = $"(" | _ => out = $"(" ++ join ($", ") (map (fun j => field_sql escape (column row j)) (seq 0 i)) end) →
  slen out ≤ 1 + 4098 * Z.of_nat i →
  ∃ out', append_fields escape (Z.of_nat n * 4100 + 2) row i m out = Ok out' ∧
    slen out' ≤ 1 + 4098 * Z.of_nat n ∧
    match n with O => out' = $"(" | _ => out' = $"(" ++ join ($", ") (map (fun j => field_sql escape (column row j)) (seq 0 n)) end.
Proof.
  intros He m. induction m as [|m IH]; intros i out Hn Hout Hlen; cbn [append_fields].
  { exists out. replace n with i by lia. done. }
  pose proof (field_sql_bound escape (column row i) He) as Hb.
  assert (Hs : slen ((match i with O => [] | S _ => $", " end) ++ field_sql escape (column row i)) ≤ 4098).
  { rewrite slen_app. destruct i; [change (slen []) with 0|change (slen ($", ")) with 2]; lia. }
  rewrite append_sql_ok by lia. cbn [obind]. apply IH; [lia| |rewrite slen_app; lia].
  destruct i as [|i].
  - rewrite Hout. reflexivity.
  - rewrite Hout, (seq_S (S i)), map_app. cbn [map]. rewrite join_snoc; [by rewrite !app_assoc|done].
Qed.

Lemma transfer_row_ok escape row n : doubles escape → (0 < n)%nat →
  transfer_row escape row n (Z.of_nat n * (DBL_BUFSIZE * 2 + 4) + 2) = Ok (row_text escape n row) ∧
  slen (row_text escape n row) < Z.of_nat n * (DBL_BUFSIZE * 2 + 4) + 2.
Proof.
  intros He Hn. change (DBL_BUFSIZE * 2 + 4) with 4100. unfold transfer_row. change (slen ($"(")) with 1.
  rewrite spine_snprintf_ok by (change (slen ($"(")) with 1; lia). cbn [obind].
  destruct (append_fields_ok escape row n He n 0 ($"(") eq_refl eq_refl) as (out & -> & Hl & Hout); [by change (slen ($"(")) with 1|].
  cbn [obind]. destruct n as [|n]; [lia|]. assert (Hrow : row_text escape (S n) row = out ++ $")") by (rewrite Hout; unfold row_text; by rewrite app_assoc).
  rewrite Hrow, append_sql_ok by (change (slen ($")")) with 1; lia). split; [done|]. rewrite slen_app. change (slen ($")")) with 1. lia.
Qed.

Section Batch.
Context {W : Type} (I : StatementSink W) (escape : cstr → cstr) (destination : conn) (plan : poller_transfer_t) (prefix suffix : cstr).
Hypothesis He : doubles escape.
Hypothesis Hfields : (0 < field_count plan)%nat.
Hypothesis Hlimit : 1 ≤ row_limit plan.
Hypothesis Hfits : slen prefix + row_capacity plan + slen suffix ≤ HUGE_BUFSIZE.
Abbreviation text := (row_text escape (field_count plan)).

(** The batches sent, the batch in the buffer, and the statements so far, all accepted. *)
Record tinv (batches : list (list cstr)) (cur : list cstr) (buffer : cstr) (rows : nat) (log : list executed) : Prop := {
  ti_rows : rows = length cur;
  ti_buffer : cur ≠ [] → buffer = prefix ++ join ($", ") cur ∧ slen buffer + slen suffix < HUGE_BUFSIZE;
  ti_limit : Z.of_nat rows ≤ row_limit plan;
  ti_batches : Forall (fun b => 1 ≤ Z.of_nat (length b) ≤ row_limit plan) batches;
  ti_log : log = map (fun b => verdict true destination REMOTE (batch_text prefix suffix b)) batches }.

Lemma batch_logged w log cur buffer : buffer = prefix ++ join ($", ") cur → slen buffer + slen suffix < HUGE_BUFSIZE →
  transfer_batch (H := logged I) destination suffix (w, log) buffer =
  let* (ok, w) := I w destination REMOTE (batch_text prefix suffix cur) in
  Ok (ok, (w, log ++ [verdict ok destination REMOTE (batch_text prefix suffix cur)])).
Proof.
  intros -> Hl. unfold transfer_batch. rewrite append_sql_ok by done. cbn [obind]. unfold insert, logged, batch_text.
  by rewrite <- app_assoc.
Qed.

Lemma append_row_inv batches cur buffer rows log row :
  tinv batches cur buffer rows log → Z.of_nat rows < row_limit plan →
  (rows = 0%nat ∨ slen (text row) + slen suffix + 3 ≤ HUGE_BUFSIZE - slen buffer) →
  ∃ buffer1 buffer2, (match rows with O => spine_snprintf HUGE_BUFSIZE prefix | S _ => append_sql HUGE_BUFSIZE buffer ($", ") end) = Ok buffer1 ∧
    append_sql HUGE_BUFSIZE buffer1 (text row) = Ok buffer2 ∧ tinv batches (cur ++ [text row]) buffer2 (S rows) log.
Proof.
  intros [I1 I2 I3 I4 I5] Hlt Hroom. destruct (transfer_row_ok escape row (field_count plan) He Hfields) as [_ Hrow].
  unfold row_capacity in Hfits. pose proof (slen_nonneg suffix). pose proof (slen_nonneg (text row)). destruct rows as [|n].
  - destruct cur; [|done]. exists prefix, (prefix ++ text row). rewrite spine_snprintf_ok, append_sql_ok by lia.
    split; [done|]. split; [done|]. constructor; try done; try lia. intros _. rewrite slen_app. split; [done|lia].
  - destruct Hroom as [|Hroom]; [done|]. assert (Hne : cur ≠ []) by (by destruct cur). destruct (I2 Hne) as [Hb Hlen].
    rewrite append_sql_ok by (change (slen ($", ")) with 2; lia). eexists _, _. split; [done|].
    rewrite append_sql_ok by (rewrite slen_app; change (slen ($", ")) with 2; lia). split; [done|]. constructor; try done; try lia.
    + rewrite I1, length_app. cbn. lia.
    + intros _. rewrite join_snoc by done. rewrite Hb at 1. rewrite !slen_app in *. change (slen ($", ")) with 2.
      split; [by rewrite <- !app_assoc|lia].
Qed.

Lemma forallb_verdicts batches :
  forallb ex_ok (map (fun b => verdict true destination REMOTE (batch_text prefix suffix b)) batches) = true.
Proof. by induction batches. Qed.

(** The outcome of a transfer: what was sent, and what of it was accepted. *)
Definition sent (todo : list cstr) (log : list executed) (ok : bool) : Prop :=
  ∃ batches rest, concat batches ++ rest = todo ∧ Forall (fun b => 1 ≤ Z.of_nat (length b) ≤ row_limit plan) batches ∧
    ex_text <$> log = map (batch_text prefix suffix) batches ∧ Forall (fun e => ex_conn e = destination ∧ ex_type e = REMOTE) log ∧
    forallb ex_ok (removelast log) = true ∧ forallb ex_ok log = ok ∧ (ok = false → log ≠ []).

Lemma sent_batch batches cur rest ok : cur ≠ [] → Z.of_nat (length cur) ≤ row_limit plan →
  Forall (fun b => 1 ≤ Z.of_nat (length b) ≤ row_limit plan) batches →
  sent (concat batches ++ cur ++ rest)
    (map (fun b => verdict true destination REMOTE (batch_text prefix suffix b)) batches ++ [verdict ok destination REMOTE (batch_text prefix suffix cur)]) ok.
Proof.
  intros Hne Hle Hb. assert (1 ≤ Z.of_nat (length cur)) by (destruct cur; [done|cbn; lia]).
  exists (batches ++ [cur]), rest. split; [rewrite concat_app; cbn; by rewrite app_nil_r, <- app_assoc|].
  split; [apply Forall_app; split; [done|by repeat constructor]|].
  split; [rewrite fmap_app, map_app; f_equal; clear; induction batches as [|b l IH]; cbn; [done|by f_equal]|].
  split; [apply Forall_app; split; [apply Forall_map, Forall_true; done|by repeat constructor]|].
  split; [rewrite removelast_last; apply forallb_verdicts|].
  split; [rewrite forallb_app, forallb_verdicts; cbn; apply andb_true_r|]. intros _ Hl. by apply app_eq_nil in Hl as [_ ?].
Qed.

Lemma transfer_rows_spec rows_left : ∀ w batches cur buffer rows log, tinv batches cur buffer rows log →
  match transfer_rows (H := logged I) escape destination plan prefix suffix (w, log) rows_left buffer rows with
  | Ok (true, buffer', rows', (_, log')) =>
      ∃ batches' cur', tinv batches' cur' buffer' rows' log' ∧ concat batches' ++ cur' = (concat batches ++ cur) ++ map text rows_left
  | Ok (false, _, _, (_, log')) => sent ((concat batches ++ cur) ++ map text rows_left) log' false
  | Died e => dies I e
  end.
Proof.
  induction rows_left as [|row rows_left IH]; intros w batches cur buffer rows log Hi; cbn [transfer_rows map].
  { exists batches, cur. by rewrite app_nil_r. }
  unfold row_capacity at 1. destruct (transfer_row_ok escape row (field_count plan) He Hfields) as [-> _]. cbn [obind].
  set (full := (0 <? rows)%nat && _). destruct full eqn:Ef.
  - pose proof Hi as [I1 I2 I3 I4 I5]. apply andb_true_iff in Ef as [Hpos%Nat.ltb_lt _]. assert (Hne : cur ≠ []) by (destruct cur; [cbn in I1; lia|done]).
    destruct (I2 Hne) as [Hb Hlen]. rewrite (batch_logged w log cur buffer Hb Hlen).
    destruct (I w destination REMOTE (batch_text prefix suffix cur)) as [[ok w1]|e] eqn:EI; cbn [obind]; [|by exists w, destination, REMOTE, (batch_text prefix suffix cur)].
    destruct ok; cbn [negb].
    + set (log1 := log ++ _). assert (Hi1 : tinv (batches ++ [cur]) [] buffer 0 log1).
      { constructor; try done; [lia| |].
        - apply Forall_app. split; [done|]. constructor; [|constructor]. destruct cur; [done|]. cbn in *. lia.
        - unfold log1. by rewrite map_app, I5. }
      destruct (append_row_inv (batches ++ [cur]) [] buffer 0 log1 row Hi1 ltac:(lia) ltac:(by left)) as (b1 & b2 & -> & H2 & H3).
      cbn [obind]. rewrite H2. cbn [obind]. specialize (IH w1 _ _ _ _ _ H3).
      assert (Et : (concat (batches ++ [cur]) ++ [] ++ [text row]) ++ map text rows_left = (concat batches ++ cur) ++ text row :: map text rows_left).
      { rewrite concat_app. cbn [concat app]. by rewrite app_nil_r, <- !app_assoc. }
      rewrite Et in IH. exact IH.
    + rewrite I5, <- app_assoc. apply sent_batch; [done|lia|done].
  - cbn [obind negb]. assert (Hroom : Z.of_nat rows < row_limit plan ∧ (rows = 0%nat ∨ slen (text row) + slen suffix + 3 ≤ HUGE_BUFSIZE - slen buffer)).
    { unfold full in Ef. pose proof (ti_limit _ _ _ _ _ Hi). destruct rows as [|n]; [split; [lia|by left]|]. cbn [Nat.ltb Nat.leb andb] in Ef.
      apply orb_false_iff in Ef as [E1%Z.eqb_neq E2%Z.ltb_ge]. split; [lia|]. right. lia. }
    destruct (append_row_inv batches cur buffer rows log row Hi (proj1 Hroom) (proj2 Hroom)) as (b1 & b2 & -> & H2 & H3).
    cbn [obind]. rewrite H2. cbn [obind]. specialize (IH w _ _ _ _ _ H3).
    assert (Et : (concat batches ++ cur ++ [text row]) ++ map text rows_left = (concat batches ++ cur) ++ text row :: map text rows_left).
    { by rewrite <- !app_assoc. }
    rewrite Et in IH. exact IH.
Qed.

End Batch.

End TransferFacts.
Import TransferFacts.

(** * Properties *)

(** C12: a table reaches the main server row by row, in order, each row once.  Whatever
    executes the statements, and for rows of any content that the escaping at most
    doubles: the statements sent are, batch by batch, the INSERT of 1 to [row_limit] of
    the rows in order, none overflowing its buffer; nothing is sent after a rejected
    statement; success is reported exactly when every statement was accepted and the rows
    were fetched without error, which is asked once they all were, before the last batch at
    most is sent; and then every row was sent.  The process ends only if executing a
    statement ends it. *)
Theorem transfer_complete {W} (I : StatementSink W) (escape : cstr → cstr) (destination : conn) (plan : Transfer.poller_transfer_t)
  (prefix suffix : cstr) (w : W) (rows : list row_t) (fetch_error : W * list PersistFacts.executed → Z)
  (He : doubles escape) (Hfields : (0 < Transfer.field_count plan)%nat) (Hlimit : 1 ≤ Transfer.row_limit plan)
  (Hfits : slen prefix + Transfer.row_capacity plan + slen suffix ≤ HUGE_BUFSIZE) :
  let texts := map (row_text escape (Transfer.field_count plan)) rows in
  match Transfer.transfer_result (H := PersistFacts.logged I) escape destination plan prefix suffix (w, []) rows fetch_error with
  | Ok (success, (_, log)) =>
      ∃ batches rest, concat batches ++ rest = texts ∧
        Forall (fun b => 1 ≤ Z.of_nat (length b) ≤ Transfer.row_limit plan) batches ∧
        PersistFacts.ex_text <$> log = map (batch_text prefix suffix) batches ∧
        Forall (fun e => PersistFacts.ex_conn e = destination ∧ PersistFacts.ex_type e = REMOTE) log ∧
        forallb PersistFacts.ex_ok (removelast log) = true ∧
        (success = true → rest = []) ∧
        ∃ w1 log1, (log1 = log ∨ fetch_error (w1, log1) = 0 ∧ ∃ last, log = log1 ++ [last]) ∧
          success = forallb PersistFacts.ex_ok log && (fetch_error (w1, log1) =? 0)
  | Died e => PersistFacts.dies I e
  end.
Proof.
  intros texts. unfold Transfer.transfer_result.
  assert (Hi : tinv destination plan prefix suffix [] [] [] 0 []) by (constructor; try done; lia).
  pose proof (transfer_rows_spec I escape destination plan prefix suffix He Hfields Hlimit Hfits rows w [] [] [] 0 [] Hi) as Hs.
  destruct (Transfer.transfer_rows _ _ _ _ _ _ _ _ _) as [[[[success buffer] n] [w1 log]]|e]; cbn [obind]; [|done].
  cbn [concat app] in Hs. fold texts in Hs. destruct success; cbn [andb].
  - destruct Hs as (batches & cur & [I1 I2 I3 I4 I5] & Hall).
    assert (Hlog : PersistFacts.ex_text <$> log = map (batch_text prefix suffix) batches ∧
                   Forall (fun e => PersistFacts.ex_conn e = destination ∧ PersistFacts.ex_type e = REMOTE) log ∧
                   forallb PersistFacts.ex_ok (removelast log) = true ∧ forallb PersistFacts.ex_ok log = true).
    { rewrite I5. split_and!.
      - clear. induction batches as [|b l IH]; cbn; [done|by f_equal].
      - apply Forall_map, Forall_true. done.
      - destruct batches as [|b l] using rev_ind; [done|]. rewrite map_app. cbn [map]. rewrite removelast_last. apply forallb_verdicts.
      - apply forallb_verdicts. }
    destruct Hlog as (L1 & L2 & L3 & L4). destruct (fetch_error (w1, log) =? 0) eqn:Ef; cbn [andb].
    + destruct (0 <? n)%nat eqn:En.
      * assert (Hne : cur ≠ []) by (destruct cur; [rewrite I1 in En; done|done]). destruct (I2 Hne) as [Hb Hlen].
        rewrite (batch_logged I destination prefix suffix w1 log cur buffer Hb Hlen).
        destruct (I w1 destination REMOTE (batch_text prefix suffix cur)) as [[ok w2]|e] eqn:EI; cbn [obind];
          [|by exists w1, destination, REMOTE, (batch_text prefix suffix cur)].
        destruct (sent_batch destination plan prefix suffix Hfields batches cur [] ok Hne ltac:(lia) I4) as (bs & rest & S1 & S2 & S3 & S4 & S5 & S6 & _).
        rewrite app_nil_r, Hall in S1. exists (batches ++ [cur]), []. rewrite I5. split_and!; try done.
        -- rewrite concat_app. cbn. by rewrite !app_nil_r.
        -- apply Forall_app. split; [done|]. constructor; [|constructor]. destruct cur; [done|]. cbn in *. lia.
        -- rewrite fmap_app, map_app. rewrite I5 in L1. by rewrite L1.
        -- exists w1, log. split; [right; split; [by apply Z.eqb_eq|eexists; by rewrite I5]|]. by rewrite Ef, S6, andb_true_r.
      * destruct cur; [|apply Nat.ltb_ge in En; cbn in I1; lia]. exists batches, []. split_and!; try done.
        exists w1, log. split; [by left|]. by rewrite L4, Ef.
    + exists batches, cur. split_and!; try done. exists w1, log. split; [by left|]. by rewrite L4, Ef.
  - destruct Hs as (batches & rest & S1 & S2 & S3 & S4 & S5 & S6 & _). exists batches, rest. split_and!; try done.
    exists w1, log. split; [by left|]. by rewrite S6.
Qed.

Lemma transfer_complete_witness :
  match Transfer.transfer_result (H := PersistFacts.logged accepting) (fun s => s) 1%nat Transfer.item_plan
          ($"INSERT INTO poller_item (local_data_id, host_id, rrd_name, rrd_step, rrd_next_step) VALUES ") ($" ON DUPLICATE KEY UPDATE rrd_next_step=VALUES(rrd_next_step)")
          (0, []) [[Some ($"1"); Some ($"7"); Some ($"in"); Some ($"300"); None]; [Some ($"2"); Some ($"7"); Some ($"out"); Some ($"300"); Some ($"0")]] (fun _ => 0) with
  | Ok (success, (_, log)) =>
      success = true ∧
      PersistFacts.ex_text <$> log = [$"INSERT INTO poller_item (local_data_id, host_id, rrd_name, rrd_step, rrd_next_step) VALUES ('1', '7', 'in', '300', NULL), ('2', '7', 'out', '300', '0') ON DUPLICATE KEY UPDATE rrd_next_step=VALUES(rrd_next_step)"] ∧
      forallb PersistFacts.ex_ok (removelast log) = true
  | Died _ => False
  end.
Proof.
  pose proof (transfer_complete accepting (fun s => s) 1%nat Transfer.item_plan
    ($"INSERT INTO poller_item (local_data_id, host_id, rrd_name, rrd_step, rrd_next_step) VALUES ") ($" ON DUPLICATE KEY UPDATE rrd_next_step=VALUES(rrd_next_step)")
    0 [[Some ($"1"); Some ($"7"); Some ($"in"); Some ($"300"); None]; [Some ($"2"); Some ($"7"); Some ($"out"); Some ($"300"); Some ($"0")]] (fun _ => 0)
    ltac:(intros s; pose proof (slen_nonneg s); lia) ltac:(cbn; lia) ltac:(by vm_compute) ltac:(by vm_compute)) as H.
  cbv zeta in H. match type of H with match ?x with _ => _ end => set (r := x) in * end. vm_compute in r. subst r.
  destruct H as (_ & _ & _ & _ & _ & _ & H & _ & _). split; [reflexivity|]. split; [reflexivity|]. exact H.
Defined.
