(* ===== verification/Host.v ===== *)
(** Devices and their availability: src/src/poller/host.c and
    src/src/poller/availability.c.

    The network probes, the SNMP requests and the clock are an interface
    ([Class Probes]); logging is not modelled. *)

From S2P Require Import Prelude CLib Buffer Result Address Settings Sql.

Definition SNMPERR_SUCCESS : Z := 0.
Definition SNMPERR_UNKNOWN_OBJID : Z := -58.

(** What the availability check asks of the rest of the system.  The probes return
    HOST_UP or HOST_DOWN and fill the ping record; the SNMP requests update the device's
    SNMP status and ignore flag. *)
Class Probes (W : Type) := {
  ping_icmp : W → host_t → ping_t → Z * ping_t * W;
  ping_icmp_ipv6 : W → host_t → ping_t → Z * ping_t * W;
  ping_udp : W → host_t → ping_t → Z * ping_t * W;
  ping_tcp : W → host_t → ping_t → Z * ping_t * W;
  lookup_addresses : W → cstr → option (list Resolve.ai_family) * W;
  snmp_get : W → host_t → cstr → host_t * W;
  snmp_getnext : W → host_t → cstr → host_t * W;
  snmp_host_init : W → Z → cstr → snmp_profile_t → option nat * W;
  get_system_information : W → host_t → host_t * W;
  get_time_as_double : W → double * W;
  unix_time : W → Z * W }.

(** * Loading a device (host.c) *)

Module Host.

Definition host_metadata_defaults (set : config_t) : host_t := {|
  host_id := 0; hostname := []; ignore_host := false;
  snmp := {| profile := {| community := []; version := 1; username := []; password := []; auth_protocol := [];
                           priv_passphrase := []; priv_protocol := []; context := []; engine_id := [];
                           port := 161; timeout := 500 |};
             retries := snmp_retries set; max_oids := 10; session := None; snmp_status := 0 |};
  system := {| snmp_sysDescr := []; snmp_sysObjectID := []; snmp_sysUpTimeInstance := 0; snmp_sysContact := [];
               snmp_sysName := []; snmp_sysLocation := [] |};
  host_avail := {| av_method := 0; av_ping_method := 0; av_port := 23; av_timeout := 500; av_retries := 2 |};
  hstate := {| status := HOST_UP; status_event_count := 0; status_fail_date := []; status_rec_date := []; status_last_error := [] |};
  statistics := {| min_time := dzero; max_time := dzero; cur_time := dzero; avg_time := dzero; total_polls := 0;
                   failed_polls := 0; availability := of_int 100 |} |}.

(** [if (row[i] != NULL) field = f(row[i])]. *)
Definition from_row {A} (row : row_t) (i : nat) (f : cstr → A) (old : A) : A :=
  match column row i with Some v => f v | None => old end.
Definition copy_row (row : row_t) (i : nat) (cap : Z) (old : cstr) : cstr := from_row row i (strncopy_s cap) old.

Definition host_metadata_connection (host : host_t) (row : row_t) : host_t :=
  let a := host_avail host in let s := snmp host in let p := profile s in
  {| host_id := from_row row 0 atoi (host_id host);
     hostname := from_row row 1 (fun v => strncopy_s 250 (HostSpec.nm_hostname (HostSpec.get_namebyhost v))) (hostname host);
     ignore_host := false;
     snmp := {| profile := {| community := copy_row row 2 100 (community p); version := from_row row 3 atoi (version p);
                              username := copy_row row 4 50 (username p); password := copy_row row 5 50 (password p);
                              auth_protocol := copy_row row 6 7 (auth_protocol p);
                              priv_passphrase := copy_row row 7 200 (priv_passphrase p);
                              priv_protocol := copy_row row 8 8 (priv_protocol p); context := copy_row row 9 65 (context p);
                              engine_id := copy_row row 10 30 (engine_id p); port := from_row row 11 atoi (port p);
                              timeout := from_row row 12 atoi (timeout p) |};
                retries := retries s; max_oids := from_row row 13 atoi (max_oids s); session := session s;
                snmp_status := snmp_status s |};
     system := system host;
     host_avail := {| av_method := av_method a; av_ping_method := av_ping_method a;
                      av_port := from_row row 1 (fun v => HostSpec.nm_port (HostSpec.get_namebyhost v)) (av_port a);
                      av_timeout := av_timeout a; av_retries := av_retries a |};
     hstate := hstate host; statistics := statistics host |}.

Definition host_metadata_status (host : host_t) (row : row_t) : host_t :=
  let a := host_avail host in let s := hstate host in
  set_state {| status := from_row row 19 atoi (status s); status_event_count := from_row row 20 atoi (status_event_count s);
               status_fail_date := copy_row row 21 40 (status_fail_date s); status_rec_date := copy_row row 22 40 (status_rec_date s);
               status_last_error := copy_row row 23 (BUFSIZE * 2 + 2) (status_last_error s) |}
  (set_avail {| av_method := from_row row 14 atoi (av_method a); av_ping_method := from_row row 15 atoi (av_ping_method a);
                av_port := from_row row 16 atoi (av_port a); av_timeout := from_row row 17 atoi (av_timeout a);
                av_retries := from_row row 18 atoi (av_retries a) |} host).

Definition host_metadata_statistics (host : host_t) (row : row_t) : host_t :=
  let s := statistics host in
  set_statistics {| min_time := from_row row 24 atof (min_time s); max_time := from_row row 25 atof (max_time s);
                    cur_time := from_row row 26 atof (cur_time s); avg_time := from_row row 27 atof (avg_time s);
                    total_polls := from_row row 28 atoi (total_polls s); failed_polls := from_row row 29 atoi (failed_polls s);
                    availability := from_row row 30 atof (availability s) |} host.

Definition host_metadata_system (escape : cstr → cstr) (host : host_t) (row : row_t) : host_t :=
  let s := system host in
  let esc i cap old := from_row row i (fun v => Sql.db_escape escape old cap (Some v)) old in
  set_system {| snmp_sysDescr := esc 32%nat 600 (snmp_sysDescr s); snmp_sysObjectID := esc 33%nat 160 (snmp_sysObjectID s);
                snmp_sysUpTimeInstance := from_row row 31 (fun v => wrap_u 64 (atoll v)) (snmp_sysUpTimeInstance s);
                snmp_sysContact := esc 34%nat 300 (snmp_sysContact s); snmp_sysName := esc 35%nat 300 (snmp_sysName s);
                snmp_sysLocation := esc 36%nat 600 (snmp_sysLocation s) |} host.

Definition load_host_metadata (set : config_t) (escape : cstr → cstr) (row : row_t) : host_t :=
  let host := host_metadata_defaults set in
  let host := host_metadata_connection host row in
  let host := host_metadata_status host row in
  let host := host_metadata_statistics host row in
  let host := host_metadata_system escape host row in
  if (max_oids (snmp host) =? 0) || (100 <? max_oids (snmp host)) then set_max_oids 5 host else host.

Definition initialize_host_snmp {W} `{Probes W} (w : W) (host : host_t) : host_t * W :=
  let p := profile (snmp host) in
  if ((1 <=? version p) && (version p <=? 2) && (0 <? slen (community p))) || (version p =? 3) then
    let '(s, w) := snmp_host_init w (host_id host) (hostname host) p in (set_session s host, w)
  else (set_session None host, w).

End Host.

(** * Availability (availability.c) *)

Module Availability.

Definition set_ping (st resp : cstr) (p : ping_t) : ping_t :=
  {| ping_status := st; ping_response := resp; snmp_ping_status := snmp_ping_status p; snmp_response := snmp_response p |}.
Definition set_snmp_ping (st resp : cstr) (p : ping_t) : ping_t :=
  {| ping_status := ping_status p; ping_response := ping_response p; snmp_ping_status := st; snmp_response := resp |}.

Definition set_ping_method (m : Z) (h : host_t) : host_t :=
  let a := host_avail h in
  set_avail {| av_method := av_method a; av_ping_method := m; av_port := av_port a; av_timeout := av_timeout a; av_retries := av_retries a |} h.

Section Check.
Context {W : Type} `{Probes W} (set : config_t).

Definition ping_network (w : W) (host : host_t) (ping : ping_t) : Z * host_t * ping_t * W :=
  let host := if (av_ping_method (host_avail host) =? PING_ICMP) && negb (icmp_avail set) then set_ping_method PING_UDP host else host in
  if has_substr (hostname host) ($"localhost") then
    (HOST_UP, host, set_ping ($"0.000") ($"PING: Device does not require ping.") ping, w)
  else
    let '(addrs, w) := lookup_addresses w (HostSpec.ping_address (hostname host) BUFSIZE) in
    let address_type := Resolve.get_address_type addrs in
    let pm := av_ping_method (host_avail host) in
    if (address_type =? Resolve.SPINE_IPV6) && (pm =? PING_ICMP) then
      let '(r, ping, w) := ping_icmp_ipv6 w host ping in (r, host, ping, w)
    else if negb (address_type =? Resolve.SPINE_IPV4) then
      (HOST_DOWN, host,
       (if av_method (host_avail host) =? AVAIL_PING
        then set_ping ($"0.000") ($"PING: Device is Unknown or is IPV6.  Please use the SNMP ping options only.") ping else ping), w)
    else if pm =? PING_ICMP then let '(r, ping, w) := ping_icmp w host ping in (r, host, ping, w)
    else if pm =? PING_UDP then let '(r, ping, w) := ping_udp w host ping in (r, host, ping, w)
    else if (pm =? PING_TCP) || (pm =? PING_TCP_CLOSED) then let '(r, ping, w) := ping_tcp w host ping in (r, host, ping, w)
    else (HOST_DOWN, host, ping, w).

Definition ping_snmp (w : W) (host : host_t) (ping : ping_t) : outcome (Z * host_t * ping_t * W) :=
  match session (snmp host) with
  | None => Ok (HOST_DOWN, host, set_snmp_ping ($"0.00") ($"Invalid SNMP Session") ping, w)
  | Some _ =>
      if bool_decide (community (profile (snmp host)) = []) && negb (version (profile (snmp host)) =? 3) then
        Ok (HOST_UP, host, set_snmp_ping ($"0.00") ($"Device does not require SNMP") ping, w)
      else
        let method := av_method (host_avail host) in
        let oid := if method =? AVAIL_SNMP_GET_NEXT then $".1.3"
                   else if method =? AVAIL_SNMP_GET_SYSDESC then $".1.3.6.1.2.1.1.1.0" else $".1.3.6.1.2.1.1.3.0" in
        let '(begin_, w) := get_time_as_double w in
        let '(host, w) := if method =? AVAIL_SNMP_GET_NEXT then snmp_getnext w host oid else snmp_get w host oid in
        let '(end_, w) := get_time_as_double w in
        let elapsed := dmul (dsub end_ begin_) (of_int 1000) in
        if (snmp_status (snmp host) =? SNMPERR_SUCCESS) || (snmp_status (snmp host) =? SNMPERR_UNKNOWN_OBJID) then
          let* st := spine_snprintf 50 (print_fixed 5 elapsed) in
          Ok (HOST_UP, host, set_snmp_ping st ($"Device responded to SNMP") ping, w)
        else Ok (HOST_DOWN, host, set_snmp_ping (snmp_ping_status ping) ($"Device did not respond to SNMP") ping, w)
  end.

Definition ping_snmp_availability (w : W) (host : host_t) (ping : ping_t) (ping_result : Z) : outcome (Z * host_t * ping_t * W) :=
  let method := av_method (host_avail host) in
  if (method =? AVAIL_SNMP_AND_PING) && negb (ping_result =? HOST_UP) then Ok (HOST_DOWN, host, ping, w)
  else if (method =? AVAIL_SNMP_OR_PING) && (ping_result =? HOST_UP) then Ok (HOST_UP, host, ping, w)
  else if bool_decide (community (profile (snmp host)) = []) && (version (profile (snmp host)) <? 3) then Ok (HOST_UP, host, ping, w)
  else
    let '(_, w) := get_time_as_double w in
    let* (r, host, ping, w) := ping_snmp w host ping in
    let '(_, w) := get_time_as_double w in
    Ok (r, host, ping, w).

Definition ping_host (w : W) (host : host_t) (ping : ping_t) : outcome (Z * host_t * ping_t * W) :=
  let method := av_method (host_avail host) in
  let '(network_result, host, ping, w) :=
    if (method =? AVAIL_SNMP_AND_PING) || (method =? AVAIL_PING) || (method =? AVAIL_SNMP_OR_PING)
    then ping_network w host ping else (HOST_DOWN, host, ping, w) in
  if (method =? AVAIL_SNMP_AND_PING) || (method =? AVAIL_SNMP_OR_PING) || (method =? AVAIL_SNMP) ||
     (method =? AVAIL_SNMP_GET_NEXT) || (method =? AVAIL_SNMP_GET_SYSDESC)
  then ping_snmp_availability w host ping network_result
  else if method =? AVAIL_PING then Ok (network_result, host, ping, w)
  else if method =? AVAIL_NONE then Ok (HOST_UP, host, ping, w)
  else Ok (HOST_DOWN, host, ping, w).

End Check.

Definition host_requires_snmp (host : host_t) : bool :=
  negb (bool_decide (community (profile (snmp host)) = [])) || (3 <=? version (profile (snmp host))).

(** ** Thresholds *)

Definition set_last_error (e : cstr) (s : host_state_t) : host_state_t :=
  {| status := status s; status_event_count := status_event_count s; status_fail_date := status_fail_date s;
     status_rec_date := status_rec_date s; status_last_error := e |}.
Definition with_event (st n : Z) (s : host_state_t) : host_state_t :=
  {| status := st; status_event_count := n; status_fail_date := status_fail_date s;
     status_rec_date := status_rec_date s; status_last_error := status_last_error s |}.
Definition set_fail_date (d : cstr) (s : host_state_t) : host_state_t :=
  {| status := status s; status_event_count := status_event_count s; status_fail_date := snprintf_s 40 d;
     status_rec_date := status_rec_date s; status_last_error := status_last_error s |}.
Definition set_rec_date (d : cstr) (s : host_state_t) : host_state_t :=
  {| status := status s; status_event_count := status_event_count s; status_fail_date := status_fail_date s;
     status_rec_date := snprintf_s 40 d; status_last_error := status_last_error s |}.

Definition host_failure_message (host : host_t) (ping : ping_t) (method : Z) : cstr :=
  snprintf_s (BUFSIZE * 2 + 1)
    (if (method =? AVAIL_SNMP_OR_PING) || (method =? AVAIL_SNMP_AND_PING) then
       if host_requires_snmp host then snmp_response ping ++ $", " ++ ping_response ping else ping_response ping
     else if method =? AVAIL_SNMP then
       if host_requires_snmp host then snmp_response ping else $"Device does not require SNMP"
     else ping_response ping).

(** The new state, and whether a message is issued. *)
Definition host_failure_transition (set : config_t) (s : host_state_t) (date : cstr) : host_state_t * bool :=
  if status s =? HOST_UP then
    let n := to_int (status_event_count s + 1) in
    let s := with_event (status s) n s in
    if ping_failure_count set <=? n then
      let s := with_event HOST_DOWN n s in
      (if ping_failure_count set =? 1 then set_fail_date date s else s, true)
    else (if n =? 1 then set_fail_date date s else s, false)
  else if status s =? HOST_RECOVERING then (with_event HOST_DOWN 1 s, false)
  else if status s =? HOST_UNKNOWN then (with_event HOST_DOWN 0 s, false)
  else (with_event (status s) (to_int (status_event_count s + 1)) s, false).

Definition host_recovery_transition (set : config_t) (s : host_state_t) (date : cstr) : host_state_t * bool :=
  if negb (status s =? HOST_DOWN) && negb (status s =? HOST_RECOVERING) then (with_event HOST_UP 0 s, false)
  else
    let s := if status s =? HOST_DOWN then with_event HOST_RECOVERING 1 s
             else with_event (status s) (to_int (status_event_count s + 1)) s in
    if ping_recovery_count set <=? status_event_count s then
      let s := with_event HOST_UP (status_event_count s) s in
      let s := if ping_recovery_count set =? 1 then set_rec_date date s else s in
      (with_event (status s) 0 s, true)
    else (if status_event_count s =? 1 then set_rec_date date s else s, false).

(** ** Response times *)

Definition host_response_time (host : host_t) (ping : ping_t) (method : Z) : double :=
  if method =? AVAIL_SNMP_AND_PING then
    if host_requires_snmp host then ddiv (dadd (atof (snmp_ping_status ping)) (atof (ping_status ping))) (of_int 2)
    else atof (ping_status ping)
  else if method =? AVAIL_SNMP then if host_requires_snmp host then atof (snmp_ping_status ping) else dzero
  else if method =? AVAIL_NONE then dzero
  else atof (ping_status ping).

Definition host_response_statistics (s : host_statistics_t) (ping_time : double) : host_statistics_t := {|
  cur_time := ping_time;
  max_time := if dlt (max_time s) ping_time then ping_time else max_time s;
  min_time := if dlt ping_time (min_time s) then ping_time else min_time s;
  avg_time := ddiv (dadd (dmul (of_int (to_int (total_polls s - 1 - failed_polls s))) (avg_time s)) ping_time)
                   (of_int (to_int (total_polls s - failed_polls s)));
  total_polls := total_polls s; failed_polls := failed_polls s; availability := availability s |}.

Definition set_counts (total failed_ : Z) (av : double) (s : host_statistics_t) : host_statistics_t := {|
  min_time := min_time s; max_time := max_time s; cur_time := cur_time s; avg_time := avg_time s;
  total_polls := total; failed_polls := failed_; availability := av |}.

(** The new device record and whether a message is issued; [now] is [time(NULL)]. *)
Definition update_host_status (set : config_t) (now : Z) (stat : Z) (host : host_t) (ping : ping_t) (availability_method : Z) :
    host_t * bool :=
  let current_date := snprintf_s 40 (udec now) in
  let sx := statistics host in
  let sx := set_counts (to_int (total_polls sx + 1)) (failed_polls sx) (availability sx) sx in
  let '(st, sx, issue) :=
    if stat =? HOST_DOWN then
      let sx := set_counts (total_polls sx) (to_int (failed_polls sx + 1)) (availability sx) sx in
      let st := set_last_error (host_failure_message host ping availability_method) (hstate host) in
      let '(st, issue) := host_failure_transition set st current_date in
      (st, sx, issue)
    else
      let sx := host_response_statistics sx (host_response_time host ping availability_method) in
      let '(st, issue) := host_recovery_transition set (hstate host) current_date in
      (st, sx, issue) in
  let av := ddiv (dmul (of_int 100) (of_int (to_int (total_polls sx - failed_polls sx)))) (of_int (total_polls sx)) in
  (set_statistics (set_counts (total_polls sx) (failed_polls sx) av sx) (set_state st host), issue).

(** [refresh_host_availability] of host.c: the device, the ping record and the result. *)
Definition refresh_host_availability {W} `{Probes W} (set : config_t) (w : W) (host : host_t) (ping : ping_t) (host_thread : Z) :
    outcome (host_t * ping_t * bool * W) :=
  let a := host_avail host in
  let p := profile (snmp host) in
  if (av_method a =? AVAIL_SNMP) && (slen (community p) =? 0) && (version p <? 3) then
    let '(now, w) := unix_time w in
    Ok (fst (update_host_status set now HOST_UP (set_ignore_host false host) ping (av_method a)), ping, false, w)
  else if av_method a =? AVAIL_STREAM then
    let '(now, w) := unix_time w in Ok (fst (update_host_status set now HOST_UP host ping (av_method a)), ping, false, w)
  else
    let* (r, host, ping, w) := ping_host set w host ping in
    let alive := r =? HOST_UP in
    let host := set_ignore_host (negb alive) host in
    if negb (host_thread =? 1) then Ok (host, ping, false, w)
    else
      let '(now, w) := unix_time w in
      let m := av_method (host_avail host) in
      let host := fst (update_host_status set now (if alive then HOST_UP else HOST_DOWN) host ping m) in
      if negb alive || (m =? AVAIL_PING) || (m =? AVAIL_NONE) || bool_decide (session (snmp host) = None) || negb (mibs set)
      then Ok (host, ping, false, w)
      else let '(host, w) := get_system_information w host in Ok (host, ping, true, w).

End Availability.

(** * Facts *)

Module HostFacts.
Import Availability.

(** A series of checks: (time, result, ping record) each; the messages issued. *)
Fixpoint run_checks (set : config_t) (method : Z) (host : host_t) (checks : list (Z * Z * ping_t)) : host_t * list bool :=
  match checks with
  | [] => (host, [])
  | (now, stat, ping) :: checks' =>
      let '(host, issue) := update_host_status set now stat host ping method in
      let '(host, issues) := run_checks set method host checks' in
      (host, issue :: issues)
  end.

Lemma to_int_small z : 0 ≤ z ≤ INT_MAX → to_int z = z.
Proof. intros H. apply to_int_id. unfold INT_MIN. lia. Qed.

(** One check, seen through the state and the counters. *)
Lemma check_state set now stat host ping method :
  let '(host', issue) := update_host_status set now stat host ping method in
  let date := snprintf_s 40 (udec now) in
  (hstate host', issue) =
    (if stat =? HOST_DOWN
     then host_failure_transition set (set_last_error (host_failure_message host ping method) (hstate host)) date
     else host_recovery_transition set (hstate host) date) ∧
  total_polls (statistics host') = to_int (total_polls (statistics host) + 1) ∧
  failed_polls (statistics host') =
    if stat =? HOST_DOWN then to_int (failed_polls (statistics host) + 1) else failed_polls (statistics host).
Proof.
  unfold update_host_status. destruct (stat =? HOST_DOWN).
  - destruct (host_failure_transition _ _ _) as [st issue]. done.
  - destruct (host_recovery_transition _ _ _) as [st issue]. done.
Qed.

Lemma failure_up set s date :
  status s = HOST_UP → 0 ≤ status_event_count s < INT_MAX →
  let '(s', issue) := host_failure_transition set s date in
  let n := status_event_count s + 1 in
  status_event_count s' = n ∧ status s' = (if ping_failure_count set <=? n then HOST_DOWN else HOST_UP) ∧
  issue = (ping_failure_count set <=? n).
Proof.
  intros Hs Hc. unfold host_failure_transition. rewrite Hs. change (HOST_UP =? HOST_UP) with true. cbv zeta. cbn [status_event_count with_event].
  rewrite to_int_small by lia. destruct (ping_failure_count set <=? status_event_count s + 1).
  - by destruct (ping_failure_count set =? 1).
  - by destruct (status_event_count s + 1 =? 1).
Qed.
Lemma failure_down set s date :
  status s = HOST_DOWN → 0 ≤ status_event_count s < INT_MAX →
  host_failure_transition set s date = (with_event HOST_DOWN (status_event_count s + 1) s, false).
Proof. intros Hs Hc. unfold host_failure_transition. rewrite Hs. cbn. rewrite to_int_small by lia. done. Qed.

(** Failures in a row from a device that is up. *)
Lemma failures_run set method checks : ∀ host k,
  Forall (fun c => snd (fst c) = HOST_DOWN) checks → 0 ≤ k →
  k + Z.of_nat (length checks) ≤ INT_MAX → status_event_count (hstate host) = k →
  status (hstate host) = (if ping_failure_count set <=? k then HOST_DOWN else HOST_UP) → 1 ≤ ping_failure_count set →
  let '(host', issues) := run_checks set method host checks in
  let n := k + Z.of_nat (length checks) in
  status (hstate host') = (if ping_failure_count set <=? n then HOST_DOWN else HOST_UP) ∧
  status_event_count (hstate host') = n ∧
  issues = map (fun i => k + Z.of_nat i + 1 =? ping_failure_count set) (seq 0 (length checks)).
Proof.
  induction checks as [|[[now stat] ping] checks IH]; intros host k Hd Hk Hb Ek Es Hfc.
  { cbn [run_checks length]. rewrite Z.add_0_r. done. }
  apply Forall_cons_iff in Hd as [Hstat Hd]. cbn in Hstat. subst stat. cbn [length] in *. cbn [run_checks].
  pose proof (check_state set now HOST_DOWN host ping method) as Hc.
  destruct (update_host_status set now HOST_DOWN host ping method) as [h1 issue]. destruct Hc as (Hc & _ & _).
  change (HOST_DOWN =? HOST_DOWN) with true in Hc. cbv iota in Hc.
  set (s0 := set_last_error _ (hstate host)) in Hc. set (date := snprintf_s 40 (udec now)) in Hc.
  assert (Ec : status_event_count s0 = k) by done. assert (Est : status s0 = status (hstate host)) by done. clearbody s0 date.
  assert (Hh : status_event_count (hstate h1) = k + 1 ∧ status (hstate h1) = (if ping_failure_count set <=? k + 1 then HOST_DOWN else HOST_UP) ∧
    issue = (k + 1 =? ping_failure_count set)).
  { rewrite Es in Est. destruct (Z.leb_spec (ping_failure_count set) k) as [Hge|Hlt].
    - rewrite failure_down in Hc by (done || lia). injection Hc as -> ->. cbn. rewrite Ec, (proj2 (Z.leb_le _ _)) by lia.
      split_and!; try done. symmetry. apply Z.eqb_neq. lia.
    - pose proof (failure_up set s0 date Est ltac:(lia)) as Hf. rewrite <- Hc in Hf. cbv zeta in Hf. rewrite Ec in Hf.
      destruct Hf as (-> & -> & ->). split_and!; try done. destruct (Z.leb_spec (ping_failure_count set) (k + 1)), (Z.eqb_spec (k + 1) (ping_failure_count set)); try done; lia. }
  destruct Hh as (E1 & E2 & E3). specialize (IH h1 (k + 1) Hd ltac:(lia) ltac:(lia) E1 E2 Hfc).
  destruct (run_checks set method h1 checks) as [h2 issues]. cbv zeta in IH. destruct IH as (I1 & I2 & I3).
  replace (k + Z.of_nat (S (length checks))) with (k + 1 + Z.of_nat (length checks)) by lia.
  split_and!; try done. cbn [seq map]. rewrite <- seq_shift, map_map, E3, I3. f_equal; [f_equal; lia|].
  apply map_ext. intros i. f_equal. lia.
Qed.

Lemma recovery_step set s date :
  (status s = HOST_DOWN ∨ status s = HOST_RECOVERING) → 0 ≤ status_event_count s < INT_MAX →
  let n := if status s =? HOST_DOWN then 1 else status_event_count s + 1 in
  let '(s', issue) := host_recovery_transition set s date in
  status_event_count s' = (if ping_recovery_count set <=? n then 0 else n) ∧
  status s' = (if ping_recovery_count set <=? n then HOST_UP else HOST_RECOVERING) ∧
  issue = (ping_recovery_count set <=? n).
Proof.
  intros Hs Hc n. unfold host_recovery_transition.
  assert (Hg : negb (status s =? HOST_DOWN) && negb (status s =? HOST_RECOVERING) = false) by (destruct Hs as [-> | ->]; done).
  rewrite Hg. clear Hg. set (s1 := if status s =? HOST_DOWN then _ else _).
  assert (Hs1 : status_event_count s1 = n ∧ status s1 = HOST_RECOVERING).
  { unfold s1, n. destruct Hs as [E|E]; rewrite E; cbn; [done|]. rewrite to_int_small by lia. done. }
  clearbody s1 n. destruct Hs1 as [En E1]. cbv zeta. rewrite En. destruct (ping_recovery_count set <=? n).
  - by destruct (ping_recovery_count set =? 1).
  - by destruct (n =? 1).
Qed.

Lemma up_step set s date : status s = HOST_UP → host_recovery_transition set s date = (with_event HOST_UP 0 s, false).
Proof. intros Hs. unfold host_recovery_transition. by rewrite Hs. Qed.

(** Successes in a row, [k] of them already counted. *)
Lemma recoveries_run set method checks : ∀ host k,
  Forall (fun c => snd (fst c) ≠ HOST_DOWN) checks → 0 ≤ k → k + Z.of_nat (length checks) ≤ INT_MAX →
  (if k =? 0 then status (hstate host) = HOST_DOWN ∧ 0 ≤ status_event_count (hstate host) < INT_MAX
   else if ping_recovery_count set <=? k then status (hstate host) = HOST_UP ∧ status_event_count (hstate host) = 0
   else status (hstate host) = HOST_RECOVERING ∧ status_event_count (hstate host) = k) →
  1 ≤ ping_recovery_count set →
  let '(host', issues) := run_checks set method host checks in
  let n := k + Z.of_nat (length checks) in
  (n ≠ 0 → status (hstate host') = (if ping_recovery_count set <=? n then HOST_UP else HOST_RECOVERING) ∧
           status_event_count (hstate host') = (if ping_recovery_count set <=? n then 0 else n)) ∧
  issues = map (fun i => k + Z.of_nat i + 1 =? ping_recovery_count set) (seq 0 (length checks)).
Proof.
  induction checks as [|[[now stat] ping] checks IH]; intros host k Hd Hk Hb Hst Hrc.
  { cbn [run_checks length]. rewrite Z.add_0_r. split; [|done]. intros Hn. rewrite (proj2 (Z.eqb_neq _ _) Hn) in Hst.
    destruct (_ <=? _); by destruct Hst. }
  apply Forall_cons_iff in Hd as [Hstat Hd]. cbn in Hstat. cbn [length] in *. cbn [run_checks].
  pose proof (check_state set now stat host ping method) as Hc.
  destruct (update_host_status set now stat host ping method) as [h1 issue]. destruct Hc as (Hc & _ & _).
  rewrite (proj2 (Z.eqb_neq _ _) Hstat) in Hc. set (date := snprintf_s 40 (udec now)) in Hc.
  assert (Hh : status_event_count (hstate h1) = (if ping_recovery_count set <=? k + 1 then 0 else k + 1) ∧
    status (hstate h1) = (if ping_recovery_count set <=? k + 1 then HOST_UP else HOST_RECOVERING) ∧
    issue = (k + 1 =? ping_recovery_count set)).
  { destruct (Z.eqb_spec k 0) as [->|Hk0]; [|destruct (Z.leb_spec (ping_recovery_count set) k) as [Hge|Hlt]].
    - destruct Hst as [Es Ec]. pose proof (recovery_step set (hstate host) date (or_introl Es) Ec) as Hf.
      rewrite <- Hc, Es in Hf. cbn in Hf. destruct Hf as (-> & -> & ->). cbn [Z.add]. split_and!; try done.
      destruct (Z.leb_spec (ping_recovery_count set) 1), (Z.eqb_spec 1 (ping_recovery_count set)); try done; lia.
    - destruct Hst as [Es Ec]. rewrite up_step in Hc by done. injection Hc as -> ->. cbn.
      rewrite (proj2 (Z.leb_le _ _)) by lia. split_and!; try done. symmetry. apply Z.eqb_neq. lia.
    - destruct Hst as [Es Ec]. pose proof (recovery_step set (hstate host) date (or_intror Es) ltac:(lia)) as Hf.
      rewrite <- Hc, Es, Ec in Hf. cbn in Hf. destruct Hf as (-> & -> & ->). split_and!; try done.
      destruct (Z.leb_spec (ping_recovery_count set) (k + 1)), (Z.eqb_spec (k + 1) (ping_recovery_count set)); try done; lia. }
  destruct Hh as (E1 & E2 & E3). specialize (IH h1 (k + 1) Hd ltac:(lia) ltac:(lia)).
  rewrite (proj2 (Z.eqb_neq (k + 1) 0)) in IH by lia. specialize (IH ltac:(destruct (ping_recovery_count set <=? k + 1); done) Hrc).
  destruct (run_checks set method h1 checks) as [h2 issues]. cbv zeta in IH. destruct IH as (I1 & I2).
  replace (k + Z.of_nat (S (length checks))) with (k + 1 + Z.of_nat (length checks)) by lia.
  split; [done|]. cbn [seq map]. rewrite <- seq_shift, map_map, E3, I2. f_equal; [f_equal; lia|].
  apply map_ext. intros i. f_equal. lia.
Qed.

(** The counters never lose a poll. *)
Lemma run_checks_counts set method checks : ∀ host,
  0 ≤ failed_polls (statistics host) ≤ total_polls (statistics host) →
  total_polls (statistics host) + Z.of_nat (length checks) ≤ INT_MAX →
  let '(host', _) := run_checks set method host checks in
  total_polls (statistics host') = total_polls (statistics host) + Z.of_nat (length checks) ∧
  failed_polls (statistics host') = failed_polls (statistics host) +
    Z.of_nat (length (List.filter (fun c => snd (fst c) =? HOST_DOWN) checks)).
Proof.
  induction checks as [|[[now stat] ping] checks IH]; intros host Hf Ht; cbn [run_checks length List.filter fst snd] in *; [lia|].
  pose proof (check_state set now stat host ping method) as Hc.
  destruct (update_host_status set now stat host ping method) as [h1 issue]. destruct Hc as (_ & E1 & E2).
  rewrite to_int_small in E1 by lia. rewrite (to_int_small (failed_polls _ + 1)) in E2 by lia.
  specialize (IH h1). rewrite E1, E2 in IH.
  destruct (run_checks set method h1 checks) as [h2 issues]. destruct (stat =? HOST_DOWN); cbn [length] in *; lia.
Qed.

End HostFacts.
Import HostFacts.

(** * Properties *)

(** C35: a device goes down after exactly the configured number of failures in a row.
    From an up device with no pending event, after [n] failed checks the status is
    DOWN exactly when [n] has reached [ping_failure_count]; the event count is [n]; and
    of the [n] checks only the one that reaches the threshold issues a message. *)
Theorem outage_threshold (set : config_t) (method : Z) (host : host_t) (checks : list (Z * Z * ping_t))
  (Hup : status (hstate host) = HOST_UP) (Hcount : status_event_count (hstate host) = 0)
  (Hthreshold : 1 ≤ ping_failure_count set)
  (Hfail : Forall (fun c => snd (fst c) = HOST_DOWN) checks) (Hlen : Z.of_nat (length checks) ≤ INT_MAX) :
  let '(host', issued) := run_checks set method host checks in
  let n := Z.of_nat (length checks) in
  status (hstate host') = (if ping_failure_count set <=? n then HOST_DOWN else HOST_UP) ∧
  status_event_count (hstate host') = n ∧
  issued = map (fun i => Z.of_nat i + 1 =? ping_failure_count set) (seq 0 (length checks)).
Proof.
  pose proof (failures_run set method checks host 0 Hfail ltac:(lia) ltac:(lia) Hcount) as H.
  rewrite (proj2 (Z.leb_gt _ _)) in H by lia. by apply H.
Qed.

Definition no_ping : ping_t := {| ping_status := []; ping_response := []; snmp_ping_status := []; snmp_response := [] |}.
Definition sample_host : host_t := Host.host_metadata_defaults sample_config.

Lemma outage_threshold_witness :
  let '(host', issued) := run_checks sample_config AVAIL_PING sample_host
    [(100, HOST_DOWN, no_ping); (400, HOST_DOWN, no_ping); (700, HOST_DOWN, no_ping)] in
  status (hstate host') = HOST_DOWN ∧ status_event_count (hstate host') = 3 ∧ issued = [false; true; false].
Proof.
  apply (outage_threshold sample_config AVAIL_PING sample_host
    [(100, HOST_DOWN, no_ping); (400, HOST_DOWN, no_ping); (700, HOST_DOWN, no_ping)]); try done; by repeat constructor.
Defined.

(** A device comes back after exactly the configured number of successes in a row.
    From a down device, after [n > 0] successful checks the status is UP with no pending
    event when [n] has reached [ping_recovery_count] and RECOVERING with count [n]
    before; only the check that reaches the threshold issues a message. *)
Theorem recovery_threshold (set : config_t) (method : Z) (host : host_t) (checks : list (Z * Z * ping_t))
  (Hdown : status (hstate host) = HOST_DOWN) (Hcount : 0 ≤ status_event_count (hstate host) < INT_MAX)
  (Hthreshold : 1 ≤ ping_recovery_count set) (Hsome : checks ≠ [])
  (Hok : Forall (fun c => snd (fst c) ≠ HOST_DOWN) checks) (Hlen : Z.of_nat (length checks) ≤ INT_MAX) :
  let '(host', issued) := run_checks set method host checks in
  let n := Z.of_nat (length checks) in
  status (hstate host') = (if ping_recovery_count set <=? n then HOST_UP else HOST_RECOVERING) ∧
  status_event_count (hstate host') = (if ping_recovery_count set <=? n then 0 else n) ∧
  issued = map (fun i => Z.of_nat i + 1 =? ping_recovery_count set) (seq 0 (length checks)).
Proof.
  pose proof (recoveries_run set method checks host 0 Hok ltac:(lia) ltac:(lia) (conj Hdown Hcount) Hthreshold) as H.
  destruct (run_checks set method host checks) as [h issued]. cbv zeta in *. destruct H as [H1 H2].
  assert (0 + Z.of_nat (length checks) ≠ 0) as Hn by (destruct checks; [done|cbn; lia]).
  destruct (H1 Hn) as [E1 E2]. done.
Qed.

Definition down_host : host_t := set_state (Availability.with_event HOST_DOWN 9 (hstate sample_host)) sample_host.
Lemma recovery_threshold_witness :
  let '(host', issued) := run_checks sample_config AVAIL_PING down_host
    [(100, HOST_UP, no_ping); (400, HOST_UP, no_ping)] in
  status (hstate host') = HOST_RECOVERING ∧ status_event_count (hstate host') = 2 ∧ issued = [false; false].
Proof.
  apply (recovery_threshold sample_config AVAIL_PING down_host [(100, HOST_UP, no_ping); (400, HOST_UP, no_ping)]);
    try done; by repeat constructor.
Defined.

(** Polls are counted exactly.  Over any series of checks the total grows by the
    number of checks and the failures by the number of failed ones, so the availability
    is always computed from true counts (below the 32-bit limit). *)
Theorem poll_counters_exact (set : config_t) (method : Z) (host : host_t) (checks : list (Z * Z * ping_t))
  (Hsane : 0 ≤ failed_polls (statistics host) ≤ total_polls (statistics host))
  (Hlimit : total_polls (statistics host) + Z.of_nat (length checks) ≤ INT_MAX) :
  let '(host', _) := run_checks set method host checks in
  total_polls (statistics host') = total_polls (statistics host) + Z.of_nat (length checks) ∧
  failed_polls (statistics host') = failed_polls (statistics host) +
    Z.of_nat (length (List.filter (fun c => snd (fst c) =? HOST_DOWN) checks)).
Proof. by apply run_checks_counts. Qed.

Lemma poll_counters_exact_witness :
  let '(host', _) := run_checks sample_config AVAIL_PING sample_host [(100, HOST_UP, no_ping); (400, HOST_DOWN, no_ping)] in
  total_polls (statistics host') = 2 ∧ failed_polls (statistics host') = 1.
Proof.
  apply (poll_counters_exact sample_config AVAIL_PING sample_host [(100, HOST_UP, no_ping); (400, HOST_DOWN, no_ping)]);
    by vm_compute.
Defined.
