(* ===== verification/Snmp.v ===== *)
(** SNMP requests: src/src/snmp/requests.c and src/src/snmp/response.c.

    Net-SNMP is an interface ([Class NetSNMP]) over a world [W]: parsing an OID, sending
    a request and waiting for its response, removing the failed variable of a response,
    and rendering a value.  Requests and responses are the values exchanged; their
    memory, which Net-SNMP and the caller free, is not modelled. *)

From S2P Require Import Prelude CLib Buffer Text Result Settings.

Abbreviation oid := (list Z).

(** A variable of a response. *)
Record variable := { vb_name : option oid; vb_type : Z; vb_value : cstr }.
Record pdu := { errstat : Z; errindex : Z; variables : list variable }.
Inductive command := SNMP_MSG_GET | SNMP_MSG_GETNEXT.
Record request := { rq_command : command; rq_names : list oid }.

Definition STAT_SUCCESS : Z := 0.
Definition STAT_ERROR : Z := 1.
Definition STAT_TIMEOUT : Z := 2.
Definition STAT_DESCRIP_ERROR : Z := 99.
Definition SNMP_ERR_NOERROR : Z := 0.
Definition SNMP_ERR_NOSUCHNAME : Z := 2.
Definition SNMP_NOSUCHOBJECT : Z := 128.
Definition SNMP_NOSUCHINSTANCE : Z := 129.
Definition SNMP_ENDOFMIBVIEW : Z := 130.
Definition MAX_OID_LEN : Z := 128.

Class NetSNMP (W : Type) := {
  snmp_parse_oid : cstr → option oid;
  snmp_pdu_create : W → bool * W;
  snmp_add_null_var : W → oid → bool * W;
  snmp_sess_synch_response : W → nat → request → Z * option pdu * W;
  snmp_fix_pdu : pdu → option request;
  snmp_sess_liberr : W → nat → Z;
  SNMPERR_NOT_IN_TIME_WINDOW : Z;
  snprint_value : variable → option cstr;
  snprint_asciistring : cstr → option cstr;
  snmp_oid_compare : oid → oid → Z }.

(** * Responses (response.c) *)

Module Response.

Definition snmp_varbind_is_exception (v : option variable) : bool :=
  match v with
  | None => false
  | Some v => (vb_type v =? SNMP_NOSUCHOBJECT) || (vb_type v =? SNMP_NOSUCHINSTANCE) || (vb_type v =? SNMP_ENDOFMIBVIEW)
  end.

Section Format.
Context {W : Type} `{NetSNMP W}.

(** The status and the new content of [output]. *)
Definition snmp_format_scalar (v : variable) (ascii_ : bool) : Z * cstr :=
  match vb_name v, snprint_value v with
  | Some _, Some t =>
      let temporary := snprintf_s RESULTS_BUFFER t in
      if ascii_ then
        match snprint_asciistring temporary with
        | Some out => (STAT_SUCCESS, snprintf_s RESULTS_BUFFER out)
        | None => (STAT_ERROR, UNDEFINED)
        end
      else (STAT_SUCCESS, strncopy_s RESULTS_BUFFER (Trim.trim temporary))
  | _, _ => (STAT_ERROR, UNDEFINED)
  end.

Definition snmp_get_variable (text_oid : cstr) (v : variable) : Z * cstr :=
  if vb_type v =? SNMP_NOSUCHOBJECT then
    if has_substr text_oid ($".1.3.6.1.2.1.1.1.0") || has_substr text_oid ($".1.3.6.1.2.1.1.3.0")
    then snmp_format_scalar v false else (STAT_ERROR, UNDEFINED)
  else if (vb_type v =? SNMP_NOSUCHINSTANCE) || (vb_type v =? SNMP_ENDOFMIBVIEW) then (STAT_ERROR, UNDEFINED)
  else snmp_format_scalar v false.

End Format.
End Response.

(** * Requests (requests.c) *)

Module Requests.
Import Response.

Record snmp_reply_t := { rp_response : option pdu; rp_status : Z; rp_valid_oid : bool }.

Section Ops.
Context {W : Type} `{NetSNMP W}.

(** ** Single requests *)

Definition snmp_request_parsed (w : W) (host : host_t) (name : oid) (cmd : command) : snmp_reply_t * host_t * W :=
  let fail st := {| rp_response := None; rp_status := st; rp_valid_oid := true |} in
  match session (snmp host) with
  | None => (fail STAT_DESCRIP_ERROR, host, w)
  | Some sess =>
      let '(created, w) := snmp_pdu_create w in
      if negb created then (fail STAT_DESCRIP_ERROR, set_snmp_status STAT_DESCRIP_ERROR host, w) else
      let '(added, w) := snmp_add_null_var w name in
      if negb added then (fail STAT_ERROR, set_snmp_status STAT_ERROR host, w) else
      let '(st, resp, w) := snmp_sess_synch_response w sess {| rq_command := cmd; rq_names := [name] |} in
      ({| rp_response := resp; rp_status := st; rp_valid_oid := true |}, set_snmp_status st host, w)
  end.

Definition snmp_single_request (w : W) (host : host_t) (text_oid : cstr) (cmd : command) : snmp_reply_t * host_t * W :=
  match session (snmp host) with
  | None => ({| rp_response := None; rp_status := STAT_DESCRIP_ERROR; rp_valid_oid := true |}, host, w)
  | Some _ =>
      match snmp_parse_oid text_oid with
      | None => ({| rp_response := None; rp_status := STAT_ERROR; rp_valid_oid := false |}, set_snmp_status STAT_ERROR host, w)
      | Some name => snmp_request_parsed w host name cmd
      end
  end.

(** The status, the device and the output. *)
Definition snmp_decode_session_error (w : W) (host : host_t) (st : Z) (output : cstr) : Z * host_t * cstr :=
  match session (snmp host) with
  | Some sess =>
      if negb (st =? STAT_ERROR) then (st, host, output)
      else if snmp_sess_liberr w sess =? SNMPERR_NOT_IN_TIME_WINDOW then
        (STAT_SUCCESS, set_snmp_status STAT_SUCCESS host, UNDEFINED)
      else (st, host, output)
  | None => (st, host, output)
  end.

Definition snmp_get_response (w : W) (host : host_t) (text_oid : cstr) (reply : snmp_reply_t) (output : cstr) : Z * host_t * cstr :=
  let st := rp_status reply in
  if st =? STAT_DESCRIP_ERROR then (STAT_ERROR, host, UNDEFINED)
  else if st =? STAT_SUCCESS then
    match rp_response reply with
    | None => (STAT_ERROR, host, UNDEFINED)
    | Some r =>
        match variables r with
        | v :: _ =>
            if (errstat r =? SNMP_ERR_NOERROR) && negb (bool_decide (vb_name v = None)) then
              let '(st, out) := snmp_get_variable text_oid v in (st, host, out)
            else (STAT_SUCCESS, host, output)
        | [] => (STAT_SUCCESS, host, output)
        end
    end
  else match rp_response reply with
       | Some {| variables := _ :: _ |} => (STAT_ERROR, host, UNDEFINED)
       | _ =>
           if st =? STAT_TIMEOUT then (st, host, output)
           else snmp_decode_session_error w host st output
       end.

Definition snmp_get_base (w : W) (host : host_t) (text_oid : cstr) (should_fail : bool) : cstr * host_t * W :=
  if ignore_host host then (UNDEFINED, host, w) else
  let '(reply, host, w) := snmp_single_request w host text_oid SNMP_MSG_GET in
  if negb (rp_valid_oid reply) then (UNDEFINED, host, w) else
  let '(st, host, output) :=
    if bool_decide (session (snmp host) = None) then (rp_status reply, host, []) else snmp_get_response w host text_oid reply [] in
  if negb (st =? STAT_SUCCESS) && should_fail then (UNDEFINED, set_ignore_host true host, w) else (output, host, w).
Definition snmp_get (w : W) (host : host_t) (text_oid : cstr) : cstr * host_t * W := snmp_get_base w host text_oid true.
Definition snmp_get_allow_fail (w : W) (host : host_t) (text_oid : cstr) : cstr * host_t * W := snmp_get_base w host text_oid false.

Definition snmp_getnext (w : W) (host : host_t) (text_oid : cstr) : cstr * host_t * W :=
  let '(reply, host, w) := snmp_single_request w host text_oid SNMP_MSG_GETNEXT in
  if negb (rp_valid_oid reply) then (UNDEFINED, host, w) else
  let '(st, host, output) :=
    if rp_status reply =? STAT_SUCCESS then
      match rp_response reply with
      | None => (STAT_ERROR, host, [])
      | Some r =>
          if errstat r =? SNMP_ERR_NOERROR then
            match variables r with
            | [] => (STAT_ERROR, host, [])
            | v :: _ => if snmp_varbind_is_exception (Some v) then (STAT_ERROR, host, [])
                        else let '(st, out) := snmp_format_scalar v true in (st, host, out)
            end
          else (STAT_SUCCESS, host, [])
      end
    else if rp_status reply =? STAT_TIMEOUT then (STAT_TIMEOUT, host, [])
    else if rp_status reply =? STAT_ERROR then snmp_decode_session_error w host STAT_ERROR []
    else (rp_status reply, host, []) in
  if negb (st =? STAT_SUCCESS) then (UNDEFINED, set_ignore_host true host, w) else (output, host, w).

(** ** Counting a table *)

Record snmp_walk_t := { wk_root : oid; wk_current : oid; wk_count : Z; wk_failed : bool }.
Definition walk_fail (k : snmp_walk_t) : snmp_walk_t :=
  {| wk_root := wk_root k; wk_current := wk_current k; wk_count := wk_count k; wk_failed := true |}.

(** Whether the walk goes on, and its new state. *)
Definition snmp_count_advance (k : snmp_walk_t) (v : variable) : bool * snmp_walk_t :=
  match vb_name v with
  | None => (false, walk_fail k)
  | Some name =>
      if MAX_OID_LEN <? Z.of_nat (length name) then (false, walk_fail k)
      else if (length name <? length (wk_root k))%nat || negb (bool_decide (take (length (wk_root k)) name = wk_root k)) then (false, k)
      else if wk_count k =? INT_MAX then (false, walk_fail k)
      else if snmp_varbind_is_exception (Some v) then (false, k)
      else
        let counted c := {| wk_root := wk_root k; wk_current := c; wk_count := wk_count k + 1; wk_failed := wk_failed k |} in
        if 0 <=? snmp_oid_compare (wk_current k) name then (false, walk_fail (counted (wk_current k)))
        else (true, counted name)
  end.

Fixpoint advance_all (k : snmp_walk_t) (vs : list variable) : bool * snmp_walk_t :=
  match vs with
  | [] => (true, k)
  | v :: vs' => let '(more, k) := snmp_count_advance k v in if more : bool then advance_all k vs' else (false, k)
  end.

Definition snmp_count_response (k : snmp_walk_t) (reply : snmp_reply_t) : bool * snmp_walk_t :=
  match rp_response reply with
  | Some r =>
      if (rp_status reply =? STAT_SUCCESS) && (errstat r =? SNMP_ERR_NOSUCHNAME) then (false, k)
      else if negb (rp_status reply =? STAT_SUCCESS) || negb (errstat r =? SNMP_ERR_NOERROR) || bool_decide (variables r = [])
           then (false, walk_fail k)
      else advance_all k (variables r)
  | None => (false, walk_fail k)
  end.

(** [while (more)]; [None] when the fuel runs out. *)
Fixpoint count_loop (fuel : nat) (w : W) (host : host_t) (k : snmp_walk_t) : option (snmp_walk_t * host_t * W) :=
  match fuel with
  | O => None
  | S f =>
      let '(reply, host, w) := snmp_request_parsed w host (wk_current k) SNMP_MSG_GETNEXT in
      let '(more, k) := snmp_count_response k reply in
      if more : bool then count_loop f w host k else Some (k, host, w)
  end.

Definition snmp_count (fuel : nat) (w : W) (host : host_t) (text_oid : cstr) : option (Z * host_t * W) :=
  match session (snmp host) with
  | None => Some (-1, set_ignore_host true host, w)
  | Some _ =>
      match snmp_parse_oid text_oid with
      | None => Some (-1, host, w)
      | Some root =>
          '(k, host, w) ← count_loop fuel w host {| wk_root := root; wk_current := root; wk_count := 0; wk_failed := false |};
          let host := if wk_failed k then
                        let host := set_ignore_host true host in
                        if snmp_status (snmp host) =? STAT_SUCCESS then set_snmp_status STAT_ERROR host else host
                      else host in
          Some (if wk_failed k then -1 else wk_count k, host, w)
      end
  end.

(** ** Several OIDs in one request *)

Definition snmp_multi_undefined (oids : list snmp_oids_t) : list snmp_oids_t := map (set_oid_result UNDEFINED) oids.

(** The loop that adds the OIDs; those that cannot be added become undefined. *)
Fixpoint add_oids (w : W) (oids : list snmp_oids_t) : list oid * list snmp_oids_t * W :=
  match oids with
  | [] => ([], [], w)
  | o :: oids' =>
      if IS_UNDEFINED (oid_result o) then
        let '(names, rest, w) := add_oids w oids' in (names, o :: rest, w)
      else
        match snmp_parse_oid (oid_text o) with
        | None => let '(names, rest, w) := add_oids w oids' in (names, set_oid_result UNDEFINED o :: rest, w)
        | Some name =>
            let '(added, w) := snmp_add_null_var w name in
            let '(names, rest, w) := add_oids w oids' in
            if added : bool then (name :: names, o :: rest, w) else (names, set_oid_result UNDEFINED o :: rest, w)
        end
  end.
Definition snmp_multi_request (w : W) (oids : list snmp_oids_t) : option request * list snmp_oids_t * W :=
  let '(created, w) := snmp_pdu_create w in
  if negb created then (None, oids, w)
  else let '(names, oids, w) := add_oids w oids in
       (match names with [] => None | _ => Some {| rq_command := SNMP_MSG_GET; rq_names := names |} end, oids, w).

(** Mark the [error_index]-th OID of the request, counting from [current]. *)
Fixpoint error_index_loop (oids : list snmp_oids_t) (current error_index : Z) : bool * list snmp_oids_t :=
  match oids with
  | [] => (false, [])
  | o :: oids' =>
      if IS_UNDEFINED (oid_result o) then
        let '(found, rest) := error_index_loop oids' current error_index in (found, o :: rest)
      else if current + 1 =? error_index then (true, set_oid_result UNDEFINED o :: oids')
      else let '(found, rest) := error_index_loop oids' (current + 1) error_index in (found, o :: rest)
  end.
Definition snmp_multi_error_index (oids : list snmp_oids_t) (error_index : Z) : bool * list snmp_oids_t :=
  error_index_loop oids 0 error_index.

Fixpoint snmp_multi_values (oids : list snmp_oids_t) (vs : list variable) : list snmp_oids_t :=
  match oids with
  | [] => []
  | o :: oids' =>
      if IS_UNDEFINED (oid_result o) then o :: snmp_multi_values oids' vs
      else match vs with
           | [] => set_oid_result UNDEFINED o :: snmp_multi_values oids' []
           | v :: vs' =>
               (if snmp_varbind_is_exception (Some v) then set_oid_result UNDEFINED o
                else set_oid_result (snd (snmp_format_scalar v false)) o) :: snmp_multi_values oids' vs'
           end
  end.

(** [while (request != NULL && attempt < count)], [budget] being [count - attempt]. *)
Fixpoint multi_loop (budget : nat) (w : W) (host : host_t) (sess : nat) (req : option request) (oids : list snmp_oids_t) (st : Z) :
    option request * list snmp_oids_t * Z * host_t * W :=
  match req, budget with
  | None, _ | _, O => (req, oids, st, host, w)
  | Some req, S b =>
      let '(st, resp, w) := snmp_sess_synch_response w sess req in
      let host := set_snmp_status st host in
      if st =? STAT_SUCCESS then
        match resp with
        | None => multi_loop b w host sess None (snmp_multi_undefined oids) STAT_ERROR
        | Some r =>
            if errstat r =? SNMP_ERR_NOERROR then multi_loop b w host sess None (snmp_multi_values oids (variables r)) st
            else
              let '(found, oids') := snmp_multi_error_index oids (errindex r) in
              if found : bool then multi_loop b w host sess (snmp_fix_pdu r) oids' st
              else multi_loop b w host sess None (snmp_multi_undefined oids) STAT_ERROR
        end
      else multi_loop b w host sess None oids st
  end.

Definition snmp_get_multi (w : W) (host : host_t) (oids : list snmp_oids_t) : list snmp_oids_t * host_t * W :=
  match oids with
  | [] => (oids, host, w)
  | _ =>
      match session (snmp host) with
      | None => (snmp_multi_undefined oids, set_snmp_status STAT_DESCRIP_ERROR (set_ignore_host true host), w)
      | Some sess =>
          let '(req, oids, w) := snmp_multi_request w oids in
          match req with
          | None => (snmp_multi_undefined oids, set_snmp_status STAT_ERROR host, w)
          | Some _ =>
              let '(req, oids, st, host, w) := multi_loop (length oids) w host sess req oids STAT_DESCRIP_ERROR in
              let '(oids, st) := match req with
                                 | Some _ => (snmp_multi_undefined oids, STAT_ERROR)
                                 | None => (oids, st)
                                 end in
              if st =? STAT_TIMEOUT then (snmp_multi_undefined oids, set_ignore_host true host, w) else (oids, host, w)
          end
      end
  end.

End Ops.
End Requests.
