(* ===== verification/SnmpFacts.v ===== *)
(** Facts about the SNMP requests of [Snmp]: a multi-OID request leaves every OID with
    its own value whatever OIDs the agent rejects, within one request per OID; and a
    table walk counts exactly the entries of the table. *)

From S2P Require Import Prelude CLib Buffer Text Result Settings Sql Host Snmp.
Import Response Requests.

Module MultiFacts.

(** The first name that [agent] does not know. *)
Fixpoint first_bad (agent : oid → option variable) (ns : list oid) : option nat :=
  match ns with
  | [] => None
  | n :: ns' => match agent n with None => Some 0%nat | Some _ => S <$> first_bad agent ns' end
  end.

(** A variable of an error response: the name as it was sent, with no value. *)
Definition null_variable (n : oid) : variable := {| vb_name := Some n; vb_type := 5; vb_value := [] |}.

(** What an agent answers to a GET: the values in the order of the request, or the
    position of the first name it does not know (RFC 1157, 4.1.2). *)
Definition agent_answer (agent : oid → option variable) (ns : list oid) : pdu :=
  match first_bad agent ns with
  | Some i => {| errstat := SNMP_ERR_NOSUCHNAME; errindex := Z.of_nat i + 1; variables := map null_variable ns |}
  | None => {| errstat := SNMP_ERR_NOERROR; errindex := 0; variables := omap agent ns |}
  end.

Definition get_request (ns : list oid) : option request :=
  match ns with [] => None | _ => Some {| rq_command := SNMP_MSG_GET; rq_names := ns |} end.

(** A session with such an agent, over a Net-SNMP whose allocations succeed and whose
    [snmp_fix_pdu] removes the failed variable. *)
Record serves {W} `{NetSNMP W} (agent : oid → option variable) : Prop := {
  sv_create w : ∃ w', snmp_pdu_create w = (true, w');
  sv_add w n : ∃ w', snmp_add_null_var w n = (true, w');
  sv_get w sess ns : ∃ w', snmp_sess_synch_response w sess {| rq_command := SNMP_MSG_GET; rq_names := ns |} =
                           (STAT_SUCCESS, Some (agent_answer agent ns), w');
  sv_fix ns i : first_bad agent ns = Some i → snmp_fix_pdu (agent_answer agent ns) = get_request (delete i ns) }.

Section Multi.
Context {W : Type} `{NetSNMP W} (agent : oid → option variable) (Hserves : serves agent).

(** The value an OID should end with. *)
Definition expected (text : cstr) : cstr :=
  match snmp_parse_oid text with
  | None => UNDEFINED
  | Some n => match agent n with
              | None => UNDEFINED
              | Some v => if snmp_varbind_is_exception (Some v) then UNDEFINED else snd (snmp_format_scalar v false)
              end
  end.
Definition settle (o : snmp_oids_t) : snmp_oids_t := set_oid_result (expected (oid_text o)) o.

(** The names still in the request: those of the OIDs not yet undefined. *)
Definition live1 (o : snmp_oids_t) : option oid := if IS_UNDEFINED (oid_result o) then None else snmp_parse_oid (oid_text o).
Definition live (l : list snmp_oids_t) : list oid := omap live1 l.

Lemma live_cons o l : live (o :: l) = match live1 o with Some n => n :: live l | None => live l end.
Proof. done. Qed.
Lemma live1_undefined o : IS_UNDEFINED (oid_result o) = true → live1 o = None.
Proof. unfold live1. by intros ->. Qed.
Lemma live1_name o n : IS_UNDEFINED (oid_result o) = false → snmp_parse_oid (oid_text o) = Some n → live1 o = Some n.
Proof. unfold live1. by intros ->. Qed.

(** An undefined OID is one that should be; the others have a name. *)
Definition oid_ok (o : snmp_oids_t) : Prop :=
  if IS_UNDEFINED (oid_result o) then expected (oid_text o) = UNDEFINED else is_Some (snmp_parse_oid (oid_text o)).

Lemma settle_undefined o : oid_ok o → IS_UNDEFINED (oid_result o) = true → settle o = o.
Proof.
  unfold oid_ok, settle. intros Ho E. rewrite E in Ho. rewrite Ho. unfold IS_UNDEFINED in E. bool_to_prop.
  destruct o; cbn in *. by subst.
Qed.
Lemma undefined_mark o : IS_UNDEFINED (oid_result (set_oid_result UNDEFINED o)) = true.
Proof. done. Qed.

(** Marking the OID the agent rejected removes exactly its name. *)
Lemma error_index_marks l : ∀ c i, Forall oid_ok l → first_bad agent (live l) = Some i →
  ∃ l', error_index_loop l c (c + Z.of_nat i + 1) = (true, l') ∧ Forall oid_ok l' ∧
    live l' = delete i (live l) ∧ map settle l' = map settle l.
Proof.
  induction l as [|o l IH]; intros c i Hok Hbad; [done|]. apply Forall_cons_iff in Hok as [Ho Hok].
  cbn [error_index_loop]. rewrite live_cons in *. pose proof Ho as Ho'. unfold oid_ok in Ho'.
  destruct (IS_UNDEFINED (oid_result o)) eqn:Eu.
  - rewrite (live1_undefined o Eu) in *. destruct (IH c i Hok Hbad) as (l' & -> & H1 & H2 & H3).
    exists (o :: l'). rewrite live_cons, (live1_undefined o Eu). split; [done|]. split_and!; [by apply Forall_cons|done|].
    cbn. by rewrite H3.
  - destruct Ho' as [n En]. rewrite (live1_name o n Eu En) in *. cbn [first_bad] in Hbad. destruct (agent n) as [v|] eqn:Ea.
    + apply fmap_Some in Hbad as (j & Hj & ->). rewrite (proj2 (Z.eqb_neq _ _)) by lia.
      destruct (IH (c + 1) j Hok Hj) as (l' & El & H1 & H2 & H3).
      replace (c + Z.of_nat (S j) + 1) with (c + 1 + Z.of_nat j + 1) by lia. rewrite El. exists (o :: l').
      rewrite live_cons, (live1_name o n Eu En), H2. split; [done|]. split_and!; [by apply Forall_cons|done|]. cbn. by rewrite H3.
    + injection Hbad as <-. rewrite Z.add_0_r, Z.eqb_refl. exists (set_oid_result UNDEFINED o :: l). split; [done|]. split_and!; [|done|done].
      apply Forall_cons; [|done]. unfold oid_ok. rewrite undefined_mark. unfold expected. cbn. by rewrite En, Ea.
Qed.

(** When every name is known, every OID gets its own value. *)
Lemma values_settle l : Forall oid_ok l → first_bad agent (live l) = None →
  snmp_multi_values l (omap agent (live l)) = map settle l.
Proof.
  induction l as [|o l IH]; intros Hok Hgood; [done|]. apply Forall_cons_iff in Hok as [Ho Hok].
  cbn [snmp_multi_values map]. rewrite live_cons in *. pose proof Ho as Ho'. unfold oid_ok in Ho'.
  destruct (IS_UNDEFINED (oid_result o)) eqn:Eu.
  - rewrite (live1_undefined o Eu) in *. by rewrite IH, (settle_undefined o Ho Eu).
  - destruct Ho' as [n En]. rewrite (live1_name o n Eu En) in *. cbn [first_bad] in Hgood.
    change (omap agent (n :: live l)) with (match agent n with Some v => v :: omap agent (live l) | None => omap agent (live l) end).
    destruct (agent n) as [v|] eqn:Ea; [|done]. apply fmap_None in Hgood.
    rewrite IH by done. f_equal. unfold settle, expected. rewrite En, Ea. by destruct (snmp_varbind_is_exception (Some v)).
Qed.

Lemma live_nil_settled l : Forall oid_ok l → live l = [] → map settle l = l.
Proof.
  induction l as [|o l IH]; intros Hok Hl; [done|]. apply Forall_cons_iff in Hok as [Ho Hok].
  rewrite live_cons in Hl. destruct (live1 o) as [n|] eqn:E1; [done|]. cbn. rewrite IH by done. f_equal.
  apply settle_undefined; [done|]. unfold live1 in E1. unfold oid_ok in Ho. destruct (IS_UNDEFINED (oid_result o)); [done|].
  by destruct Ho as [n ?]; congruence.
Qed.

(** The retry loop: one request per rejected OID and a last one. *)
Lemma multi_loop_settles sess : ∀ budget w host l st,
  Forall oid_ok l → (length (live l) ≤ budget)%nat → live l ≠ [] →
  ∃ st' host' w', multi_loop budget w host sess (get_request (live l)) l st = (None, map settle l, st', host', w') ∧
    st' = STAT_SUCCESS ∧ ignore_host host' = ignore_host host.
Proof.
  induction budget as [|b IH]; intros w host l st Hok Hb Hne; [destruct (live l); [done|cbn in Hb; lia]|].
  assert (Hreq : get_request (live l) = Some {| rq_command := SNMP_MSG_GET; rq_names := live l |}) by (by destruct (live l)).
  rewrite Hreq. cbn [multi_loop]. destruct (sv_get agent Hserves w sess (live l)) as [w1 ->].
  change (STAT_SUCCESS =? STAT_SUCCESS) with true. cbv iota.
  destruct (first_bad agent (live l)) as [i|] eqn:Ebad.
  - pose proof (sv_fix agent Hserves _ _ Ebad) as Hfix.
    assert (Ei : errindex (agent_answer agent (live l)) = 0 + Z.of_nat i + 1) by (unfold agent_answer; by rewrite Ebad).
    assert (Ee : (errstat (agent_answer agent (live l)) =? SNMP_ERR_NOERROR) = false) by (unfold agent_answer; by rewrite Ebad).
    rewrite Ee, Ei. unfold snmp_multi_error_index.
    destruct (error_index_marks l 0 i Hok Ebad) as (l' & -> & Hok' & Hlive & Hset). rewrite Hfix, <- Hlive.
    assert (Hlen : (S (length (live l')) = length (live l))%nat).
    { rewrite Hlive. assert (i < length (live l))%nat.
      { clear -Ebad. revert i Ebad. induction (live l) as [|n ns IHn]; intros i E; [done|]. cbn in E. destruct (agent n).
        - apply fmap_Some in E as (j & Ej & ->). cbn. specialize (IHn j Ej). lia.
        - injection E as <-. cbn. lia. }
      rewrite length_delete by (by apply lookup_lt_is_Some_2). lia. }
    destruct (decide (live l' = [])) as [El|Hne'].
    + rewrite El. cbn [get_request]. assert (E0 : ∀ x y z u v, multi_loop b x y z None u v = (None, u, v, y, x)) by (by destruct b).
      rewrite E0, <- Hset, (live_nil_settled l' Hok' El). do 3 eexists. split; [done|]. done.
    + destruct (IH w1 (set_snmp_status STAT_SUCCESS host) l' STAT_SUCCESS Hok' ltac:(lia) Hne') as (st' & h' & w' & E & Es & Eh).
      rewrite E, Hset. do 3 eexists. split; [done|]. done.
  - assert (Ee : (errstat (agent_answer agent (live l)) =? SNMP_ERR_NOERROR) = true) by (unfold agent_answer; by rewrite Ebad).
    assert (Ev : variables (agent_answer agent (live l)) = omap agent (live l)) by (unfold agent_answer; by rewrite Ebad).
    rewrite Ee, Ev, values_settle by done.
    assert (E0 : ∀ x y z u v, multi_loop b x y z None u v = (None, u, v, y, x)) by (by destruct b).
    rewrite E0. do 3 eexists. split; [done|]. done.
Qed.

(** Building the request keeps the OIDs that have a name. *)
Lemma add_oids_live w l : Forall (fun o => IS_UNDEFINED (oid_result o) = false) l →
  ∃ l' w', add_oids w l = (live l', l', w') ∧ Forall oid_ok l' ∧ map settle l' = map settle l ∧ length l' = length l.
Proof.
  revert w. induction l as [|o l IH]; intros w Hl; cbn [add_oids]; [by exists [], w|].
  apply Forall_cons_iff in Hl as [Ho Hl]. rewrite Ho. destruct (snmp_parse_oid (oid_text o)) as [n|] eqn:En.
  - destruct (sv_add agent Hserves w n) as [w1 ->]. destruct (IH w1 Hl) as (l' & w' & -> & H1 & H2 & H3).
    exists (o :: l'), w'. rewrite live_cons, (live1_name o n Ho En). split_and!; [done| | |cbn; lia].
    + apply Forall_cons; [|done]. unfold oid_ok. rewrite Ho. eauto.
    + cbn. by rewrite H2.
  - destruct (IH w Hl) as (l' & w' & -> & H1 & H2 & H3). exists (set_oid_result UNDEFINED o :: l'), w'. split_and!; [done| | |cbn; lia].
    + apply Forall_cons; [|done]. unfold oid_ok. rewrite undefined_mark. unfold expected. cbn. by rewrite En.
    + cbn. by rewrite H2.
Qed.

Lemma live_length l : (length (live l) ≤ length l)%nat.
Proof. induction l as [|o l IH]; [done|]. rewrite live_cons. destruct (live1 o); cbn [length]; lia. Qed.

Lemma get_multi_settles w host l :
  session (snmp host) ≠ None → Forall (fun o => IS_UNDEFINED (oid_result o) = false) l →
  ∃ host' w', snmp_get_multi w host l = (map settle l, host', w') ∧ ignore_host host' = ignore_host host.
Proof.
  intros Hs Hl. unfold snmp_get_multi. destruct l as [|o l']; [cbn; eauto|]. set (l := o :: l') in *.
  destruct (session (snmp host)) as [sess|]; [|done]. unfold snmp_multi_request.
  destruct (sv_create agent Hserves w) as [w1 ->]. cbn [negb]. destruct (add_oids_live w1 l Hl) as (l1 & w2 & -> & Hok & Hset & Hlen).
  fold (get_request (live l1)). destruct (decide (live l1 = [])) as [El|Hne].
  - rewrite El. cbn [get_request]. exists (set_snmp_status STAT_ERROR host), w2. split; [|done]. f_equal. f_equal.
    rewrite <- Hset, (live_nil_settled l1 Hok El). unfold snmp_multi_undefined.
    clear -Hok El. induction l1 as [|x l1 IH]; [done|]. apply Forall_cons_iff in Hok as [Hx Hok]. rewrite live_cons in El.
    destruct (live1 x) eqn:E1; [done|]. cbn [map]. rewrite IH by done. f_equal.
    unfold live1 in E1. unfold oid_ok in Hx. destruct (IS_UNDEFINED (oid_result x)) eqn:Eu; [|destruct Hx; congruence].
    unfold IS_UNDEFINED in Eu. bool_to_prop. destruct x; cbn in *. by subst.
  - destruct (multi_loop_settles sess (length l1) w2 host l1 STAT_DESCRIP_ERROR Hok (live_length l1) Hne) as (st & h & w3 & E & -> & Eh).
    assert (Hreq : ∃ r, get_request (live l1) = Some r) by (destruct (live l1); [done|by eexists]).
    destruct Hreq as [r Er]. rewrite Er in *. rewrite E. cbn. rewrite Hset. eauto.
Qed.

End Multi.
End MultiFacts.

Module WalkFacts.

(** What an agent answers to a GETNEXT: the next variable, or noSuchName at the end of
    an SNMPv1 walk. *)
Definition next_answer (next : oid → option variable) (n : oid) : pdu :=
  match next n with
  | Some v => {| errstat := SNMP_ERR_NOERROR; errindex := 0; variables := [v] |}
  | None => {| errstat := SNMP_ERR_NOSUCHNAME; errindex := 1; variables := [MultiFacts.null_variable n] |}
  end.

Record walks {W} `{NetSNMP W} (next : oid → option variable) : Prop := {
  wl_create w : ∃ w', snmp_pdu_create w = (true, w');
  wl_add w n : ∃ w', snmp_add_null_var w n = (true, w');
  wl_next w sess n : ∃ w', snmp_sess_synch_response w sess {| rq_command := SNMP_MSG_GETNEXT; rq_names := [n] |} =
                           (STAT_SUCCESS, Some (next_answer next n), w') }.

Section Walk.
Context {W : Type} `{NetSNMP W} (next : oid → option variable) (Hwalks : walks next).

Definition in_table (root n : oid) : Prop := take (length root) n = root.
#[local] Instance in_table_dec root n : Decision (in_table root n).
Proof. unfold in_table. apply _. Defined.

(** [ns] are the entries of the table after [cur], in the order GETNEXT gives them:
    each is a value below [root], greater than the one before; what follows the last is
    outside the table, an exception, or nothing. *)
Fixpoint table (root cur : oid) (ns : list oid) : Prop :=
  match ns with
  | [] => match next cur with
          | None => True
          | Some v => ∃ n, vb_name v = Some n ∧ Z.of_nat (length n) ≤ MAX_OID_LEN ∧
                           (¬ in_table root n ∨ snmp_varbind_is_exception (Some v) = true)
          end
  | n :: ns' => ∃ v, next cur = Some v ∧ vb_name v = Some n ∧ Z.of_nat (length n) ≤ MAX_OID_LEN ∧ in_table root n ∧
                     snmp_varbind_is_exception (Some v) = false ∧ snmp_oid_compare cur n < 0 ∧ table root n ns'
  end.

Lemma in_table_length root n : in_table root n → (length n <? length root)%nat = false.
Proof. intros Hi. apply Nat.ltb_ge. unfold in_table in Hi. rewrite <- Hi, length_take. lia. Qed.

Lemma request_next w host n : session (snmp host) ≠ None →
  ∃ w', snmp_request_parsed w host n SNMP_MSG_GETNEXT =
    ({| rp_response := Some (next_answer next n); rp_status := STAT_SUCCESS; rp_valid_oid := true |}, set_snmp_status STAT_SUCCESS host, w').
Proof.
  intros Hs. unfold snmp_request_parsed. destruct (session (snmp host)) as [sess|]; [|done].
  destruct (wl_create next Hwalks w) as [w1 ->]. destruct (wl_add next Hwalks w1 n) as [w2 ->].
  destruct (wl_next next Hwalks w2 sess n) as [w3 ->]. eauto.
Qed.

(** The end of the table stops the walk without an error. *)
Lemma response_end root cur c :
  table root cur [] → c < INT_MAX →
  snmp_count_response {| wk_root := root; wk_current := cur; wk_count := c; wk_failed := false |}
    {| rp_response := Some (next_answer next cur); rp_status := STAT_SUCCESS; rp_valid_oid := true |} =
  (false, {| wk_root := root; wk_current := cur; wk_count := c; wk_failed := false |}).
Proof.
  cbn [table]. intros Ht Hc. unfold snmp_count_response, next_answer. cbn [rp_response rp_status].
  destruct (next cur) as [v|]; [|done]. destruct Ht as (n & En & Hl & Hout). cbn. unfold snmp_count_advance. rewrite En. cbn [wk_root wk_count wk_current].
  rewrite (proj2 (Z.ltb_ge _ _)) by done. destruct (decide (in_table root n)) as [Hi|Hi].
  - rewrite in_table_length, bool_decide_eq_true_2, (proj2 (Z.eqb_neq _ _)) by (done || lia). cbn [negb orb].
    destruct Hout as [?|Hx]; [done|]. by rewrite Hx.
  - rewrite (bool_decide_eq_false_2 _ Hi), orb_true_r. done.
Qed.

(** An entry of the table is counted. *)
Lemma response_entry root cur c v n :
  next cur = Some v → vb_name v = Some n → Z.of_nat (length n) ≤ MAX_OID_LEN → in_table root n →
  snmp_varbind_is_exception (Some v) = false → snmp_oid_compare cur n < 0 → c < INT_MAX →
  snmp_count_response {| wk_root := root; wk_current := cur; wk_count := c; wk_failed := false |}
    {| rp_response := Some (next_answer next cur); rp_status := STAT_SUCCESS; rp_valid_oid := true |} =
  (true, {| wk_root := root; wk_current := n; wk_count := c + 1; wk_failed := false |}).
Proof.
  intros Ev En Hl Hi Hx Hlt Hc. unfold snmp_count_response, next_answer. cbn [rp_response rp_status]. rewrite Ev. cbn. unfold snmp_count_advance. rewrite En. cbn [wk_root wk_count wk_current].
  rewrite (proj2 (Z.ltb_ge _ _)) by done. rewrite in_table_length, bool_decide_eq_true_2, (proj2 (Z.eqb_neq _ _)) by (done || lia).
  cbn [negb orb]. rewrite Hx. rewrite (proj2 (Z.leb_gt _ _)) by done. done.
Qed.

Lemma count_loop_S f w host k : count_loop (S f) w host k =
  let '(reply, host, w) := snmp_request_parsed w host (wk_current k) SNMP_MSG_GETNEXT in
  let '(more, k) := snmp_count_response k reply in
  if more : bool then count_loop f w host k else Some (k, host, w).
Proof. done. Qed.

Lemma count_loop_table root ns : ∀ cur c w host extra,
  session (snmp host) ≠ None → table root cur ns → 0 ≤ c → c + Z.of_nat (length ns) < INT_MAX →
  ∃ w' host' cur', count_loop (S (length ns) + extra) w host {| wk_root := root; wk_current := cur; wk_count := c; wk_failed := false |} =
    Some ({| wk_root := root; wk_current := cur'; wk_count := c + Z.of_nat (length ns); wk_failed := false |}, host', w') ∧
    ignore_host host' = ignore_host host.
Proof.
  induction ns as [|n ns IH]; intros cur c w host extra Hs Ht Hc Hb; cbn [length plus];
    rewrite count_loop_S; cbn [wk_current]; destruct (request_next w host cur Hs) as [w1 ->].
  - rewrite response_end by (done || lia). rewrite Z.add_0_r. do 3 eexists. split; [done|]. done.
  - cbn [table] in Ht. destruct Ht as (v & Ev & En & Hl & Hi & Hx & Hlt & Ht). cbn [length] in Hb.
    rewrite (response_entry root cur c v n) by (done || lia).
    destruct (IH n (c + 1) w1 (set_snmp_status STAT_SUCCESS host) extra) as (w2 & h2 & cur' & E & Eh); [done|done|lia|lia|].
    cbn [plus] in E. rewrite E. exists w2, h2, cur'. split; [|done]. do 3 f_equal. f_equal. lia.
Qed.

End Walk.
End WalkFacts.

(** * Properties *)

(** C11: a multi-OID request gives every OID its own value.  Against an agent that
    answers a GET with the values in order or with the position of the first name it
    rejects, [snmp_get_multi] ends with each OID holding the rendering of that OID's own
    value, or undefined if its text does not parse, the agent rejects it or answers it
    with an exception: a bad OID never shifts or loses the value of another, and the
    one-request-per-OID limit never stops the retries early.  The device is not marked
    to be ignored. *)
Theorem snmp_get_multi_settles {W} `{NetSNMP W} (agent : oid → option variable) (w : W) (host : host_t)
  (oids : list snmp_oids_t) (Hserves : MultiFacts.serves agent) (Hsession : session (snmp host) ≠ None)
  (Hfresh : Forall (fun o => IS_UNDEFINED (oid_result o) = false) oids) :
  ∃ host' w', snmp_get_multi w host oids =
    (map (fun o => set_oid_result (MultiFacts.expected agent (oid_text o)) o) oids, host', w') ∧
    ignore_host host' = ignore_host host.
Proof. by apply MultiFacts.get_multi_settles. Qed.

(** An agent that knows every OID but [1.3.9]; OID texts are one letter. *)
Definition sample_agent (n : oid) : option variable :=
  if bool_decide (n = [1; 3; 9]) then None else Some {| vb_name := Some n; vb_type := 2; vb_value := udec (Z.of_nat (length n)) |}.
(** The next OID appends a zero, up to length 4. *)
Definition sample_next (n : oid) : option variable :=
  if (4 <=? length n)%nat then None else Some {| vb_name := Some (n ++ [0]); vb_type := 2; vb_value := $"1" |}.
Definition sample_netsnmp : NetSNMP unit := {|
  snmp_parse_oid t := if bool_decide (t = $"a") then Some [1; 3] else if bool_decide (t = $"b") then Some [1; 3; 9]
                      else if bool_decide (t = $"c") then Some [1; 3; 7] else None;
  snmp_pdu_create w := (true, w);
  snmp_add_null_var w _ := (true, w);
  snmp_sess_synch_response w _ r := (STAT_SUCCESS, Some (match rq_command r, rq_names r with
                                                         | SNMP_MSG_GETNEXT, [n] => WalkFacts.next_answer sample_next n
                                                         | _, ns => MultiFacts.agent_answer sample_agent ns end), w);
  snmp_fix_pdu r := MultiFacts.get_request (delete (Z.to_nat (errindex r - 1)) (omap vb_name (variables r)));
  snmp_sess_liberr _ _ := 0; SNMPERR_NOT_IN_TIME_WINDOW := -28;
  snprint_value v := Some (vb_value v); snprint_asciistring s := Some s;
  snmp_oid_compare a b := Z.of_nat (length a) - Z.of_nat (length b) |}.

Lemma null_names ns : omap vb_name (map MultiFacts.null_variable ns) = ns.
Proof. induction ns as [|n ns IH]; [done|]. exact (f_equal (cons n) IH). Qed.
Lemma sample_serves : MultiFacts.serves (H := sample_netsnmp) sample_agent.
Proof.
  constructor; try (intros; by eexists). intros ns i E. unfold MultiFacts.agent_answer. rewrite E. cbn.
  rewrite null_names. f_equal. f_equal. lia.
Qed.
Lemma sample_walks : WalkFacts.walks (H := sample_netsnmp) sample_next.
Proof. constructor; intros; by eexists. Qed.

Definition oid_entry (t : cstr) : snmp_oids_t := {| array_position := 0; oid_text := t; oid_result := [] |}.
Definition session_host : host_t := set_session (Some 1%nat) sample_host.

Lemma snmp_get_multi_settles_witness :
  ∃ host' w', snmp_get_multi (H := sample_netsnmp) tt session_host [oid_entry ($"a"); oid_entry ($"b"); oid_entry ($"x"); oid_entry ($"c")] =
    ([set_oid_result ($"2") (oid_entry ($"a")); set_oid_result ($"U") (oid_entry ($"b"));
      set_oid_result ($"U") (oid_entry ($"x")); set_oid_result ($"3") (oid_entry ($"c"))], host', w') ∧
    ignore_host host' = ignore_host session_host.
Proof.
  apply (@snmp_get_multi_settles unit sample_netsnmp sample_agent tt session_host
    [oid_entry ($"a"); oid_entry ($"b"); oid_entry ($"x"); oid_entry ($"c")] sample_serves); [done|by repeat constructor].
Defined.

(** A table walk terminates and counts exactly the entries of the table.  Against
    an agent whose GETNEXT runs through [entries], each below the root and greater than
    the one before, and then leaves the table, [snmp_count] makes one request per entry
    and a last one and returns the number of entries; the device is not ignored. *)
Theorem snmp_count_exact {W} `{NetSNMP W} (next : oid → option variable) (w : W) (host : host_t) (text : cstr) (root : oid)
  (entries : list oid) (extra : nat) (Hwalks : WalkFacts.walks next) (Hsession : session (snmp host) ≠ None)
  (Hparse : snmp_parse_oid text = Some root) (Htable : WalkFacts.table next root root entries)
  (Hlimit : Z.of_nat (length entries) < INT_MAX) :
  ∃ host' w', snmp_count (S (length entries) + extra) w host text = Some (Z.of_nat (length entries), host', w') ∧
    ignore_host host' = ignore_host host.
Proof.
  unfold snmp_count. destruct (session (snmp host)) as [sess|] eqn:Es; [|done]. rewrite Hparse.
  destruct (WalkFacts.count_loop_table next Hwalks root entries root 0 w host extra) as (w' & h' & cur & E & Eh);
    [congruence|done|lia|lia|].
  rewrite E. cbn. eauto.
Qed.

Lemma snmp_count_exact_witness :
  ∃ host' w', snmp_count (H := sample_netsnmp) 3 tt session_host ($"a") = Some (2, host', w') ∧
    ignore_host host' = ignore_host session_host.
Proof.
  apply (@snmp_count_exact unit sample_netsnmp sample_next tt session_host ($"a") [1; 3] [[1; 3; 0]; [1; 3; 0; 0]] 0 sample_walks);
    [done|reflexivity| |by vm_compute].
  cbn. eexists. split_and!; try reflexivity; try (by vm_compute). eexists. split_and!; try reflexivity; by vm_compute.
Defined.
