(* ===== verification/Items.v ===== *)
(** Collecting the items of a device: src/src/poller/items.c and [regex_replace] of
    src/src/poller/regex.c.

    The items are an array; SNMP items wait in a batch of OIDs that is requested when it
    is full, when the credentials change, and at the end.  Array accesses are checked:
    [None] is an access outside an array.  What an item is collected with is an
    interface ([Class Collectors]). *)

From S2P Require Import Prelude CLib Buffer Text Result Settings.

Class Collectors (W : Type) := {
  get_multi : W → host_t → list snmp_oids_t → list snmp_oids_t * host_t * W;
  open_session : W → Z → cstr → snmp_profile_t → option nat * W;
  close_session : W → nat → W;
  exec_poll : W → host_t → cstr → Z → cstr * W;
  php_cmd : W → cstr → cstr * W;
  (** [regcomp] then [regexec]: [None] if the pattern is bad, [Some None] for no match,
      else the bounds of the match. *)
  regexec : cstr → cstr → option (option (nat * nat)) }.

Module Items.
Import Output.

(** ** Loading *)

Definition row_int (row : row_t) (i : nat) (old : Z) : Z := match column row i with Some v => atoi v | None => old end.
Definition row_text (row : row_t) (i : nat) (cap : Z) : cstr := match column row i with Some v => snprintf_s cap v | None => [] end.

Definition load_poll_item (set : config_t) (row : row_t) : target_t := {|
  result := UNDEFINED; local_data_id := row_int row 11 0; action := row_int row 0 (-1);
  it_hostname := row_text row 1 250; rrd_name := row_text row 6 30; rrd_path := row_text row 7 255;
  rrd_num := row_int row 12 0; arg1 := row_text row 8 1024; arg2 := row_text row 9 255; arg3 := row_text row 10 255;
  output_regex := if has_output_regex set then row_text row 20 255 else [];
  it_snmp := {| community := row_text row 2 100; version := row_int row 3 1; username := row_text row 4 50;
                password := row_text row 5 50; auth_protocol := row_text row 15 7; priv_passphrase := row_text row 16 200;
                priv_protocol := row_text row 17 8; context := row_text row 18 65; engine_id := row_text row 19 30;
                port := row_int row 13 161; timeout := row_int row 14 500 |} |}.

(** The items, the OID array and the device. *)
Definition load_poll_items (set : config_t) (rows : list row_t) (host : host_t) : list target_t * list snmp_oids_t * host_t :=
  let host := if max_oids (snmp host) <=? 0 then set_max_oids 1 host else host in
  (map (load_poll_item set) rows, replicate (Z.to_nat (max_oids (snmp host))) zero_oid, host).

(** ** Batches *)

Record snmp_item_key_t := { key_initialized : bool; key_profile : snmp_profile_t }.
(** [snmp_poll_batch_t] with the error context it points to. *)
Record snmp_poll_batch_t := {
  items : list target_t; oids : list snmp_oids_t; count : nat; key : snmp_item_key_t;
  err_buffer : error_buffer; errors : Z }.

Definition set_items (l : list target_t) (b : snmp_poll_batch_t) : snmp_poll_batch_t :=
  {| items := l; oids := oids b; count := count b; key := key b; err_buffer := err_buffer b; errors := errors b |}.
Definition set_oids (l : list snmp_oids_t) (n : nat) (b : snmp_poll_batch_t) : snmp_poll_batch_t :=
  {| items := items b; oids := l; count := n; key := key b; err_buffer := err_buffer b; errors := errors b |}.
Definition set_key (k : snmp_item_key_t) (b : snmp_poll_batch_t) : snmp_poll_batch_t :=
  {| items := items b; oids := oids b; count := count b; key := k; err_buffer := err_buffer b; errors := errors b |}.

Definition record_result_error (item : target_t) (b : snmp_poll_batch_t) : snmp_poll_batch_t :=
  {| items := items b; oids := oids b; count := count b; key := key b;
     err_buffer := buffer_output_errors (err_buffer b) (local_data_id item) false; errors := errors b + 1 |}.

Definition remember_snmp_item (item : target_t) : snmp_item_key_t := {| key_initialized := true; key_profile := it_snmp item |}.

Definition snmp_item_changed (k : snmp_item_key_t) (item : target_t) : bool :=
  let a := key_profile k in let b := it_snmp item in
  negb (port a =? port b) || negb (version a =? version b) ||
  ((version b <? 3) && negb (STRMATCH (community a) (community b))) ||
  ((2 <? version b) &&
     (negb (STRMATCH (username a) (username b)) || negb (STRMATCH (password a) (password b)) ||
      negb (STRMATCH (auth_protocol a) (auth_protocol b)) || negb (STRMATCH (priv_passphrase a) (priv_passphrase b)) ||
      negb (STRMATCH (priv_protocol a) (priv_protocol b)) || negb (STRMATCH (context a) (context b)) ||
      negb (STRMATCH (engine_id a) (engine_id b)))).

Section Collect.
Context {W : Type} `{Collectors W}.

Definition regex_replace (exp value : cstr) : cstr :=
  match regexec exp value with
  | Some (Some (so, eo)) =>
      if RESULTS_BUFFER <=? Z.of_nat (eo - so) then value else take (eo - so) (drop so value)
  | _ => value
  end.

(** The normalized value, and whether an error is recorded. *)
Definition normalize_snmp_item (host : host_t) (value : cstr) : cstr * bool :=
  if ignore_host host then (UNDEFINED, false) else
  let '(st, value) := normalize_poll_result value true in
  match st with
  | POLL_RESULT_VALID => (value, false)
  | POLL_RESULT_INVALID => (UNDEFINED, true)
  | POLL_RESULT_UNDEFINED => (value, true)
  end.

(** [if (!IS_UNDEFINED(result) && spike_kill && !strstr(result, ":")) SET_UNDEFINED(result)]. *)
Definition spike_killed (spike_kill : bool) (value : cstr) : cstr :=
  if negb (IS_UNDEFINED value) && (spike_kill && negb (has_substr value ($":"))) then UNDEFINED else value.

(** The value an SNMP item ends with, for the text its OID was answered with. *)
Definition snmp_item_value (host : host_t) (item : target_t) (spike_kill : bool) (answer : cstr) : cstr * bool :=
  let '(value, error) := normalize_snmp_item host answer in
  let value := if 0 <? slen (output_regex item)
               then snprintf_s RESULTS_BUFFER (snprintf_s RESULTS_BUFFER (regex_replace (output_regex item) value)) else value in
  (spike_killed spike_kill (snprintf_s RESULTS_BUFFER value), error).

Fixpoint store_snmp_results (host : host_t) (answers : list snmp_oids_t) (spike_kill : bool) (b : snmp_poll_batch_t) :
    option snmp_poll_batch_t :=
  match answers with
  | [] => Some b
  | o :: answers' =>
      item ← items b !! array_position o;
      let '(value, error) := snmp_item_value host item spike_kill (oid_result o) in
      let b := if error : bool then record_result_error item b else b in
      store_snmp_results host answers' spike_kill (set_items (<[array_position o := set_result value item]> (items b)) b)
  end.

(** The [memset] clears [max_oids] entries of the array. *)
Definition flush_snmp_batch (w : W) (host : host_t) (spike_kill : bool) (b : snmp_poll_batch_t) :
    option (snmp_poll_batch_t * host_t * W) :=
  if (count b <=? 0)%nat then Some (b, host, w) else
  if (length (oids b) <? count b)%nat then None else
  let '(answers, host, w) := get_multi w host (take (count b) (oids b)) in
  b ← store_snmp_results host answers spike_kill b;
  if (length (oids b) <? Z.to_nat (max_oids (snmp host)))%nat then None else
  Some (set_oids (replicate (Z.to_nat (max_oids (snmp host))) zero_oid ++ drop (Z.to_nat (max_oids (snmp host))) (oids b)) 0 b, host, w).

Definition open_snmp_item (w : W) (host : host_t) (item : target_t) : host_t * W :=
  let '(s, w) := open_session w (host_id host) (it_hostname item) (it_snmp item) in (set_session s host, w).

(** The first SNMP item opens the session. *)
Definition first_item (w : W) (host : host_t) (b : snmp_poll_batch_t) (item : target_t) : snmp_poll_batch_t * host_t * W :=
  if key_initialized (key b) then (b, host, w)
  else let '(host, w) := open_snmp_item w host item in (set_key (remember_snmp_item item) b, host, w).

(** A change of credentials flushes the batch and opens another session. *)
Definition changed_item (w : W) (host : host_t) (b : snmp_poll_batch_t) (item : target_t) (spike_kill : bool) :
    option (snmp_poll_batch_t * host_t * W) :=
  if snmp_item_changed (key b) item then
    '(b, host, w) ← flush_snmp_batch w host spike_kill b;
    let '(host, w) := match session (snmp host) with
                      | Some s => (set_session None host, close_session w s)
                      | None => (host, w)
                      end in
    let '(host, w) := open_snmp_item w host item in
    Some (set_key (remember_snmp_item item) b, host, w)
  else Some (b, host, w).

Definition poll_snmp_item (w : W) (host : host_t) (b : snmp_poll_batch_t) (position : nat) (spike_kill : bool) :
    option (snmp_poll_batch_t * host_t * W) :=
  item ← items b !! position;
  let '(b, host, w) := first_item w host b item in
  match session (snmp host) with
  | None => Some (b, set_ignore_host true host, w)
  | Some _ =>
      '(b, host, w) ← changed_item w host b item spike_kill;
      '(b, host, w) ←
        (if max_oids (snmp host) <=? Z.of_nat (count b) then flush_snmp_batch w host spike_kill b else Some (b, host, w));
      if (length (oids b) <=? count b)%nat then None else
      o ← oids b !! count b;
      let o := {| array_position := position; oid_text := snprintf_s 1024 (arg1 item); oid_result := oid_result o |} in
      Some (set_oids (<[count b := o]> (oids b)) (S (count b)) b, host, w)
  end.

Definition poll_script_item (w : W) (host : host_t) (b : snmp_poll_batch_t) (position : nat) (spike_kill script_server : bool) :
    option (snmp_poll_batch_t * W) :=
  item ← items b !! position;
  let store value b := set_items (<[position := set_result value item]> (items b)) b in
  if slen (arg1 item) =? 0 then Some (store UNDEFINED b, w) else
  let '(poll_result, w) := if script_server then php_cmd w (arg1 item) else exec_poll w host (arg1 item) (local_data_id item) in
  let '(st, value) := normalize_poll_result (strncopy_s RESULTS_BUFFER poll_result) false in
  let '(value, b) := match st with
                     | POLL_RESULT_VALID => (value, b)
                     | POLL_RESULT_UNDEFINED => (value, record_result_error item b)
                     | POLL_RESULT_INVALID => (UNDEFINED, record_result_error item b)
                     end in
  Some (store (spike_killed spike_kill value) b, w).

(** [while (i < num_rows && !host->ignore_host)] over [n] further items; the result
    counts the items processed. *)
Fixpoint collect_loop (w : W) (host : host_t) (b : snmp_poll_batch_t) (i n : nat) (spike_kill : bool) :
    option (nat * snmp_poll_batch_t * host_t * W) :=
  match n with
  | O => Some (0%nat, b, host, w)
  | S n' =>
      if ignore_host host then Some (0%nat, b, host, w) else
      item ← items b !! i;
      '(b, host, w) ←
        (if action item =? Keywords.POLLER_ACTION_SNMP then poll_snmp_item w host b i spike_kill
         else if action item =? Keywords.POLLER_ACTION_SCRIPT then
           '(b, w) ← poll_script_item w host b i spike_kill false; Some (b, host, w)
         else if action item =? Keywords.POLLER_ACTION_PHP_SCRIPT_SERVER then
           '(b, w) ← poll_script_item w host b i spike_kill true; Some (b, host, w)
         else Some (b, host, w));
      '(rows, b, host, w) ← collect_loop w host b (S i) n' spike_kill;
      Some (S rows, b, host, w)
  end.

Definition collect_poll_items (w : W) (host : host_t) (b : snmp_poll_batch_t) (num_rows : nat) (spike_kill : bool) :
    option (nat * snmp_poll_batch_t * host_t * W) :=
  '(rows, b, host, w) ← collect_loop w host b 0 num_rows spike_kill;
  '(b, host, w) ← flush_snmp_batch w host spike_kill b;
  Some (rows, b, host, w).

End Collect.
End Items.
