(* ===== verification/ItemsFacts.v ===== *)
(** Facts about item collection ([Items]): no array is accessed out of bounds, and every
    SNMP item is requested exactly once, under its own OID, in batches within the
    device's limit.  The SNMP requests of [Snmp] satisfy what this relies on. *)

From S2P Require Import Prelude CLib Buffer Text Result Settings Sql Persist Host Snmp Items.
Import Items.

Module CollectFacts.

(** What collection relies on: a multi-OID request only fills in results, and keeps the
    device's batch limit and session, and an ignored device stays so. *)
Definition oid_id (o : snmp_oids_t) : nat * cstr := (array_position o, oid_text o).
Record lawful {W} (C : Collectors W) : Prop := {
  lw_oids w host l : map oid_id (fst (fst (get_multi w host l))) = map oid_id l;
  lw_max w host l : max_oids (snmp (snd (fst (get_multi w host l)))) = max_oids (snmp host);
  lw_session w host l : session (snmp (snd (fst (get_multi w host l)))) = session (snmp host);
  lw_ignore w host l : ignore_host host = true → ignore_host (snd (fst (get_multi w host l))) = true }.

(** Collectors that record the multi-OID requests. *)
Definition recorded {W} (C : Collectors W) : Collectors (W * list (list snmp_oids_t)) := {|
  get_multi '(w, log) host l := let '(a, host, w) := get_multi w host l in (a, host, (w, log ++ [l]));
  open_session '(w, log) id name p := let '(s, w) := open_session w id name p in (s, (w, log));
  close_session '(w, log) s := (close_session w s, log);
  exec_poll '(w, log) host cmd id := let '(r, w) := exec_poll w host cmd id in (r, (w, log));
  php_cmd '(w, log) cmd := let '(r, w) := php_cmd w cmd in (r, (w, log));
  regexec := regexec |}.

(** The requests that the first [n] items call for. *)
Definition wanted (items : list target_t) (j : nat) : option (nat * cstr) :=
  item ← items !! j;
  if action item =? Keywords.POLLER_ACTION_SNMP then Some (j, snprintf_s 1024 (arg1 item)) else None.
Definition requests_of (items : list target_t) (n : nat) : list (nat * cstr) := omap (wanted items) (seq 0 n).

Lemma requests_S items n : requests_of items (S n) = requests_of items n ++ match wanted items n with Some x => [x] | None => [] end.
Proof. unfold requests_of. rewrite seq_S, omap_app. f_equal. Qed.

(** Items that differ in their results only. *)
Definition erase (l : list target_t) : list target_t := map (set_result []) l.
Lemma erase_insert l i t v : l !! i = Some t → erase (<[i := set_result v t]> l) = erase l.
Proof.
  intros E. unfold erase. apply list_eq. intros j. destruct (decide (i = j)) as [<-|Hne].
  - rewrite !list_lookup_fmap, list_lookup_insert_eq by (by eapply lookup_lt_Some). by rewrite E.
  - by rewrite !list_lookup_fmap, list_lookup_insert_ne.
Qed.
Lemma erase_lookup l l' i t : erase l' = erase l → l' !! i = Some t →
  ∃ t0, l !! i = Some t0 ∧ action t0 = action t ∧ arg1 t0 = arg1 t.
Proof.
  intros E Ht. assert (Hl : erase l' !! i = Some (set_result [] t)) by (unfold erase; by rewrite list_lookup_fmap, Ht).
  rewrite E in Hl. unfold erase in Hl. rewrite list_lookup_fmap in Hl. apply fmap_Some in Hl as (t0 & H0 & Heq).
  exists t0. split; [done|]. split; [exact (eq_sym (f_equal action Heq))|exact (eq_sym (f_equal arg1 Heq))].
Qed.
Lemma erase_length l l' : erase l' = erase l → length l' = length l.
Proof. intros E. apply (f_equal length) in E. unfold erase in E. by rewrite !length_map in E. Qed.

Section Run.
Context {W : Type} (C : Collectors W) (Hlaw : lawful C).
Hypothesis Hopen : ∀ w id name p, fst (open_session w id name p) ≠ None.

Lemma store_total host spike answers : ∀ b,
  Forall (fun o => array_position o < length (items b))%nat answers →
  ∃ b', store_snmp_results (H := recorded C) host answers spike b = Some b' ∧
    erase (items b') = erase (items b) ∧ oids b' = oids b ∧ count b' = count b ∧ key b' = key b.
Proof.
  induction answers as [|o answers IH]; intros b Hp; cbn [store_snmp_results]; [by exists b|].
  apply Forall_cons_iff in Hp as [Ho Hp]. destruct (lookup_lt_is_Some_2 _ _ Ho) as [item Ei]. rewrite Ei. cbn [mbind option_bind].
  destruct (snmp_item_value host item spike (oid_result o)) as [value error].
  set (b1 := if error then record_result_error item b else b).
  assert (Hb1 : items b1 = items b ∧ oids b1 = oids b ∧ count b1 = count b ∧ key b1 = key b) by (unfold b1; by destruct error).
  destruct Hb1 as (E1 & E2 & E3 & E4). clearbody b1.
  set (b2 := set_items _ b1). assert (E5 : erase (items b2) = erase (items b)).
  { unfold b2. cbn. rewrite E1. by apply erase_insert. }
  destruct (IH b2) as (b' & -> & H1 & H2 & H3 & H4).
  { rewrite (erase_length _ _ E5). done. }
  exists b'. split; [done|]. rewrite H1, H2, H3, H4. done.
Qed.

(** The batch, the device and the requests made so far, after [i] items. *)
Record binv (all : list target_t) (limit : Z) (i : nat) (b : snmp_poll_batch_t) (host : host_t) (log : list (list snmp_oids_t)) : Prop := {
  bi_items : erase (items b) = erase all;
  bi_limit : max_oids (snmp host) = limit ∧ 1 ≤ limit;
  bi_oids : Z.of_nat (length (oids b)) = limit;
  bi_count : Z.of_nat (count b) ≤ limit;
  bi_session : key_initialized (key b) = true → session (snmp host) ≠ None;
  bi_fresh : key_initialized (key b) = false → count b = 0%nat;
  bi_requests : map oid_id (concat log ++ take (count b) (oids b)) = requests_of all i;
  bi_batches : Forall (fun l => 1 ≤ Z.of_nat (length l) ≤ limit) log;
  bi_range : (i ≤ length all)%nat }.

Lemma requests_range all i : (i ≤ length all)%nat → Forall (fun x => fst x < length all)%nat (requests_of all i).
Proof.
  intros Hi. unfold requests_of. apply list.Forall_forall. intros x (j & Hj & Hw)%list_elem_of_omap.
  apply elem_of_seq in Hj. unfold wanted in Hw. apply bind_Some in Hw as (t & _ & Hw).
  destruct (action t =? _); [|done]. injection Hw as <-. cbn. lia.
Qed.

Lemma pending_positions all limit i b host log : binv all limit i b host log →
  Forall (fun o => array_position o < length (items b))%nat (take (count b) (oids b)).
Proof.
  intros I. pose proof (requests_range all i (bi_range _ _ _ _ _ _ I)) as Hr.
  rewrite <- (bi_requests _ _ _ _ _ _ I), map_app in Hr. apply Forall_app in Hr as [_ Hr].
  rewrite (erase_length _ _ (bi_items _ _ _ _ _ _ I)). apply Forall_map in Hr. done.
Qed.

(** A flush turns the pending entries into a request. *)
Lemma flush_inv all limit i b host w log spike : binv all limit i b host log →
  ∃ b' host' w' log', flush_snmp_batch (H := recorded C) (w, log) host spike b = Some (b', host', (w', log')) ∧
    binv all limit i b' host' log' ∧ count b' = 0%nat ∧ key b' = key b ∧ (ignore_host host = true → ignore_host host' = true).
Proof.
  intros I. pose proof (pending_positions _ _ _ _ _ _ I) as Hpos. unfold flush_snmp_batch.
  destruct (Nat.leb_spec (count b) 0) as [H0|H0].
  { exists b, host, w, log. split_and!; try done. lia. }
  destruct I as [Iit [Imax I1] Ioids Icount Isess Ifresh Ireq Ibat Irange].
  rewrite (proj2 (Nat.ltb_ge _ _)) by lia. cbn [get_multi recorded].
  pose proof (lw_oids C Hlaw w host (take (count b) (oids b))) as Lo. pose proof (lw_max C Hlaw w host (take (count b) (oids b))) as Lm.
  pose proof (lw_session C Hlaw w host (take (count b) (oids b))) as Ls. pose proof (lw_ignore C Hlaw w host (take (count b) (oids b))) as Li.
  destruct (get_multi w host (take (count b) (oids b))) as [[answers host1] w1]. cbn in Lo, Lm, Ls, Li.
  destruct (store_total host1 spike answers b) as (b1 & -> & E1 & E2 & E3 & E4).
  { assert (Hm : Forall (fun x => fst x < length (items b))%nat (map oid_id answers)) by (rewrite Lo; apply Forall_map; done).
    apply Forall_map in Hm. done. }
  cbn [mbind option_bind]. rewrite E2, Lm, Imax. rewrite (proj2 (Nat.ltb_ge _ _)) by lia.
  do 4 eexists. split; [done|]. split; [|cbn; done]. constructor; cbn [items oids count key set_oids].
  - by rewrite E1.
  - by rewrite Lm.
  - rewrite length_app, length_replicate, length_drop. lia.
  - lia.
  - rewrite E4, Ls. done.
  - done.
  - rewrite <- Ireq, concat_app. cbn. by rewrite !app_nil_r.
  - apply Forall_app. split; [done|]. apply Forall_cons; [|apply Forall_nil]. rewrite length_take. lia.
  - done.
Qed.

Lemma set_own_session all limit i b host log s : binv all limit i b host log → s ≠ None → binv all limit i b (set_session s host) log.
Proof. intros [] Hs. constructor; try done. Qed.

Lemma remember_inv all limit i b host log item : binv all limit i b host log → session (snmp host) ≠ None →
  binv all limit i (set_key (remember_snmp_item item) b) host log.
Proof. intros [] Hs. constructor; try done. Qed.

(** Adding the next item's OID to a batch with room. *)
Lemma add_inv all limit i b host log item text : binv all limit i b host log → Z.of_nat (count b) < limit →
  all !! i = Some item → action item = Keywords.POLLER_ACTION_SNMP → text = snprintf_s 1024 (arg1 item) → key_initialized (key b) = true →
  ∃ o, oids b !! count b = Some o ∧
    binv all limit (S i) (set_oids (<[count b := {| array_position := i; oid_text := text; oid_result := oid_result o |}]> (oids b)) (S (count b)) b) host log.
Proof.
  intros [Iit [Imax I1] Ioids Icount Isess Ifresh Ireq Ibat Irange] Hroom Hi Ha -> Hk.
  destruct (lookup_lt_is_Some_2 (oids b) (count b)) as [o Eo]; [lia|]. exists o. split; [done|]. constructor; cbn [items oids count key set_oids]; try done.
  - by rewrite length_insert.
  - lia.
  - intros E. by rewrite Hk in E.
  - rewrite requests_S. unfold wanted. rewrite Hi. cbn. rewrite Ha. cbn. rewrite <- Ireq.
    rewrite (take_S_r _ _ {| array_position := i; oid_text := snprintf_s 1024 (arg1 item); oid_result := oid_result o |})
      by (rewrite list_lookup_insert_eq; [done|lia]).
    rewrite take_insert_ge by lia. by rewrite app_assoc, map_app.
  - by apply lookup_lt_Some in Hi.
Qed.

(** An item that is not an SNMP item adds nothing. *)
Lemma skip_inv all limit i b b' host log item : binv all limit i b host log → all !! i = Some item →
  (action item =? Keywords.POLLER_ACTION_SNMP) = false → erase (items b') = erase (items b) → oids b' = oids b →
  count b' = count b → key b' = key b → binv all limit (S i) b' host log.
Proof.
  intros [Iit [Imax I1] Ioids Icount Isess Ifresh Ireq Ibat Irange] Hi Ha E1 E2 E3 E4.
  constructor; rewrite ?E1, ?E2, ?E3, ?E4; try done.
  - rewrite requests_S. unfold wanted. rewrite Hi. cbn. rewrite Ha, app_nil_r. done.
  - by apply lookup_lt_Some in Hi.
Qed.

Lemma open_inv all limit i b host w log item : binv all limit i b host log →
  ∃ host' w', open_snmp_item (H := recorded C) (w, log) host item = (host', (w', log)) ∧
    binv all limit i (set_key (remember_snmp_item item) b) host' log.
Proof.
  intros I. unfold open_snmp_item. cbn [open_session recorded].
  pose proof (Hopen w (host_id host) (it_hostname item) (it_snmp item)) as Ho.
  destruct (open_session w (host_id host) (it_hostname item) (it_snmp item)) as [s w1]. cbn in Ho.
  do 2 eexists. split; [done|]. apply remember_inv; [by apply set_own_session|done].
Qed.

Lemma first_inv all limit i b host w log item : binv all limit i b host log →
  ∃ b' host' w', first_item (H := recorded C) (w, log) host b item = (b', host', (w', log)) ∧
    binv all limit i b' host' log ∧ key_initialized (key b') = true ∧ items b' = items b.
Proof.
  intros I. unfold first_item. destruct (key_initialized (key b)) eqn:Ek; [by exists b, host, w|].
  destruct (open_inv _ _ _ _ _ w _ item I) as (host' & w' & -> & I'). do 3 eexists. split; [done|]. done.
Qed.

Lemma changed_inv all limit i b host w log item spike : binv all limit i b host log → key_initialized (key b) = true →
  ∃ b' host' w' log', changed_item (H := recorded C) (w, log) host b item spike = Some (b', host', (w', log')) ∧
    binv all limit i b' host' log' ∧ key_initialized (key b') = true.
Proof.
  intros I K. unfold changed_item. destruct (snmp_item_changed (key b) item); [|by exists b, host, w, log].
  destruct (flush_inv all limit i b host w log spike I) as (b2 & host2 & w2 & log2 & -> & I2 & _ & K2 & _).
  cbn [mbind option_bind]. rewrite <- K2 in K.
  destruct (session (snmp host2)) as [s2|] eqn:Es2; [|by destruct (bi_session _ _ _ _ _ _ I2 K)].
  assert (I3 : binv all limit i (set_key {| key_initialized := true; key_profile := it_snmp item |} b2) (set_session (Some s2) host2) log2)
    by (apply remember_inv; [by apply set_own_session|done]).
  unfold open_snmp_item. cbn [open_session close_session recorded].
  pose proof (Hopen (close_session w2 s2) (host_id (set_session None host2)) (it_hostname item) (it_snmp item)) as Ho.
  destruct (open_session (close_session w2 s2) _ _ _) as [s w3]. cbn in Ho.
  do 4 eexists. split; [done|]. split; [|done]. destruct I3. constructor; done.
Qed.

Lemma poll_snmp_inv all limit i b host w log spike item : binv all limit i b host log →
  items b !! i = Some item → action item = Keywords.POLLER_ACTION_SNMP →
  ∃ b' host' w' log', poll_snmp_item (H := recorded C) (w, log) host b i spike = Some (b', host', (w', log')) ∧
    binv all limit (S i) b' host' log'.
Proof.
  intros I Hi Ha. destruct (erase_lookup all (items b) i item (bi_items _ _ _ _ _ _ I) Hi) as (t0 & Ht0 & Ea & Eg).
  unfold poll_snmp_item. rewrite Hi. cbn [mbind option_bind].
  destruct (first_inv _ _ _ _ _ w _ item I) as (b1 & host1 & w1 & -> & I1 & K1 & _).
  destruct (session (snmp host1)) as [s1|] eqn:Es1; [|by destruct (bi_session _ _ _ _ _ _ I1 K1)].
  destruct (changed_inv _ _ _ _ _ w1 _ item spike I1 K1) as (b2 & host2 & w2 & log2 & -> & I2 & K2). cbn [mbind option_bind].
  assert (Hroom : ∃ b3 host3 w3 log3, (if max_oids (snmp host2) <=? Z.of_nat (count b2)
      then flush_snmp_batch (H := recorded C) (w2, log2) host2 spike b2 else Some (b2, host2, (w2, log2))) = Some (b3, host3, (w3, log3)) ∧
      binv all limit i b3 host3 log3 ∧ Z.of_nat (count b3) < limit ∧ key_initialized (key b3) = true).
  { destruct (bi_limit _ _ _ _ _ _ I2) as [Em Hl]. destruct (Z.leb_spec (max_oids (snmp host2)) (Z.of_nat (count b2))).
    - destruct (flush_inv all limit i b2 host2 w2 log2 spike I2) as (b3 & host3 & w3 & log3 & -> & I3 & E3 & K3 & _).
      do 4 eexists. split; [done|]. rewrite E3, K3. split_and!; try done; lia.
    - do 4 eexists. split; [done|]. split_and!; try done; lia. }
  destruct Hroom as (b3 & host3 & w3 & log3 & -> & I3 & Hlt & K3). cbn [mbind option_bind].
  destruct (add_inv all limit i b3 host3 log3 t0 (snprintf_s 1024 (arg1 item)) I3 Hlt Ht0) as (o & Eo & I4); [congruence|by rewrite Eg|done|].
  rewrite (proj2 (Nat.leb_gt _ _)) by (by eapply lookup_lt_Some). rewrite Eo. cbn [mbind option_bind].
  do 4 eexists. split; [done|]. exact I4.
Qed.

Lemma poll_script_inv b host w log i spike server item : items b !! i = Some item →
  ∃ b' w', poll_script_item (H := recorded C) (w, log) host b i spike server = Some (b', (w', log)) ∧
    erase (items b') = erase (items b) ∧ oids b' = oids b ∧ count b' = count b ∧ key b' = key b.
Proof.
  intros Hi. unfold poll_script_item. rewrite Hi. cbn [mbind option_bind].
  destruct (slen (arg1 item) =? 0).
  { do 2 eexists. split; [done|]. cbn [items oids count key set_items]. rewrite (erase_insert _ _ item) by done. done. }
  cbn [php_cmd exec_poll recorded].
  assert (Hcmd : ∃ r w1, (if server then let '(r, w) := php_cmd w (arg1 item) in (r, (w, log))
     else let '(r, w) := exec_poll w host (arg1 item) (local_data_id item) in (r, (w, log))) = (r, (w1, log))).
  { destruct server; [destruct (php_cmd w (arg1 item)) as [r w1]|destruct (exec_poll w host (arg1 item) (local_data_id item)) as [r w1]]; eauto. }
  destruct Hcmd as (r & w1 & ->). destruct (Output.normalize_poll_result _ _) as [st value].
  destruct st; (do 2 eexists; split; [done|]); cbn [items oids count key set_items record_result_error];
    rewrite (erase_insert _ _ item) by done; done.
Qed.

(** The whole loop: [rows] items are processed, and processing stops early only for a
    device to be ignored. *)
Lemma collect_loop_inv all limit spike n : ∀ i b host w log, binv all limit i b host log → (i + n ≤ length all)%nat →
  ∃ rows b' host' w' log', collect_loop (H := recorded C) (w, log) host b i n spike = Some (rows, b', host', (w', log')) ∧
    binv all limit (i + rows) b' host' log' ∧ (rows ≤ n)%nat ∧ (rows < n → ignore_host host' = true)%nat.
Proof.
  induction n as [|n IH]; intros i b host w log I Hn; cbn [collect_loop].
  { exists 0%nat, b, host, w, log. rewrite Nat.add_0_r. split_and!; try done; lia. }
  destruct (ignore_host host) eqn:Eig.
  { exists 0%nat, b, host, w, log. rewrite Nat.add_0_r. split_and!; try done; lia. }
  assert (Hlen := erase_length _ _ (bi_items _ _ _ _ _ _ I)).
  destruct (lookup_lt_is_Some_2 (items b) i) as [item Hi]; [lia|]. rewrite Hi. cbn [mbind option_bind].
  destruct (erase_lookup all (items b) i item (bi_items _ _ _ _ _ _ I) Hi) as (t0 & Ht0 & Ea & _).
  assert (Hstep : ∃ b1 host1 w1 log1,
    (if action item =? Keywords.POLLER_ACTION_SNMP then poll_snmp_item (H := recorded C) (w, log) host b i spike
     else if action item =? Keywords.POLLER_ACTION_SCRIPT then
       '(b, w) ← poll_script_item (H := recorded C) (w, log) host b i spike false; Some (b, host, w)
     else if action item =? Keywords.POLLER_ACTION_PHP_SCRIPT_SERVER then
       '(b, w) ← poll_script_item (H := recorded C) (w, log) host b i spike true; Some (b, host, w)
     else Some (b, host, (w, log))) = Some (b1, host1, (w1, log1)) ∧ binv all limit (S i) b1 host1 log1).
  { destruct (action item =? Keywords.POLLER_ACTION_SNMP) eqn:E0.
    - apply Z.eqb_eq in E0. by apply (poll_snmp_inv all limit i b host w log spike item).
    - rewrite <- Ea in E0. destruct (action item =? Keywords.POLLER_ACTION_SCRIPT).
      { destruct (poll_script_inv b host w log i spike false item Hi) as (b1 & w1 & -> & ? & ? & ? & ?).
        do 4 eexists. split; [done|]. by eapply skip_inv. }
      destruct (action item =? Keywords.POLLER_ACTION_PHP_SCRIPT_SERVER).
      { destruct (poll_script_inv b host w log i spike true item Hi) as (b1 & w1 & -> & ? & ? & ? & ?).
        do 4 eexists. split; [done|]. by eapply skip_inv. }
      do 4 eexists. split; [done|]. by eapply skip_inv. }
  destruct Hstep as (b1 & host1 & w1 & log1 & -> & I1). cbn [mbind option_bind].
  destruct (IH (S i) b1 host1 w1 log1 I1 ltac:(lia)) as (rows & b2 & host2 & w2 & log2 & -> & I2 & Hr & Hstop).
  cbn [mbind option_bind]. exists (S rows), b2, host2, w2, log2. split; [done|].
  replace (i + S rows)%nat with (S i + rows)%nat by lia. split_and!; [done|lia|]. intros ?. apply Hstop. lia.
Qed.

End Run.
End CollectFacts.

(** * The SNMP requests are lawful *)

Module LawfulFacts.
Import CollectFacts Requests.

(** Collectors whose multi-OID request is the one of [Snmp]. *)
Definition snmp_collectors {W} `{NetSNMP W} (open_ : W → Z → cstr → snmp_profile_t → option nat * W) (close : W → nat → W)
    (exec : W → host_t → cstr → Z → cstr * W) (php : W → cstr → cstr * W) (re : cstr → cstr → option (option (nat * nat))) : Collectors W :=
  {| get_multi w host l := snmp_get_multi w host l; open_session := open_; close_session := close; exec_poll := exec;
     php_cmd := php; regexec := re |}.

Section Lawful.
Context {W : Type} `{NetSNMP W}.

Lemma undefined_ids l : map oid_id (snmp_multi_undefined l) = map oid_id l.
Proof. unfold snmp_multi_undefined. by rewrite map_map. Qed.
Lemma error_index_ids l : ∀ c k, map oid_id (snd (error_index_loop l c k)) = map oid_id l.
Proof.
  induction l as [|o l IH]; intros c k; cbn [error_index_loop]; [done|]. destruct (IS_UNDEFINED (oid_result o)).
  - specialize (IH c k). destruct (error_index_loop l c k). cbn in *. by rewrite IH.
  - destruct (_ =? k); [done|]. specialize (IH (c + 1) k). destruct (error_index_loop l (c + 1) k). cbn in *. by rewrite IH.
Qed.
Lemma values_ids l : ∀ vs, map oid_id (snmp_multi_values l vs) = map oid_id l.
Proof.
  induction l as [|o l IH]; intros vs; cbn [snmp_multi_values]; [done|]. destruct (IS_UNDEFINED (oid_result o)).
  - cbn. by rewrite IH.
  - destruct vs as [|v vs]; cbn [map]; rewrite IH; [done|]. by destruct (Response.snmp_varbind_is_exception (Some v)).
Qed.
Lemma add_oids_ids l : ∀ w, map oid_id (snd (fst (add_oids w l))) = map oid_id l.
Proof.
  induction l as [|o l IH]; intros w; cbn [add_oids]; [done|]. destruct (IS_UNDEFINED (oid_result o)).
  - specialize (IH w). destruct (add_oids w l) as [[names rest] w1]. cbn in *. by rewrite IH.
  - destruct (snmp_parse_oid (oid_text o)) as [n|].
    + destruct (snmp_add_null_var w n) as [added w1]. specialize (IH w1). destruct (add_oids w1 l) as [[names rest] w2].
      destruct added; cbn in *; by rewrite IH.
    + specialize (IH w). destruct (add_oids w l) as [[names rest] w1]. cbn in *. by rewrite IH.
Qed.

(** The parts of a device that a request leaves alone. *)
Definition keeps (h h' : host_t) : Prop :=
  max_oids (snmp h') = max_oids (snmp h) ∧ session (snmp h') = session (snmp h) ∧ (ignore_host h = true → ignore_host h' = true).

Lemma multi_loop_keeps sess : ∀ budget w host req l st,
  let '(_, l', _, host', _) := multi_loop budget w host sess req l st in map oid_id l' = map oid_id l ∧ keeps host host'.
Proof.
  assert (Hnone : ∀ b w host l st, multi_loop b w host sess None l st = (None, l, st, host, w)) by (by intros []).
  induction budget as [|b IH]; intros w host req l st; [by destruct req|]. destruct req as [req|]; [|by rewrite Hnone].
  cbn [multi_loop]. destruct (snmp_sess_synch_response w sess req) as [[st1 resp] w1].
  destruct (st1 =? STAT_SUCCESS); [|by rewrite Hnone].
  destruct resp as [r|]; [|by rewrite Hnone, undefined_ids].
  destruct (errstat r =? SNMP_ERR_NOERROR); [by rewrite Hnone, values_ids|].
  pose proof (error_index_ids l 0 (errindex r)) as Hids. unfold snmp_multi_error_index.
  destruct (error_index_loop l 0 (errindex r)) as [[] l1]; [|by rewrite Hnone, undefined_ids].
  specialize (IH w1 (set_snmp_status st1 host) (snmp_fix_pdu r) l1 st1).
  destruct (multi_loop b w1 _ sess (snmp_fix_pdu r) l1 st1) as [[[[req' l'] st'] host'] w']. cbn in *. by rewrite <- Hids.
Qed.

Lemma get_multi_keeps w host l :
  let '(l', host', _) := snmp_get_multi w host l in map oid_id l' = map oid_id l ∧ keeps host host'.
Proof.
  unfold snmp_get_multi. destruct l as [|o l0]; [done|]. set (l := o :: l0). destruct (session (snmp host)) as [sess|] eqn:Es.
  - unfold snmp_multi_request. destruct (snmp_pdu_create w) as [created w1]. destruct created; cbn [negb]; [|by rewrite undefined_ids].
    pose proof (add_oids_ids l w1) as Hids. destruct (add_oids w1 l) as [[names l1] w2]. cbn in Hids.
    destruct names as [|n ns]; [by rewrite undefined_ids|].
    pose proof (multi_loop_keeps sess (length l1) w2 host (Some {| rq_command := SNMP_MSG_GET; rq_names := n :: ns |}) l1 STAT_DESCRIP_ERROR) as Hm.
    destruct (multi_loop _ _ _ _ _ _ _) as [[[[req l2] st] host2] w3]. destruct Hm as (H1 & H2 & H3 & H4).
    destruct req as [r|]; [destruct (STAT_ERROR =? STAT_TIMEOUT)|destruct (st =? STAT_TIMEOUT)]; 
      rewrite ?undefined_ids, H1; (split; [done|]); unfold keeps; cbn; auto.
  - by rewrite undefined_ids.
Qed.

Lemma snmp_collectors_lawful open_ close exec php re : lawful (snmp_collectors open_ close exec php re).
Proof.
  constructor; intros w host l; cbn [get_multi snmp_collectors]; pose proof (get_multi_keeps w host l) as Hk;
    destruct (snmp_get_multi w host l) as [[l' host'] w']; by destruct Hk as (? & ? & ? & ?).
Qed.

End Lawful.
End LawfulFacts.

(** * Properties *)

(** C4: every SNMP item that is reached is requested exactly once, under its own OID, and no
    array is overrun.  Over collectors whose multi-OID request only fills in results (those built
    on [snmp_get_multi] are) and whose sessions open, collecting the items of a device
    with [max_oids] OIDs per request succeeds; the multi-OID requests made, in order, are
    batches of 1 to [max_oids] entries that together name exactly the SNMP items among
    those processed, each with its own array position and OID text; items keep all their
    fields but the result; and processing stops early only for a device to be ignored. *)
Theorem collect_requests_each_item_once {W} (C : Collectors W) (w : W) (host : host_t) (b : snmp_poll_batch_t)
  (spike_kill : bool) (Hlaw : CollectFacts.lawful C)
  (Hopen : ∀ w id name p, fst (open_session w id name p) ≠ None) (Hmax : 1 ≤ max_oids (snmp host))
  (Hfresh : oids b = replicate (Z.to_nat (max_oids (snmp host))) zero_oid ∧ count b = 0%nat ∧ key_initialized (key b) = false) :
  ∃ rows b' host' w' log,
    collect_poll_items (H := CollectFacts.recorded C) (w, []) host b (length (items b)) spike_kill = Some (rows, b', host', (w', log)) ∧
    map CollectFacts.oid_id (concat log) = CollectFacts.requests_of (items b) rows ∧
    Forall (fun l => 1 ≤ Z.of_nat (length l) ≤ max_oids (snmp host)) log ∧
    CollectFacts.erase (items b') = CollectFacts.erase (items b) ∧
    (rows ≤ length (items b))%nat ∧ (rows < length (items b) → ignore_host host' = true)%nat.
Proof.
  destruct Hfresh as (Ho & Hc & Hk).
  assert (I : CollectFacts.binv (items b) (max_oids (snmp host)) 0 b host []).
  { constructor; try done; rewrite ?Ho, ?Hc, ?length_replicate; try lia; by rewrite Hk || done. }
  unfold collect_poll_items.
  destruct (CollectFacts.collect_loop_inv C Hlaw Hopen _ _ spike_kill (length (items b)) 0 b host w [] I ltac:(lia))
    as (rows & b1 & host1 & w1 & log1 & -> & I1 & Hr & Hstop).
  cbn [mbind option_bind]. destruct (CollectFacts.flush_inv C Hlaw _ _ _ b1 host1 w1 log1 spike_kill I1)
    as (b2 & host2 & w2 & log2 & -> & I2 & E2 & _ & Hig). cbn [mbind option_bind].
  exists rows, b2, host2, w2, log2. split; [done|]. destruct I2 as [Iit _ _ _ _ _ Ireq Ibat _].
  rewrite E2, app_nil_r in Ireq. split_and!; try done. intros Hlt. by apply Hig, Hstop.
Qed.

(** Collectors over the sample Net-SNMP: sessions always open. *)
Definition sample_collectors : Collectors unit := @LawfulFacts.snmp_collectors unit
  {| snmp_parse_oid t := match t with [] => None | _ => Some [1; slen t] end;
     snmp_pdu_create w := (true, w); snmp_add_null_var w _ := (true, w);
     snmp_sess_synch_response w _ r := (STAT_SUCCESS, Some {| errstat := 0; errindex := 0;
       variables := map (fun n => {| vb_name := Some n; vb_type := 2; vb_value := udec (default 0 (n !! 1%nat)) |}) (rq_names r) |}, w);
     snmp_fix_pdu _ := None; snmp_sess_liberr _ _ := 0; SNMPERR_NOT_IN_TIME_WINDOW := -28;
     snprint_value v := Some (vb_value v); snprint_asciistring s := Some s; snmp_oid_compare _ _ := -1 |}
  (fun w _ _ _ => (Some 1%nat, w)) (fun w _ => w) (fun w _ _ _ => ($"U", w)) (fun w _ => ($"U", w)) (fun _ _ => None).

Definition snmp_item (oid : cstr) : target_t := {|
  result := UNDEFINED; local_data_id := 1; action := 0; it_hostname := []; rrd_name := []; rrd_path := []; rrd_num := 1;
  arg1 := oid; arg2 := []; arg3 := []; output_regex := []; it_snmp := empty_profile |}.
Definition small_host : host_t := set_max_oids 2 sample_host.
Definition sample_batch : snmp_poll_batch_t := {|
  items := [snmp_item ($".1"); snmp_item ($".1.3"); snmp_item ($".1.3.6")]; oids := replicate 2 zero_oid; count := 0;
  key := {| key_initialized := false; key_profile := empty_profile |}; err_buffer := Output.empty_errors; errors := 0 |}.

Lemma collect_requests_each_item_once_witness :
  ∃ rows b' host' w' log,
    collect_poll_items (H := CollectFacts.recorded sample_collectors) (tt, []) small_host sample_batch 3 false = Some (rows, b', host', (w', log)) ∧
    map CollectFacts.oid_id (concat log) = CollectFacts.requests_of (items sample_batch) rows ∧
    map result (items b') = [$"2"; $"4"; $"6"] ∧ map length log = [2; 1]%nat.
Proof.
  destruct (collect_requests_each_item_once sample_collectors tt small_host sample_batch false)
    as (rows & b' & host' & w' & log & E & Hreq & _).
  - apply LawfulFacts.snmp_collectors_lawful.
  - done.
  - by vm_compute.
  - done.
  - exists rows, b', host', w', log. split; [exact E|]. split; [exact Hreq|]. vm_compute in E.
    injection E as <- <- <- <- <-. split; reflexivity.
Defined.
