(* ===== verification/Reindex.v ===== *)
(** Data-query reindexing and system information: src/src/poller/reindex.c and
    src/src/poller/system.c; [is_debug_device] of src/src/log/debug.c.

    Before its items, a device's reindex assertions are polled and compared with the
    stored values.  How a value is polled is an interface ([Class ReindexSource]) that
    [poll_reindex_action] implements; the statements go through [StatementSink]. *)

From S2P Require Import Prelude CLib Buffer Text Result Settings Sql Queries Persist Snmp SnmpFacts Items ItemsFacts.

Record reindex_t := { op : cstr; assert_value : cstr; rx_arg1 : cstr; data_query_id : Z; rx_action : Z }.

(** Polling one assertion of a device, given the uptime seen so far: the value ([None] is
    NULL), whether no comparison is possible, the uptime, the device.  [None] is a table
    walk that does not end. *)
Class ReindexSource (W : Type) :=
  poll_action : W → host_t → reindex_t → cstr → option (option cstr * bool * cstr * host_t * W).

Module Reindex.
Import Classify.

Definition MAX_DEBUG_DEVICES : nat := 100.
Fixpoint debug_scan (n : nat) (devices : list Z) (device_id : Z) : bool :=
  match n, devices with
  | S n', d :: devices' => if d =? 0 then false else if d =? device_id then true else debug_scan n' devices' device_id
  | _, _ => false
  end.
Definition is_debug_device (debug_devices : option (list Z)) (device_id : Z) : bool :=
  match debug_devices with None => false | Some l => debug_scan MAX_DEBUG_DEVICES l device_id end.

Definition legacy_uptime : cstr := $".1.3.6.1.2.1.1.3.0".
Definition engine_uptime : cstr := $".1.3.6.1.6.3.10.2.1.3.0".
Definition no_such_instance : cstr := $"No Such Instance".

(** ** Assertions *)

Definition value_unavailable (value : option cstr) : bool :=
  match value with None => true | Some v => IS_UNDEFINED v || STRIMATCH v no_such_instance end.

Definition reindex_assertion_failed (r : reindex_t) (value : option cstr) : bool :=
  match value with
  | None => false
  | Some v =>
      if IS_UNDEFINED v || STRIMATCH v no_such_instance then false
      else if STRMATCH (op r) ($"=") then negb (STRMATCH (assert_value r) v)
      else if STRMATCH (op r) ($">") then atoll (assert_value r) <? atoll v
      else if STRMATCH (op r) ($"<") then negb (STRMATCH (assert_value r) ($"0")) && (atoll v <? atoll (assert_value r))
      else false
  end.

(** The poller, the device and the thread that evaluates; [log_level] is
    [set.logging.spine_log_level]. *)
(** [ev_host_id] is the id of the loaded device, [ev_work_id] the one the thread was given. *)
Record evaluation_t := { ev_host_id : Z; ev_work_id : Z; ev_thread : Z; ev_debug : bool; ev_log_level : Z; ev_local : conn; ev_remote : conn }.
Definition highlighted (e : evaluation_t) : bool := ev_debug e || (ev_log_level e =? 2).

(** What [log_reindex_assertion] adds to the error count. *)
Definition log_reindex_assertion (e : evaluation_t) (failed : bool) : Z :=
  if failed && negb (highlighted e) && (ev_log_level e =? 1) then 1 else 0.

Definition POLLER_COMMAND_REINDEX : Z := 1.
Definition queue_query (set : config_t) (e : evaluation_t) (r : reindex_t) : cstr :=
  snprintf_s LRG_BUFSIZE ($"REPLACE INTO poller_command (poller_id, time, action, command) VALUES (" ++ sdec (poller_id set) ++ $", NOW(), " ++
    sdec POLLER_COMMAND_REINDEX ++ $", '" ++ sdec (ev_host_id e) ++ $":" ++ sdec (data_query_id r) ++ $"')").
Definition update_query (escape : cstr → cstr) (e : evaluation_t) (r : reindex_t) (value : cstr) : cstr :=
  snprintf_s LRG_BUFSIZE ($"UPDATE poller_reindex SET assert_value='" ++ Sql.db_escape escape [] BUFSIZE (Some value) ++ $"' WHERE host_id='" ++
    sdec (ev_work_id e) ++ $"' AND data_query_id='" ++ sdec (data_query_id r) ++ $"' AND arg1='" ++
    Sql.db_escape escape [] BUFSIZE (Some (rx_arg1 r)) ++ $"'").

Section Evaluate.
Context {W : Type} `{StatementSink W} (set : config_t) (escape : cstr → cstr) (e : evaluation_t).

Definition remote_queue : bool := (1 <? poller_id set) && (mode set =? REMOTE_ONLINE).

(** False only when the queue write failed. *)
Definition queue_reindex (w : W) (r : reindex_t) : outcome (bool * W) :=
  if negb (ev_thread e =? 1) then Ok (true, w)
  else if remote_queue then insert w (ev_remote e) REMOTE (queue_query set e r)
  else insert w (ev_local e) LOCAL (queue_query set e r).

Definition update_reindex_value (w : W) (r : reindex_t) (value : option cstr) : outcome W :=
  match value with
  | Some v => if negb (ev_thread e =? 1) then Ok w
              else let* (_, w) := insert w (ev_local e) LOCAL (update_query escape e r v) in Ok w
  | None => Ok w
  end.

Definition is_uptime (r : reindex_t) : bool := STRMATCH (rx_arg1 r) legacy_uptime || STRMATCH (rx_arg1 r) engine_uptime.

(** Whether the assertion failed, what is added to the error count, whether the sample is
    a spike. *)
Definition evaluate_reindex_assertion (w : W) (r : reindex_t) (value : option cstr) : outcome (bool * Z * bool * W) :=
  let failed := reindex_assertion_failed r value in
  let unavailable := value_unavailable value in
  let errors := if failed || unavailable then log_reindex_assertion e failed else 0 in
  let* (queued, w) := (if failed then queue_reindex w r else Ok (true, w)) in
  let* w := (if queued && negb unavailable && (failed || STRMATCH (op r) ($">") || STRMATCH (op r) ($"<"))
             then update_reindex_value w r value else Ok w) in
  let spike := failed && (STRMATCH (op r) ($"<") || is_uptime r) in
  let errors := if spike && negb (highlighted e) && (ev_log_level e =? 1) then errors + 1 else errors in
  Ok (failed, errors, spike, w).

(** ** The assertions of a device *)

Definition row_or (row : row_t) (i : nat) (cap : Z) : cstr := match column row i with Some v => snprintf_s cap v | None => [] end.
Definition load_reindex_item (row : row_t) : reindex_t := {|
  data_query_id := match column row 0 with Some v => atoi v | None => 0 end;
  rx_action := match column row 1 with Some v => atoi v | None => -1 end;
  op := row_or row 2 4; assert_value := row_or row 3 100; rx_arg1 := row_or row 4 1024 |}.

Record reindex_state := { rs_host : host_t; rs_uptime : cstr; rs_last : Z; rs_failed : bool; rs_errors : Z; rs_spike : bool }.

(** [while ((row = mysql_fetch_row(result)))]. *)
Fixpoint reindex_rows `{ReindexSource W} (w : W) (rows : list row_t) (st : reindex_state) : outcome (option (reindex_state * W)) :=
  match rows with
  | [] => Ok (Some (st, w))
  | row :: rows' =>
      let r := load_reindex_item row in
      let previous := if negb (rs_last st =? data_query_id r) then false else rs_failed st in
      let skip host uptime w := reindex_rows w rows' {| rs_host := host; rs_uptime := uptime; rs_last := data_query_id r; rs_failed := previous;
                                                        rs_errors := rs_errors st; rs_spike := rs_spike st |} in
      if previous then skip (rs_host st) (rs_uptime st) w else
      match poll_action w (rs_host st) r (rs_uptime st) with
      | None => Ok None
      | Some (value, unavailable, uptime, host, w) =>
          if unavailable : bool then skip host uptime w else
          let* (failed, errors, spike, w) := evaluate_reindex_assertion w r value in
          reindex_rows w rows' {| rs_host := host; rs_uptime := uptime; rs_last := data_query_id r; rs_failed := failed;
                                  rs_errors := rs_errors st + errors; rs_spike := rs_spike st || spike |}
      end
  end.

End Evaluate.

(** [close_session] of the collectors closes the device's session afterwards. *)
Definition poll_host_reindex {W} `{MySQL W} `{Collectors W} `{ReindexSource W} (set : config_t) (ssl : list mysql_feature)
    (e : evaluation_t) (w : W) (host : host_t) (query : cstr) (errors : Z) (spike_kill : bool) :
    outcome (option (host_t * Z * bool * W)) :=
  if ignore_host host || (ev_work_id e =? 0) then Ok (Some (host, errors, spike_kill, w)) else
  let* (result, w) := Sql.db_query set ssl w (ev_local e) LOCAL query in
  let* r := (match result with
             | None => Ok (Some ({| rs_host := host; rs_uptime := []; rs_last := 0; rs_failed := false; rs_errors := errors; rs_spike := spike_kill |}, w))
             | Some res => let* _ := spine_count_to_int (Z.of_nat (length (res_rows res))) in
                           reindex_rows (H := db_sink set ssl) set (mysql_real_escape_string w (ev_local e)) e w (res_rows res)
                             {| rs_host := host; rs_uptime := []; rs_last := 0; rs_failed := false; rs_errors := errors; rs_spike := spike_kill |}
             end) in
  match r with
  | None => Ok None
  | Some (st, w) =>
      let '(host, w) := match session (snmp (rs_host st)) with
                        | Some s => (set_session None (rs_host st), close_session w s)
                        | None => (rs_host st, w)
                        end in
      Ok (Some (host, rs_errors st, rs_spike st, w))
  end.

(** ** Polling one assertion *)

Section Poll.
Context {W : Type} `{NetSNMP W} `{Collectors W} (fuel : nat).
Import Requests.

Definition asks_uptime (r : reindex_t) : bool := has_substr (rx_arg1 r) legacy_uptime || has_substr (rx_arg1 r) engine_uptime.

(** The uptime of the device in hundredths of a second, as text; empty if none. *)
Definition poll_uptime (w : W) (host : host_t) : cstr * host_t * W :=
  let '(t, host, w) := snmp_get_base w host engine_uptime false in
  match parse_uptime (Some t) with
  | Some ticks => (snprintf_s BUFSIZE (udec (wrap_u 64 (ticks * 100))), host, w)
  | None =>
      let '(t, host, w) := snmp_get w host legacy_uptime in
      (match parse_uptime (Some t) with Some ticks => snprintf_s BUFSIZE (udec ticks) | None => [] end, host, w)
  end.

(** The value, whether no comparison is possible, the uptime. *)
Definition poll_reindex_snmp (w : W) (host : host_t) (r : reindex_t) (uptime : cstr) : option cstr * bool * cstr * host_t * W :=
  match session (snmp host) with
  | None => (None, true, uptime, host, w)
  | Some _ =>
      if asks_uptime r then
        match uptime with
        | [] => let '(uptime, host, w) := poll_uptime w host in
                (Some (match uptime with [] => UNDEFINED | _ => uptime end), false, uptime, host, w)
        | _ => (Some (snprintf_s BUFSIZE uptime), false, uptime, host, w)
        end
      else let '(t, host, w) := snmp_get w host (rx_arg1 r) in (Some t, false, uptime, host, w)
  end.

Definition newline : Z := 10.

Definition poll_reindex_action (w : W) (host : host_t) (r : reindex_t) (uptime : cstr) :
    option (option cstr * bool * cstr * host_t * W) :=
  if rx_action r =? Keywords.POLLER_ACTION_SNMP then Some (poll_reindex_snmp w host r uptime)
  else if rx_action r =? Keywords.POLLER_ACTION_SCRIPT then
    match rx_arg1 r with
    | [] => Some (None, false, uptime, host, w)
    | _ => let '(t, w) := exec_poll w host (rx_arg1 r) (data_query_id r) in Some (Some (Trim.trim t), false, uptime, host, w)
    end
  else if rx_action r =? Keywords.POLLER_ACTION_PHP_SCRIPT_SERVER then
    let '(t, w) := php_cmd w (rx_arg1 r) in Some (Some (Trim.trim t), false, uptime, host, w)
  else if rx_action r =? Keywords.POLLER_ACTION_SNMP_COUNT then
    '(n, host, w) ← snmp_count fuel w host (rx_arg1 r);
    Some (Some (if n <? 0 then UNDEFINED else snprintf_s BUFSIZE (sdec n)), false, uptime, host, w)
  else if rx_action r =? Keywords.POLLER_ACTION_SCRIPT_COUNT then
    let '(t, w) := exec_poll w host (rx_arg1 r) (data_query_id r) in
    Some (Some (snprintf_s BUFSIZE (sdec (Trim.char_count t newline))), false, uptime, host, w)
  else if rx_action r =? Keywords.POLLER_ACTION_PHP_SCRIPT_SERVER_COUNT then
    let '(t, w) := php_cmd w (rx_arg1 r) in
    Some (Some (snprintf_s BUFSIZE (sdec (Trim.char_count t newline))), false, uptime, host, w)
  else Some (None, false, uptime, host, w).

#[global] Instance action_source : ReindexSource W := poll_reindex_action.

(** ** System information (system.c) *)

Definition set_uptime (t : Z) (h : host_t) : host_t :=
  set_system {| snmp_sysDescr := snmp_sysDescr (system h); snmp_sysObjectID := snmp_sysObjectID (system h); snmp_sysUpTimeInstance := t;
                snmp_sysContact := snmp_sysContact (system h); snmp_sysName := snmp_sysName (system h);
                snmp_sysLocation := snmp_sysLocation (system h) |} h.

Definition poll_system_uptime (w : W) (host : host_t) : host_t * W :=
  let '(t, host, w) := snmp_get_allow_fail w host legacy_uptime in
  match parse_uptime (Some t) with
  | None => (host, w)
  | Some ticks =>
      let host := set_uptime ticks host in
      let '(t, host, w) := snmp_get_allow_fail w host engine_uptime in
      (match parse_uptime (Some t) with Some ticks => set_uptime (wrap_u 64 (ticks * 100)) host | None => host end, w)
  end.

(** The escaped answer, of at most [capacity] bytes. *)
Definition poll_system_field (escape : cstr → cstr) (w : W) (host : host_t) (name destination : cstr) (capacity : Z) : cstr * host_t * W :=
  let '(t, host, w) := snmp_get_allow_fail w host name in
  (Sql.db_escape escape destination capacity (Some t), host, w).

Definition get_system_information (set : config_t) (escape : cstr → cstr) (full_request : bool) (w : W) (host : host_t) : host_t * W :=
  let full := mibs set || full_request in
  let field name get (put : cstr → host_system_t → host_system_t) cap host w :=
    let '(v, host, w) := poll_system_field escape w host name (get (system host)) cap in (set_system (put v (system host)) host, w) in
  let '(host, w) :=
    (if full then
       let '(host, w) := field ($".1.3.6.1.2.1.1.1.0") snmp_sysDescr
         (fun v s => {| snmp_sysDescr := v; snmp_sysObjectID := snmp_sysObjectID s; snmp_sysUpTimeInstance := snmp_sysUpTimeInstance s;
                        snmp_sysContact := snmp_sysContact s; snmp_sysName := snmp_sysName s; snmp_sysLocation := snmp_sysLocation s |}) 600 host w in
       field ($".1.3.6.1.2.1.1.2.0") snmp_sysObjectID
         (fun v s => {| snmp_sysDescr := snmp_sysDescr s; snmp_sysObjectID := v; snmp_sysUpTimeInstance := snmp_sysUpTimeInstance s;
                        snmp_sysContact := snmp_sysContact s; snmp_sysName := snmp_sysName s; snmp_sysLocation := snmp_sysLocation s |}) 160 host w
     else (host, w)) in
  let '(host, w) := poll_system_uptime w host in
  if full then
    let '(host, w) := field ($".1.3.6.1.2.1.1.4.0") snmp_sysContact
      (fun v s => {| snmp_sysDescr := snmp_sysDescr s; snmp_sysObjectID := snmp_sysObjectID s; snmp_sysUpTimeInstance := snmp_sysUpTimeInstance s;
                     snmp_sysContact := v; snmp_sysName := snmp_sysName s; snmp_sysLocation := snmp_sysLocation s |}) 300 host w in
    let '(host, w) := field ($".1.3.6.1.2.1.1.5.0") snmp_sysName
      (fun v s => {| snmp_sysDescr := snmp_sysDescr s; snmp_sysObjectID := snmp_sysObjectID s; snmp_sysUpTimeInstance := snmp_sysUpTimeInstance s;
                     snmp_sysContact := snmp_sysContact s; snmp_sysName := v; snmp_sysLocation := snmp_sysLocation s |}) 300 host w in
    field ($".1.3.6.1.2.1.1.6.0") snmp_sysLocation
      (fun v s => {| snmp_sysDescr := snmp_sysDescr s; snmp_sysObjectID := snmp_sysObjectID s; snmp_sysUpTimeInstance := snmp_sysUpTimeInstance s;
                     snmp_sysContact := snmp_sysContact s; snmp_sysName := snmp_sysName s; snmp_sysLocation := v |}) 600 host w
  else (host, w).

End Poll.
End Reindex.

(** * Facts *)

Module ReindexFacts.
Import Persist PersistFacts Reindex.

(** A source is carried over to a logged world. *)
Definition lift_source {W} (S : ReindexSource W) : ReindexSource (W * list executed) := fun '(w, log) host r uptime =>
  '(value, unavailable, uptime, host, w) ← S w host r uptime; Some (value, unavailable, uptime, host, (w, log)).

Section Log.
Context {W : Type} (I : StatementSink W) (S : ReindexSource W) (set : config_t) (escape : cstr → cstr) (e : evaluation_t).

(** ** What evaluating one assertion may send *)

Definition queued (ok : bool) (r : reindex_t) : executed :=
  verdict ok (if remote_queue set then ev_remote e else ev_local e) (if remote_queue set then REMOTE else LOCAL) (queue_query set e r).
Definition stored (ok : bool) (r : reindex_t) (v : cstr) : executed := verdict ok (ev_local e) LOCAL (update_query escape e r v).

(** The statements of one row; the flag says that its assertion failed. *)
Inductive reindex_block (r : reindex_t) : bool → list executed → Prop :=
| rb_none : reindex_block r false []
| rb_rejected v : reindex_assertion_failed r (Some v) = true → reindex_block r true [queued false r]
| rb_reindexed v ok : reindex_assertion_failed r (Some v) = true → reindex_block r true [queued true r; stored ok r v]
| rb_tracked v ok : reindex_assertion_failed r (Some v) = false → value_unavailable (Some v) = false →
    op r = $">" ∨ op r = $"<" → reindex_block r false [stored ok r v].

(** A failed row silences the rows of the same data query that follow it. *)
Definition silenced (ids : list Z) (blocks : list (bool * list executed)) : Prop :=
  ∀ i j b, (i < j)%nat → blocks !! i = Some (true, b) → (j < length blocks)%nat →
    (∀ k, (i ≤ k ≤ j)%nat → ids !! k = ids !! i) → blocks !! j = Some (false, []).
(** ... and so does one seen before, of data query [last]. *)
Definition silent_prefix (last : Z) (ids : list Z) (blocks : list (bool * list executed)) : Prop :=
  ∀ j, (j < length blocks)%nat → (∀ k, (k ≤ j)%nat → ids !! k = Some last) → blocks !! j = Some (false, []).

Lemma silenced_cons id ids f b blocks : silenced ids blocks → (f = true → silent_prefix id ids blocks) →
  silenced (id :: ids) ((f, b) :: blocks).
Proof.
  intros Hs Hp [|i] [|j] b' Hij Hi Hj Hk; try lia; cbn in Hi, Hj |- *.
  - injection Hi as -> <-. apply (Hp eq_refl); [lia|]. intros k Hkj. specialize (Hk (Datatypes.S k) ltac:(lia)). cbn in Hk. done.
  - apply (Hs i j b'); [lia|done|lia|]. intros k Hkj. exact (Hk (Datatypes.S k) ltac:(lia)).
Qed.
Lemma silent_cons last id ids blocks : (id = last → silent_prefix last ids blocks) →
  silent_prefix last (id :: ids) ((false, []) :: blocks).
Proof.
  intros Hp [|j] Hj Hk; [done|]. cbn in Hj |- *. pose proof (Hk 0%nat ltac:(lia)) as H0. cbn in H0. injection H0 as H0.
  apply (Hp H0); [lia|]. intros k Hkj. exact (Hk (Datatypes.S k) ltac:(lia)).
Qed.
Lemma silent_other last id ids x blocks : id ≠ last → silent_prefix last (id :: ids) (x :: blocks).
Proof. intros Hne j Hj Hk. specialize (Hk 0%nat ltac:(lia)). cbn in Hk. congruence. Qed.

Lemma unavailable_not_failed r v : value_unavailable v = true → reindex_assertion_failed r v = false.
Proof. unfold value_unavailable, reindex_assertion_failed. destruct v as [v|]; [|done]. by intros ->. Qed.

Lemma evaluate_block w log r value : ev_thread e = 1 →
  match evaluate_reindex_assertion (H := logged I) set escape e (w, log) r value with
  | Ok (failed, _, spike, (_, log')) =>
      failed = reindex_assertion_failed r value ∧ spike = failed && (STRMATCH (op r) ($"<") || is_uptime r) ∧
      ∃ block, log' = log ++ block ∧ reindex_block r failed block
  | Died x => dies I x
  end.
Proof.
  intros Ht. unfold evaluate_reindex_assertion. set (failed := reindex_assertion_failed r value).
  destruct (value_unavailable value) eqn:Eu.
  { assert (Ef : failed = false) by (by apply unavailable_not_failed). rewrite Ef. cbn [obind andb negb orb]. split; [done|]. split; [done|].
    exists []. rewrite app_nil_r. split; [done|constructor]. }
  destruct value as [v|]; [|done]. destruct failed eqn:Ef.
  - unfold queue_reindex. rewrite Ht. cbn [negb Z.eqb Pos.eqb].
    assert (Hq : (if remote_queue set then insert (StatementSink := logged I) (w, log) (ev_remote e) REMOTE (queue_query set e r)
                  else insert (StatementSink := logged I) (w, log) (ev_local e) LOCAL (queue_query set e r)) =
      let* (ok, w) := I w (if remote_queue set then ev_remote e else ev_local e) (if remote_queue set then REMOTE else LOCAL) (queue_query set e r) in
      Ok (ok, (w, log ++ [queued ok r]))) by (unfold queued; by destruct (remote_queue set)).
    rewrite Hq. clear Hq. destruct (I w _ _ (queue_query set e r)) as [[ok w1]|x] eqn:EI; cbn [obind]; [|by eexists _, _, _, _].
    destruct ok; cbn [andb orb negb].
    + unfold update_reindex_value. rewrite Ht. cbn [negb Z.eqb Pos.eqb]. unfold insert, logged.
      destruct (I w1 (ev_local e) LOCAL (update_query escape e r v)) as [[ok2 w2]|x] eqn:EI2; cbn [obind]; [|by eexists _, _, _, _].
      split; [done|]. split; [done|]. eexists [_; _]. split; [by rewrite <- app_assoc|]. by apply (rb_reindexed r v ok2).
    + split; [done|]. split; [done|]. eexists [_]. split; [done|]. by apply (rb_rejected r v).
  - cbn [obind andb orb negb]. destruct (STRMATCH (op r) ($">") || STRMATCH (op r) ($"<")) eqn:Eop.
    + unfold update_reindex_value. rewrite Ht. cbn [negb Z.eqb Pos.eqb]. unfold insert, logged.
      destruct (I w (ev_local e) LOCAL (update_query escape e r v)) as [[ok2 w2]|x] eqn:EI2; cbn [obind]; [|by eexists _, _, _, _].
      split; [done|]. split; [done|]. eexists [_]. split; [done|]. apply (rb_tracked r v ok2); [done|done|].
      apply orb_true_iff in Eop as [E%STRMATCH_true|E%STRMATCH_true]; auto.
    + split; [done|]. split; [done|]. exists []. rewrite app_nil_r. split; [done|constructor].
Qed.

Definition spike_block (row : row_t) (b : bool * list executed) : bool :=
  fst b && (STRMATCH (op (load_reindex_item row)) ($"<") || is_uptime (load_reindex_item row)).

Lemma reindex_rows_blocks rows : ev_thread e = 1 → ∀ w log st,
  match reindex_rows (H := logged I) (H0 := lift_source S) set escape e (w, log) rows st with
  | Ok (Some (st', (_, log'))) =>
      ∃ blocks, log' = log ++ concat (map snd blocks) ∧
        Forall2 (fun row b => reindex_block (load_reindex_item row) (fst b) (snd b)) rows blocks ∧
        silenced (map (fun row => data_query_id (load_reindex_item row)) rows) blocks ∧
        (rs_failed st = true → silent_prefix (rs_last st) (map (fun row => data_query_id (load_reindex_item row)) rows) blocks) ∧
        rs_spike st' = rs_spike st || existsb (fun p => spike_block (fst p) (snd p)) (zip rows blocks)
  | Ok None => ∃ w host r uptime, S w host r uptime = None
  | Died x => dies I x
  end.
Proof.
  intros Ht. induction rows as [|row rows IH]; intros w log st; cbn [reindex_rows].
  { exists []. rewrite app_nil_r, orb_false_r. split_and!; try done. intros _ j Hj. cbn in Hj. lia. }
  set (r := load_reindex_item row). set (previous := if negb (rs_last st =? data_query_id r) then false else rs_failed st).
  assert (Hskip : ∀ w1 host uptime, match reindex_rows (H := logged I) (H0 := lift_source S) set escape e (w1, log) rows
      {| rs_host := host; rs_uptime := uptime; rs_last := data_query_id r; rs_failed := previous; rs_errors := rs_errors st; rs_spike := rs_spike st |} with
    | Ok (Some (st', (_, log'))) => ∃ blocks, log' = log ++ concat (map snd blocks) ∧
        Forall2 (fun row b => reindex_block (load_reindex_item row) (fst b) (snd b)) (row :: rows) blocks ∧
        silenced (map (fun row => data_query_id (load_reindex_item row)) (row :: rows)) blocks ∧
        (rs_failed st = true → silent_prefix (rs_last st) (map (fun row => data_query_id (load_reindex_item row)) (row :: rows)) blocks) ∧
        rs_spike st' = rs_spike st || existsb (fun p => spike_block (fst p) (snd p)) (zip (row :: rows) blocks)
    | Ok None => ∃ w host r uptime, S w host r uptime = None
    | Died x => dies I x
    end).
  { intros w1 host uptime. specialize (IH w1 log {| rs_host := host; rs_uptime := uptime; rs_last := data_query_id r; rs_failed := previous;
      rs_errors := rs_errors st; rs_spike := rs_spike st |}).
    destruct (reindex_rows _ _ _ _ _ _) as [[[st' [w' log']]|]|x]; [|done|done]. destruct IH as (blocks & H1 & H2 & H3 & H4 & H5).
    cbn [rs_failed rs_last rs_spike] in H4, H5. exists ((false, []) :: blocks). split_and!.
    - done.
    - constructor; [constructor|done].
    - cbn [map]. apply silenced_cons; [done|discriminate].
    - intros Hf. cbn [map]. apply silent_cons. intros Hid. rewrite <- Hid. apply H4. unfold previous, r. rewrite <- Hid, Z.eqb_refl. done.
    - rewrite H5. done. }
  destruct previous eqn:Ep; [apply Hskip|]. unfold poll_action at 1, lift_source at 1.
  destruct (S w (rs_host st) r (rs_uptime st)) as [[[[[value unavailable] uptime] host] w1]|] eqn:ES; cbn [mbind option_bind];
    [|by eexists _, _, _, _]. destruct unavailable; [apply Hskip|].
  pose proof (evaluate_block w1 log r value Ht) as Hb.
  destruct (evaluate_reindex_assertion _ _ _ _ _ _) as [[[[failed errors] spike] [w2 log2]]|x]; cbn [obind]; [|done].
  destruct Hb as (Hf & Hsp & block & -> & Hblock).
  specialize (IH w2 (log ++ block) {| rs_host := host; rs_uptime := uptime; rs_last := data_query_id r; rs_failed := failed;
    rs_errors := rs_errors st + errors; rs_spike := rs_spike st || spike |}).
  destruct (reindex_rows _ _ _ _ _ _) as [[[st' [w' log']]|]|x]; [|done|done]. destruct IH as (blocks & H1 & H2 & H3 & H4 & H5).
  cbn [rs_failed rs_last rs_spike] in H4, H5. exists ((failed, block) :: blocks). split_and!.
  - rewrite H1. cbn. by rewrite <- app_assoc.
  - by constructor.
  - cbn [map]. apply silenced_cons; [done|]. exact H4.
  - intros Hft. cbn [map]. apply silent_other. intros Hid. unfold previous in Ep. rewrite Hft in Ep. fold r in Hid.
    rewrite <- Hid, Z.eqb_refl in Ep. done.
  - rewrite H5, Hsp, <- orb_assoc. done.
Qed.

End Log.
End ReindexFacts.
Import ReindexFacts.

(** * Properties *)

(** C9: a reindex is never lost.  Whatever executes the statements and polls the values,
    the first partition of a device sends for each assertion one of: nothing; for a
    failed assertion, the command that queues the reindex and - only if it was accepted -
    the new stored value; for an assertion that holds under < or >, the new value.  The
    stored value thus never moves past a failed assertion whose reindex was not queued,
    nor to an unavailable value; after a failed assertion the others of its data query
    are left alone; and the samples are discarded as a spike exactly when a failed
    assertion is a "<" or an uptime one. *)
Theorem reindex_never_lost {W} (I : StatementSink W) (S : ReindexSource W) (set : config_t) (escape : cstr → cstr)
  (e : Reindex.evaluation_t) (w : W) (rows : list row_t) (st : Reindex.reindex_state)
  (Ht : Reindex.ev_thread e = 1) (Hspike : Reindex.rs_spike st = false) :
  match Reindex.reindex_rows (H := PersistFacts.logged I) (H0 := lift_source S) set escape e (w, []) rows st with
  | Ok (Some (st', (_, log))) =>
      ∃ blocks, log = concat (map snd blocks) ∧
        Forall2 (fun row b => reindex_block set escape e (Reindex.load_reindex_item row) (fst b) (snd b)) rows blocks ∧
        silenced (map (fun row => data_query_id (Reindex.load_reindex_item row)) rows) blocks ∧
        Reindex.rs_spike st' = existsb (fun p => spike_block (fst p) (snd p)) (zip rows blocks)
  | Ok None => ∃ w host r uptime, S w host r uptime = None
  | Died x => PersistFacts.dies I x
  end.
Proof.
  pose proof (reindex_rows_blocks I S set escape e rows Ht w [] st) as H.
  destruct (Reindex.reindex_rows _ _ _ _ _ _) as [[[st' [w' log]]|]|x]; [|done|done].
  destruct H as (blocks & H1 & H2 & H3 & _ & H5). exists blocks. rewrite Hspike in H5. done.
Qed.

(** An agent whose uptime went back from 100 to 50: the reindex is queued, the new
    uptime stored, and the second assertion of the data query skipped. *)
Definition rebooted : ReindexSource Z := fun w host r uptime => Some (Some ($"50"), false, uptime, host, w).
Definition first_thread : Reindex.evaluation_t :=
  {| Reindex.ev_host_id := 7; Reindex.ev_work_id := 7; Reindex.ev_thread := 1; Reindex.ev_debug := false; Reindex.ev_log_level := 0; Reindex.ev_local := 0; Reindex.ev_remote := 1 |}.
Definition reboot_rows : list row_t :=
  [[Some ($"3"); Some ($"0"); Some ($"<"); Some ($"100"); Some ($".1.3.6.1.2.1.1.3.0")]; [Some ($"3"); Some ($"0"); Some ($"="); Some ($"x"); Some ($".1")]].
Definition reindex_start (host : host_t) : Reindex.reindex_state :=
  {| Reindex.rs_host := host; Reindex.rs_uptime := []; Reindex.rs_last := 0; Reindex.rs_failed := false; Reindex.rs_errors := 0; Reindex.rs_spike := false |}.
Definition plain_host : host_t := {|
  host_id := 7; hostname := $"router"; ignore_host := false;
  snmp := {| profile := empty_profile; retries := 1; max_oids := 1; session := Some 1%nat; snmp_status := 0 |};
  system := {| snmp_sysDescr := []; snmp_sysObjectID := []; snmp_sysUpTimeInstance := 0; snmp_sysContact := []; snmp_sysName := []; snmp_sysLocation := [] |};
  host_avail := {| av_method := 0; av_ping_method := 0; av_port := 0; av_timeout := 0; av_retries := 0 |};
  hstate := {| status := 3; status_event_count := 0; status_fail_date := []; status_rec_date := []; status_last_error := [] |};
  statistics := {| min_time := dzero; max_time := dzero; cur_time := dzero; avg_time := dzero; total_polls := 0; failed_polls := 0; availability := dzero |} |}.

Lemma reindex_never_lost_witness :
  match Reindex.reindex_rows (H := PersistFacts.logged accepting) (H0 := lift_source rebooted) sample_config (fun s => s) first_thread
          (0, []) reboot_rows (reindex_start plain_host) with
  | Ok (Some (st, (_, log))) =>
      PersistFacts.ex_text <$> log =
        [$"REPLACE INTO poller_command (poller_id, time, action, command) VALUES (1, NOW(), 1, '7:3')";
         $"UPDATE poller_reindex SET assert_value='50' WHERE host_id='7' AND data_query_id='3' AND arg1='.1.3.6.1.2.1.1.3.0'"] ∧
      Reindex.rs_spike st = true ∧
      ∃ blocks, silenced (map (fun row => data_query_id (Reindex.load_reindex_item row)) reboot_rows) blocks
  | _ => False
  end.
Proof.
  pose proof (reindex_never_lost accepting rebooted sample_config (fun s => s) first_thread 0 reboot_rows (reindex_start plain_host) eq_refl eq_refl) as H.
  match type of H with match ?x with _ => _ end => set (r := x) in * end. vm_compute in r. subst r.
  destruct H as (blocks & _ & _ & H & _). split; [reflexivity|]. split; [reflexivity|]. exists blocks. exact H.
Defined.

(** A script that fails looks like an empty table.  [exec_poll] answers U for a
    command that fails, and the counting actions count the line feeds of that text: the
    polled value is 0, not U, so that an "=" assertion on a non-empty table fails and
    queues a reindex, where the SNMP count answers U for a walk that fails. *)
Theorem failed_script_counts_zero {W} `{NetSNMP W} `{Collectors W} (fuel : nat) (w w' : W) (host : host_t) (r : reindex_t) (uptime : cstr)
  (Hact : rx_action r = Keywords.POLLER_ACTION_SCRIPT_COUNT) (Hfail : exec_poll w host (rx_arg1 r) (data_query_id r) = (UNDEFINED, w')) :
  Reindex.poll_reindex_action fuel w host r uptime = Some (Some ($"0"), false, uptime, host, w') ∧
  (op r = $"=" → assert_value r ≠ $"0" → Reindex.reindex_assertion_failed r (Some ($"0")) = true).
Proof.
  split.
  - unfold Reindex.poll_reindex_action. rewrite Hact. cbn [Z.eqb Pos.eqb]. by rewrite Hfail.
  - intros Hop Hv. unfold Reindex.reindex_assertion_failed. change (IS_UNDEFINED ($"0") || STRIMATCH ($"0") Reindex.no_such_instance) with false.
    rewrite Hop, STRMATCH_refl. cbv iota. apply negb_true_iff. destruct (STRMATCH (assert_value r) ($"0")) eqn:E; [|done].
    by apply STRMATCH_true in E.
Qed.

Definition script_table : reindex_t :=
  {| op := $"="; assert_value := $"12"; rx_arg1 := $"/bin/list"; data_query_id := 3; rx_action := Keywords.POLLER_ACTION_SCRIPT_COUNT |}.
Lemma failed_script_counts_zero_witness :
  Reindex.poll_reindex_action (H := sample_netsnmp) (H0 := sample_collectors) 0 tt plain_host script_table [] = Some (Some ($"0"), false, [], plain_host, tt) ∧
  Reindex.reindex_assertion_failed script_table (Some ($"0")) = true.
Proof.
  destruct (failed_script_counts_zero (H := sample_netsnmp) (H0 := sample_collectors) 0 tt tt plain_host script_table [] eq_refl eq_refl) as [H1 H2].
  split; [exact H1|]. apply H2; [reflexivity|discriminate].
Defined.
