(* ===== verification/Log.v ===== *)
(** Log records and the end of the process: src/src/log/log.c.

    [spine_log] formats a message, makes it one line, and sends it to the syslog, to the
    log file and to the console; [die] prints its message and ends the process.  The file,
    the syslog, the streams and the clock are an interface ([Class LogEnv]); what a call
    does with them is read off an instance that records every operation ([traced]).  The
    arguments of [printf] formats are the texts they produce. *)

From S2P Require Import Prelude CLib Buffer Text Result Settings Reindex.

Inductive stream := stdout | stderr.
#[global] Instance stream_eq_dec : EqDecision stream.
Proof. solve_decision. Defined.

Class LogEnv (W : Type) := {
  getpid : W → Z;
  pthread_self : W → Z;
  log_buffers : W → bool * W;               (* whether the thread has its heap buffers *)
  strftime : W → Z → cstr → cstr * W;       (* localtime_r and strftime; empty on failure *)
  run_time : W → double * W;                (* get_time_as_double() - start_time *)
  syslog : W → Z → cstr → W;                (* openlog, syslog, closelog *)
  log_mutex_lock : W → Z * W;
  log_mutex_unlock : W → Z * W;
  reported_error : W → bool;
  set_reported_error : W → W;
  open_append : W → cstr → Z * W;           (* O_WRONLY | O_CREAT | O_APPEND *)
  write_log : W → Z → cstr → Z * W;
  close_log : W → Z → Z * W;
  fprintf : W → stream → cstr → Z * W }.

Module Log.
Definition LOGSIZE : Z := 65535.
Definition DBL_BUFSIZE : Z := 2048.
Definition EXIT_SUCCESS : Z := 0.
Definition LOG_CRIT : Z := 2.
Definition LOG_WARNING : Z := 4.
Definition LOG_NOTICE : Z := 5.
Definition newline : ascii := byte_of 10.

Definition IS_LOGGING_TO_FILE (l : spine_logging_config_t) : bool := (log_destination l =? Keywords.LOGDEST_FILE) || (log_destination l =? Keywords.LOGDEST_BOTH).
Definition IS_LOGGING_TO_SYSLOG (l : spine_logging_config_t) : bool := (log_destination l =? Keywords.LOGDEST_SYSLOG) || (log_destination l =? Keywords.LOGDEST_BOTH).
Definition IS_LOGGING_TO_STDOUT (l : spine_logging_config_t) : bool := log_destination l =? Keywords.LOGDEST_STDOUT.

Section Log.
(** [disable_stderr] is the configure option; [date_format] the text [set_date_format]
    left. *)
Context {W : Type} `{LogEnv W} (disable_stderr : bool) (date_format : cstr) (set : config_t).
Let l : spine_logging_config_t := c_logging set.

Definition log_error_stream : stream := if disable_stderr then stdout else stderr.

Definition log_stream_available (s : stream) : bool :=
  match s with stdout => negb (stdout_notty (c_console set)) | stderr => negb (stderr_notty (c_console set)) end.

Definition log_format_error (w : W) (message : cstr) : W :=
  if log_stream_available log_error_stream then snd (fprintf w log_error_stream (message ++ [newline])) else w.

Definition log_prefix (w : W) : cstr :=
  snprintf_s SMALL_BUFSIZE ($"SPINE: Poller[" ++ sdec (poller_id set) ++ $"] PID[" ++ sdec (getpid w) ++ $"] PT[" ++
                            udec (wrap_u 64 (pthread_self w)) ++ $"] ").

(** [%.*s]: a negative precision is taken as none. *)
Definition precision (n : Z) (s : cstr) : cstr := if n <? 0 then s else take (Z.to_nat n) s.

(** The record without its line end, and whether it has a date. *)
Definition log_format_message (w : W) (capacity : Z) (message : cstr) : outcome (cstr * bool * W) :=
  let prefix := log_prefix w in
  let '(date, w) := strftime w 50 date_format in
  let date_length := slen date in
  let w := if date_length =? 0 then log_format_error w ($"ERROR: Could not get string from strftime()") else w in
  let* prefix_length := spine_count_to_int (slen prefix) in
  let* message_length := spine_count_to_int (slen message) in
  let* cap := spine_count_to_int capacity in
  let* used := spine_count_to_int date_length in
  let available := cap - used - 2 in
  let prefix_length := if available <? prefix_length then available else prefix_length in
  let message_length := if available - prefix_length <? message_length then available - prefix_length else message_length in
  Ok (date ++ snprintf_s (capacity - date_length) (precision prefix_length prefix ++ precision message_length message),
      negb (date_length =? 0), w).

Definition log_to_syslog (w : W) (message : cstr) : W :=
  if negb (IS_LOGGING_TO_SYSLOG l) then w else
  let line := message ++ [newline] in
  let w := if (has_substr message ($"ERROR") || has_substr message ($"FATAL")) && log_perror l then syslog w LOG_CRIT line else w in
  let w := if has_substr message ($"WARNING") && log_pwarn l then syslog w LOG_WARNING line else w in
  if has_substr message ($"STATS") && log_pstats l then syslog w LOG_NOTICE line else w.

Definition log_to_file (w : W) (message : cstr) : bool * W :=
  if negb (IS_LOGGING_TO_FILE l) || (log_level l =? Keywords.POLLER_VERBOSITY_NONE) || (slen (path_logfile l) =? 0) || negb (logfile_processed l)
  then (true, w) else
  let '(locked, w) := log_mutex_lock w in
  if negb (locked =? 0) then (false, w) else
  let '(fd, w) := open_append w (path_logfile l) in
  let '(success, w) :=
    if 0 <=? fd then
      let '(written, w) := write_log w fd message in
      let success := (0 <=? written) && (written =? slen message) in
      let '(closed, w) := close_log w fd in
      (success && (closed =? 0), w)
    else (false, w) in
  let w := if negb success && negb (reported_error w)
           then set_reported_error (snd (fprintf w stdout ($"ERROR: Spine Log File Could Not Be Opened/Created or Written" ++ [newline])))
           else w in
  let '(unlocked, w) := log_mutex_unlock w in
  (if negb (unlocked =? 0) then false else success, w).

(** [text] is what the format and its arguments produce.  Without the heap buffers the
    record is cut to BUFSIZE. *)
Definition spine_log (w : W) (text : cstr) : outcome (bool * W) :=
  let '(buffers, w) := log_buffers w in
  let capacity := if buffers : bool then LOGSIZE else BUFSIZE in
  let message := Sanitize.spine_sanitize_log_message (snprintf_s (capacity - 1) text) in
  if IS_LOGGING_TO_STDOUT l then
    let '(elapsed, w) := run_time w in
    let '(printed, w) := fprintf w stdout ($"Total[" ++ print_fixed 4 elapsed ++ $"] " ++ message ++ [newline]) in
    Ok (negb (printed <? 0), w)
  else
    let* (formatted, date_valid, w) := log_format_message w capacity message in
    let w := log_to_syslog w formatted in
    let formatted := if decide (newline ∈ formatted) then formatted
                     else formatted ++ snprintf_s (capacity - slen formatted) [newline] in
    let '(success, w) := log_to_file w formatted in
    if Keywords.POLLER_VERBOSITY_NONE <=? log_level l then
      let stream := if negb date_valid || has_substr formatted ($"ERROR") || has_substr formatted ($"WARNING") || has_substr formatted ($"FATAL")
                    then log_error_stream else stdout in
      if log_stream_available stream then
        let '(printed, w) := fprintf w stream formatted in
        Ok (if printed <? 0 then false else success, w)
      else Ok (success, w)
    else Ok (success, w).

(** The macros SPINE_LOG_LOW and so on, and SPINE_LOG_DEVICE. *)
Definition spine_log_at (verbosity : Z) (w : W) (text : cstr) : outcome W :=
  if verbosity <=? log_level l then let* (_, w) := spine_log w text in Ok w else Ok w.
Definition spine_should_log_device (debug_devices : option (list Z)) (host_id verbosity : Z) : bool :=
  Reindex.is_debug_device debug_devices host_id || (verbosity <=? log_level l).

(** The line [die] prints: [error] is errno's number and text. *)
Definition die_line (parent : bool) (error : Z * cstr) (text : cstr) : cstr :=
  let logmessage := snprintf_s BUFSIZE text in
  let logmessage :=
    if log_perror l then
      let perr := snprintf_s BUFSIZE ($" [" ++ sdec (fst error) ++ $", " ++ snd error ++ $"]") in
      logmessage ++ snprintf_s (BUFSIZE - slen logmessage) perr
    else logmessage in
  let logmessage := Sanitize.spine_sanitize_log_message logmessage in
  snprintf_s DBL_BUFSIZE
    (logmessage ++ if logfile_processed l then (if parent then $" (Spine parent)" else $" (Spine thread)") else $" (Spine init)").

(** [close_php] is [php_close(PHP_INIT)]; the result is the exit status. *)
Definition die (close_php : W → W) (parent : bool) (exit_code : Z) (error : Z * cstr) (w : W) (text : cstr) : Z * W :=
  let w := snd (fprintf w stderr (die_line parent error text ++ [newline])) in
  let w := if parent && pp_php_initialized (c_php set) then close_php w else w in
  (if exit_code =? EXIT_SUCCESS then EXIT_FAILURE else exit_code, w).

End Log.
End Log.

(** * Facts *)

Module LogFacts.
Import Log.

(** ** Clean text *)

Definition clean (s : cstr) : Prop := ∀ p, (p < length s)%nat → TextFacts.dirty_at s p = false.
Definition ascii_text (s : cstr) : Prop := Forall (fun c => 32 ≤ code c < 127) s.

Lemma at_app_l s t p : (p < length s)%nat → at_ (s ++ t) p = at_ s p.
Proof. intros Hp. unfold at_. by rewrite lookup_app_l. Qed.
Lemma at_app_r s t p : at_ (s ++ t) (length s + p) = at_ t p.
Proof. unfold at_. rewrite lookup_app_r by lia. f_equal. f_equal. lia. Qed.
Lemma at_take s n p : at_ (take n s) p = if decide (p < n)%nat then at_ s p else NUL.
Proof. unfold at_. case_decide; [by rewrite lookup_take_lt|by rewrite lookup_take_ge by lia]. Qed.
Lemma at_beyond s p : (length s ≤ p)%nat → at_ s p = NUL.
Proof. intros. unfold at_. by rewrite lookup_ge_None_2. Qed.

Lemma clean_take n s : clean s → clean (take n s).
Proof.
  intros Hs p Hp. rewrite length_take in Hp. specialize (Hs p ltac:(lia)). unfold TextFacts.dirty_at in *. rewrite !at_take.
  rewrite decide_True by lia. repeat case_decide; try done; change (code NUL) with 0; cbn;
    repeat match goal with |- context [?a =? ?b] => destruct (Z.eqb_spec a b) end; cbn in *;
    repeat match goal with H : context [?a =? ?b] |- _ => destruct (Z.eqb_spec a b) end; cbn in *; try done; try lia;
    destruct (code (at_ s p) <? 32); done.
Qed.
Lemma clean_ascii s : ascii_text s → clean s.
Proof.
  intros Hs p Hp. destruct (lookup_lt_is_Some_2 s p Hp) as [c Hc]. unfold TextFacts.dirty_at.
  assert (Ec : at_ s p = c) by (unfold at_; by rewrite Hc). rewrite Ec. unfold ascii_text in Hs. rewrite Forall_lookup in Hs. specialize (Hs p c Hc). cbn in Hs.
  rewrite (proj2 (Z.ltb_ge (code c) 32)), !(proj2 (Z.eqb_neq (code c) _)) by lia. done.
Qed.
(** Text that starts with an ASCII byte completes no separator before it. *)
Lemma clean_app s t : clean s → clean t → (∀ c, head t = Some c → code c < 128) → clean (s ++ t).
Proof.
  intros Hs Ht Hh p Hp. rewrite length_app in Hp. destruct (decide (length s ≤ p)%nat) as [Hge|Hlt].
  - replace p with (length s + (p - length s))%nat by lia. specialize (Ht (p - length s)%nat ltac:(lia)).
    unfold TextFacts.dirty_at in *. rewrite <- !Nat.add_assoc, !at_app_r. done.
  - specialize (Hs p ltac:(lia)).
    assert (H0 : code (at_ t 0) < 128) by (destruct t as [|c t]; [done|by apply (Hh c)]).
    unfold TextFacts.dirty_at in *. rewrite at_app_l by lia.
    assert (H1 : at_ (s ++ t) (p + 1) = at_ s (p + 1) ∨ (at_ s (p + 1) = NUL ∧ code (at_ (s ++ t) (p + 1)) < 128)).
    { destruct (decide (p + 1 < length s)%nat); [left; by apply at_app_l|right]. split; [apply at_beyond; lia|].
      replace (p + 1)%nat with (length s + 0)%nat by lia. by rewrite at_app_r. }
    assert (H2 : at_ (s ++ t) (p + 2) = at_ s (p + 2) ∨ (length s ≤ p + 2)%nat ∧ ((length s = p + 2)%nat → code (at_ (s ++ t) (p + 2)) < 128)).
    { destruct (decide (p + 2 < length s)%nat); [left; by apply at_app_l|right]. split; [lia|]. intros El.
      replace (p + 2)%nat with (length s + 0)%nat by lia. by rewrite at_app_r. }
    destruct H1 as [->|[E1 H1]].
    + destruct H2 as [->|[Hl H2]]; [done|].
      destruct (decide (length s = p + 2)%nat) as [El|]; [|rewrite (at_beyond s (p + 1)) in * by lia; change (code NUL) with 0 in *; cbn in *; rewrite ?andb_false_r in *; done].
      specialize (H2 El). rewrite (at_beyond s (p + 2)) in Hs by lia. change (code NUL) with 0 in Hs.
      replace ((code (at_ (s ++ t) (p + 2)) =? 168) || (code (at_ (s ++ t) (p + 2)) =? 169)) with false; [done|].
      symmetry. apply orb_false_intro; apply Z.eqb_neq; lia.
    + rewrite E1 in Hs. change (code NUL) with 0 in Hs. cbn in Hs. rewrite !andb_false_r in Hs.
      replace (code (at_ (s ++ t) (p + 1)) =? 133) with false by (symmetry; apply Z.eqb_neq; lia).
      replace (code (at_ (s ++ t) (p + 1)) =? 128) with false by (symmetry; apply Z.eqb_neq; lia).
      cbn. rewrite !andb_false_r. done.
Qed.
Lemma clean_no_newline s : clean s → newline ∉ s.
Proof.
  intros Hs Hin. apply list_elem_of_lookup in Hin as [p Hp]. specialize (Hs p (lookup_lt_Some _ _ _ Hp)).
  unfold TextFacts.dirty_at, at_ in Hs. by rewrite Hp in Hs.
Qed.
Lemma clean_sanitized m : clean (Sanitize.spine_sanitize_log_message m).
Proof. by destruct (sanitize_log_message_clean m) as (_ & Hc & _). Qed.
Lemma sanitized_length m : length (Sanitize.spine_sanitize_log_message m) = length m.
Proof. by destruct (sanitize_log_message_clean m) as ([Hl _] & _). Qed.

Lemma ascii_app s t : ascii_text s → ascii_text t → ascii_text (s ++ t).
Proof. apply Forall_app_2. Qed.
Lemma ascii_take n s : ascii_text s → ascii_text (take n s).
Proof. apply Forall_take. Qed.
Lemma ascii_udec n : 0 ≤ n → ascii_text (udec n).
Proof.
  intros Hn. pose proof (udec_digits n Hn) as Hd. apply (list.Forall_impl _ _ _ Hd). intros c Hc. unfold isdigit in Hc. bool_to_prop. lia.
Qed.
Lemma ascii_sdec n : ascii_text (sdec n).
Proof. unfold sdec. destruct (Z.ltb_spec n 0); [constructor; [done|]|]; apply ascii_udec; lia. Qed.

#[global] Instance ascii_text_dec s : Decision (ascii_text s).
Proof. unfold ascii_text. apply _. Defined.
(** Literals and numbers, appended. *)
Ltac ascii_text :=
  repeat match goal with |- ascii_text (_ ++ _) => apply ascii_app end;
  lazymatch goal with
  | |- ascii_text (sdec _) => apply ascii_sdec
  | |- ascii_text (udec _) => apply ascii_udec; lia
  | |- _ => apply (bool_decide_unpack _); vm_compute; exact I
  end.

(** ** The record *)

Section Record.
Context {W : Type} `{LogEnv W} (disable_stderr : bool) (date_format : cstr) (set : config_t).

Lemma log_prefix_ascii w : ascii_text (log_prefix set w) ∧ slen (log_prefix set w) < SMALL_BUFSIZE.
Proof.
  split; [|by apply snprintf_s_bound]. unfold log_prefix, snprintf_s. apply ascii_take. pose proof (Z.mod_pos_bound (pthread_self w) (2 ^ 64) eq_refl) as Hw.
  change (pthread_self w mod 2 ^ 64) with (wrap_u 64 (pthread_self w)) in Hw.
  ascii_text.
Qed.

(** What [log_format_message] leaves for a date of less than 50 bytes: the date, the
    whole prefix, and as much of the message as leaves room for the line end. *)
Definition record (capacity : Z) (date prefix message : cstr) : cstr :=
  date ++ prefix ++ take (Z.to_nat (capacity - 2 - slen date - slen prefix)) message.

Lemma record_length capacity date prefix message :
  slen date < 50 → slen prefix < SMALL_BUFSIZE → BUFSIZE ≤ capacity → slen (record capacity date prefix message) ≤ capacity - 2.
Proof.
  intros Hd Hp Hc. unfold record. rewrite !slen_app. unfold slen at 3. rewrite length_take. unfold SMALL_BUFSIZE, BUFSIZE in *.
  pose proof (slen_nonneg date). pose proof (slen_nonneg prefix). lia.
Qed.
Lemma record_clean capacity date w m : clean date → clean (record capacity date (log_prefix set w) (Sanitize.spine_sanitize_log_message m)).
Proof.
  intros Hd. destruct (log_prefix_ascii w) as [Hp _]. assert (Hc : clean (log_prefix set w ++ take (Z.to_nat (capacity - 2 - slen date - slen (log_prefix set w))) (Sanitize.spine_sanitize_log_message m))).
  { pose proof (clean_take (Z.to_nat (capacity - 2 - slen date - slen (log_prefix set w))) _ (clean_sanitized m)) as Ht.
    intros p Hlt. rewrite length_app in Hlt. destruct (decide (length (log_prefix set w) ≤ p)%nat) as [Hge|Hl].
    - replace p with (length (log_prefix set w) + (p - length (log_prefix set w)))%nat by lia.
      specialize (Ht (p - length (log_prefix set w))%nat ltac:(lia)).
      unfold TextFacts.dirty_at in *. by rewrite <- !Nat.add_assoc, !at_app_r.
    - unfold TextFacts.dirty_at. rewrite at_app_l by lia. destruct (lookup_lt_is_Some_2 (log_prefix set w) p) as [c Ec]; [lia|].
      assert (Ea : at_ (log_prefix set w) p = c) by (unfold at_; by rewrite Ec). rewrite Ea. unfold ascii_text in Hp.
      rewrite Forall_lookup in Hp. specialize (Hp p c Ec). cbn in Hp.
      by rewrite (proj2 (Z.ltb_ge (code c) 32)), !(proj2 (Z.eqb_neq (code c) _)) by lia. }
  apply clean_app; [done|done|]. intros c Eh. unfold log_prefix, snprintf_s in Eh. cbn in Eh. injection Eh as <-. done.
Qed.

Lemma log_format_message_eq w capacity message :
  (∀ w, slen (fst (strftime w 50 date_format)) < 50) → capacity = BUFSIZE ∨ capacity = LOGSIZE → slen message < capacity →
  let '(date, w1) := strftime w 50 date_format in
  log_format_message disable_stderr date_format set w capacity message =
  Ok (record capacity date (log_prefix set w) message, negb (slen date =? 0),
      if slen date =? 0 then log_format_error disable_stderr set w1 ($"ERROR: Could not get string from strftime()") else w1).
Proof.
  intros Hs Hc Hm. specialize (Hs w). unfold log_format_message. destruct (strftime w 50 date_format) as [date w1]. cbn [fst] in Hs.
  destruct (log_prefix_ascii w) as [_ Hp]. pose proof (slen_nonneg date). pose proof (slen_nonneg message). pose proof (slen_nonneg (log_prefix set w)).
  assert (Hcap : BUFSIZE ≤ capacity ≤ LOGSIZE) by (unfold BUFSIZE, LOGSIZE in *; lia). unfold BUFSIZE, LOGSIZE, SMALL_BUFSIZE in *.
  unfold spine_count_to_int, INT_MAX. rewrite !(proj2 (Z.ltb_ge _ _)) by lia. cbn [obind].
  rewrite (proj2 (Z.ltb_ge (capacity - slen date - 2) (slen (log_prefix set w)))) by lia. unfold record, precision.
  rewrite (proj2 (Z.ltb_ge (slen (log_prefix set w)) 0)) by lia. rewrite (take_ge (log_prefix set w)) by (unfold slen; lia).
  set (k := capacity - slen date - 2 - slen (log_prefix set w)).
  replace (Z.to_nat (capacity - 2 - slen date - slen (log_prefix set w))) with (Z.to_nat k) by lia.
  assert (Et : (if (if k <? slen message then k else slen message) <? 0 then message else take (Z.to_nat (if k <? slen message then k else slen message)) message)
               = take (Z.to_nat k) message).
  { destruct (Z.ltb_spec k (slen message)); rewrite (proj2 (Z.ltb_ge _ _)) by lia; [done|].
    rewrite !take_ge by (unfold slen in *; lia). done. }
  rewrite Et. rewrite snprintf_s_fits; [done|]. rewrite slen_app, slen_take. lia.
Qed.
End Record.

(** ** What a call does *)

Inductive effect :=
| XSyslog (priority : Z) (text : cstr)
| XLock (result : Z)
| XUnlock (result : Z)
| XOpen (fd : Z)
| XWrite (fd : Z) (text : cstr) (written : Z)
| XClose (fd result : Z)
| XPrint (s : stream) (text : cstr).

(** An environment that also records what is done, oldest first. *)
Definition traced {W} (E : LogEnv W) : LogEnv (W * list effect) := {|
  getpid '(w, _) := getpid w;
  pthread_self '(w, _) := pthread_self w;
  log_buffers '(w, T) := let '(b, w) := log_buffers w in (b, (w, T));
  strftime '(w, T) n f := let '(d, w) := strftime w n f in (d, (w, T));
  run_time '(w, T) := let '(t, w) := run_time w in (t, (w, T));
  syslog '(w, T) p t := (syslog w p t, T ++ [XSyslog p t]);
  log_mutex_lock '(w, T) := let '(r, w) := log_mutex_lock w in (r, (w, T ++ [XLock r]));
  log_mutex_unlock '(w, T) := let '(r, w) := log_mutex_unlock w in (r, (w, T ++ [XUnlock r]));
  reported_error '(w, _) := reported_error w;
  set_reported_error '(w, T) := (set_reported_error w, T);
  open_append '(w, T) path := let '(fd, w) := open_append w path in (fd, (w, T ++ [XOpen fd]));
  write_log '(w, T) fd t := let '(n, w) := write_log w fd t in (n, (w, T ++ [XWrite fd t n]));
  close_log '(w, T) fd := let '(r, w) := close_log w fd in (r, (w, T ++ [XClose fd r]));
  fprintf '(w, T) s t := let '(n, w) := fprintf w s t in (n, (w, T ++ [XPrint s t])) |}.

(** Whether records go to the file. *)
Definition file_enabled (set : config_t) : bool :=
  IS_LOGGING_TO_FILE (c_logging set) && negb (log_level (c_logging set) =? Keywords.POLLER_VERBOSITY_NONE) &&
  negb (slen (path_logfile (c_logging set)) =? 0) && logfile_processed (c_logging set).

Definition file_diagnostic : effect :=
  XPrint stdout ($"ERROR: Spine Log File Could Not Be Opened/Created or Written" ++ [newline]).

(** What [log_to_file] does for a line, and its result: nothing when the file is off;
    otherwise, inside the mutex, one write of the whole line to a file opened for
    appending and closed again, and possibly the diagnostic. *)
Inductive file_trace (set : config_t) (line : cstr) : bool → list effect → Prop :=
| FT_off : file_enabled set = false → file_trace set line true []
| FT_not_locked r : file_enabled set = true → r ≠ 0 → file_trace set line false [XLock r]
| FT_not_opened fd diag u : file_enabled set = true → fd < 0 → diag = [] ∨ diag = [file_diagnostic] →
    file_trace set line false (XLock 0 :: XOpen fd :: diag ++ [XUnlock u])
| FT_written fd n c diag u : file_enabled set = true → 0 ≤ fd → diag = [] ∨ diag = [file_diagnostic] →
    file_trace set line ((u =? 0) && ((0 <=? n) && (n =? slen line) && (c =? 0)))
      (XLock 0 :: XOpen fd :: XWrite fd line n :: XClose fd c :: diag ++ [XUnlock u]).

Lemma log_to_file_traced {W} (E : LogEnv W) set w T line :
  ∃ ok w' T', log_to_file (H := traced E) set (w, T) line = (ok, (w', T ++ T')) ∧ file_trace set line ok T'.
Proof.
  unfold log_to_file.
  destruct (negb (IS_LOGGING_TO_FILE (c_logging set)) || (log_level (c_logging set) =? Keywords.POLLER_VERBOSITY_NONE)
            || (slen (path_logfile (c_logging set)) =? 0) || negb (logfile_processed (c_logging set))) eqn:Eoff.
  { exists true, w, []. rewrite app_nil_r. split; [done|]. constructor. unfold file_enabled.
    destruct (IS_LOGGING_TO_FILE _), (_ =? Keywords.POLLER_VERBOSITY_NONE), (slen _ =? 0), (logfile_processed _); done. }
  assert (Hon : file_enabled set = true).
  { unfold file_enabled. destruct (IS_LOGGING_TO_FILE _), (_ =? Keywords.POLLER_VERBOSITY_NONE), (slen _ =? 0), (logfile_processed _); done. }
  cbn [log_mutex_lock traced]. destruct (log_mutex_lock w) as [r w1]. destruct (Z.eqb_spec r 0) as [->|Hr]; cbn [negb].
  2:{ exists false, w1, [XLock r]. split; [done|]. by constructor. }
  cbn [open_append traced]. destruct (open_append w1 _) as [fd w2]. destruct (Z.leb_spec 0 fd) as [Hfd|Hfd].
  - cbn [write_log close_log traced]. destruct (write_log w2 fd line) as [n w3]. destruct (close_log w3 fd) as [c w4].
    set (success := (0 <=? n) && (n =? slen line) && (c =? 0)). cbn [reported_error traced].
    destruct (negb success && negb (reported_error w4)) eqn:Ed; cbn [fprintf set_reported_error traced].
    + destruct (fprintf w4 stdout _) as [k w5] eqn:Ep. cbn [snd]. cbn [log_mutex_unlock traced]. destruct (log_mutex_unlock _) as [u w6].
      exists (if negb (u =? 0) then false else success), w6, (XLock 0 :: XOpen fd :: XWrite fd line n :: XClose fd c :: [file_diagnostic] ++ [XUnlock u]).
      split; [by rewrite <- !app_assoc|]. replace (if negb (u =? 0) then false else success) with ((u =? 0) && success) by (by destruct (u =? 0)).
      constructor; auto.
    + cbn [log_mutex_unlock traced]. destruct (log_mutex_unlock w4) as [u w6].
      exists (if negb (u =? 0) then false else success), w6, (XLock 0 :: XOpen fd :: XWrite fd line n :: XClose fd c :: [] ++ [XUnlock u]).
      split; [by rewrite <- !app_assoc|]. replace (if negb (u =? 0) then false else success) with ((u =? 0) && success) by (by destruct (u =? 0)).
      constructor; auto.
  - cbn [reported_error traced negb andb]. destruct (negb (reported_error w2)) eqn:Ed; cbn [fprintf set_reported_error traced].
    + destruct (fprintf w2 stdout _) as [k w5] eqn:Ep. cbn [snd log_mutex_unlock traced]. destruct (log_mutex_unlock _) as [u w6].
      exists false, w6, (XLock 0 :: XOpen fd :: [file_diagnostic] ++ [XUnlock u]).
      split; [rewrite <- !app_assoc; by destruct (negb (u =? 0))|]. constructor; auto.
    + cbn [log_mutex_unlock traced]. destruct (log_mutex_unlock w2) as [u w6].
      exists false, w6, (XLock 0 :: XOpen fd :: [] ++ [XUnlock u]).
      split; [rewrite <- !app_assoc; by destruct (negb (u =? 0))|]. constructor; auto.
Qed.

Lemma log_to_syslog_traced {W} (E : LogEnv W) set w T message :
  ∃ w' Ts, log_to_syslog (H := traced E) set (w, T) message = (w', T ++ Ts) ∧ Forall (fun x => ∃ p, x = XSyslog p (message ++ [newline])) Ts.
Proof.
  unfold log_to_syslog. destruct (negb (IS_LOGGING_TO_SYSLOG _)); [exists w, []; by rewrite app_nil_r|].
  assert (Hstep : ∀ (b : bool) p w T, ∃ w' Ts, (if b then syslog (LogEnv := traced E) (w, T) p (message ++ [newline]) else (w, T)) = (w', T ++ Ts) ∧
    Forall (fun x => ∃ p, x = XSyslog p (message ++ [newline])) Ts).
  { intros [] p w0 T0; [exists (syslog w0 p (message ++ [newline])), [XSyslog p (message ++ [newline])]|exists w0, []; by rewrite app_nil_r].
    split; [done|]. repeat constructor. by exists p. }
  match goal with |- context [if ?b then syslog _ LOG_CRIT _ else _] => destruct (Hstep b LOG_CRIT w T) as (w1 & T1 & -> & H1) end.
  match goal with |- context [if ?b then syslog _ LOG_WARNING _ else _] => destruct (Hstep b LOG_WARNING w1 (T ++ T1)) as (w2 & T2 & -> & H2) end.
  match goal with |- context [if ?b then syslog _ LOG_NOTICE _ else _] => destruct (Hstep b LOG_NOTICE w2 ((T ++ T1) ++ T2)) as (w3 & T3 & -> & H3) end.
  exists w3, (T1 ++ T2 ++ T3). split; [by rewrite !app_assoc|]. by repeat apply Forall_app_2.
Qed.
Lemma log_format_error_traced {W} (E : LogEnv W) ds set w T message :
  ∃ w' Td, log_format_error (H := traced E) ds set (w, T) message = (w', T ++ Td) ∧ (Td = [] ∨ Td = [XPrint (log_error_stream ds) (message ++ [newline])]).
Proof.
  unfold log_format_error. destruct (log_stream_available set (log_error_stream ds)); [|exists w, []; rewrite app_nil_r; auto].
  cbn [fprintf traced]. destruct (fprintf w _ _) as [n w']. exists w', [XPrint (log_error_stream ds) (message ++ [newline])]. auto.
Qed.

(** Dates are short and hold no control characters. *)
Definition good_dates {W} (E : LogEnv W) (date_format : cstr) : Prop :=
  ∀ w, slen (fst (strftime w 50 date_format)) < 50 ∧ clean (fst (strftime w 50 date_format)).

(** The size of the two buffers a call works in: the heap buffers of its thread, or the
    arrays on the stack when it has none. *)
Definition buffer_size (heap : bool) : Z := if heap then LOGSIZE else BUFSIZE.
(** The body of the record of a text logged in [w]: the date and the prefix of that moment, and
    the text cut to the buffers that [w] gives the thread; with its line end it fits them. *)
Definition record_at {W} `{LogEnv W} (date_format : cstr) (set : config_t) (w : W) (text body : cstr) : Prop :=
  let '(heap, w1) := log_buffers w in
  let date := fst (strftime w1 50 date_format) in
  body = record (buffer_size heap) date (log_prefix set w1) (Sanitize.spine_sanitize_log_message (snprintf_s (buffer_size heap - 1) text)) ∧
  clean body ∧ slen (body ++ [newline]) < buffer_size heap.
Definition record_of {W} `{LogEnv W} (date_format : cstr) (set : config_t) (text body : cstr) : Prop := ∃ w, record_at date_format set w text body.

(** What [spine_log] does: it prints that there is no date, sends the record to the
    syslog, to the file and to the console. *)
Inductive log_trace {W} `{LogEnv W} (ds : bool) (fmt : cstr) (set : config_t) (w : W) (text : cstr) : bool → list effect → Prop :=
| log_trace_intro body Td Ts written Tf Tp ok :
    record_at fmt set w text body →
    Td = [] ∨ Td = [XPrint (log_error_stream ds) ($"ERROR: Could not get string from strftime()" ++ [newline])] →
    Forall (fun x => ∃ p, x = XSyslog p (body ++ [newline])) Ts →
    file_trace set (body ++ [newline]) written Tf →
    Tp = [] ∨ (∃ s, Tp = [XPrint s (body ++ [newline])]) →
    (ok = true → written = true) →
    log_trace ds fmt set w text ok (Td ++ Ts ++ Tf ++ Tp).

Lemma spine_log_traced {W} (E : LogEnv W) ds fmt set w T text :
  good_dates E fmt → IS_LOGGING_TO_STDOUT (c_logging set) = false →
  ∃ ok w' T', spine_log (H := traced E) ds fmt set (w, T) text = Ok (ok, (w', T ++ T')) ∧ log_trace ds fmt set w text ok T'.
Proof.
  intros Hdate Hdest. unfold spine_log. rewrite Hdest. cbn [log_buffers traced]. destruct (log_buffers w) as [b w1] eqn:Ebuf.
  set (cap := if b then LOGSIZE else BUFSIZE). assert (Hcap : cap = BUFSIZE ∨ cap = LOGSIZE) by (unfold cap; destruct b; auto).
  assert (Hcap' : BUFSIZE ≤ cap) by (unfold BUFSIZE, LOGSIZE in *; lia).
  set (message := Sanitize.spine_sanitize_log_message (snprintf_s (cap - 1) text)).
  assert (Hm : slen message < cap).
  { unfold message, slen. rewrite sanitized_length. fold (slen (snprintf_s (cap - 1) text)). pose proof (snprintf_s_bound (cap - 1) text). unfold BUFSIZE in *. lia. }
  assert (Hs : ∀ w : W * list effect, slen (fst (strftime (LogEnv := traced E) w 50 fmt)) < 50).
  { intros [w0 T0]. cbn. pose proof (Hdate w0) as [Hd _]. by destruct (strftime w0 50 fmt). }
  pose proof (log_format_message_eq (H := traced E) ds fmt set (w1, T) cap message Hs Hcap Hm) as Hfmt.
  cbn [strftime traced] in Hfmt. pose proof (Hdate w1) as [Hd1 Hd2]. destruct (strftime w1 50 fmt) as [date w2] eqn:Edate. cbn [fst] in Hd1, Hd2.
  rewrite Hfmt. cbn [obind]. change (log_prefix (H := traced E) set (w1, T)) with (log_prefix (H := E) set w1).
  set (body := record cap date (log_prefix set w1) message).
  assert (Hclean : clean body) by (by apply record_clean).
  assert (Hlen : slen body ≤ cap - 2) by (apply record_length; [done|apply log_prefix_ascii|done]).
  assert (Hrec : record_at fmt set w text body).
  { unfold record_at. rewrite Ebuf, Edate. split_and!; try done. change (buffer_size b) with cap. rewrite slen_app. change (slen [newline]) with 1. lia. }
  assert (Herr : ∃ w' Td, (if slen date =? 0 then log_format_error (H := traced E) ds set (w2, T) ($"ERROR: Could not get string from strftime()") else (w2, T)) = (w', T ++ Td) ∧
    (Td = [] ∨ Td = [XPrint (log_error_stream ds) ($"ERROR: Could not get string from strftime()" ++ [newline])])).
  { destruct (slen date =? 0); [apply log_format_error_traced|exists w2, []; rewrite app_nil_r; auto]. }
  destruct Herr as (w3 & Td & -> & HTd). destruct (log_to_syslog_traced E set w3 (T ++ Td) body) as (w4 & Ts & -> & HTs).
  rewrite decide_False by (by apply clean_no_newline). rewrite snprintf_s_fits by (change (slen [newline]) with 1; lia).
  destruct (log_to_file_traced E set w4 ((T ++ Td) ++ Ts) (body ++ [newline])) as (okf & w5 & Tf & -> & HTf).
  destruct (Keywords.POLLER_VERBOSITY_NONE <=? log_level (c_logging set)).
  2:{ exists okf, w5, (Td ++ Ts ++ Tf ++ []). split; [by rewrite app_nil_r, !app_assoc|]. econstructor; eauto. }
  match goal with |- context [log_stream_available set ?x] => set (s := x) end.
  destruct (log_stream_available set s).
  2:{ exists okf, w5, (Td ++ Ts ++ Tf ++ []). split; [by rewrite app_nil_r, !app_assoc|]. econstructor; eauto. }
  cbn [fprintf traced]. destruct (fprintf w5 s (body ++ [newline])) as [n w6].
  exists (if n <? 0 then false else okf), w6, (Td ++ Ts ++ Tf ++ [XPrint s (body ++ [newline])]). split; [by rewrite !app_assoc|].
  econstructor; eauto. by destruct (n <? 0).
Qed.

(** ** The log file *)

(** What the writes put at the end of the file. *)
Fixpoint file_content (T : list effect) : cstr :=
  match T with
  | [] => []
  | XWrite _ t n :: T' => take (Z.to_nat n) t ++ file_content T'
  | _ :: T' => file_content T'
  end.
Lemma file_content_app T1 T2 : file_content (T1 ++ T2) = file_content T1 ++ file_content T2.
Proof. induction T1 as [|[] T1 IH]; cbn; rewrite ?IH, ?app_assoc; done. Qed.

(** The lines of a text; a last line without its end counts. *)
Fixpoint split_lines (cur s : cstr) : list cstr :=
  match s with
  | [] => match cur with [] => [] | _ => [cur] end
  | c :: s' => if decide (c = newline) then cur :: split_lines [] s' else split_lines (cur ++ [c]) s'
  end.
Lemma split_lines_line body s cur : newline ∉ body → split_lines cur (body ++ newline :: s) = (cur ++ body) :: split_lines [] s.
Proof.
  revert cur. induction body as [|c body IH]; intros cur Hn; cbn [split_lines app].
  - rewrite decide_True by done. by rewrite app_nil_r.
  - apply not_elem_of_cons in Hn as [Hc Hn]. rewrite decide_False by done. rewrite IH by done. by rewrite <- app_assoc.
Qed.

Lemma log_trace_content {W} (E : LogEnv W) ds fmt set w text T :
  file_enabled set = true → log_trace ds fmt set w text true T → ∃ body, record_at fmt set w text body ∧ file_content T = body ++ [newline].
Proof.
  intros Hon HT. inversion HT as [body Td Ts okf Tf Tp ok Hr Htd Hts Htf Htp Hok]; subst. exists body. split; [done|].
  rewrite !file_content_app. replace (file_content Td) with ([] : cstr) by (by destruct Htd as [->| ->]).
  assert (Es : file_content Ts = []) by (clear -Hts; induction Hts as [|x Ts [p ->] _ IH]; done). rewrite Es.
  replace (file_content Tp) with ([] : cstr) by (by destruct Htp as [->|[s ->]]). rewrite app_nil_r. cbn [app].
  specialize (Hok eq_refl). subst okf. inversion Htf as [Hoff| | |fd n c diag u Hen Hfd Hdiag Hres]; subst; [congruence|].
  symmetry in Hres. bool_to_prop. cbn. rewrite file_content_app. cbn. destruct Hdiag as [->| ->]; cbn; rewrite !app_nil_r.
  all: rewrite take_ge; [done|unfold slen in *; lia].
Qed.

(** Several records, one after the other; [true] when every call succeeded. *)
Fixpoint spine_log_all {W} `{LogEnv W} (ds : bool) (fmt : cstr) (set : config_t) (w : W) (texts : list cstr) : outcome (bool * W) :=
  match texts with
  | [] => Ok (true, w)
  | t :: texts' =>
      let* (ok, w) := spine_log ds fmt set w t in
      let* (oks, w) := spine_log_all ds fmt set w texts' in Ok (ok && oks, w)
  end.
Lemma spine_log_all_traced {W} (E : LogEnv W) ds fmt set texts : good_dates E fmt → IS_LOGGING_TO_STDOUT (c_logging set) = false →
  ∀ w T, ∃ ok w' T', spine_log_all (H := traced E) ds fmt set (w, T) texts = Ok (ok, (w', T ++ T')) ∧
    (ok = true → file_enabled set = true → Forall2 (record_of fmt set) texts (split_lines [] (file_content T'))).
Proof.
  intros Hd Hs. induction texts as [|t texts IH]; intros w T.
  { exists true, w, []. split; [by rewrite app_nil_r|]. intros _ _. constructor. }
  cbn [spine_log_all]. destruct (spine_log_traced E ds fmt set w T t Hd Hs) as (ok1 & w1 & T1 & -> & HT1). cbn [obind].
  destruct (IH w1 (T ++ T1)) as (ok2 & w2 & T2 & -> & HT2). cbn [obind].
  exists (ok1 && ok2), w2, (T1 ++ T2). split; [by rewrite app_assoc|]. intros [-> ->]%andb_true_iff Hon.
  destruct (log_trace_content E ds fmt set w t T1 Hon HT1) as (body & Hrec & Ec). rewrite file_content_app, Ec, <- app_assoc. cbn [app].
  assert (Hclean : clean body) by (unfold record_at in Hrec; destruct (log_buffers w); apply Hrec).
  rewrite split_lines_line by (by apply clean_no_newline). constructor; [by exists w|by apply HT2].
Qed.

End LogFacts.
Import Log LogFacts.

(** * Properties *)

(** C31: the log file is one record per line, in order.  Whatever the system does, a call of
    [spine_log] never ends the process: it makes one line of the message - the date, the
    prefix with the ids, and the text without control characters and line separators, cut
    so that it fits with its line end into the buffers of the call, of 65535 bytes on the
    heap or of 1024 on the stack when the thread has none - and writes that line, in one
    write inside the mutex, to a file opened for appending and closed again; the syslog and
    the console get the same line.  So when the log goes to a file and every call reports
    success, reading the file back line by line gives one record per message, in order,
    whatever bytes devices put into the messages.  The date is short and clean, and the log
    does not go to the console alone. *)
Theorem log_file_roundtrip {W} (E : LogEnv W) (disable_stderr : bool) (date_format : cstr) (set : config_t) (w : W) (texts : list cstr)
  (Hdates : good_dates E date_format) (Hfile : IS_LOGGING_TO_STDOUT (c_logging set) = false) :
  (∀ text, ∃ ok w' T, spine_log (H := traced E) disable_stderr date_format set (w, []) text = Ok (ok, (w', T)) ∧
                      log_trace disable_stderr date_format set w text ok T) ∧
  ∃ ok w' T, spine_log_all (H := traced E) disable_stderr date_format set (w, []) texts = Ok (ok, (w', T)) ∧
    (ok = true → file_enabled set = true → Forall2 (record_of date_format set) texts (split_lines [] (file_content T))).
Proof.
  split; [intros text; exact (spine_log_traced E disable_stderr date_format set w [] text Hdates Hfile)|].
  exact (spine_log_all_traced E disable_stderr date_format set texts Hdates Hfile w []).
Qed.

(** A console without a terminal, a file that takes every write. *)
Definition sample_log : LogEnv unit := {|
  getpid _ := 4711; pthread_self _ := 17; log_buffers w := (true, w); strftime w _ _ := ($"2026/01/31 12:00:00 - ", w);
  run_time w := (dzero, w); syslog w _ _ := w; log_mutex_lock w := (0, w); log_mutex_unlock w := (0, w);
  reported_error _ := false; set_reported_error w := w; open_append w _ := (3, w); write_log w _ t := (slen t, w);
  close_log w _ := (0, w); fprintf w _ t := (slen t, w) |}.
Definition file_config : config_t :=
  with_logging {| path_logfile := $"/var/log/cacti.log"; logfile_processed := true; log_level := Keywords.POLLER_VERBOSITY_MEDIUM;
                  log_destination := Keywords.LOGDEST_FILE; log_perror := false; log_pwarn := false; log_pstats := false;
                  selective_device_debug := []; spine_log_level := 0; log_datetime_separator := 0; log_datetime_format := 0 |} (example_config 1 false).
Definition forged : list cstr := [$"Device[7] says " ++ [newline] ++ $"ERROR: forged"; $"Time: 1.0000 s"].

Lemma log_file_roundtrip_witness :
  ∃ w' T, spine_log_all (H := traced sample_log) false [] file_config (tt, []) forged = Ok (true, (w', T)) ∧
    split_lines [] (file_content T) =
      [$"2026/01/31 12:00:00 - SPINE: Poller[1] PID[4711] PT[17] Device[7] says  ERROR: forged";
       $"2026/01/31 12:00:00 - SPINE: Poller[1] PID[4711] PT[17] Time: 1.0000 s"] ∧
    Forall2 (record_of (H := sample_log) [] file_config) forged (split_lines [] (file_content T)).
Proof.
  destruct (log_file_roundtrip sample_log false [] file_config tt forged) as [_ (ok & w' & T & E & Hr)].
  - intros w. split; [done|]. apply clean_ascii. apply (bool_decide_unpack _). vm_compute. exact I.
  - reflexivity.
  - assert (Hok : ok = true) by (vm_compute in E; by injection E as <- _ _). exists w', T. split; [by rewrite <- Hok|].
    split; [vm_compute in E; injection E as <- <- <-; vm_compute; reflexivity|]. apply Hr; [done|reflexivity].
Defined.

(** [die] prints one line on stderr, with its message in front and the thread it happened
    in at the end, and never ends the process with the status of success. *)
Theorem die_reports_failure {W} (E : LogEnv W) (set : config_t) (close_php : W * list effect → W * list effect) (parent : bool)
  (exit_code : Z) (error : Z * cstr) (w : W) (text : cstr) (Hcode : 0 ≤ exit_code < 256) :
  let line := die_line set parent error text in
  (∃ message, line = Sanitize.spine_sanitize_log_message message ++
                     (if logfile_processed (c_logging set) then (if parent then $" (Spine parent)" else $" (Spine thread)") else $" (Spine init)") ∧
              snprintf_s BUFSIZE text `prefix_of` message ∧ slen message < BUFSIZE) ∧
  clean line ∧
  ∃ status w1 w2, die (H := traced E) set close_php parent exit_code error (w, []) text = (status, w2) ∧ 0 < status < 256 ∧
    w2 = (if parent && pp_php_initialized (c_php set) then close_php (w1, [XPrint stderr (line ++ [newline])])
          else (w1, [XPrint stderr (line ++ [newline])])).
Proof.
  intros line. set (tag := if logfile_processed (c_logging set) then (if parent then $" (Spine parent)" else $" (Spine thread)") else $" (Spine init)").
  assert (Htag : ascii_text tag) by (unfold tag; destruct (logfile_processed _), parent; apply (bool_decide_unpack _); vm_compute; exact I).
  assert (Hlen : slen tag < 16) by (unfold tag; destruct (logfile_processed _), parent; done).
  pose proof (snprintf_s_bound BUFSIZE text eq_refl) as Hb.
  assert (Hm : ∃ message, line = Sanitize.spine_sanitize_log_message message ++ tag ∧ snprintf_s BUFSIZE text `prefix_of` message ∧ slen message < BUFSIZE).
  { assert (Hfit : ∀ m, slen m < BUFSIZE → snprintf_s DBL_BUFSIZE (Sanitize.spine_sanitize_log_message m ++ tag) = Sanitize.spine_sanitize_log_message m ++ tag).
    { intros m Hm. apply snprintf_s_fits. rewrite slen_app. unfold slen at 1. rewrite sanitized_length. fold (slen m). unfold BUFSIZE, DBL_BUFSIZE in *. lia. }
    unfold line, die_line. fold tag. destruct (log_perror (c_logging set)).
    - eexists. split; [apply Hfit|split; [by eexists|]].
      all: rewrite slen_app; match goal with |- context [snprintf_s ?c ?t] => lazymatch c with BUFSIZE - _ => pose proof (snprintf_s_bound c t ltac:(lia)) end end; lia.
    - eexists. split; [by apply Hfit|]. by split. }
  split; [done|]. split.
  { destruct Hm as (m & -> & _). apply clean_app; [apply clean_sanitized|by apply clean_ascii|]. intros c Hc. unfold ascii_text in Htag.
    destruct tag as [|d tag']; [done|]. injection Hc as ->. apply Forall_cons_1 in Htag as [Htag _]. lia. }
  unfold die. cbn [fprintf traced]. fold line. destruct (fprintf w stderr (line ++ [newline])) as [n w1]. cbn [snd app].
  eexists _, w1, _. split; [done|]. split; [|done]. destruct (Z.eqb_spec exit_code EXIT_SUCCESS); unfold EXIT_SUCCESS, EXIT_FAILURE in *; lia.
Qed.
