(* ===== verification/Completion.v ===== *)
(** Completing a device: [complete_poll_host] of src/src/poller/poller.c, and the threads
    of one device as a transition system.

    A device is polled by [host_threads] partitions.  Each ends in [complete_poll_host]:
    a critical section under LOCK_THDET that counts it and, for the last one, decides
    whether the device is complete and its schedule advances; then database writes
    outside the lock; then, if a write failed, a second critical section. *)

From S2P Require Import Prelude CLib Buffer Result Settings Sql Queries Persist.

Module Completion.
Import Queries.

(** The shared part of [poller_thread_t] and the exit code of the process. *)
Record device := {
  host_threads : Z; threads_complete : Z; output_failed : bool; poll_failed : bool; complete : bool; exit_failure : bool }.

(** The first critical section; the result is ([last_partition], [update_schedule]). *)
Definition count_partition (set : config_t) (out_failed p_failed : bool) (d : device) : device * bool * bool :=
  let of_ := output_failed d || out_failed in
  let pf := poll_failed d || p_failed in
  let n := threads_complete d + 1 in
  let last_partition := n =? host_threads d in
  let failed := of_ || pf in
  ({| host_threads := host_threads d; threads_complete := n; output_failed := of_; poll_failed := pf;
      complete := if last_partition then negb failed else complete d;
      exit_failure := exit_failure d || out_failed || p_failed |},
   last_partition, last_partition && (negb (active_profiles set =? 1) && negb failed)).

(** The second one, after a failed write. *)
Definition write_failure (d : device) : device :=
  {| host_threads := host_threads d; threads_complete := threads_complete d; output_failed := true;
     poll_failed := poll_failed d; complete := false; exit_failure := true |}.

Definition polling_time_query (poll_time host_time_double : double) (host_id : Z) : cstr :=
  snprintf_s BUFSIZE ($"UPDATE host SET polling_time = " ++ print_fixed 3 poll_time ++ $" - " ++ print_fixed 3 host_time_double ++
                      $" WHERE id = " ++ sdec host_id).
Definition errors_query (set : config_t) (host_id errors : Z) (error_string : cstr) : cstr :=
  snprintf_s (slen error_string + BUFSIZE)
    ($"INSERT INTO host_errors (host_id, poller_id, errors, local_data_ids) VALUES(" ++ sdec host_id ++ $", " ++
     sdec (poller_id set) ++ $", " ++ sdec errors ++ $", '" ++ error_string ++
     $"') ON DUPLICATE KEY UPDATE errors = errors + VALUES(errors), local_data_ids = CONCAT(local_data_ids, ', ', VALUES(local_data_ids))").

(** The writes between the critical sections; whether one failed. *)
Definition completion_writes {W} `{StatementSink W} (set : config_t) (clock : W → double * W) (w : W) (mysql : conn)
    (queries : poller_queries_t) (host_id : Z) (host_time_double : double) (errors : Z) (error_string : cstr)
    (last_partition update_schedule : bool) : outcome (bool * W) :=
  let* (f1, w) := (if update_schedule then let* (ok, w) := insert w mysql LOCAL (q_schedule queries) in Ok (negb ok, w) else Ok (false, w)) in
  let* (f2, w) := (if last_partition then
                     let '(poll_time, w) := clock w in
                     let* (ok, w) := insert w mysql LOCAL (polling_time_query poll_time host_time_double host_id) in Ok (negb ok, w)
                   else Ok (false, w)) in
  let* (f3, w) := (if 0 <? errors then
                     let* _ := spine_count_to_int (slen error_string + BUFSIZE) in
                     let* (ok, w) := insert w mysql LOCAL (errors_query set host_id errors error_string) in Ok (negb ok, w)
                   else Ok (false, w)) in
  Ok (f1 || f2 || f3, w).

(** The whole function, when no other partition runs between the sections. *)
Definition complete_poll_host {W} `{StatementSink W} (set : config_t) (clock : W → double * W) (w : W) (mysql : conn)
    (queries : poller_queries_t) (host_id : Z) (host_time_double : double) (errors : Z) (error_string : cstr)
    (out_failed p_failed : bool) (d : device) : outcome (device * W) :=
  let '(d, last_partition, update_schedule) := count_partition set out_failed p_failed d in
  if p_failed then Ok (d, w) else
  let* (write_failed, w) := completion_writes set clock w mysql queries host_id host_time_double errors error_string last_partition update_schedule in
  Ok (if write_failed : bool then write_failure d else d, w).

(** ** The partitions of one device *)

(** Where a partition is: polling; between the sections (with the failure it reported and
    what it was told to do); about to report a failed write; done (having failed or not). *)
Inductive ppc :=
| Polling
| Writing (failed last update : bool)
| WriteFailed (failed : bool)
| Done (failed : bool).

(** [updates] counts the schedule updates sent. *)
Record dstate := { dev : device; parts : list ppc; updates : nat }.

Inductive devent :=
| DComplete (i : nat) (out_failed p_failed : bool)
| DWrites (i : nat) (write_failed : bool)
| DReport (i : nat).

Definition dstep (set : config_t) (s : dstate) (e : devent) : option dstate :=
  match e with
  | DComplete i of_ pf =>
      match parts s !! i with
      | Some Polling =>
          let '(d, last, upd) := count_partition set of_ pf (dev s) in
          Some {| dev := d; updates := updates s;
                  parts := <[i := if pf then Done true else Writing of_ last upd]> (parts s) |}
      | _ => None
      end
  | DWrites i wf =>
      match parts s !! i with
      | Some (Writing failed last upd) =>
          Some {| dev := dev s; updates := if upd then S (updates s) else updates s;
                  parts := <[i := if wf : bool then WriteFailed failed else Done failed]> (parts s) |}
      | _ => None
      end
  | DReport i =>
      match parts s !! i with
      | Some (WriteFailed failed) => Some {| dev := write_failure (dev s); updates := updates s; parts := <[i := Done true]> (parts s) |}
      | _ => None
      end
  end.

Definition dinitial (n : nat) : dstate := {|
  dev := {| host_threads := Z.of_nat n; threads_complete := 0; output_failed := false; poll_failed := false; complete := false;
            exit_failure := false |};
  parts := replicate n Polling; updates := 0 |}.

Inductive dreachable (set : config_t) (n : nat) : dstate → Prop :=
| dr_init : dreachable set n (dinitial n)
| dr_step s e s' : dreachable set n s → dstep set s e = Some s' → dreachable set n s'.

End Completion.

(** * Facts *)

Module CompletionFacts.
Import Completion.

(** Number of partitions that satisfy a test. *)
Fixpoint cnt (p : ppc → bool) (l : list ppc) : nat :=
  match l with [] => 0 | x :: l' => (if p x then 1 else 0) + cnt p l' end.
Lemma cnt_insert p l : ∀ (i : nat) (x y : ppc), l !! i = Some x →
  (cnt p (<[i := y]> l) + (if p x then 1 else 0) = cnt p l + (if p y then 1 else 0))%nat.
Proof.
  induction l as [|z l IH]; intros [|i] x y E; try done.
  - injection E as ->. cbn [cnt]. change (<[0%nat := y]> (x :: l)) with (y :: l). cbn [cnt]. lia.
  - specialize (IH i x y E). change (<[S i := y]> (z :: l)) with (z :: <[i := y]> l). cbn [cnt]. lia.
Qed.
Lemma cnt_replicate p n x : cnt p (replicate n x) = if p x then n else 0%nat.
Proof. induction n as [|n IH]; cbn; [by destruct (p x)|]. rewrite IH. destruct (p x); lia. Qed.
Lemma cnt_pos p l : (0 < cnt p l)%nat ↔ ∃ i x, l !! i = Some x ∧ p x = true.
Proof.
  induction l as [|z l IH]; cbn; [split; [lia|intros (i & x & ? & _); done]|]. split.
  - intros Hc. destruct (p z) eqn:E; [by exists 0%nat, z|]. destruct (proj1 IH Hc) as (i & x & ? & ?). by exists (S i), x.
  - intros ([|i] & x & Hl & Hp); cbn in Hl; [injection Hl as ->; rewrite Hp; lia|].
    assert (0 < cnt p l)%nat by (apply IH; eauto). lia.
Qed.
Lemma cnt_le p l : (cnt p l ≤ length l)%nat.
Proof. induction l as [|z l IH]; cbn; [done|]. destruct (p z); lia. Qed.

Definition counted (x : ppc) : bool := match x with Polling => false | _ => true end.
(** A failure the device record knows about. *)
Definition published (x : ppc) : bool := match x with Writing f _ _ | WriteFailed f | Done f => f | Polling => false end.
Definition pending_update (x : ppc) : bool := match x with Writing _ _ u => u | _ => false end.

Record dinv (n : nat) (s : dstate) : Prop := {
  di_len : length (parts s) = n;
  di_threads : host_threads (dev s) = Z.of_nat n;
  di_count : threads_complete (dev s) = Z.of_nat (cnt counted (parts s));
  di_failed : output_failed (dev s) || poll_failed (dev s) = (0 <? cnt published (parts s))%nat;
  di_complete : complete (dev s) = (if (cnt counted (parts s) =? n)%nat && negb (0 =? n)%nat
                                    then negb (output_failed (dev s) || poll_failed (dev s)) else false);
  di_update : (updates s + cnt pending_update (parts s) ≤ 1)%nat;
  di_late : (0 < updates s + cnt pending_update (parts s))%nat → cnt counted (parts s) = n }.

Lemma pos_of (a b : nat) : a = b → (0 <? a)%nat = (0 <? b)%nat.
Proof. by intros ->. Qed.

Lemma dinitial_inv n : dinv n (dinitial n).
Proof.
  constructor; cbn; rewrite ?length_replicate, ?cnt_replicate; cbn; try done; try lia. by destruct n.
Qed.

Lemma dcomplete_inv set n s i of_ pf s' : dinv n s → dstep set s (DComplete i of_ pf) = Some s' → dinv n s'.
Proof.
  intros [I1 I2 I3 I4 I5 I6 I7] H. cbn [dstep] in H. destruct (parts s !! i) as [[]|] eqn:Ei; try done.
  pose proof (cnt_insert counted (parts s) i Polling) as Hc. pose proof (cnt_insert published (parts s) i Polling) as Hp.
  pose proof (cnt_insert pending_update (parts s) i Polling) as Hu.
  unfold count_partition in H. set (last := threads_complete (dev s) + 1 =? host_threads (dev s)) in H.
  set (upd := last && _) in H. set (y := if pf then Done true else Writing of_ last upd) in H.
  specialize (Hc y Ei). specialize (Hp y Ei). specialize (Hu y Ei). injection H as <-.
  assert (Ey : counted y = true ∧ published y = of_ || pf) by (unfold y; destruct pf, of_; done). destruct Ey as [Ey1 Ey2].
  rewrite Ey1 in Hc. rewrite Ey2 in Hp. cbn [counted published pending_update] in Hc, Hp, Hu.
  assert (Hlt : (cnt counted (parts s) < n)%nat).
  { pose proof (cnt_le counted (<[i := y]> (parts s))). rewrite length_insert, I1 in *. lia. }
  assert (Hlast : last = (S (cnt counted (parts s)) =? n)%nat).
  { unfold last. rewrite I2, I3. destruct (Nat.eqb_spec (S (cnt counted (parts s))) n), (Z.eqb_spec (Z.of_nat (cnt counted (parts s)) + 1) (Z.of_nat n)); lia. }
  assert (Hu0 : (updates s + cnt pending_update (parts s) = 0)%nat).
  { destruct (decide (0 < updates s + cnt pending_update (parts s))%nat) as [Hpos|]; [|lia]. specialize (I7 Hpos). lia. }
  assert (Hf : (output_failed (dev s) || of_) || (poll_failed (dev s) || pf) = (0 <? cnt published (<[i := y]> (parts s)))%nat).
  { assert (E : output_failed (dev s) || of_ || (poll_failed (dev s) || pf) = (output_failed (dev s) || poll_failed (dev s)) || (of_ || pf)) by (by destruct (output_failed (dev s)), of_, (poll_failed (dev s)), pf).
    rewrite E, I4. destruct (of_ || pf); [rewrite orb_true_r; symmetry; apply Nat.ltb_lt; lia|].
    rewrite orb_false_r. apply pos_of. lia. }
  constructor; cbn [dev parts updates host_threads threads_complete output_failed poll_failed complete].
  - by rewrite length_insert.
  - done.
  - rewrite I3. lia.
  - exact Hf.
  - rewrite Hlast. replace (cnt counted (<[i := y]> (parts s))) with (S (cnt counted (parts s))) by lia.
    destruct (Nat.eqb_spec (S (cnt counted (parts s))) n) as [En|En]; [by rewrite (proj2 (Nat.eqb_neq 0 n)) by lia|].
    rewrite I5. by rewrite (proj2 (Nat.eqb_neq (cnt counted (parts s)) n)) by lia.
  - destruct (pending_update y); lia.
  - intros Hpos. destruct (pending_update y) eqn:Epu; [|lia]. assert (Hl : last = true).
    { unfold y in Epu. destruct pf; [done|]. cbn in Epu. unfold upd in Epu. by destruct last. }
    rewrite Hlast in Hl. apply Nat.eqb_eq in Hl. lia.
Qed.

Lemma dwrites_inv set n s i wf s' : dinv n s → dstep set s (DWrites i wf) = Some s' → dinv n s'.
Proof.
  intros [I1 I2 I3 I4 I5 I6 I7] H. cbn [dstep] in H. destruct (parts s !! i) as [[|f l u| |]|] eqn:Ei; try done.
  injection H as <-. set (y := if wf then WriteFailed f else Done f).
  pose proof (cnt_insert counted (parts s) i _ y Ei) as Hc. pose proof (cnt_insert published (parts s) i _ y Ei) as Hp.
  pose proof (cnt_insert pending_update (parts s) i _ y Ei) as Hu.
  assert (Ey : counted y = true ∧ published y = f ∧ pending_update y = false) by (unfold y; by destruct wf). destruct Ey as (E1 & E2 & E3).
  rewrite E1 in Hc. rewrite E2 in Hp. rewrite E3 in Hu. cbn [counted published pending_update] in Hc, Hp, Hu.
  assert (Ec : cnt counted (<[i := y]> (parts s)) = cnt counted (parts s)) by (destruct f; lia).
  assert (Ep : cnt published (<[i := y]> (parts s)) = cnt published (parts s)) by (destruct f; lia).
  constructor; cbn [dev parts updates]; rewrite ?Ec, ?Ep, ?length_insert; try done; destruct u; lia.
Qed.

Lemma dreport_inv set n s i s' : dinv n s → dstep set s (DReport i) = Some s' → dinv n s'.
Proof.
  intros [I1 I2 I3 I4 I5 I6 I7] H. cbn [dstep] in H. destruct (parts s !! i) as [[| |f|]|] eqn:Ei; try done.
  injection H as <-. pose proof (cnt_insert counted (parts s) i _ (Done true) Ei) as Hc.
  pose proof (cnt_insert published (parts s) i _ (Done true) Ei) as Hp.
  pose proof (cnt_insert pending_update (parts s) i _ (Done true) Ei) as Hu. cbn [counted published pending_update] in Hc, Hp, Hu.
  assert (Ec : cnt counted (<[i := Done true]> (parts s)) = cnt counted (parts s)) by lia.
  assert (Hpos : (0 < cnt published (<[i := Done true]> (parts s)))%nat).
  { apply cnt_pos. exists i, (Done true). split; [|done]. apply list_lookup_insert_eq. by eapply lookup_lt_Some. }
  constructor; cbn [dev parts updates write_failure host_threads threads_complete output_failed poll_failed complete];
    rewrite ?Ec, ?length_insert; try done; try lia.
  - symmetry. by apply Nat.ltb_lt.
  - by destruct (_ && _).
Qed.

Lemma dreachable_inv set n s : dreachable set n s → dinv n s.
Proof.
  intros H. induction H as [|s e s' _ IH Hs]; [apply dinitial_inv|].
  destruct e; eauto using dcomplete_inv, dwrites_inv, dreport_inv.
Qed.

Lemma all_counted l : cnt counted l = length l ↔ Polling ∉ l.
Proof.
  induction l as [|z l IH]; cbn; [split; [intros _ H; by apply not_elem_of_nil in H|done]|].
  pose proof (cnt_le counted l). rewrite elem_of_cons. destruct z; cbn; (split; [intros Hc|intros Hn]).
  - lia.
  - destruct Hn. by left.
  - intros [[=]|Hin]. apply (proj1 IH); [lia|done].
  - assert (cnt counted l = length l) by (apply IH; intros Hin; apply Hn; by right). lia.
  - intros [[=]|Hin]. apply (proj1 IH); [lia|done].
  - assert (cnt counted l = length l) by (apply IH; intros Hin; apply Hn; by right). lia.
  - intros [[=]|Hin]. apply (proj1 IH); [lia|done].
  - assert (cnt counted l = length l) by (apply IH; intros Hin; apply Hn; by right). lia.
Qed.

(** An update becomes pending only in a critical section that knows of no failure. *)
Lemma update_needs_success set s e s' : dstep set s e = Some s' →
  (cnt pending_update (parts s) < cnt pending_update (parts s'))%nat → output_failed (dev s') || poll_failed (dev s') = false.
Proof.
  intros H Hlt. destruct e as [i of_ pf|i wf|i]; cbn [dstep] in H.
  - destruct (parts s !! i) as [[]|] eqn:Ei; try done. unfold count_partition in H. injection H as <-. cbn [parts dev output_failed poll_failed] in *.
    match goal with H : context [<[i := ?x]> _] |- _ => set (y := x) in H end.
    pose proof (cnt_insert pending_update (parts s) i Polling y Ei) as Hc. cbn [pending_update] in Hc.
    assert (Hy : pending_update y = true) by (destruct (pending_update y); [done|lia]). unfold y in Hy. destruct pf; [done|].
    cbn [pending_update] in Hy. rewrite !andb_true_iff, negb_true_iff in Hy. by destruct Hy as (_ & _ & ?%negb_true_iff).
  - destruct (parts s !! i) as [[|f l u| |]|] eqn:Ei; try done. injection H as <-. cbn [parts] in Hlt. set (y := if wf then _ else _) in Hlt.
    pose proof (cnt_insert pending_update (parts s) i _ y Ei) as Hc. replace (pending_update y) with false in Hc by (unfold y; by destruct wf). lia.
  - destruct (parts s !! i) as [[| |f|]|] eqn:Ei; try done. injection H as <-. cbn [parts] in Hlt.
    pose proof (cnt_insert pending_update (parts s) i _ (Done true) Ei) as Hc. cbn [pending_update] in Hc. lia.
Qed.

End CompletionFacts.
Import CompletionFacts.

(** * Properties *)

(** C7: a device's schedule advances at most once, and only after all its partitions.
    In every interleaving of the [n] partitions of a device: at most one schedule update
    is sent or about to be sent, only when no partition is still polling, and it is
    decided on only while no failure is known; and once every partition is done, the device counts as polled exactly when none of them
    failed - neither its polling, nor its output, nor its completion writes. *)
Theorem device_completion (set : config_t) (n : nat) (s : Completion.dstate) (Hr : Completion.dreachable set n s) (Hn : (0 < n)%nat) :
  (Completion.updates s + cnt pending_update (Completion.parts s) ≤ 1)%nat ∧
  ((0 < Completion.updates s + cnt pending_update (Completion.parts s))%nat → Completion.Polling ∉ Completion.parts s) ∧
  (∀ e s', Completion.dstep set s e = Some s' →
     (cnt pending_update (Completion.parts s) < cnt pending_update (Completion.parts s'))%nat →
     Completion.output_failed (Completion.dev s') || Completion.poll_failed (Completion.dev s') = false) ∧
  ((∀ x, x ∈ Completion.parts s → ∃ f, x = Completion.Done f) →
   Completion.complete (Completion.dev s) = true ↔ ∀ x, x ∈ Completion.parts s → x = Completion.Done false).
Proof.
  apply dreachable_inv in Hr as [I1 I2 I3 I4 I5 I6 I7]. split; [done|]. split.
  { intros Hpos. apply all_counted. rewrite (I7 Hpos). done. }
  split; [intros e s'; apply update_needs_success|]. intros Hdone. assert (Hall : cnt counted (Completion.parts s) = n).
  { rewrite <- I1. apply all_counted. intros Hin. by destruct (Hdone _ Hin). }
  rewrite I5, Hall, Nat.eqb_refl, I4. destruct n as [|m]; [lia|]. cbn [andb negb Nat.eqb].
  rewrite negb_true_iff, Nat.ltb_ge. split.
  - intros Hz x Hx. destruct (Hdone x Hx) as [[] ->]; [|done]. apply list_elem_of_lookup in Hx as [i Hi].
    assert (0 < cnt published (Completion.parts s))%nat by (apply cnt_pos; by exists i, (Completion.Done true)). lia.
  - intros Hok. destruct (decide (cnt published (Completion.parts s) = 0)%nat) as [|Hne]; [lia|].
    destruct (proj1 (cnt_pos published (Completion.parts s))) as (i & x & Hx & Hp); [lia|].
    apply list_elem_of_lookup_2, Hok in Hx. by subst x.
Qed.

(** Two partitions of a device under several profiles; the first one's error write fails
    after the second, the last, has completed the device. *)
Definition two_profiles : config_t := example_config 2 false.
Fixpoint druns (set : config_t) (s : Completion.dstate) (es : list Completion.devent) : option Completion.dstate :=
  match es with [] => Some s | e :: es' => s' ← Completion.dstep set s e; druns set s' es' end.
Lemma druns_reachable set n es : ∀ s s', Completion.dreachable set n s → druns set s es = Some s' → Completion.dreachable set n s'.
Proof.
  induction es as [|e es IH]; intros s s' Hr H; [by injection H as <-|]. cbn in H. apply bind_Some in H as (s1 & H1 & H).
  eapply IH; [|done]. by econstructor.
Qed.
Definition late_failure : list Completion.devent :=
  [Completion.DComplete 0 false false; Completion.DComplete 1 false false; Completion.DWrites 1 false;
   Completion.DWrites 0 true; Completion.DReport 0].

Lemma device_completion_witness :
  ∃ s, druns two_profiles (Completion.dinitial 2) late_failure = Some s ∧ Completion.updates s = 1%nat ∧
    (Completion.complete (Completion.dev s) = true ↔ ∀ x, x ∈ Completion.parts s → x = Completion.Done false).
Proof.
  destruct (druns two_profiles (Completion.dinitial 2) late_failure) as [s|] eqn:E; [|by vm_compute in E].
  exists s. split; [done|].
  assert (Hr : Completion.dreachable two_profiles 2 s) by (eapply druns_reachable; [constructor|exact E]).
  pose proof (device_completion two_profiles 2 s Hr ltac:(lia)) as (_ & _ & _ & H3).
  vm_compute in E. injection E as <-. split; [reflexivity|]. apply H3.
  intros x [->|[->|Hx]%elem_of_cons]%elem_of_cons; [by eexists|by eexists|by apply not_elem_of_nil in Hx].
Defined.
