(* ===== verification/Workers.v ===== *)
(** Launching the workers: src/src/poller/workers.c.

    The main thread walks the devices, splits each into partitions and starts one thread
    per partition, holding a thread permit and the startup permit for each.  Permits,
    clocks and thread creation are an interface ([Class WorkerEnv]): other threads change
    the permits between two calls.  Logging is not modelled. *)

From S2P Require Import Prelude CLib Buffer Result Settings Sql Pool Queries.

Inductive permit := available_threads | thread_init_sem.

(** The part of [poller_thread_t] that the launcher fills in, without the permit that
    every worker shares. *)
Record poller_thread_t := {
  device_counter : nat; pt_host_id : Z; host_thread : Z; pt_host_threads : Z; host_data_ids : Z;
  host_time : cstr; host_time_double : double;
  pt_complete : bool; pt_threads_complete : Z; pt_output_failed : bool; pt_poll_failed : bool }.

Class WorkerEnv (W : Type) := {
  permits_try_acquire : W → permit → Z * W;
  permits_release : W → permit → W;
  clock : W → double * W;
  pause : W → Z → W;
  time_now : W → Z * W;
  pthread_create : W → poller_thread_t → Z * W }.

Module Workers.
Import Permits.

Record poller_partition_t := { p_threads : Z; p_items : Z; p_timestamp : cstr; p_time : double }.

(** ** Counting items *)

Definition count_query (host_id divisor : Z) (due_only : bool) : cstr :=
  snprintf_s BIG_BUFSIZE
    ((if 1 <? divisor then $"SELECT SQL_NO_CACHE CEIL(COUNT(local_data_id)/" ++ sdec divisor ++ $")"
      else $"SELECT SQL_NO_CACHE COUNT(local_data_id)") ++
     $" FROM poller_item WHERE host_id=" ++ sdec host_id ++ (if due_only then $" AND rrd_next_step <=0" else [])).

Definition count_partition_items {W} `{MySQL W} (set : config_t) (ssl : list mysql_feature) (mysql : conn)
    (w : W) (host_id divisor : Z) (due_only : bool) : outcome (Z * W) :=
  let* (result, w) := Sql.db_query set ssl w mysql LOCAL (count_query host_id divisor due_only) in
  match result with
  | Some {| res_rows := row :: _ |} =>
      match column row 0 with Some v => Ok (atoi v, w) | None => Died EXIT_FAILURE end
  | _ => Died EXIT_FAILURE
  end.

Section Launch.
Context {W : Type} `{WorkerEnv W} (set : config_t) (start_time : double).
Let interval : double := of_int (poller_interval set).

(** ** Permits *)

(** [None]: the fuel ran out before the permit came free or the deadline passed. *)
Fixpoint wait_for_worker_permit (fuel : nat) (w : W) (p : permit) (retries : Z) : option (bool * W) :=
  match fuel with
  | O => None
  | S f =>
      let '(error, w) := permits_try_acquire w p in
      if error =? 0 then Some (true, w) else
      let retries := retries + 1 in
      let '(expired, retries, w) :=
        if retries =? 10 then let '(now, w) := clock w in (dlt interval (dadd (dsub now start_time) (of_int 1)), 0, w)
        else (false, retries, w) in
      if expired : bool then Some (false, w) else
      let w := pause w 10000 in
      let '(total_time, w) := clock w in
      if dlt interval (dsub total_time start_time) then Some (false, w) else wait_for_worker_permit f w p retries
  end.

Definition acquire_worker_permits (fuel : nat) (w : W) : option (bool * W) :=
  '(ok, w) ← wait_for_worker_permit fuel w available_threads 0;
  if negb ok then Some (false, w) else
  '(ok, w) ← wait_for_worker_permit fuel w thread_init_sem 0;
  if ok : bool then Some (true, w) else Some (false, permits_release w available_threads).

(** [do ... while (status == EAGAIN && ...)]. *)
Fixpoint create_worker (fuel : nat) (w : W) (worker : poller_thread_t) : option (Z * W) :=
  match fuel with
  | O => None
  | S f =>
      let '(status, w) := pthread_create w worker in
      if status =? EAGAIN then
        let w := pause w 10000 in
        let '(now, w) := clock w in
        if dlt (dsub now start_time) interval then create_worker f w worker else Some (status, w)
      else Some (status, w)
  end.

Definition with_thread (k : Z) (d : poller_thread_t) : poller_thread_t := {|
  device_counter := device_counter d; pt_host_id := pt_host_id d; host_thread := k; pt_host_threads := pt_host_threads d;
  host_data_ids := host_data_ids d; host_time := host_time d; host_time_double := host_time_double d;
  pt_complete := pt_complete d; pt_threads_complete := pt_threads_complete d;
  pt_output_failed := pt_output_failed d; pt_poll_failed := pt_poll_failed d |}.

(** Whether the worker was started; if not, the exit code is EXIT_FAILURE. *)
Definition start_poll_worker (fuel : nat) (w : W) (device : poller_thread_t) (current_thread : Z) : option (bool * W) :=
  '(ok, w) ← acquire_worker_permits fuel w;
  if negb ok then Some (false, w) else
  '(status, w) ← create_worker fuel w (with_thread current_thread device);
  if status =? 0 then Some (true, w)
  else Some (false, permits_release (permits_release w thread_init_sem) available_threads).

(** ** Partitions *)

(** How a device's items are counted: [count_partition_items], or what stands for it. *)
Variable count_items : W → Z → Z → bool → outcome (Z * W).

Definition update_partition_time (w : W) (p : poller_partition_t) : outcome (poller_partition_t * W) :=
  let '(t, w) := time_now w in
  let* ts := spine_snprintf SMALL_BUFSIZE (udec (wrap_u 64 t)) in
  let '(now, w) := clock w in
  Ok ({| p_threads := p_threads p; p_items := p_items p; p_timestamp := ts; p_time := now |}, w).

Definition set_threads (n : Z) (p : poller_partition_t) : poller_partition_t :=
  {| p_threads := n; p_items := p_items p; p_timestamp := p_timestamp p; p_time := p_time p |}.
Definition set_count (n : Z) (p : poller_partition_t) : poller_partition_t :=
  {| p_threads := p_threads p; p_items := n; p_timestamp := p_timestamp p; p_time := p_time p |}.

Definition prepare_device_partition (w : W) (host_id current_thread : Z) (p : poller_partition_t) : outcome (poller_partition_t * W) :=
  let due := negb (active_profiles set =? 1) in
  let* (p, w) := (if ping_only set then Ok (set_threads 1 p, w)
                  else let* (total_items, w) := count_items w host_id 1 due in
                       Ok (if negb (total_items =? 0) && (total_items <? p_threads p) then set_threads total_items p else p, w)) in
  if 1 <? p_threads p then
    if current_thread =? 1 then
      let* (n, w) := count_items w host_id (p_threads p) due in update_partition_time w (set_count n p)
    else if deq (p_time p) dzero then update_partition_time w p
    else Ok (p, w)
  else
    let* (n, w) := count_items w host_id 1 true in update_partition_time w (set_count n p).

(** ** The launch loop *)

Record launch_state := {
  ls_partition : poller_partition_t; ls_details : list (option poller_thread_t); ls_device : nat; ls_thread : Z;
  ls_host : Z; ls_change : bool; ls_rows : list row_t; ls_exit_failure : bool }.

(** The next device and thread: [None] when the list ended early. *)
Definition next_partition (st : launch_state) : option (poller_partition_t * Z * Z * list row_t) :=
  if ls_change st then
    match ls_rows st with
    | row :: rows =>
        match column row 0, column row 1 with
        | Some id, Some n => Some (set_threads (Z.max 1 (atoi n)) (ls_partition st), 1, atoi id, rows)
        | _, _ => None
        end
    | [] => None
    end
  else Some (ls_partition st, ls_thread st + 1, ls_host st, ls_rows st).

Definition new_details (counter : nat) (host_id : Z) (p : poller_partition_t) : poller_thread_t := {|
  device_counter := counter; pt_host_id := host_id; host_thread := p_threads p; pt_host_threads := p_threads p;
  host_data_ids := p_items p; host_time := snprintf_s 40 (p_timestamp p); host_time_double := p_time p;
  pt_complete := false; pt_threads_complete := 0; pt_output_failed := false; pt_poll_failed := false |}.

(** One turn of the loop, and whether it is the last. *)
Definition launch_step (fuel : nat) (w : W) (st : launch_state) : outcome (option (launch_state * bool * W)) :=
  match next_partition st with
  | None => Ok (Some ({| ls_partition := ls_partition st; ls_details := ls_details st; ls_device := ls_device st;
                         ls_thread := ls_thread st; ls_host := ls_host st; ls_change := ls_change st; ls_rows := [];
                         ls_exit_failure := true |}, true, w))
  | Some (p, current_thread, host_id, rows) =>
      let* (p, w) := prepare_device_partition w host_id current_thread p in
      let change_host := p_threads p <=? current_thread in
      let details := if current_thread =? 1 then <[ls_device st := Some (new_details (ls_device st) host_id p)]> (ls_details st)
                     else ls_details st in
      match details !! ls_device st with
      | Some (Some d) =>
          match start_poll_worker fuel w d current_thread with
          | None => Ok None
          | Some (started, w) =>
              Ok (Some ({| ls_partition := p; ls_details := details;
                           ls_device := if started && change_host then S (ls_device st) else ls_device st;
                           ls_thread := current_thread; ls_host := host_id; ls_change := change_host; ls_rows := rows;
                           ls_exit_failure := ls_exit_failure st || negb started |}, negb started, w))
          end
      | _ => Died EXIT_FAILURE   (* an access outside [details], or of a NULL entry *)
      end
  end.

Fixpoint launch_loop (turns fuel : nat) (w : W) (num_rows : nat) (st : launch_state) : outcome (option (launch_state * W)) :=
  if (num_rows <=? ls_device st)%nat then Ok (Some (st, w)) else
  match turns with
  | O => Ok None
  | S n =>
      let* r := launch_step fuel w st in
      match r with
      | None => Ok None
      | Some (st, true, w) => Ok (Some (st, w))
      | Some (st, false, w) => launch_loop n fuel w num_rows st
      end
  end.

(** [num_rows] of [prepare_worker_storage]: device 0 has no row. *)
Definition worker_rows (rows : list row_t) : outcome Z :=
  spine_count_to_int (Z.of_nat (length rows) + if (poller_id set =? 1) && has_device_0 set then 1 else 0).

(** [turns] bounds the partitions of all devices, [fuel] the waits of one of them. *)
Definition launch_poll_workers (turns fuel : nat) (w : W) (rows : list row_t) : outcome (option (launch_state * W)) :=
  let* num_rows := worker_rows rows in
  launch_loop turns fuel w (Z.to_nat num_rows)
    {| ls_partition := {| p_threads := 1; p_items := 0; p_timestamp := []; p_time := dzero |};
       ls_details := replicate (Z.to_nat num_rows) None; ls_device := 0; ls_thread := 0; ls_host := 0;
       ls_change := negb ((poller_id set =? 1) && has_device_0 set); ls_rows := rows; ls_exit_failure := false |}.

End Launch.

(** Over the database. *)
Definition launch_with_database {W} `{WorkerEnv W} `{MySQL W} (set : config_t) (ssl : list mysql_feature) (mysql : conn) (start_time : double)
    (turns fuel : nat) (w : W) (rows : list row_t) : outcome (option (launch_state * W)) :=
  launch_poll_workers set start_time (count_partition_items set ssl mysql) turns fuel w rows.

(** The rows a worker selects: [LIMIT offset, count], or all of them. *)
Definition item_window (d : poller_thread_t) : option (Z * Z) :=
  if 0 <? host_data_ids d then Some (host_data_ids d * (host_thread d - 1), host_data_ids d) else None.

End Workers.
