(* ===== verification/WorkersFacts.v ===== *)
(** Facts and properties of the worker launch ([Workers]). *)

From S2P Require Import Prelude CLib Buffer Result Settings Sql Pool Queries Workers.

Module WorkersFacts.
Import Permits Workers.

(** ** A ledger of the workers created and the permits held for them *)

Record ledger := { created : list poller_thread_t; net : permit → Z }.
Definition bump (p : permit) (z : Z) (L : ledger) : ledger :=
  {| created := created L; net := fun q => match p, q with
                                     | available_threads, available_threads | thread_init_sem, thread_init_sem => net L q + z
                                     | _, _ => net L q
                                     end |}.
Definition log_worker (d : poller_thread_t) (L : ledger) : ledger := {| created := created L ++ [d]; net := net L |}.
Definition same (L L' : ledger) : Prop := created L = created L' ∧ ∀ p, net L p = net L' p.

Definition recorded {W} (E : WorkerEnv W) : WorkerEnv (W * ledger) := {|
  permits_try_acquire '(w, L) p := let '(e, w) := permits_try_acquire w p in (e, (w, if e =? 0 then bump p 1 L else L));
  permits_release '(w, L) p := (permits_release w p, bump p (-1) L);
  clock '(w, L) := let '(t, w) := clock w in (t, (w, L));
  pause '(w, L) n := (pause w n, L);
  time_now '(w, L) := let '(t, w) := time_now w in (t, (w, L));
  pthread_create '(w, L) d := let '(e, w) := pthread_create w d in (e, (w, if e =? 0 then log_worker d L else L)) |}.
Definition lift_count {W} (count_items : W → Z → Z → bool → outcome (Z * W)) (x : W * ledger) (host div : Z) (due : bool) :
    outcome (Z * (W * ledger)) :=
  let '(w, L) := x in let* (n, w) := count_items w host div due in Ok (n, (w, L)).

Section Start.
Context {W : Type} (E : WorkerEnv W) (set : config_t) (start_time : double).

Lemma wait_recorded p fuel : ∀ w L r,
  wait_for_worker_permit (H := recorded E) set start_time fuel (w, L) p r =
  '(ok, w') ← wait_for_worker_permit (H := E) set start_time fuel w p r; Some (ok, (w', if ok : bool then bump p 1 L else L)).
Proof.
  induction fuel as [|f IH]; intros w L r; [done|]. cbn [wait_for_worker_permit].
  cbn [permits_try_acquire clock pause recorded]. destruct (permits_try_acquire w p) as [e w1].
  destruct (e =? 0); [done|]. destruct (r + 1 =? 10).
  - destruct (clock w1) as [t w2]. destruct (dlt _ _); [done|]. destruct (clock (pause w2 10000)) as [t' w3].
    destruct (dlt _ _); [done|]. apply IH.
  - destruct (clock (pause w1 10000)) as [t' w3]. destruct (dlt _ _); [done|]. apply IH.
Qed.

Lemma create_recorded d fuel : ∀ w L,
  create_worker (H := recorded E) set start_time fuel (w, L) d =
  '(st, w') ← create_worker (H := E) set start_time fuel w d; Some (st, (w', if st =? 0 then log_worker d L else L)).
Proof.
  induction fuel as [|f IH]; intros w L; [done|]. cbn [create_worker]. cbn [pthread_create clock pause recorded].
  destruct (pthread_create w d) as [e w1]. destruct (Z.eqb_spec e EAGAIN) as [->|]; [|done].
  change (EAGAIN =? 0) with false. cbn [fst snd]. destruct (clock (pause w1 10000)) as [t w2].
  destruct (dlt _ _); [apply IH|done].
Qed.

(** Every wait ends: a permit comes free, or the deadline passes, within the fuel. *)
Definition waits_end (fuel : nat) : Prop :=
  (∀ w p r, wait_for_worker_permit (H := E) set start_time fuel w p r ≠ None) ∧
  ∀ w d, create_worker (H := E) set start_time fuel w d ≠ None.

Lemma start_recorded fuel w L d k : waits_end fuel →
  ∃ started w' L', start_poll_worker (H := recorded E) set start_time fuel (w, L) d k = Some (started, (w', L')) ∧
    same L' (if started : bool then log_worker (with_thread k d) (bump thread_init_sem 1 (bump available_threads 1 L)) else L).
Proof.
  intros [Hw Hc]. unfold start_poll_worker, acquire_worker_permits. rewrite wait_recorded.
  destruct (wait_for_worker_permit set start_time fuel w available_threads 0) as [[[] w1]|] eqn:E1; cbn [mbind option_bind negb];
    [| |by destruct (Hw w available_threads 0)].
  2:{ exists false, w1, L. by repeat split. }
  rewrite wait_recorded.
  destruct (wait_for_worker_permit set start_time fuel w1 thread_init_sem 0) as [[[] w2]|] eqn:E2; cbn [mbind option_bind negb];
    [| |by destruct (Hw w1 thread_init_sem 0)].
  2:{ eexists false, _, _. split; [done|]. split; [done|]. intros []; cbn; rewrite ?Z.add_0_r; try done. lia. }
  rewrite create_recorded.
  destruct (create_worker set start_time fuel w2 (with_thread k d)) as [[st w3]|] eqn:E3; cbn [mbind option_bind];
    [|by destruct (Hc w2 (with_thread k d))].
  destruct (st =? 0); [eexists true, _, _; split; [done|]; by repeat split|].
  eexists false, _, _. split; [done|]. split; [done|]. intros []; cbn; lia.
Qed.

End Start.

(** ** The plan *)

(** [N host due] items of a device, all of them or the due ones.  CEIL(COUNT/divisor) is
    rounded up. *)
Definition ceil_div (n d : Z) : Z := (n + d - 1) / d.
Definition counts {W} (N : Z → bool → Z) (count_items : W → Z → Z → bool → outcome (Z * W)) : Prop :=
  ∀ w host div due, ∃ w', count_items w host div due = Ok ((if 1 <? div then ceil_div (N host due) div else N host due), w').

Section Plan.
Context (set : config_t) (N : Z → bool → Z).
Let due := negb (active_profiles set =? 1).

Definition device_threads (host requested : Z) : Z :=
  if ping_only set then 1
  else if negb (N host due =? 0) && (N host due <? requested) then N host due else requested.
Definition device_items (host requested : Z) : Z :=
  let t := device_threads host requested in if 1 <? t then ceil_div (N host due) t else N host true.

Definition signature (d : poller_thread_t) : nat * Z * Z * Z * Z :=
  (device_counter d, pt_host_id d, host_thread d, pt_host_threads d, host_data_ids d).

(** The workers of device [i] from its thread [k + 1] on. *)
Definition device_plan (i : nat) (host requested : Z) (k : nat) : list (nat * Z * Z * Z * Z) :=
  map (fun j => (i, host, Z.of_nat j, device_threads host requested, device_items host requested))
      (seq (S k) (Z.to_nat (device_threads host requested) - k)).
Fixpoint launch_plan (i : nat) (devices : list (Z * Z)) : list (nat * Z * Z * Z * Z) :=
  match devices with
  | [] => []
  | (host, requested) :: devices' => device_plan i host requested 0 ++ launch_plan (S i) devices'
  end.

(** The devices of the result rows. *)
Definition row_device (row : row_t) : option (Z * Z) :=
  match column row 0, column row 1 with Some id, Some n => Some (atoi id, Z.max 1 (atoi n)) | _, _ => None end.

Lemma device_threads_pos host r (HN : 0 ≤ N host due) : 1 ≤ r → 1 ≤ device_threads host r.
Proof. unfold device_threads. destruct (ping_only set); [lia|]. destruct (Z.eqb_spec (N host due) 0), (N host due <? r); cbn; lia. Qed.

Lemma device_plan_step i host r k : (k < Z.to_nat (device_threads host r))%nat →
  device_plan i host r k =
  (i, host, Z.of_nat (S k), device_threads host r, device_items host r) :: device_plan i host r (S k).
Proof.
  intros Hk. unfold device_plan. destruct (Z.to_nat (device_threads host r) - k)%nat as [|m] eqn:Em; [lia|].
  cbn [seq map]. by replace (Z.to_nat (device_threads host r) - S k)%nat with m by lia.
Qed.
Lemma device_plan_end i host r : device_plan i host r (Z.to_nat (device_threads host r)) = [].
Proof. unfold device_plan. by rewrite Nat.sub_diag. Qed.

End Plan.

(** The launch loop over any environment: [good l w] holds while the workers of [l] are
    created and the next partition is due, [stopped l w] after a worker of the plan could not
    be started.  A client says how the calls of the loop keep them. *)
Section Loop.
Context {W : Type} `{WorkerEnv W} (set : config_t) (start_time : double) (N : Z → bool → Z).
Context (count_items : W → Z → Z → bool → outcome (Z * W)) (fuel : nat) (whole : list (nat * Z * Z * Z * Z)).
Context (good stopped : list (nat * Z * Z * Z * Z) → W → Prop).
Abbreviation threads_of := (device_threads set N).
Abbreviation items_of := (device_items set N).

Record launch_env : Prop := {
  count_good l w host div due : good l w →
    ∃ w', count_items w host div due = Ok ((if 1 <? div then ceil_div (N host due) div else N host due), w') ∧ good l w';
  time_good l w : good l w → good l (time_now w).2;
  clock_good l w : good l w → good l (clock w).2;
  start_good l w d k : good l w → l ++ [signature (with_thread k d)] `prefix_of` whole →
    ∃ started w', start_poll_worker set start_time fuel w d k = Some (started, w') ∧
      if started : bool then good (l ++ [signature (with_thread k d)]) w' else stopped l w' }.
Context (env : launch_env) (HN : ∀ host due, 0 ≤ N host due).

Lemma update_time_ok l w p : good l w →
  ∃ p' w', update_partition_time w p = Ok (p', w') ∧ p_threads p' = p_threads p ∧ p_items p' = p_items p ∧ good l w'.
Proof.
  intros Hg. unfold update_partition_time. pose proof (time_good env l w Hg) as H1. destruct (time_now w) as [t w1].
  rewrite QueriesFacts.spine_snprintf_ok.
  2:{ assert (length (udec (wrap_u 64 t)) ≤ 20)%nat; [apply (udec_length _ 19)|unfold slen, SMALL_BUFSIZE; lia].
      unfold wrap_u. pose proof (Z.mod_pos_bound t (2 ^ 64) ltac:(lia)). cbn. lia. }
  cbn [obind]. pose proof (clock_good env l w1 H1) as H2. destruct (clock w1) as [now w2]. by eexists _, _.
Qed.

Lemma prepare_first l w host p r : good l w → p_threads p = r → 1 ≤ r →
  ∃ p' w', prepare_device_partition set count_items w host 1 p = Ok (p', w') ∧
    p_threads p' = threads_of host r ∧ p_items p' = items_of host r ∧ good l w'.
Proof.
  intros Hg Hp Hr. unfold prepare_device_partition.
  assert (Hstep : ∃ p1 w1, (if ping_only set then Ok (set_threads 1 p, w)
    else let* (total_items, w0) := count_items w host 1 (negb (active_profiles set =? 1)) in
         Ok (if negb (total_items =? 0) && (total_items <? p_threads p) then set_threads total_items p else p, w0)) =
    Ok (p1, w1) ∧ p_threads p1 = threads_of host r ∧ good l w1).
  { unfold device_threads. destruct (ping_only set); [by eexists _, _|].
    destruct (count_good env l w host 1 (negb (active_profiles set =? 1)) Hg) as (w1 & -> & H1). cbn [obind]. change (1 <? 1) with false.
    cbv iota. rewrite Hp. eexists _, _. split; [done|]. split; [by destruct (_ && _)|done]. }
  destruct Hstep as (p1 & w1 & -> & Ht & H1). cbn [obind]. unfold device_items. rewrite <- Ht.
  destruct (1 <? p_threads p1) eqn:E1.
  - change (1 =? 1) with true. cbv iota.
    destruct (count_good env l w1 host (p_threads p1) (negb (active_profiles set =? 1)) H1) as (w2 & -> & H2). rewrite E1. cbn [obind].
    destruct (update_time_ok l w2 (set_count (ceil_div (N host (negb (active_profiles set =? 1))) (p_threads p1)) p1) H2) as (p2 & w3 & -> & ? & ? & ?).
    by exists p2, w3.
  - destruct (count_good env l w1 host 1 true H1) as (w2 & -> & H2). change (1 <? 1) with false. cbn [obind].
    destruct (update_time_ok l w2 (set_count (N host true) p1) H2) as (p2 & w3 & -> & ? & ? & ?). by exists p2, w3.
Qed.

Lemma prepare_next l w host p r k : good l w → p_threads p = threads_of host r → 1 < k ≤ threads_of host r →
  ∃ p' w', prepare_device_partition set count_items w host k p = Ok (p', w') ∧ p_threads p' = threads_of host r ∧ good l w'.
Proof.
  intros Hg Hp Hk. unfold prepare_device_partition.
  assert (Hstep : ∃ w1, (if ping_only set then Ok (set_threads 1 p, w)
    else let* (total_items, w0) := count_items w host 1 (negb (active_profiles set =? 1)) in
         Ok (if negb (total_items =? 0) && (total_items <? p_threads p) then set_threads total_items p else p, w0)) = Ok (p, w1) ∧ good l w1).
  { revert Hk. rewrite Hp. unfold device_threads. destruct (ping_only set); [lia|]. intros Hk.
    destruct (count_good env l w host 1 (negb (active_profiles set =? 1)) Hg) as (w1 & -> & H1). cbn [obind]. change (1 <? 1) with false. cbv iota.
    exists w1. split; [|done]. destruct (negb (N host _ =? 0) && (N host _ <? r)) eqn:Eb.
    - by rewrite Z.ltb_irrefl, andb_false_r.
    - by rewrite Eb. }
  destruct Hstep as (w1 & -> & H1). cbn [obind]. rewrite Hp. rewrite (proj2 (Z.ltb_lt _ _)) by lia. rewrite (proj2 (Z.eqb_neq k 1)) by lia.
  destruct (deq _ _); [|by exists p, w1]. destruct (update_time_ok l w1 p H1) as (p2 & w3 & -> & Ht & _ & ?). exists p2, w3. by rewrite Ht.
Qed.

(** The state in front of thread [k + 1] of device [i]. *)
Definition ready (st : launch_state) (i : nat) (host r : Z) (k : nat) (rows : list row_t) : Prop :=
  ls_device st = i ∧ (i < length (ls_details st))%nat ∧ ls_exit_failure st = false ∧ 1 ≤ r ∧ (k < Z.to_nat (threads_of host r))%nat ∧
  ∃ p, next_partition st = Some (p, Z.of_nat (S k), host, rows) ∧
    ((k = 0%nat ∧ p_threads p = r) ∨
     ((0 < k)%nat ∧ p_threads p = threads_of host r ∧
      ∃ d, ls_details st !! i = Some (Some d) ∧ ∀ j, signature (with_thread j d) = (i, host, j, threads_of host r, items_of host r))).

Lemma launch_step_ready l w st i host r k rows : let x := (i, host, Z.of_nat (S k), threads_of host r, items_of host r) in
  ready st i host r k rows → good l w → l ++ [x] `prefix_of` whole →
  ∃ st' stop w', launch_step set start_time count_items fuel w st = Ok (Some (st', stop, w')) ∧
    ls_exit_failure st' = stop ∧ length (ls_details st') = length (ls_details st) ∧
    if stop : bool then stopped l w'
    else good (l ++ [x]) w' ∧
         if decide (S k = Z.to_nat (threads_of host r)) then ls_device st' = S i ∧ ls_change st' = true ∧ ls_rows st' = rows
         else ready st' i host r (S k) rows.
Proof.
  intros x (Hi & Hlen & Hex & Hr & Hk & p & Hnext & Hcase) Hg Hpre. unfold launch_step. rewrite Hnext.
  assert (Hprep : ∃ p' w1, prepare_device_partition set count_items w host (Z.of_nat (S k)) p = Ok (p', w1) ∧ good l w1 ∧
            p_threads p' = threads_of host r ∧
            ∃ d, (if Z.of_nat (S k) =? 1 then <[ls_device st := Some (new_details (ls_device st) host p')]> (ls_details st)
                  else ls_details st) !! ls_device st = Some (Some d) ∧
                 ∀ j, signature (with_thread j d) = (i, host, j, threads_of host r, items_of host r)).
  { destruct Hcase as [[-> Hp]|(Hk0 & Hp & d & Hd & Hsig)].
    - destruct (prepare_first l w host p r Hg Hp Hr) as (p' & w1 & HE & Ht & Hit & H1). exists p', w1. do 3 (split; [done|]).
      change (Z.of_nat 1 =? 1) with true. cbv iota. rewrite Hi. eexists. split; [by apply list_lookup_insert_eq|].
      intros j. unfold signature, with_thread, new_details. cbn. by rewrite Ht, Hit.
    - destruct (prepare_next l w host p r (Z.of_nat (S k)) Hg Hp ltac:(lia)) as (p' & w1 & HE & Ht & H1). exists p', w1. do 3 (split; [done|]).
      rewrite (proj2 (Z.eqb_neq (Z.of_nat (S k)) 1)) by lia. rewrite Hi. by exists d. }
  destruct Hprep as (p' & w1 & -> & H1 & Ht & d & Hd & Hsig). cbn [obind]. cbv zeta. rewrite Hd.
  destruct (start_good env l w1 d (Z.of_nat (S k)) H1) as (started & w2 & -> & Hres); [by rewrite Hsig|]. rewrite Hsig in Hres. fold x in Hres.
  eexists _, (negb started), w2. split; [done|]. cbn [ls_exit_failure ls_details]. split; [by rewrite Hex|].
  split; [destruct (_ =? 1); [apply length_insert|done]|]. destruct started; cbn [negb]; [|done].
  split; [done|]. rewrite Ht. cbn [andb ls_device ls_change ls_rows].
  destruct (decide (S k = Z.to_nat (threads_of host r))) as [Hlast|Hlast].
  - rewrite (proj2 (Z.leb_le _ _)) by lia. by rewrite Hi.
  - rewrite (proj2 (Z.leb_gt _ _)) by lia. unfold ready. cbn [ls_device ls_exit_failure ls_details]. split; [done|].
    split; [destruct (_ =? 1); [by rewrite length_insert|done]|]. split; [by rewrite Hex|]. split; [done|]. split; [lia|].
    eexists. unfold next_partition. cbn [ls_change ls_partition ls_thread ls_host ls_rows]. replace (Z.of_nat (S (S k))) with (Z.of_nat (S k) + 1) by lia. split; [done|].
    right. split; [lia|]. split; [done|]. rewrite Hi in Hd |- *. by exists d.
Qed.

Lemma ready_row st i row rows host r : ls_change st = true → ls_rows st = row :: rows → row_device row = Some (host, r) →
  ls_device st = i → (i < length (ls_details st))%nat → ls_exit_failure st = false → ready st i host r 0 rows.
Proof.
  intros Hch Hrows Hrow Hi Hlen Hex. unfold row_device in Hrow. destruct (column row 0) as [id|] eqn:E0; [|done].
  destruct (column row 1) as [n|] eqn:E1; [|done]. injection Hrow as <- <-.
  pose proof (device_threads_pos set N (atoi id) (Z.max 1 (atoi n)) (HN _ _) ltac:(lia)).
  split_and!; try done; try lia. eexists. unfold next_partition. rewrite Hch, Hrows, E0, E1. split; [done|]. by left.
Qed.

(** How a launch ends. *)
Definition launched (st : launch_state) (w : W) : Prop :=
  if ls_exit_failure st then ∃ l, l `prefix_of` whole ∧ (length l < length whole)%nat ∧ stopped l w else good whole w.

Lemma launch_loop_ready turns : ∀ l w st i host r k rows devs,
  ready st i host r k rows → Forall2 (fun row d => row_device row = Some d) rows devs →
  length (ls_details st) = (S i + length rows)%nat → good l w →
  whole = l ++ device_plan set N i host r k ++ launch_plan set N (S i) devs →
  (length (device_plan set N i host r k ++ launch_plan set N (S i) devs) ≤ turns)%nat →
  ∃ st' w', launch_loop set start_time count_items turns fuel w (S i + length rows) st = Ok (Some (st', w')) ∧ launched st' w'.
Proof.
  induction turns as [|n IH]; intros l w st i host r k rows devs Hrd Hrows Hlen Hg Hw Hturns.
  { destruct Hrd as (_ & _ & _ & _ & Hk & _). rewrite (device_plan_step set N i host r k Hk) in Hturns. cbn in Hturns. lia. }
  pose proof Hrd as (Hi & _ & _ & _ & Hk & _). rewrite (device_plan_step set N i host r k Hk) in Hturns, Hw. cbn [app length] in Hturns, Hw.
  cbn [launch_loop]. rewrite Hi. rewrite (proj2 (Nat.leb_gt _ _)) by lia. set (x := (i, host, Z.of_nat (S k), _, _)) in *.
  assert (Hpre : l ++ [x] `prefix_of` whole) by (rewrite Hw; apply prefix_app, (prefix_app_r [x] [x] _), reflexivity).
  destruct (launch_step_ready l w st i host r k rows Hrd Hg Hpre) as (st1 & stop & w1 & -> & Hex & Hl1 & Hres). cbn [obind].
  destruct stop.
  { eexists _, _. split; [done|]. unfold launched. rewrite Hex. exists l. split_and!; [by rewrite Hw; apply prefix_app_r|rewrite Hw, length_app; cbn; lia|done]. }
  destruct Hres as [Hg1 Hnext]. rewrite (cons_middle x), app_assoc in Hw.
  destruct (decide (S k = Z.to_nat (threads_of host r))) as [Hlast|Hlast].
  - destruct Hnext as (Hd1 & Hc1 & Hr1). assert (Hend : device_plan set N i host r (S k) = []) by (by rewrite Hlast, device_plan_end).
    rewrite Hend in Hturns, Hw. cbn [app] in Hturns, Hw. destruct Hrows as [|row [host' r'] rows devs Hrow Hrows].
    + exists st1, w1. cbn [launch_plan] in Hw. rewrite app_nil_r in Hw. split; [|unfold launched; by rewrite Hex, Hw].
      destruct n; cbn [launch_loop]; rewrite Hd1; cbn [length]; by rewrite (proj2 (Nat.leb_le _ _)) by lia.
    + cbn [length] in *. replace (S i + S (length rows))%nat with (S (S i) + length rows)%nat in * by lia.
      apply (IH (l ++ [x]) w1 st1 (S i) host' r' 0%nat rows devs); try done.
      * apply (ready_row st1 (S i) row); try done. rewrite Hl1, Hlen. lia.
      * by rewrite Hl1, Hlen.
      * cbn [launch_plan] in Hturns. lia.
  - apply (IH (l ++ [x]) w1 st1 i host r (S k) rows devs); try done; [by rewrite Hl1|lia].
Qed.

Lemma launch_ready turns w rows devs :
  let dev0 := (poller_id set =? 1) && has_device_0 set in
  whole = launch_plan set N 0 (if dev0 then (0, 1) :: devs else devs) →
  Forall2 (fun row d => row_device row = Some d) rows devs → Z.of_nat (length rows) < INT_MAX → (length whole ≤ turns)%nat → good [] w →
  ∃ st w', launch_poll_workers set start_time count_items turns fuel w rows = Ok (Some (st, w')) ∧ launched st w'.
Proof.
  intros dev0 Hwhole Hrows Hn Hturns Hg. unfold launch_poll_workers, worker_rows, spine_count_to_int. fold dev0.
  rewrite (proj2 (Z.ltb_ge INT_MAX _)) by (destruct dev0; lia). cbn [obind].
  set (st0 := {| ls_partition := _ |}). destruct dev0 eqn:Ed0.
  - replace (Z.to_nat (Z.of_nat (length rows) + 1)) with (S 0 + length rows)%nat by lia.
    apply (launch_loop_ready turns [] w st0 0 0 1 0 rows devs); try done.
    + unfold ready, st0. cbn [ls_device ls_details ls_exit_failure]. rewrite length_replicate.
      pose proof (device_threads_pos set N 0 1 (HN _ _) ltac:(lia)). split_and!; try done; try lia.
      eexists. split; [reflexivity|]. by left.
    + unfold st0. cbn [ls_details]. rewrite length_replicate. lia.
    + by rewrite Hwhole in Hturns.
  - rewrite Z.add_0_r, Nat2Z.id. destruct Hrows as [|row [host r] rows devs' Hrow Hrows].
    + eexists st0, w. split; [by destruct turns|]. unfold launched. cbn. by rewrite Hwhole.
    + apply (launch_loop_ready turns [] w st0 0 host r 0 rows devs'); try done.
      * apply (ready_row st0 0 row rows); try done. unfold st0. cbn [ls_details]. rewrite length_replicate. cbn [length]. lia.
      * unfold st0. cbn [ls_details]. rewrite length_replicate. cbn [length]. lia.
      * by rewrite Hwhole in Hturns.
Qed.

End Loop.

(** ** The ledger of a launch *)

Section Ledger.
Context {W : Type} (E : WorkerEnv W) (set : config_t) (start_time : double) (N : Z → bool → Z).
Context (count_items : W → Z → Z → bool → outcome (Z * W)) (fuel : nat) (whole : list (nat * Z * Z * Z * Z)).
Context (Hcount : counts N count_items) (Hwait : waits_end E set start_time fuel).

(** The workers of [l] are in the ledger, with both permits for each. *)
Definition booked (l : list (nat * Z * Z * Z * Z)) (x : W * ledger) : Prop :=
  map signature (created x.2) = l ∧ ∀ p, net x.2 p = Z.of_nat (length l).

Lemma ledger_env : launch_env (H := recorded E) set start_time N (lift_count count_items) fuel whole booked booked.
Proof.
  split.
  - intros l [w L] host div due Hg. destruct (Hcount w host div due) as [w' Hc]. exists (w', L). unfold lift_count. by rewrite Hc.
  - intros l [w L] Hg. cbn. by destruct (time_now w).
  - intros l [w L] Hg. cbn. by destruct (clock w).
  - intros l [w L] d k [Hl Hn] _. destruct (start_recorded E set start_time fuel w L d k Hwait) as (started & w' & L' & -> & Hs).
    eexists _, _. split; [done|]. destruct started, Hs as [Hc Hn']; split; cbn [snd] in *.
    + rewrite Hc. cbn. by rewrite map_app, Hl.
    + intros p. rewrite Hn', length_app. cbn. destruct p; cbn; rewrite Hn; lia.
    + by rewrite Hc.
    + intros p. by rewrite Hn'.
Qed.
End Ledger.

(** ** The windows *)

Section Windows.
Context (set : config_t) (N : Z → bool → Z) (HN : ∀ host due, 0 ≤ N host due).

Lemma elem_of_plan x devs : ∀ i, x ∈ launch_plan set N i devs ↔
  ∃ j host r k, devs !! j = Some (host, r) ∧ (1 ≤ k ≤ Z.to_nat (device_threads set N host r))%nat ∧
    x = ((i + j)%nat, host, Z.of_nat k, device_threads set N host r, device_items set N host r).
Proof.
  induction devs as [|[host r] devs IH]; intros i; cbn [launch_plan].
  { split; [by intros ?%not_elem_of_nil|]. by intros (j & ? & ? & ? & Hj & _). }
  rewrite elem_of_app, IH. unfold device_plan. rewrite list_elem_of_In, in_map_iff. split.
  - intros [(k & <- & Hk%in_seq)|(j & h & r' & k & Hj & Hk & ->)].
    + exists 0%nat, host, r, k. rewrite Nat.add_0_r. split_and!; try done; lia.
    + exists (S j), h, r', k. replace (i + S j)%nat with (S i + j)%nat by lia. done.
  - intros ([|j] & h & r' & k & Hj & Hk & ->); cbn in Hj.
    + injection Hj as -> ->. left. exists k. rewrite Nat.add_0_r. split; [done|]. apply in_seq. lia.
    + right. exists j, h, r', k. replace (i + S j)%nat with (S i + j)%nat by lia. done.
Qed.

Lemma plan_nodup devs : ∀ i, NoDup (launch_plan set N i devs).
Proof.
  induction devs as [|[host r] devs IH]; intros i; cbn [launch_plan]; [by apply base.NoDup_nil_2|].
  apply list.NoDup_app. split_and!.
  - unfold device_plan. apply (NoDup_fmap_2_strong _ _); [|apply NoDup_ListNoDup, seq_NoDup].
    intros a b _ _ [= Hab]. lia.
  - intros x Hx Hy. unfold device_plan in Hx. apply list_elem_of_In, in_map_iff in Hx as (k & <- & _).
    apply elem_of_plan in Hy as (j & h & r' & k' & _ & _ & [= Hi _ _ _ _]). lia.
  - apply IH.
Qed.

(** The rows of [poller_item] a worker's query returns, by their position. *)
Definition selects (d : poller_thread_t) (x : Z) : Prop :=
  match item_window d with Some (offset, n) => offset ≤ x < offset + n | None => True end.

Lemma window_unique d host r i x : active_profiles set ≠ 1 → 1 ≤ r → 0 ≤ x < N host true →
  signature d = (i, host, host_thread d, device_threads set N host r, device_items set N host r) →
  1 ≤ host_thread d ≤ device_threads set N host r →
  selects d x ↔ host_thread d = x / Z.max 1 (device_items set N host r) + 1.
Proof.
  intros Hp Hr Hx Hs Hk. assert (Hids : host_data_ids d = device_items set N host r) by (unfold signature in Hs; congruence).
  clear Hs. unfold selects, item_window.
  assert (Hpos : 0 < host_data_ids d).
  { rewrite Hids. unfold device_items. rewrite (proj2 (Z.eqb_neq _ _) Hp). cbn [negb].
    destruct (Z.ltb_spec 1 (device_threads set N host r)); [|lia]. unfold ceil_div. apply Z.div_str_pos. lia. }
  rewrite (proj2 (Z.ltb_lt _ _) Hpos). rewrite Z.max_r by lia. rewrite <- Hids. set (c := host_data_ids d) in *.
  pose proof (Z.div_mod x c ltac:(lia)). pose proof (Z.mod_pos_bound x c ltac:(lia)). nia.
Qed.

Lemma window_exists host r x : active_profiles set ≠ 1 → 1 ≤ r → 0 ≤ x < N host true →
  1 ≤ x / Z.max 1 (device_items set N host r) + 1 ≤ device_threads set N host r.
Proof.
  intros Hp Hr Hx. pose proof (device_threads_pos set N host r (HN _ _) Hr) as Ht. unfold device_items.
  rewrite (proj2 (Z.eqb_neq _ _) Hp). cbn [negb]. set (t := device_threads set N host r) in *.
  destruct (Z.ltb_spec 1 t).
  - set (c := ceil_div (N host true) t). assert (Hc : N host true ≤ c * t).
    { unfold c, ceil_div. pose proof (Z.div_mod (N host true + t - 1) t ltac:(lia)).
      pose proof (Z.mod_pos_bound (N host true + t - 1) t ltac:(lia)). nia. }
    assert (0 < c) by nia. rewrite Z.max_r by lia. pose proof (Z.div_pos x c ltac:(lia) ltac:(lia)).
    assert (x / c < t) by (apply Z.div_lt_upper_bound; nia). lia.
  - rewrite Z.max_r by lia. rewrite Z.div_small by lia. lia.
Qed.

End Windows.

End WorkersFacts.
Import WorkersFacts.

(** * Properties *)

(** C1: a launch that does not fail gives every due item of every device to exactly one worker
    (when there is not a single profile), and no launch loses a permit.  With a database that counts the items of each device consistently, and
    waits that end (a permit comes free or the deadline passes): launching returns; the
    workers created are, in order, a prefix of the plan - for each device (first device 0
    if this poller has it) one worker per partition, numbered from 1, where the number of
    partitions is the configured one cut to the number of items; both permits are held
    exactly once per worker created; and unless the exit code is EXIT_FAILURE all of the
    plan was created and, under several profiles, each due item falls in the LIMIT window
    of exactly one worker of its device. *)
Theorem launch_covers_items {W} (E : WorkerEnv W) (set : config_t) (start_time : double) (N : Z → bool → Z)
  (count_items : W → Z → Z → bool → outcome (Z * W)) (turns fuel : nat) (w : W) (rows : list row_t) (devs : list (Z * Z))
  (Hcount : counts N count_items) (HN : ∀ host due, 0 ≤ N host due) (Hwait : waits_end E set start_time fuel)
  (Hrows : Forall2 (fun row d => row_device row = Some d) rows devs) (Hn : Z.of_nat (length rows) < INT_MAX) :
  let devices := if (poller_id set =? 1) && has_device_0 set then (0, 1) :: devs else devs in
  (length (launch_plan set N 0 devices) ≤ turns)%nat →
  ∃ st w' L, Workers.launch_poll_workers (H := recorded E) set start_time (lift_count count_items) turns fuel
               (w, {| created := []; net := fun _ => 0 |}) rows = Ok (Some (st, (w', L))) ∧
    map signature (created L) `prefix_of` launch_plan set N 0 devices ∧ NoDup (map signature (created L)) ∧
    (∀ p, net L p = Z.of_nat (length (created L))) ∧
    (Workers.ls_exit_failure st = false →
     map signature (created L) = launch_plan set N 0 devices ∧
     (active_profiles set ≠ 1 → ∀ i host r x, devices !! i = Some (host, r) → 0 ≤ x < N host true →
      (∃ d, d ∈ created L ∧ device_counter d = i ∧ selects d x) ∧
      ∀ d d', d ∈ created L → d' ∈ created L → device_counter d = i → device_counter d' = i →
              selects d x → selects d' x → host_thread d = host_thread d')).
Proof.
  intros devices Hturns. set (whole := launch_plan set N 0 devices) in *.
  destruct (launch_ready (H := recorded E) set start_time N (lift_count count_items) fuel whole booked booked
    (ledger_env E set start_time N count_items fuel whole Hcount Hwait) HN turns (w, {| created := []; net := fun _ => 0 |}) rows devs
    eq_refl Hrows Hn Hturns (conj eq_refl (fun _ => eq_refl))) as (st & [w' L] & HE & HL).
  assert (HB : ∃ l, l `prefix_of` whole ∧ booked l (w', L) ∧ (Workers.ls_exit_failure st = false → l = whole)).
  { unfold launched in HL. destruct (Workers.ls_exit_failure st); [destruct HL as (l & ? & _ & ?); by exists l|by exists whole]. }
  destruct HB as (l & Hpre & [Hl Hnet] & Hdone). cbn [snd] in Hl, Hnet.
  assert (Hlen : length l = length (created L)) by (by rewrite <- Hl, length_map). rewrite <- Hl in Hpre, Hdone. clear HL.
  exists st, w', L. split; [done|]. split; [done|]. split.
  { destruct Hpre as [l' Hl']. pose proof (plan_nodup set N devices 0) as Hnd. fold whole in Hnd. rewrite Hl' in Hnd. by apply list.NoDup_app in Hnd as [? _]. }
  split; [intros p; by rewrite Hnet, Hlen|]. intros Hex. specialize (Hdone Hex). subst whole. split; [done|]. intros Hp i host r x Hi Hx.
  assert (Hr : 1 ≤ r).
  { assert (Hall : Forall (fun d => 1 ≤ snd d) devices).
    { assert (Forall (fun d : Z * Z => 1 ≤ snd d) devs).
      { clear -Hrows. induction Hrows as [|row d rows devs Hrow _ IH]; constructor; [|done]. unfold row_device in Hrow.
        destruct (column row 0), (column row 1); try done. injection Hrow as <-. cbn. lia. }
      unfold devices. destruct (_ && _); [constructor; [cbn; lia|done]|done]. }
    rewrite Forall_lookup in Hall. exact (Hall i (host, r) Hi). }
  assert (Hsig : ∀ d, d ∈ created L → device_counter d = i →
    signature d = (i, host, host_thread d, device_threads set N host r, device_items set N host r) ∧
    1 ≤ host_thread d ≤ device_threads set N host r).
  { intros d Hd Hdi. assert (Hin : signature d ∈ launch_plan set N 0 devices) by (rewrite <- Hdone; by apply list_elem_of_fmap_2).
    apply elem_of_plan in Hin as (j & h & r' & k & Hj & Hk & Hs). injection Hs as H1 H2 H3 H4 H5.
    assert (Hji : j = i) by congruence. rewrite Hji in Hj. pose proof (eq_trans (eq_sym Hi) Hj) as Heq. injection Heq as <- <-.
    unfold signature. rewrite Hdi, H2, H4, H5, H3. split; [done|]. lia. }
  split.
  - pose proof (window_exists set N HN host r x Hp Hr Hx) as Hw. set (k := x / _ + 1) in Hw.
    assert (Hin : (i, host, k, device_threads set N host r, device_items set N host r) ∈ map signature (created L)).
    { rewrite Hdone. apply elem_of_plan. exists i, host, r, (Z.to_nat k). rewrite Z2Nat.id by lia. split_and!; try done; lia. }
    apply list_elem_of_fmap in Hin as (d & Hs & Hd). exists d. assert (Hdi : device_counter d = i) by (unfold signature in Hs; congruence).
    destruct (Hsig d Hd Hdi) as [Hs' Hk]. split_and!; try done. apply (window_unique set N d host r i x Hp Hr Hx Hs' Hk).
    unfold signature in Hs. fold k. congruence.
  - intros d d' Hd Hd' Hdi Hdi' Hx1 Hx2. destruct (Hsig d Hd Hdi) as [Hs1 Hk1]. destruct (Hsig d' Hd' Hdi') as [Hs2 Hk2].
    apply (window_unique set N d host r i x Hp Hr Hx Hs1 Hk1) in Hx1.
    apply (window_unique set N d' host r i x Hp Hr Hx Hs2 Hk2) in Hx2. congruence.
Qed.

(** An environment that grants every permit and starts every thread, and a database that
    counts 10 items for every device. *)
Definition granting : WorkerEnv Z := {|
  permits_try_acquire w _ := (0, w); permits_release w _ := w; clock w := (of_int w, w + 1); pause w _ := w;
  time_now w := (1700000000, w); pthread_create w _ := (0, w) |}.
Definition ten_items (w host div : Z) (due : bool) : outcome (Z * Z) := Ok ((if 1 <? div then ceil_div 10 div else 10), w).
Definition two_profile_config : config_t := example_config 2 true.

Lemma launch_covers_items_witness :
  ∃ st w L, Workers.launch_poll_workers (H := recorded granting) two_profile_config dzero (lift_count ten_items) 5 1
              (0, {| created := []; net := fun _ => 0 |}) [[Some ($"7"); Some ($"4")]] = Ok (Some (st, (w, L))) ∧
    map signature (created L) = [(0%nat, 0, 1, 1, 10); (1%nat, 7, 1, 4, 3); (1%nat, 7, 2, 4, 3); (1%nat, 7, 3, 4, 3); (1%nat, 7, 4, 4, 3)] ∧
    ∃ d, d ∈ created L ∧ device_counter d = 1%nat ∧ selects d 8.
Proof.
  destruct (launch_covers_items granting two_profile_config dzero (fun _ _ => 10) ten_items 5 1 0 [[Some ($"7"); Some ($"4")]] [(7, 4)])
    as (st & w & L & E & _ & _ & _ & Hdone).
  - intros w host div due. eexists. reflexivity.
  - done.
  - split; [intros w p r|intros w d]; discriminate.
  - constructor; [by vm_compute|constructor].
  - done.
  - by vm_compute; lia.
  - exists st, w, L. split; [exact E|].
    assert (Hex : Workers.ls_exit_failure st = false) by (vm_compute in E; injection E as <- <- <-; reflexivity).
    destruct (Hdone Hex) as [Hp Hcov]. split; [rewrite Hp; reflexivity|].
    apply (Hcov ltac:(done) 1%nat 7 4 8); [reflexivity|lia].
Defined.

(** With a single profile, a device polled by one thread can lose items for good.
    [prepare_device_partition] counts only the items with rrd_next_step <= 0 when the
    device has one partition, even when there is one profile; but with one profile the
    items are selected without that condition and the schedule is never advanced.  A
    device of 10 items of which 3 still have a positive rrd_next_step gets one worker
    with LIMIT 0, 7: positions 7 to 9 of the selection are polled by no worker. *)
Theorem single_profile_undercount :
  let set := example_config 1 false in
  let N := fun (_ : Z) (due : bool) => if due then 7 else 10 in
  let count_items := fun (w host div : Z) (due : bool) => Ok ((if 1 <? div then ceil_div (N host due) div else N host due), w) in
  ∃ st w L, Workers.launch_poll_workers (H := recorded granting) set dzero (lift_count count_items) 1 1
              (0, {| created := []; net := fun _ => 0 |}) [[Some ($"7"); Some ($"1")]] = Ok (Some (st, (w, L))) ∧
    Workers.ls_exit_failure st = false ∧ map Workers.item_window (created L) = [Some (0, 7)] ∧
    ∀ x, 7 ≤ x < N 7 false → ¬ ∃ d, d ∈ created L ∧ selects d x.
Proof.
  intros set N count_items. eexists _, _, _. split; [vm_compute; reflexivity|]. split; [reflexivity|]. split; [reflexivity|].
  intros x Hx (d & Hd & Hs). apply list_elem_of_In in Hd as [<-|[]]. cbn in Hx, Hs. unfold selects in Hs. cbn in Hs. lia.
Qed.
