(* ===== verification/Lifecycle.v ===== *)
(** The life of the polling threads: [child] and its cleanup in src/src/poller/poller.c,
    the permits around [start_poll_worker] and [wait_for_workers] in
    src/src/poller/workers.c, and the order in which src/src/app/runtime.c launches the
    workers, waits for them and frees what they share.

    The main thread and the workers are one transition system: a step is one operation on
    a permit counter (each of them runs under the counter's mutex), the creation of a
    thread, or the end of the process.  Between two steps every thread is at the program
    point its [mpc] or [wpc] names, so a sequence of events is an interleaving.  What a
    worker does between its two permit operations is [poll_host]; here it is the time it
    spends at [Polling]. *)

From S2P Require Import Prelude CLib Buffer Settings Pool Workers.
Import Permits.

Module Lifecycle.

(** The main thread: about to acquire a permit or to stop launching; with the thread
    permit; with both permits; undoing a failed creation with the startup permit already
    returned; in [wait_for_workers]; past it, free to release shared state; gone. *)
Inductive mpc := Launching | GotThread | GotBoth | Undoing | Waiting | CleaningUp | Exited.
(** A worker: created, with the startup permit still taken on its behalf; or polling. *)
Inductive wpc := Started | Polling.
#[global] Instance mpc_eq_dec : EqDecision mpc.
Proof. solve_decision. Defined.
#[global] Instance wpc_eq_dec : EqDecision wpc.
Proof. solve_decision. Defined.

Record lstate := {
  l_threads : Z;                    (* available_threads.available *)
  l_startup : Z;                    (* thread_init_sem.available *)
  l_main : mpc;
  l_workers : list (nat * wpc) }.

Inductive event :=
| ETryThread | ETryStartup             (* spine_permits_try_acquire *)
| EGiveUp                              (* the interval is over, or no device is left *)
| ECreate (t : nat) | ECreateFails     (* pthread_create *)
| EReleaseThread                       (* the second release of a failed creation *)
| ECheck (expired : bool)              (* one turn of wait_for_workers *)
| EChildStarts (t : nat)               (* child: releases the startup permit *)
| EChildEnds (t : nat)                 (* child_cleanup_thread: releases the thread permit *)
| EDies.                               (* die() in any thread *)

Definition with_main (m : mpc) (s : lstate) : lstate :=
  {| l_threads := l_threads s; l_startup := l_startup s; l_main := m; l_workers := l_workers s |}.
Definition with_permits (threads startup : Z) (s : lstate) : lstate :=
  {| l_threads := threads; l_startup := startup; l_main := l_main s; l_workers := l_workers s |}.
Definition with_workers (l : list (nat * wpc)) (s : lstate) : lstate :=
  {| l_threads := l_threads s; l_startup := l_startup s; l_main := l_main s; l_workers := l |}.

Fixpoint worker_of (t : nat) (l : list (nat * wpc)) : option wpc :=
  match l with [] => None | (u, p) :: l' => if Nat.eqb u t then Some p else worker_of t l' end.
Fixpoint set_worker (t : nat) (p : wpc) (l : list (nat * wpc)) : list (nat * wpc) :=
  match l with [] => [] | (u, q) :: l' => if Nat.eqb u t then (u, p) :: l' else (u, q) :: set_worker t p l' end.
Fixpoint drop_worker (t : nat) (l : list (nat * wpc)) : list (nat * wpc) :=
  match l with [] => [] | (u, q) :: l' => if Nat.eqb u t then l' else (u, q) :: drop_worker t l' end.

(** [child] up to [poll_host]. *)
Definition child_starts (t : nat) (s : lstate) : lstate :=
  with_workers (set_worker t Polling (l_workers s)) (with_permits (l_threads s) (snd (spine_permits_release (l_startup s))) s).
(** [child_cleanup]: the last thing a worker does is to release its thread permit. *)
Definition child_cleanup (t : nat) (s : lstate) : lstate :=
  with_workers (drop_worker t (l_workers s)) (with_permits (snd (spine_permits_release (l_threads s))) (l_startup s) s).

(** One turn of [wait_for_workers]. *)
Definition wait_turn (threads : Z) (expired : bool) (s : lstate) : lstate :=
  if spine_permits_available (l_threads s) <? threads then
    if expired then with_main Exited s else s
  else with_main CleaningUp s.

(** [threads] is set.poller.threads. *)
Definition lstep (threads : Z) (s : lstate) (e : event) : option lstate :=
  match e, l_main s with
  | _, Exited => None
  | EDies, _ => Some (with_main Exited s)
  | ETryThread, Launching =>
      let '(error, n) := spine_permits_try_acquire (l_threads s) in
      Some (with_main (if error =? 0 then GotThread else Launching) (with_permits n (l_startup s) s))
  | ETryStartup, GotThread =>
      let '(error, n) := spine_permits_try_acquire (l_startup s) in
      Some (with_main (if error =? 0 then GotBoth else GotThread) (with_permits (l_threads s) n s))
  | EGiveUp, Launching => Some (with_main Waiting s)
  | EGiveUp, GotThread => Some (with_main Waiting (with_permits (snd (spine_permits_release (l_threads s))) (l_startup s) s))
  | ECreate t, GotBoth =>
      match worker_of t (l_workers s) with
      | None => Some (with_main Launching (with_workers ((t, Started) :: l_workers s) s))
      | Some _ => None
      end
  | ECreateFails, GotBoth => Some (with_main Undoing (with_permits (l_threads s) (snd (spine_permits_release (l_startup s))) s))
  | EReleaseThread, Undoing => Some (with_main Waiting (with_permits (snd (spine_permits_release (l_threads s))) (l_startup s) s))
  | ECheck expired, Waiting => Some (wait_turn threads expired s)
  | EChildStarts t, _ =>
      match worker_of t (l_workers s) with Some Started => Some (child_starts t s) | _ => None end
  | EChildEnds t, _ =>
      match worker_of t (l_workers s) with Some Polling => Some (child_cleanup t s) | _ => None end
  | _, _ => None
  end.

(** [spine_permits_init(&available_threads, threads)] and one startup permit; a negative
    count makes the program die before. *)
Definition linit (threads : Z) : option lstate :=
  match snd (spine_permits_init threads), snd (spine_permits_init 1) with
  | Some n, Some k => Some {| l_threads := n; l_startup := k; l_main := Launching; l_workers := [] |}
  | _, _ => None
  end.

Inductive lreachable (threads : Z) : lstate → Prop :=
| lreach_init s : linit threads = Some s → lreachable threads s
| lreach_step s e s' : lreachable threads s → lstep threads s e = Some s' → lreachable threads s'.

Fixpoint lrun (threads : Z) (s : lstate) (es : list event) : option lstate :=
  match es with [] => Some s | e :: es' => s' ← lstep threads s e; lrun threads s' es' end.

(** [wait_for_workers] as the main thread runs it, with the counter and the clock as the
    world shows them; [None] when the fuel runs out, [Died] at the deadline. *)
Fixpoint wait_for_workers {W} `{WorkerEnv W} (available : W → Z * W) (set : config_t) (fuel : nat) (w : W) (begin_time : double) :
    option (outcome (Z * W)) :=
  match fuel with
  | O => None
  | S f =>
      let '(a_threads_value, w) := available w in
      if a_threads_value <? threads set then
        let '(cur_time, w) := clock w in
        if dlt (of_int (poller_interval set)) (dsub cur_time begin_time) then Some (Died EXIT_FAILURE)
        else wait_for_workers available set f (pause w 500000) begin_time
      else Some (Ok (a_threads_value, w))
  end.

End Lifecycle.

(** * Lemmas *)

Module LifecycleFacts.
Import Lifecycle.

Definition held_threads (m : mpc) : Z := match m with GotThread | GotBoth | Undoing => 1 | _ => 0 end.
Definition held_startup (m : mpc) : Z := match m with GotBoth => 1 | _ => 0 end.
Definition starting (l : list (nat * wpc)) : Z := Z.of_nat (length (filter (fun x => snd x = Started) l)).

(** Every permit is free, with the main thread or with a worker. *)
Record balanced (n : Z) (s : lstate) : Prop := {
  b_threads : l_threads s + held_threads (l_main s) + Z.of_nat (length (l_workers s)) = n;
  b_startup : l_startup s + held_startup (l_main s) + starting (l_workers s) = 1;
  b_nonneg : 0 ≤ l_threads s ∧ 0 ≤ l_startup s;
  b_names : NoDup (map fst (l_workers s));
  b_clean : l_main s = CleaningUp → l_workers s = [] }.

Lemma worker_of_app t l p : worker_of t l = Some p →
  ∃ l1 l2, l = l1 ++ (t, p) :: l2 ∧ (∀ q, set_worker t q l = l1 ++ (t, q) :: l2) ∧ drop_worker t l = l1 ++ l2.
Proof.
  induction l as [|[u q] l IH]; cbn; [done|]. destruct (Nat.eqb_spec u t) as [->|Hu].
  - intros [= ->]. exists [], l. done.
  - intros (l1 & l2 & -> & Hs & Hd)%IH. exists ((u, q) :: l1), l2. cbn. split; [done|]. split; [intros x; by rewrite Hs|by rewrite Hd].
Qed.
Lemma worker_of_None t l : worker_of t l = None ↔ t ∉ map fst l.
Proof.
  induction l as [|[u q] l IH]; cbn; [split; [intros _; apply not_elem_of_nil|done]|]. rewrite not_elem_of_cons.
  destruct (Nat.eqb_spec u t) as [->|Hu]; [naive_solver|]. rewrite IH. naive_solver.
Qed.
Lemma starting_started t l : starting ((t, Started) :: l) = 1 + starting l.
Proof. unfold starting. rewrite filter_cons_True by done. cbn [length]. lia. Qed.
Lemma starting_polling t l : starting ((t, Polling) :: l) = starting l.
Proof. unfold starting. by rewrite filter_cons_False. Qed.
Lemma starting_app l1 l2 : starting (l1 ++ l2) = starting l1 + starting l2.
Proof. unfold starting. rewrite list.filter_app, length_app. lia. Qed.
Lemma starting_nonneg l : 0 ≤ starting l.
Proof. unfold starting. lia. Qed.

Lemma release_spec n : 0 ≤ n < INT_MAX → spine_permits_release n = (0, n + 1).
Proof. intros Hn. unfold spine_permits_release. by rewrite (proj2 (Z.ltb_lt _ _)) by lia. Qed.
Lemma try_acquire_spec n : 0 ≤ n → spine_permits_try_acquire n = if 0 <? n then (0, n - 1) else (EAGAIN, n).
Proof. done. Qed.

Lemma init_balanced n s : n ≤ INT_MAX → linit n = Some s → balanced n s.
Proof.
  intros Hn. unfold linit, spine_permits_init. destruct (Z.ltb_spec n 0); cbn; [done|]. intros [= <-].
  split; cbn; [lia|done|lia|constructor|done].
Qed.

(** A worker that starts or ends. *)
Lemma child_starts_balanced n t s :
  n ≤ INT_MAX → balanced n s → worker_of t (l_workers s) = Some Started → l_main s ≠ CleaningUp → balanced n (child_starts t s).
Proof.
  intros Hmax [Ht Hs [Hp1 Hp2] Hnd Hc] (l1 & l2 & E & Eset & _)%worker_of_app Hm. unfold child_starts.
  assert (Hu : 0 ≤ l_startup s < INT_MAX).
  { rewrite E, starting_app, starting_started in Hs. pose proof (starting_nonneg l1). pose proof (starting_nonneg l2).
    assert (0 ≤ held_startup (l_main s)) by (by destruct (l_main s)). unfold INT_MAX. lia. }
  rewrite release_spec by done. rewrite Eset. rewrite E in *.
  split; cbn [l_threads l_startup l_main l_workers with_workers with_permits snd].
  - rewrite length_app in *. cbn in *. lia.
  - rewrite starting_app, starting_started in Hs. rewrite starting_app, starting_polling. lia.
  - lia.
  - rewrite map_app in *. done.
  - done.
Qed.
Lemma child_cleanup_balanced n t s :
  n ≤ INT_MAX → balanced n s → worker_of t (l_workers s) = Some Polling → balanced n (child_cleanup t s).
Proof.
  intros Hmax [Ht Hs [Hp1 Hp2] Hnd Hc] (l1 & l2 & E & _ & Edrop)%worker_of_app. unfold child_cleanup.
  assert (Hu : 0 ≤ l_threads s < INT_MAX).
  { rewrite E, length_app in Ht. cbn in Ht. assert (0 ≤ held_threads (l_main s)) by (by destruct (l_main s)). lia. }
  rewrite release_spec by done. rewrite Edrop. rewrite E in *.
  split; cbn [l_threads l_startup l_main l_workers with_workers with_permits snd].
  - rewrite length_app in *. cbn in *. lia.
  - rewrite starting_app, starting_polling in Hs. rewrite starting_app. lia.
  - lia.
  - rewrite map_app in *. cbn in Hnd. apply list.NoDup_app in Hnd as (H1 & H2 & [_ H3]%list.NoDup_cons).
    apply list.NoDup_app. split; [done|]. split; [|done]. intros x Hx Hin. apply (H2 x Hx). by right.
  - intros Hm. specialize (Hc Hm). by destruct l1.
Qed.

(** A step of the main thread that leaves the workers alone. *)
Lemma main_balanced n s s' :
  balanced n s → l_workers s' = l_workers s →
  l_threads s' + held_threads (l_main s') = l_threads s + held_threads (l_main s) →
  l_startup s' + held_startup (l_main s') = l_startup s + held_startup (l_main s) →
  0 ≤ l_threads s' → 0 ≤ l_startup s' → (l_main s' = CleaningUp → l_workers s = []) → balanced n s'.
Proof. intros [] Hw H1 H2 H3 H4 H5. split; rewrite ?Hw; try done; lia. Qed.

Lemma step_balanced n s e s' : n ≤ INT_MAX → balanced n s → lstep n s e = Some s' → e ≠ EDies → balanced n s'.
Proof.
  intros Hmax Hb E He. pose proof Hb as [Ht Hs [Hp1 Hp2] Hnd Hc]. pose proof (starting_nonneg (l_workers s)) as Hst.
  assert (Hworker : ∀ t p, worker_of t (l_workers s) = Some p → l_main s ≠ CleaningUp).
  { intros t p Hw Hm. by rewrite (Hc Hm) in Hw. }
  destruct e as [| | |t| | |expired|t|t|].
  8:{ assert (E' : match worker_of t (l_workers s) with Some Started => Some (child_starts t s) | _ => None end = Some s')
        by (cbn in E; by destruct (l_main s)).
      destruct (worker_of t (l_workers s)) as [[]|] eqn:Ew; [|done..]. injection E' as <-. apply child_starts_balanced; eauto. }
  8:{ assert (E' : match worker_of t (l_workers s) with Some Polling => Some (child_cleanup t s) | _ => None end = Some s')
        by (cbn in E; by destruct (l_main s)).
      destruct (worker_of t (l_workers s)) as [[]|] eqn:Ew; [done| |done]. injection E' as <-. by apply child_cleanup_balanced. }
  all: destruct (l_main s) eqn:Em; cbn in E; rewrite ?Em in E; try done; cbn [held_threads held_startup] in *.
  - unfold spine_permits_try_acquire in E. destruct (Z.ltb_spec 0 (l_threads s)); injection E as <-;
      (eapply main_balanced; [exact Hb|..]; rewrite ?Em; cbn; done || lia).
  - unfold spine_permits_try_acquire in E. destruct (Z.ltb_spec 0 (l_startup s)); injection E as <-;
      (eapply main_balanced; [exact Hb|..]; rewrite ?Em; cbn; done || lia).
  - injection E as <-. eapply main_balanced; [exact Hb|..]; rewrite ?Em; cbn; done || lia.
  - rewrite release_spec in E by lia. injection E as <-. eapply main_balanced; [exact Hb|..]; rewrite ?Em; cbn; done || lia.
  - destruct (worker_of t (l_workers s)) eqn:Ew; [done|]. injection E as <-. apply worker_of_None in Ew.
    split; cbn; [lia|rewrite starting_started; lia|lia|by constructor|done].
  - rewrite release_spec in E by (unfold INT_MAX; lia). injection E as <-. eapply main_balanced; [exact Hb|..]; rewrite ?Em; cbn; done || lia.
  - rewrite release_spec in E by lia. injection E as <-. eapply main_balanced; [exact Hb|..]; rewrite ?Em; cbn; done || lia.
  - injection E as <-. unfold wait_turn, spine_permits_available. destruct (Z.ltb_spec (l_threads s) n) as [Hlt|Hge].
    + destruct expired; [|done]. eapply main_balanced; [exact Hb|..]; rewrite ?Em; cbn; done || lia.
    + eapply main_balanced; [exact Hb|..]; rewrite ?Em; cbn; try done; try lia. intros _.
      destruct (l_workers s); [done|]. cbn in Ht. lia.
Qed.

(** Until the process ends, the permits are accounted for. *)
Lemma reachable_balanced n s : n ≤ INT_MAX → lreachable n s → l_main s ≠ Exited → balanced n s.
Proof.
  intros Hn. induction 1 as [s Hi|s e s' Hr IH E]; intros Hm; [by apply init_balanced|].
  assert (Hs : l_main s ≠ Exited) by (intros Hs; destruct e; cbn in E; by rewrite Hs in E).
  eapply step_balanced; [done|by apply IH|done|]. intros ->. cbn in E. destruct (l_main s); simplify_eq; done.
Qed.

(** A worker can always take its next step. *)
Lemma some_worker_moves n s : l_main s ≠ Exited → l_workers s ≠ [] →
  ∃ t, is_Some (lstep n s (EChildStarts t)) ∨ is_Some (lstep n s (EChildEnds t)).
Proof.
  intros Hm Hw. destruct (l_workers s) as [|[t p] l] eqn:E; [done|]. exists t.
  assert (Ew : worker_of t (l_workers s) = Some p) by (rewrite E; cbn; by rewrite Nat.eqb_refl).
  cbn. rewrite Ew. destruct p; [left|right]; destruct (l_main s); eauto; done.
Qed.

Lemma lrun_reachable n es : ∀ s s', lreachable n s → lrun n s es = Some s' → lreachable n s'.
Proof.
  induction es as [|e es IH]; intros s s' Hr E; [by injection E as <-|]. cbn in E.
  apply bind_Some in E as (s1 & E1 & E). eapply IH; [|done]. by econstructor.
Qed.

(** [wait_for_workers] returns: [left] bounds how many readings of the clock are still
    before the deadline. *)
Section Wait.
Context {W} `{WorkerEnv W} (available : W → Z * W) (set : config_t) (begin_time : double) (left : W → nat).
Hypothesis available_left : ∀ w, (left (available w).2 ≤ left w)%nat.
Hypothesis pause_left : ∀ w n, (left (pause w n) ≤ left w)%nat.
Hypothesis clock_left : ∀ w,
  dlt (of_int (poller_interval set)) (dsub (clock w).1 begin_time) = true ∨ (left (clock w).2 < left w)%nat.

Theorem wait_for_workers_returns fuel : ∀ w, (left w < fuel)%nat →
  wait_for_workers available set fuel w begin_time = Some (Died EXIT_FAILURE) ∨
  ∃ n w', wait_for_workers available set fuel w begin_time = Some (Ok (n, w')) ∧ threads set ≤ n.
Proof.
  induction fuel as [|f IH]; intros w Hf; [lia|]. cbn [wait_for_workers].
  pose proof (available_left w) as Ha. destruct (available w) as [n w1]. cbn in Ha.
  destruct (Z.ltb_spec n (threads set)); [|right; eauto].
  pose proof (clock_left w1) as Hc. destruct (clock w1) as [now w2]. cbn [fst snd] in Hc.
  destruct (dlt _ _); [by left|]. destruct Hc as [?|Hc]; [done|].
  apply IH. pose proof (pause_left w2 500000). lia.
Qed.
End Wait.

End LifecycleFacts.
Import Lifecycle LifecycleFacts.

(** * Properties *)

(** C19: the shared state outlives the workers.  In every interleaving of the launching
    main thread, the workers and their permits: at most one worker is between its creation
    and its start, no more workers than permits are alive, no release is lost to overflow,
    and once the main thread is past [wait_for_workers] - where it closes the pools and
    frees what the workers use - no worker is left, unless the process has ended.  The
    main thread gets there: with every worker gone its next check succeeds, and while it
    waits for a permit or for the end of the workers, some worker can move on. *)
Theorem workers_end_first (n : Z) (s : lstate) (Hn : 0 < n ≤ INT_MAX) (Hreach : lreachable n s) (Hrunning : l_main s ≠ Exited) :
  starting (l_workers s) ≤ 1 ∧ Z.of_nat (length (l_workers s)) ≤ n ∧ 0 ≤ l_threads s ≤ n ∧ 0 ≤ l_startup s ≤ 1 ∧
  (l_main s = CleaningUp → l_workers s = []) ∧
  (l_main s = Waiting → l_workers s = [] → ∀ expired, lstep n s (ECheck expired) = Some (with_main CleaningUp s)) ∧
  (l_main s = Waiting ∧ l_workers s ≠ [] ∨ l_main s = Launching ∧ l_threads s = 0 ∨ l_main s = GotThread ∧ l_startup s = 0 →
   ∃ t, is_Some (lstep n s (EChildStarts t)) ∨ is_Some (lstep n s (EChildEnds t))).
Proof.
  destruct (reachable_balanced n s ltac:(lia) Hreach Hrunning) as [Ht Hs [Hp1 Hp2] Hnd Hc].
  assert (0 ≤ held_threads (l_main s)) by (by destruct (l_main s)). assert (0 ≤ held_startup (l_main s)) by (by destruct (l_main s)).
  pose proof (starting_nonneg (l_workers s)). split; [lia|]. split; [lia|]. split; [lia|]. split; [lia|]. split; [done|]. split.
  - intros Hm Hw ex. cbn. rewrite Hm. unfold wait_turn, spine_permits_available. rewrite Hm, Hw in Ht. cbn in Ht.
    by rewrite (proj2 (Z.ltb_ge _ _)) by lia.
  - intros Hcase. apply (some_worker_moves n); [done|]. intros Hw. rewrite Hw in *. unfold starting in Hs. cbn in *.
    destruct Hcase as [[_ ?]|[[Hm ?]|[Hm ?]]]; [done|rewrite Hm in *; cbn in *; lia..].
Qed.

(** Two workers on one startup permit; the first ends before the second is created. *)
Definition sample_schedule : list event :=
  [ETryThread; ETryStartup; ECreate 1; EChildStarts 1; ETryThread; ETryStartup; ECreate 2; EChildEnds 1; EGiveUp;
   ECheck false; EChildStarts 2; ECheck false; EChildEnds 2; ECheck true].

Lemma workers_end_first_witness :
  match linit 2 ≫= fun s => lrun 2 s sample_schedule with
  | Some s => l_main s = CleaningUp ∧ l_workers s = []
  | None => False
  end.
Proof.
  destruct (linit 2) as [s0|] eqn:E0; [|by vm_compute in E0]. cbn [mbind option_bind].
  destruct (lrun 2 s0 sample_schedule) as [s|] eqn:E; [|by vm_compute in E0; injection E0 as <-; vm_compute in E].
  assert (Hm : l_main s = CleaningUp) by (vm_compute in E0; injection E0 as <-; vm_compute in E; by injection E as <-).
  split; [done|].
  destruct (workers_end_first 2 s ltac:(unfold INT_MAX; lia) (lrun_reachable 2 _ _ _ (lreach_init 2 s0 E0) E) ltac:(by rewrite Hm))
    as (_ & _ & _ & _ & Hc & _). auto.
Defined.
