(* ===== verification/Runtime.v ===== *)
(** A whole run: the second half of [spine_run] (src/src/app/runtime.c) with the workers of
    src/src/poller/workers.c, and what the exit code says about it.

    The run is the composition of the life of the threads ([Lifecycle]), of one completion
    system per device ([Completion]) and of the end of the main thread.  The plan is what
    [launch_poll_workers] launches: for each device its number of partitions, in order.  A
    step is a step of one component together with what ties it to the others: a worker is
    created for the next partition of the plan, only a live worker moves its partition, and
    it ends when [poll_host] has returned. *)

From S2P Require Import Prelude CLib Buffer Result Settings Sql Pool Queries Persist Completion Workers Lifecycle.

Module Run.
Import Lifecycle.

(** The partitions of the devices, in the order of the launch. *)
Fixpoint plan_work (i : nat) (plan : list nat) : list (nat * nat) :=
  match plan with [] => [] | n :: plan' => map (fun k => (i, k)) (seq 0 n) ++ plan_work (S i) plan' end.

(** [r_next] workers were created; [r_work] says for which place of the plan a thread was
    created (the newest entry counts); [r_skipped] are the partitions whose [poll_host]
    returned without completing: the device is gone from the database, or only pinged. *)
Record rstate := {
  r_life : lstate; r_next : nat; r_work : list (nat * nat); r_devices : list Completion.dstate; r_skipped : list (nat * nat);
  r_launch_failed : bool; r_synced : bool; r_sync_failed : bool }.

Inductive revent :=
| RLife (e : event)
| RComplete (t : nat) (out_failed p_failed : bool)   (* complete_poll_host, first section *)
| RWrites (t : nat) (write_failed : bool)            (* its statements *)
| RReport (t : nat)                                  (* its second section *)
| RSkip (t : nat)
| RSync (failed : bool).                             (* persist_poll_completion *)

Fixpoint work_of (t : nat) (l : list (nat * nat)) : option nat :=
  match l with [] => None | (u, j) :: l' => if Nat.eqb u t then Some j else work_of t l' end.

Section Run.
Context (set : config_t) (plan : list nat).

(** The partition of a worker that is polling. *)
Definition partition_of (s : rstate) (t : nat) : option (nat * nat) :=
  match worker_of t (l_workers (r_life s)) with
  | Some Polling => j ← work_of t (r_work s); plan_work 0 plan !! j
  | _ => None
  end.

(** [poll_host] has returned for the partition. *)
Definition finished (s : rstate) (p : nat * nat) : bool :=
  bool_decide (p ∈ r_skipped s) ||
  match r_devices s !! fst p with
  | Some d => match Completion.parts d !! snd p with Some (Completion.Done _) => true | _ => false end
  | None => false
  end.

Definition with_life (l : lstate) (failed : bool) (s : rstate) : rstate :=
  {| r_life := l; r_next := r_next s; r_work := r_work s; r_devices := r_devices s; r_skipped := r_skipped s;
     r_launch_failed := r_launch_failed s || failed; r_synced := r_synced s; r_sync_failed := r_sync_failed s |}.
Definition with_device (i : nat) (d : Completion.dstate) (s : rstate) : rstate :=
  {| r_life := r_life s; r_next := r_next s; r_work := r_work s; r_devices := <[i := d]> (r_devices s); r_skipped := r_skipped s;
     r_launch_failed := r_launch_failed s; r_synced := r_synced s; r_sync_failed := r_sync_failed s |}.

(** A step of the partition of thread [t]. *)
Definition device_step (s : rstate) (t : nat) (e : nat → Completion.devent) : option rstate :=
  '(i, k) ← partition_of s t;
  if bool_decide ((i, k) ∈ r_skipped s) then None else
  d ← r_devices s !! i;
  d' ← Completion.dstep set d (e k);
  Some (with_device i d' s).

Definition rstep (n : Z) (s : rstate) (e : revent) : option rstate :=
  match e with
  | RLife e =>
      l ← lstep n (r_life s) e;
      match e with
      | ETryThread => if (r_next s <? length (plan_work 0 plan))%nat then Some (with_life l false s) else None
      | EGiveUp => Some (with_life l (r_next s <? length (plan_work 0 plan))%nat s)
      | ECreate t =>
          Some {| r_life := l; r_next := S (r_next s); r_work := (t, r_next s) :: r_work s; r_devices := r_devices s; r_skipped := r_skipped s;
                  r_launch_failed := r_launch_failed s; r_synced := r_synced s; r_sync_failed := r_sync_failed s |}
      | ECreateFails => Some (with_life l true s)
      | EChildEnds t =>
          match partition_of s t with
          | Some p => if finished s p then Some (with_life l false s) else None
          | None => None
          end
      | _ => Some (with_life l false s)
      end
  | RComplete t of_ pf => device_step s t (fun k => Completion.DComplete k of_ pf)
  | RWrites t wf => device_step s t (fun k => Completion.DWrites k wf)
  | RReport t => device_step s t (fun k => Completion.DReport k)
  | RSkip t =>
      '(i, k) ← partition_of s t;
      d ← r_devices s !! i;
      match Completion.parts d !! k with
      | Some Completion.Polling =>
          Some {| r_life := r_life s; r_next := r_next s; r_work := r_work s; r_devices := r_devices s; r_skipped := (i, k) :: r_skipped s;
                  r_launch_failed := r_launch_failed s; r_synced := r_synced s; r_sync_failed := r_sync_failed s |}
      | _ => None
      end
  | RSync failed =>
      if bool_decide (l_main (r_life s) = CleaningUp) && negb (r_synced s) then
        Some {| r_life := r_life s; r_next := r_next s; r_work := r_work s; r_devices := r_devices s; r_skipped := r_skipped s;
                r_launch_failed := r_launch_failed s; r_synced := true; r_sync_failed := failed |}
      else None
  end.

Definition rinit (n : Z) : option rstate :=
  l ← linit n;
  Some {| r_life := l; r_next := 0; r_work := []; r_devices := map Completion.dinitial plan; r_skipped := [];
          r_launch_failed := false; r_synced := false; r_sync_failed := false |}.

Inductive rreachable (n : Z) : rstate → Prop :=
| rreach_init s : rinit n = Some s → rreachable n s
| rreach_step s e s' : rreachable n s → rstep n s e = Some s' → rreachable n s'.

Fixpoint rrun (n : Z) (s : rstate) (es : list revent) : option rstate :=
  match es with [] => Some s | e :: es' => s' ← rstep n s e; rrun n s' es' end.

(** [exit(set.exit.exit_code)]: the code is EXIT_FAILURE once any of the assignments ran. *)
Definition exit_code (s : rstate) : Z :=
  if r_launch_failed s || r_sync_failed s || existsb (fun d => Completion.exit_failure (Completion.dev d)) (r_devices s) then EXIT_FAILURE else 0.

End Run.
End Run.

(** * Facts *)

Module RunFacts.
Import Completion CompletionFacts Lifecycle LifecycleFacts Run.

(** ** Devices *)

Definition part_index (e : devent) : nat := match e with DComplete i _ _ | DWrites i _ | DReport i => i end.
Lemma dstep_other set d e d' k : dstep set d e = Some d' → k ≠ part_index e → parts d' !! k = parts d !! k.
Proof.
  intros E Hk. destruct e as [i of_ pf|i wf|i]; cbn in E, Hk; destruct (parts d !! i) as [[]|]; try done; unfold count_partition in E;
    injection E as <-; cbn; by rewrite list_lookup_insert_ne by done.
Qed.
Lemma dstep_not_done set d e d' f : dstep set d e = Some d' → parts d !! part_index e ≠ Some (Done f).
Proof. intros E Hd. destruct e as [i of_ pf|i wf|i]; cbn in E, Hd; by rewrite Hd in E. Qed.
Lemma dstep_done set d e d' k f : dstep set d e = Some d' → parts d !! k = Some (Done f) → parts d' !! k = Some (Done f).
Proof.
  intros E Hk. destruct (decide (k = part_index e)) as [->|Hne]; [by apply dstep_not_done with (f := f) in E|]. by rewrite (dstep_other set d e d').
Qed.

(** The exit code is set exactly when the record of a device says it failed. *)
Lemma dreachable_exit set n d : dreachable set n d → exit_failure (dev d) = output_failed (dev d) || poll_failed (dev d).
Proof.
  induction 1 as [|s e s' _ IH E]; [done|]. destruct e as [i of_ pf|i wf|i]; cbn in E; destruct (parts s !! i) as [[]|]; try done.
  - unfold count_partition in E. injection E as <-. cbn. rewrite IH. by destruct (output_failed (dev s)), (poll_failed (dev s)), of_, pf.
  - by injection E as <-.
  - by injection E as <-.
Qed.
(** Once all partitions are counted and none failed, the schedule update is sent or about to
    be, unless there is only one profile. *)
Lemma dreachable_updates set n d : dreachable set n d → (0 < n)%nat → cnt counted (parts d) = n →
  output_failed (dev d) || poll_failed (dev d) = false → (updates d + cnt pending_update (parts d))%nat = if active_profiles set =? 1 then 0%nat else 1%nat.
Proof.
  intros Hd Hn. revert Hd. induction 1 as [|s e s' Hs IH E]; intros Hc Hf.
  { cbn in Hc. rewrite cnt_replicate in Hc. cbn in Hc. lia. }
  pose proof (dreachable_inv set n s Hs) as [I1 I2 I3 I4 I5 I6 I7].
  destruct e as [i of_ pf|i wf|i]; cbn [dstep] in E; destruct (parts s !! i) as [x|] eqn:Ei; try done; destruct x as [|f l u|f|f]; try done.
  - unfold count_partition in E. set (last := threads_complete (dev s) + 1 =? host_threads (dev s)) in E.
    set (y := if pf then _ else _) in E. injection E as <-. cbn [dev parts updates output_failed poll_failed] in *.
    assert (Hpf : pf = false) by (destruct pf; [by rewrite !orb_true_r in Hf|done]).
    pose proof (cnt_insert counted (parts s) i Completion.Polling y Ei) as Cc. pose proof (cnt_insert pending_update (parts s) i Completion.Polling y Ei) as Cu.
    assert (Ey1 : counted y = true) by (unfold y; by rewrite Hpf). rewrite Ey1 in Cc. cbn [counted pending_update] in Cc, Cu.
    assert (Hlast : last = true) by (unfold last; rewrite I2, I3; apply Z.eqb_eq; lia).
    assert (Ey2 : pending_update y = negb (active_profiles set =? 1)) by (unfold y; rewrite Hlast, Hf, Hpf; cbn; by rewrite andb_true_r). rewrite Ey2 in Cu.
    assert (Hz : (updates s + cnt pending_update (parts s) = 0)%nat).
    { destruct (decide (0 < updates s + cnt pending_update (parts s))%nat) as [Hpos|]; [|lia]. specialize (I7 Hpos). lia. }
    destruct (active_profiles set =? 1); cbn [negb] in Cu; lia.
  - injection E as <-. cbn [dev parts updates] in *. set (y := if wf then _ else _) in *.
    pose proof (cnt_insert counted (parts s) i _ y Ei) as Cc. pose proof (cnt_insert pending_update (parts s) i _ y Ei) as Cu.
    assert (Ey : counted y = true ∧ pending_update y = false) by (unfold y; by destruct wf). destruct Ey as [E1 E2]. rewrite E1 in Cc. rewrite E2 in Cu. cbn [counted pending_update] in *.
    rewrite <- IH; [destruct u; lia|lia|done].
  - injection E as <-. cbn in Hf. done.
Qed.

(** ** The plan *)

Lemma elem_of_plan_work plan : ∀ o i k, (i, k) ∈ plan_work o plan ↔ ∃ m, (o ≤ i)%nat ∧ plan !! (i - o)%nat = Some m ∧ (k < m)%nat.
Proof.
  induction plan as [|n plan IH]; intros o i k; cbn [plan_work]; [split; [intros H; by apply not_elem_of_nil in H|by intros (m & _ & H & _)]|].
  rewrite elem_of_app, list_elem_of_fmap, IH. split.
  - intros [(x & [= -> ->] & Hx%elem_of_seq)|(m & Ho & Hm & Hk)].
    + exists n. rewrite Nat.sub_diag. split_and!; [lia|done|lia].
    + exists m. split_and!; [lia| |done]. replace (i - o)%nat with (S (i - S o)) by lia. done.
  - intros (m & Ho & Hm & Hk). destruct (decide (i = o)) as [->|Hne].
    + left. rewrite Nat.sub_diag in Hm. injection Hm as ->. exists k. split; [done|]. apply elem_of_seq. lia.
    + right. exists m. split_and!; [lia| |done]. replace (i - o)%nat with (S (i - S o)) in Hm by lia. done.
Qed.
Lemma plan_work_at plan i k : (i, k) ∈ plan_work 0 plan ↔ ∃ m, plan !! i = Some m ∧ (k < m)%nat.
Proof. rewrite elem_of_plan_work, Nat.sub_0_r. split; [intros (m & _ & ?); eauto|intros (m & ? & ?); exists m; split_and!; [lia|done|done]]. Qed.

(** ** Threads *)

Lemma worker_of_set t p l u : is_Some (worker_of u l) → is_Some (worker_of u (set_worker t p l)).
Proof.
  induction l as [|[v q] l IH]; cbn; [done|]. destruct (Nat.eqb_spec v t) as [->|]; cbn; [destruct (Nat.eqb t u)|destruct (Nat.eqb v u)]; eauto.
Qed.
Lemma worker_of_drop t l u : u ≠ t → worker_of u (drop_worker t l) = worker_of u l.
Proof.
  intros Hu. induction l as [|[v q] l IH]; cbn; [done|]. destruct (Nat.eqb_spec v t) as [->|]; cbn.
  - by rewrite (proj2 (Nat.eqb_neq t u)) by done.
  - by rewrite IH.
Qed.
(** A worker stays until it ends. *)
Lemma lstep_alive n l e l' u : lstep n l e = Some l' → e ≠ EChildEnds u → is_Some (worker_of u (l_workers l)) → is_Some (worker_of u (l_workers l')).
Proof.
  intros E He Hu. destruct e as [| | |t| | |ex|t|t|]; cbn in E; destruct (l_main l); try done; unfold Permits.spine_permits_try_acquire in *;
    repeat match goal with H : context [if ?b then _ else _] |- _ => destruct b end;
    try (destruct (worker_of t (l_workers l)) as [[]|] eqn:Et; try done); try (injection E as <-); cbn; try done;
    try (unfold wait_turn; by repeat case_match); try (by apply worker_of_set); try (rewrite worker_of_drop by congruence; done).
  all: destruct (Nat.eqb_spec t u); [by eexists|done].
Qed.
(** Where the main thread goes. *)
Definition main_move (e : event) (m m' : mpc) : Prop :=
  match e with
  | ETryThread => m = Launching ∧ (m' = GotThread ∨ m' = Launching)
  | ETryStartup => m = GotThread ∧ (m' = GotBoth ∨ m' = GotThread)
  | EGiveUp => (m = Launching ∨ m = GotThread) ∧ m' = Waiting
  | ECreate _ => m = GotBoth ∧ m' = Launching
  | ECreateFails => m = GotBoth ∧ m' = Undoing
  | EReleaseThread => m = Undoing ∧ m' = Waiting
  | ECheck _ => m = Waiting ∧ (m' = Waiting ∨ m' = CleaningUp ∨ m' = Exited)
  | EChildStarts _ | EChildEnds _ => m' = m
  | EDies => m' = Exited
  end.
Lemma lstep_main n l e l' : lstep n l e = Some l' → main_move e (l_main l) (l_main l').
Proof.
  intros E. destruct e as [| | |t| | |ex|t|t|]; cbn in E; destruct (l_main l) eqn:Em; try done; unfold Permits.spine_permits_try_acquire in *; cbn;
    repeat match goal with H : context [if ?b then _ else _] |- _ => destruct b end;
    try (destruct (worker_of t (l_workers l)) as [[]|] eqn:Et; try done); injection E as <-; cbn; auto; try done.
  unfold wait_turn. split; [done|]. repeat case_match; cbn; auto.
Qed.


(** ** The run *)

Section Invariant.
Context (set : config_t) (plan : list nat) (n : Z).
Let work := plan_work 0 plan.

Record rinv (s : rstate) : Prop := {
  ri_life : lreachable n (r_life s);
  ri_len : length (r_devices s) = length plan;
  ri_dev : ∀ i m, plan !! i = Some m → ∃ d, r_devices s !! i = Some d ∧ dreachable set m d;
  ri_next : (r_next s ≤ length work)%nat;
  ri_busy : l_main (r_life s) = GotThread ∨ l_main (r_life s) = GotBoth ∨ l_main (r_life s) = Undoing → (r_next s < length work)%nat;
  ri_over : l_main (r_life s) = Undoing ∨ l_main (r_life s) = Waiting ∨ l_main (r_life s) = CleaningUp → r_launch_failed s = true ∨ r_next s = length work;
  ri_failed : r_launch_failed s = true → (r_next s < length work)%nat ∧
    (l_main (r_life s) = Undoing ∨ l_main (r_life s) = Waiting ∨ l_main (r_life s) = CleaningUp ∨ l_main (r_life s) = Exited);
  ri_work : ∀ j p, (j < r_next s)%nat → work !! j = Some p →
    finished s p = true ∨ ∃ t, is_Some (worker_of t (l_workers (r_life s))) ∧ work_of t (r_work s) = Some j;
  ri_skip : ∀ i k, (i, k) ∈ r_skipped s → ∃ d, r_devices s !! i = Some d ∧ parts d !! k = Some Completion.Polling }.

Lemma rinit_inv s : rinit plan n = Some s → rinv s.
Proof.
  unfold rinit. intros (l & El & [= <-])%bind_Some. assert (Hm : l_main l = Launching).
  { unfold linit in El. repeat case_match; try done. by injection El as <-. }
  split; cbn; try (by constructor); rewrite ?Hm; try (intros; lia); try done.
  - by rewrite length_map.
  - intros i m Hi. exists (dinitial m). split; [|constructor]. rewrite list_lookup_fmap. by rewrite Hi.
  - by intros [|[|]].
  - by intros [|[|]].
  - intros i k Hin. by apply not_elem_of_nil in Hin.
Qed.

(** A step of the threads: what it does to the launch is for each event. *)
Lemma life_inv s e l s' :
  rinv s → lstep n (r_life s) e = Some l → r_life s' = l → r_devices s' = r_devices s → r_skipped s' = r_skipped s →
  (r_next s' ≤ length work)%nat →
  (l_main l = GotThread ∨ l_main l = GotBoth ∨ l_main l = Undoing → (r_next s' < length work)%nat) →
  (l_main l = Undoing ∨ l_main l = Waiting ∨ l_main l = CleaningUp → r_launch_failed s' = true ∨ r_next s' = length work) →
  (r_launch_failed s' = true → (r_next s' < length work)%nat ∧ (l_main l = Undoing ∨ l_main l = Waiting ∨ l_main l = CleaningUp ∨ l_main l = Exited)) →
  (∀ j p, (j < r_next s')%nat → work !! j = Some p → finished s p = true ∨ ∃ t, is_Some (worker_of t (l_workers l)) ∧ work_of t (r_work s') = Some j) →
  rinv s'.
Proof.
  intros [I1 I2 I3 I4 I5 I6 I7 I8 I9] E El Ed Es H1 H2 H3 H4 H5.
  split; rewrite ?El, ?Ed, ?Es; try done; [by econstructor|].
  intros j p Hj Hp. unfold finished. rewrite Ed, Es. by apply H5.
Qed.
(** One that neither creates nor ends a worker. *)
Lemma life_keeps s e l (failed : bool) :
  rinv s → lstep n (r_life s) e = Some l → (∀ t, e ≠ EChildEnds t) →
  (l_main l = GotThread ∨ l_main l = GotBoth ∨ l_main l = Undoing → (r_next s < length work)%nat) →
  (l_main l = Undoing ∨ l_main l = Waiting ∨ l_main l = CleaningUp → r_launch_failed s || failed = true ∨ r_next s = length work) →
  (r_launch_failed s || failed = true → (r_next s < length work)%nat ∧ (l_main l = Undoing ∨ l_main l = Waiting ∨ l_main l = CleaningUp ∨ l_main l = Exited)) →
  rinv (with_life l failed s).
Proof.
  intros Hi E He H1 H2 H3. eapply life_inv; [exact Hi|exact E|done..| | | | |]; cbn; try done; [apply Hi|].
  intros j p Hj Hp. destruct (ri_work s Hi j p Hj Hp) as [Hf|(t & Ht & Hw)]; [by left|]. right. exists t. split; [|done].
  eapply lstep_alive; [exact E|apply He|done].
Qed.

(** The creation of a worker, and its end. *)
Lemma create_inv s t s' : rinv s → rstep set plan n s (RLife (ECreate t)) = Some s' → rinv s'.
Proof.
  intros Hi E. cbn [rstep] in E. apply bind_Some in E as (l & El & [= <-]). destruct (lstep_main n _ _ l El) as [Hm Hm'].
  pose proof Hi as [I1 I2 I3 I4 I5 I6 I7 I8 I9]. assert (Hlt : (r_next s < length work)%nat) by auto.
  eapply life_inv; [exact Hi|exact El|done..| | | | |]; cbn; rewrite ?Hm'.
  - lia.
  - naive_solver.
  - naive_solver.
  - intros Ht. apply I7 in Ht as [_ Ht]. rewrite Hm in Ht. naive_solver.
  - cbn in El. rewrite Hm in El. destruct (worker_of t (l_workers (r_life s))) eqn:Et; [done|]. injection El as <-. cbn.
    intros j p Hj Hp. destruct (decide (j = r_next s)) as [->|Hne]; [right; exists t; by rewrite !Nat.eqb_refl|].
    destruct (I8 j p ltac:(lia) Hp) as [?|(u & Hu & Hw)]; [by left|]. right. exists u. destruct (Nat.eqb_spec t u) as [->|]; [|done].
    rewrite Et in Hu. by destruct Hu.
Qed.
Lemma end_inv s t s' : rinv s → rstep set plan n s (RLife (EChildEnds t)) = Some s' → rinv s'.
Proof.
  intros Hi E. cbn [rstep] in E. apply bind_Some in E as (l & El & E). pose proof (lstep_main n _ _ l El) as Hm. cbn in Hm.
  pose proof Hi as [I1 I2 I3 I4 I5 I6 I7 I8 I9].
  destruct (partition_of plan s t) as [p|] eqn:Ep; [|done]. destruct (finished s p) eqn:Efin; [|done]. injection E as <-.
  eapply life_inv; [exact Hi|exact El|done..| | | | |]; cbn; rewrite ?orb_false_r, ?Hm; try done.
  intros j q Hj Hq. destruct (I8 j q Hj Hq) as [?|(u & Hu & Hw)]; [by left|]. destruct (decide (u = t)) as [->|Hne].
  - left. unfold partition_of in Ep. destruct (worker_of t _) as [[]|]; try done. rewrite Hw in Ep. cbn in Ep. fold work in Ep.
    rewrite Hq in Ep. by injection Ep as <-.
  - right. exists u. split; [|done]. eapply lstep_alive; [exact El|congruence|done].
Qed.

Lemma life_step_inv s e s' : rinv s → rstep set plan n s (RLife e) = Some s' → rinv s'.
Proof.
  intros Hi E0. pose proof E0 as E. cbn [rstep] in E. apply bind_Some in E as (l & El & E). pose proof (lstep_main n _ e l El) as Hm. fold work in E.
  pose proof Hi as [I1 I2 I3 I4 I5 I6 I7 I8 I9].
  assert (Hf : r_launch_failed s || false = r_launch_failed s) by apply orb_false_r.
  destruct e as [| | |t| | |ex|t|t|]; cbn in Hm.
  - destruct (Nat.ltb_spec (r_next s) (length work)); [|done]. injection E as <-. destruct Hm as [Hm Hm'].
    apply life_keeps with ETryThread; try done; rewrite ?Hf.
    + intros Hx. destruct Hm' as [Hm'|Hm']; rewrite Hm' in Hx; naive_solver.
    + intros Ht. apply I7 in Ht as [_ Ht]. rewrite Hm in Ht. naive_solver.
  - injection E as <-. destruct Hm as [Hm Hm']. apply life_keeps with ETryStartup; try done; rewrite ?Hf.
    + intros _. apply I5. auto.
    + intros Hx. destruct Hm' as [Hm'|Hm']; rewrite Hm' in Hx; naive_solver.
    + intros Ht. apply I7 in Ht as [_ Ht]. rewrite Hm in Ht. naive_solver.
  - injection E as <-. destruct Hm as [Hm Hm']. apply life_keeps with EGiveUp; try done.
    + rewrite Hm'. naive_solver.
    + intros _. destruct (Nat.ltb_spec (r_next s) (length work)); [left; apply orb_true_r|right; lia].
    + intros Ht. split; [|auto]. apply orb_true_iff in Ht as [Ht|Ht]; [by apply I7|]. by apply Nat.ltb_lt.
  - by eapply create_inv.
  - injection E as <-. destruct Hm as [Hm Hm']. apply life_keeps with ECreateFails; try done; rewrite ?Hm'.
    + intros _. apply I5. auto.
    + intros _. left. apply orb_true_r.
    + intros _. split; [apply I5|]; auto.
  - injection E as <-. destruct Hm as [Hm Hm']. apply life_keeps with EReleaseThread; try done; rewrite ?Hf, ?Hm'.
    + naive_solver.
    + intros _. apply I6. auto.
    + intros Ht. split; [by apply I7|auto].
  - injection E as <-. destruct Hm as [Hm Hm']. apply life_keeps with (ECheck ex); try done; rewrite ?Hf.
    + intros Hx. destruct Hm' as [Hm'|[Hm'|Hm']]; rewrite Hm' in Hx; naive_solver.
    + intros _. apply I6. auto.
    + intros Ht. split; [by apply I7|]. naive_solver.
  - injection E as <-. apply life_keeps with (EChildStarts t); try done; rewrite ?Hf, ?Hm; done.
  - by eapply end_inv.
  - injection E as <-. apply life_keeps with EDies; try done; rewrite ?Hf, ?Hm; naive_solver.
Qed.

Lemma device_step_inv s t e s' : (∀ k, part_index (e k) = k) → rinv s → device_step set plan s t e = Some s' → rinv s'.
Proof.
  intros He [I1 I2 I3 I4 I5 I6 I7 I8 I9] E. unfold device_step in E. apply bind_Some in E as ([i k] & Ep & E).
  destruct (bool_decide ((i, k) ∈ r_skipped s)) eqn:Esk; [done|]. apply bool_decide_eq_false in Esk.
  apply bind_Some in E as (d & Ed & E). apply bind_Some in E as (d' & Ed' & [= <-]).
  assert (Hfin : ∀ p, finished s p = true → finished (with_device i d' s) p = true).
  { intros [i' k']. unfold finished. cbn. rewrite !orb_true_iff. intros [?|Hd]; [by left|right]. destruct (decide (i' = i)) as [->|Hne].
    - rewrite list_lookup_insert_eq by (by eapply lookup_lt_Some). rewrite Ed in Hd. destruct (parts d !! k') as [[]|] eqn:Ek; try done.
      by rewrite (dstep_done _ _ _ _ _ _ Ed' Ek).
    - by rewrite list_lookup_insert_ne. }
  split; cbn; try done.
  - by rewrite length_insert.
  - intros i' m Hi'. destruct (I3 i' m Hi') as (d0 & Ed0 & Hr). destruct (decide (i' = i)) as [->|Hne].
    + exists d'. split; [apply list_lookup_insert_eq; by eapply lookup_lt_Some|]. rewrite Ed in Ed0. injection Ed0 as <-. by econstructor.
    + exists d0. by rewrite list_lookup_insert_ne.
  - intros j p Hj Hp. destruct (I8 j p Hj Hp) as [Hf|Hw]; [left; by apply Hfin|by right].
  - intros i' k' Hin. destruct (I9 i' k' Hin) as (d0 & Ed0 & Hk). destruct (decide (i' = i)) as [->|Hne].
    + exists d'. split; [apply list_lookup_insert_eq; by eapply lookup_lt_Some|]. rewrite Ed in Ed0. injection Ed0 as <-.
      rewrite (dstep_other _ _ _ _ k' Ed'); [done|]. rewrite He. by intros ->.
    + exists d0. by rewrite list_lookup_insert_ne.
Qed.

Lemma rstep_inv s e s' : rinv s → rstep set plan n s e = Some s' → rinv s'.
Proof.
  intros Hi E. destruct e as [e|t of_ pf|t wf|t|t|failed].
  - by eapply life_step_inv.
  - by eapply device_step_inv in E.
  - by eapply device_step_inv in E.
  - by eapply device_step_inv in E.
  - cbn [rstep] in E. apply bind_Some in E as ([i k] & Ep & E). apply bind_Some in E as (d & Ed & E). destruct (parts d !! k) as [[]|] eqn:Ek; try done.
    injection E as <-. destruct Hi as [I1 I2 I3 I4 I5 I6 I7 I8 I9]. split; cbn; try done.
    + intros j p Hj Hp. destruct (I8 j p Hj Hp) as [Hf|Hw]; [left|by right]. unfold finished in *. cbn. rewrite orb_true_iff in *.
      destruct Hf as [Hf|Hf]; [left|by right]. apply bool_decide_eq_true in Hf. apply bool_decide_eq_true. by right.
    + intros i' k' [[= -> ->]|Hin]%elem_of_cons; [by exists d|by apply I9].
  - cbn [rstep] in E. destruct (bool_decide _ && _); [|done]. injection E as <-. by destruct Hi.
Qed.
Lemma rreachable_inv s : rreachable set plan n s → rinv s.
Proof. induction 1 as [s Hs|s e s' _ IH E]; [by apply rinit_inv|by eapply rstep_inv]. Qed.
End Invariant.

(** ** The end of the run *)

Section End.
Context (set : config_t) (plan : list nat) (n : Z) (s : rstate).
Context (Hn : 0 < n ≤ INT_MAX) (Hr : rreachable set plan n s) (Hend : l_main (r_life s) = CleaningUp).

(** Every partition of the plan has been polled or skipped. *)
Definition all_polled : Prop :=
  ∀ i m k, plan !! i = Some m → (k < m)%nat → (i, k) ∈ r_skipped s ∨ ∃ d, r_devices s !! i = Some d ∧ parts d !! k = Some (Done false).

Lemma no_worker_left t : worker_of t (l_workers (r_life s)) = None.
Proof.
  pose proof (rreachable_inv set plan n s Hr) as Hi.
  destruct (reachable_balanced n (r_life s) ltac:(lia) (ri_life _ _ _ _ Hi) ltac:(by rewrite Hend)) as [_ _ _ _ Hc]. by rewrite (Hc Hend).
Qed.
Lemma device_failed i m d : plan !! i = Some m → r_devices s !! i = Some d →
  exit_failure (dev d) = true ↔ ∃ k x, parts d !! k = Some x ∧ published x = true ∧ (k < m)%nat.
Proof.
  intros Hm Hd. pose proof (rreachable_inv set plan n s Hr) as Hi. destruct (ri_dev _ _ _ _ Hi i m Hm) as (d0 & Ed0 & Hrd).
  rewrite Hd in Ed0. injection Ed0 as <-. rewrite (dreachable_exit set m d Hrd). pose proof (dreachable_inv set m d Hrd) as [I1 _ _ I4 _ _ _].
  rewrite I4, Nat.ltb_lt, cnt_pos. split; intros (k & x & Hx & Hp); exists k, x; [|by destruct Hp]. split_and!; [done|done|]. rewrite <- I1. by eapply lookup_lt_Some.
Qed.
Lemma exit_success_iff : exit_code s = 0 ↔ r_next s = length (plan_work 0 plan) ∧ r_sync_failed s = false ∧ all_polled.
Proof.
  pose proof (rreachable_inv set plan n s Hr) as Hi. unfold exit_code. split.
  - destruct (r_launch_failed s) eqn:El; [done|]. destruct (r_sync_failed s); [done|]. cbn [orb].
    destruct (existsb _ (r_devices s)) eqn:Ex; [done|]. intros _.
    assert (Hnext : r_next s = length (plan_work 0 plan)) by (destruct (ri_over _ _ _ _ Hi) as [Hf|]; [auto|congruence|done]).
    split_and!; [done|done|]. intros i m k Hm Hk. destruct (ri_dev _ _ _ _ Hi i m Hm) as (d & Ed & Hrd).
    assert (Hw : (i, k) ∈ plan_work 0 plan) by (apply plan_work_at; eauto). apply list_elem_of_lookup in Hw as [j Hj].
    destruct (ri_work _ _ _ _ Hi j (i, k)) as [Hf|(t & Ht & _)]; [rewrite Hnext; by eapply lookup_lt_Some|done| |by rewrite no_worker_left in Ht; destruct Ht].
    unfold finished in Hf. apply orb_true_iff in Hf as [Hf%bool_decide_eq_true|Hf]; [by left|right]. cbn [fst snd] in Hf. rewrite Ed in Hf.
    destruct (parts d !! k) as [x|] eqn:Ek; [|done]. exists d. split; [done|]. destruct x as [| | |failed]; try done. destruct failed; [|done].
    assert (Hbad : exit_failure (dev d) = true) by (apply (device_failed i m d Hm Ed); by exists k, (Done true)).
    assert (Htrue : existsb (fun d => exit_failure (dev d)) (r_devices s) = true)
      by (apply existsb_exists; exists d; split; [apply list_elem_of_In; by eapply list_elem_of_lookup_2|done]). congruence.
  - intros (Hnext & -> & Hall). destruct (r_launch_failed s) eqn:El; [apply (ri_failed _ _ _ _ Hi) in El as [? _]; lia|]. cbn [orb].
    destruct (existsb _ (r_devices s)) eqn:Ex; [|done]. apply existsb_exists in Ex as (d & Hd & Hbad). apply list_elem_of_In, list_elem_of_lookup in Hd as [i Hd].
    assert (Hlt : (i < length plan)%nat) by (rewrite <- (ri_len _ _ _ _ Hi); by eapply lookup_lt_Some).
    destruct (lookup_lt_is_Some_2 plan i Hlt) as [m Hm].
    apply (device_failed i m d Hm Hd) in Hbad as (k & x & Hx & Hp & Hk). destruct (Hall i m k Hm Hk) as [Hsk|(d0 & Ed0 & Ek)].
    + destruct (ri_skip _ _ _ _ Hi i k Hsk) as (d0 & Ed0 & Ek). rewrite Hd in Ed0. injection Ed0 as <-. rewrite Hx in Ek. by injection Ek as ->.
    + rewrite Hd in Ed0. injection Ed0 as <-. rewrite Hx in Ek. by injection Ek as ->.
Qed.
Lemma polled_device_complete i m d : (0 < m)%nat → plan !! i = Some m → r_devices s !! i = Some d → exit_code s = 0 → (∀ k, (i, k) ∉ r_skipped s) →
  complete (dev d) = true ∧ updates d = if active_profiles set =? 1 then 0%nat else 1%nat.
Proof.
  intros Hm0 Hm Hd Hex Hns. apply exit_success_iff in Hex as (_ & _ & Hall). pose proof (rreachable_inv set plan n s Hr) as Hi.
  destruct (ri_dev _ _ _ _ Hi i m Hm) as (d0 & Ed0 & Hrd). rewrite Hd in Ed0. injection Ed0 as <-.
  pose proof (dreachable_inv set m d Hrd) as [I1 _ _ I4 I5 _ _].
  assert (Hdone : ∀ k x, parts d !! k = Some x → x = Done false).
  { intros k x Hx. destruct (Hall i m k Hm) as [Hsk|(d0 & Ed0 & Ek)]; [rewrite <- I1; by eapply lookup_lt_Some|by apply Hns in Hsk|].
    rewrite Hd in Ed0. injection Ed0 as <-. rewrite Hx in Ek. by injection Ek as ->. }
  assert (Hcnt : cnt counted (parts d) = m).
  { rewrite <- I1. apply all_counted. intros [k Hk]%list_elem_of_lookup. by apply Hdone in Hk. }
  assert (Hz : ∀ p, p (Done false) = false → cnt p (parts d) = 0%nat).
  { intros p Hp. destruct (decide (cnt p (parts d) = 0)%nat) as [|Hne]; [done|]. destruct (proj1 (cnt_pos p (parts d))) as (k & x & Hx & Hpx); [lia|].
    apply Hdone in Hx. subst x. congruence. }
  assert (Hok : output_failed (dev d) || poll_failed (dev d) = false) by (rewrite I4, Hz; done).
  split; [rewrite I5, Hcnt, Nat.eqb_refl, Hok; destruct m; [lia|done]|].
  pose proof (dreachable_updates set m d Hrd Hm0 Hcnt Hok) as Hu. rewrite (Hz pending_update) in Hu by done. lia.
Qed.
End End.

Lemma rrun_reachable set plan n es : ∀ s s', rreachable set plan n s → rrun set plan n s es = Some s' → rreachable set plan n s'.
Proof.
  induction es as [|e es IH]; intros s s' Hr E; [by injection E as <-|]. cbn in E. apply bind_Some in E as (s1 & E1 & E).
  eapply IH; [|done]. by econstructor.
Qed.

End RunFacts.
Import Run RunFacts.

(** * Properties *)

(** C2: the exit code tells the truth about the run.  In every interleaving of the main thread,
    the workers and the partitions of all devices, when the main thread is past
    [wait_for_workers] the exit code is 0 exactly if a worker was created for every partition
    of the plan, the synchronization with the main server did not fail, and every partition
    was polled without a failure of its queries, of its output or of its completion writes -
    or was skipped because its device is gone or only pinged.  A run that exits with 0 leaves
    every device that was not skipped complete, and its schedule advanced exactly once
    (never, if there is a single profile). *)
Theorem exit_code_truthful (set : config_t) (plan : list nat) (n : Z) (s : rstate)
  (Hn : 0 < n ≤ INT_MAX) (Hreach : rreachable set plan n s) (Hend : Lifecycle.l_main (r_life s) = Lifecycle.CleaningUp) :
  (exit_code s = 0 ∨ exit_code s = EXIT_FAILURE) ∧
  (exit_code s = 0 ↔ r_next s = length (plan_work 0 plan) ∧ r_sync_failed s = false ∧ all_polled plan s) ∧
  (exit_code s = 0 → ∀ i m d, (0 < m)%nat → plan !! i = Some m → r_devices s !! i = Some d → (∀ k, (i, k) ∉ r_skipped s) →
     Completion.complete (Completion.dev d) = true ∧ Completion.updates d = if active_profiles set =? 1 then 0%nat else 1%nat).
Proof.
  split; [unfold exit_code; destruct (_ || _); auto|]. split; [by apply exit_success_iff with set n|].
  intros Hex i m d Hm0 Hm Hd Hns. by eapply polled_device_complete.
Qed.

(** Two devices, the first with two partitions; its second worker starts while the first one
    is still writing; the device of the last one is gone. *)
Definition sample_run : list revent :=
  [RLife Lifecycle.ETryThread; RLife Lifecycle.ETryStartup; RLife (Lifecycle.ECreate 1); RLife (Lifecycle.EChildStarts 1);
   RLife Lifecycle.ETryThread; RLife Lifecycle.ETryStartup; RLife (Lifecycle.ECreate 2); RComplete 1 false false; RLife (Lifecycle.EChildStarts 2);
   RWrites 1 false; RLife (Lifecycle.EChildEnds 1);
   RLife Lifecycle.ETryThread; RLife Lifecycle.ETryStartup; RLife (Lifecycle.ECreate 1); RLife Lifecycle.EGiveUp;
   RComplete 2 false false; RWrites 2 false; RLife (Lifecycle.EChildStarts 1); RSkip 1; RLife (Lifecycle.EChildEnds 2);
   RLife (Lifecycle.ECheck false); RLife (Lifecycle.EChildEnds 1); RLife (Lifecycle.ECheck false); RSync false].
(** The same, but the statements of the second worker fail. *)
Definition failing_run : list revent :=
  take 16 sample_run ++ [RWrites 2 true; RReport 2; RLife (Lifecycle.EChildStarts 1); RSkip 1; RLife (Lifecycle.EChildEnds 2);
   RLife (Lifecycle.EChildEnds 1); RLife (Lifecycle.ECheck false); RSync false].

Lemma exit_code_truthful_witness :
  match rinit [2; 1]%nat 2 ≫= fun s => rrun two_profiles [2; 1]%nat 2 s sample_run with
  | Some s => exit_code s = 0 ∧ ∃ d, r_devices s !! 0%nat = Some d ∧ Completion.complete (Completion.dev d) = true ∧ Completion.updates d = 1%nat
  | None => False
  end ∧
  match rinit [2; 1]%nat 2 ≫= fun s => rrun two_profiles [2; 1]%nat 2 s failing_run with Some s => exit_code s = EXIT_FAILURE | None => False end.
Proof.
  split; [|by vm_compute].
  destruct (rinit [2; 1]%nat 2) as [s0|] eqn:E0; [|by vm_compute in E0]. cbn [mbind option_bind].
  destruct (rrun two_profiles [2; 1]%nat 2 s0 sample_run) as [s|] eqn:E; [|by vm_compute in E0; injection E0 as <-; vm_compute in E].
  assert (Hr : rreachable two_profiles [2; 1]%nat 2 s) by (eapply rrun_reachable; [by apply rreach_init|exact E]).
  assert (Hs : Lifecycle.l_main (r_life s) = Lifecycle.CleaningUp ∧ exit_code s = 0 ∧ is_Some (r_devices s !! 0%nat) ∧ r_skipped s = [(1, 0)%nat]).
  { vm_compute in E0. injection E0 as <-. vm_compute in E. injection E as <-. split_and!; try reflexivity. by eexists. }
  destruct Hs as (Hm & Hex & [d Hd] & Hsk). split; [done|]. exists d. split; [done|].
  destruct (exit_code_truthful two_profiles [2; 1]%nat 2 s ltac:(unfold INT_MAX; lia) Hr Hm) as (_ & _ & Hc).
  apply (Hc Hex 0%nat 2%nat d); [lia|done|done|]. intros k. rewrite Hsk. intros [[=]|Hin]%elem_of_cons. by apply not_elem_of_nil in Hin.
Defined.
