(* ===== verification/PollHost.v ===== *)
(** Polling one device: [poll_host], [load_poll_host] and [release_poll_connections] of
    src/src/poller/poller.c, which compose every component of the poller.

    The interfaces of the components ([MySQL], [Probes], [Collectors],
    [ReindexSource]) share one world.  Between two accesses to the connection pools and
    to the device record other threads may run; here they are threaded through one call. *)

From S2P Require Import Prelude CLib Buffer Text Result Address Settings Sql Pool Queries Persist Host Snmp Items Reindex Completion Workers.

Module PollHost.
Import Pool Queries Completion Workers.

Inductive poll_host_load_t := POLL_HOST_LOADED | POLL_HOST_MISSING | POLL_HOST_FAILED.

(** After [memset(host, 0, sizeof(host_t))]. *)
Definition zero_host : host_t := {|
  host_id := 0; hostname := []; ignore_host := false;
  snmp := {| profile := {| community := []; version := 0; username := []; password := []; auth_protocol := []; priv_passphrase := [];
                           priv_protocol := []; context := []; engine_id := []; port := 0; timeout := 0 |};
             retries := 0; max_oids := 0; session := None; snmp_status := 0 |};
  system := {| snmp_sysDescr := []; snmp_sysObjectID := []; snmp_sysUpTimeInstance := 0; snmp_sysContact := []; snmp_sysName := []; snmp_sysLocation := [] |};
  host_avail := {| av_method := 0; av_ping_method := 0; av_port := 0; av_timeout := 0; av_retries := 0 |};
  hstate := {| status := 0; status_event_count := 0; status_fail_date := []; status_rec_date := []; status_last_error := [] |};
  statistics := {| min_time := dzero; max_time := dzero; cur_time := dzero; avg_time := dzero; total_polls := 0; failed_polls := 0; availability := dzero |} |}.

Definition initial_ping : ping_t := {|
  ping_status := $"down"; ping_response := $"Ping not performed due to setting.";
  snmp_ping_status := $"down"; snmp_response := $"SNMP not performed due to setting or ping result" |}.

Section Poll.
Context {W : Type} `{MySQL W} `{Probes W} `{Collectors W} `{ReindexSource W}.
(** [local_base] and [remote_base] are the first connections of the pools; [debug] and
    [log_level] are [is_debug_device] and [set.logging.spine_log_level]. *)
Context (set : config_t) (ssl : list mysql_feature) (local_base remote_base : nat) (debug : Z → bool) (log_level : Z).
(** [mysql_fetch_row] on the result of one row that a device has; NULL is handled. *)
Context (mysql_fetch_row : list row_t → option row_t).
#[local] Instance sink : StatementSink W := db_sink set ssl.

Definition load_poll_host (w : W) (mysql : conn) (queries : poller_queries_t) (host : host_t) (ping : ping_t) (work : poller_thread_t) :
    outcome (poll_host_load_t * host_t * ping_t * W) :=
  if pt_host_id work =? 0 then Ok (POLL_HOST_LOADED, set_ignore_host false (set_session None (set_max_oids 1 host)), ping, w) else
  let* (result, w) := Sql.db_query set ssl w mysql LOCAL (q_host queries) in
  match result with
  | None => Ok (POLL_HOST_FAILED, host, ping, w)
  | Some r =>
      let* n := spine_count_to_int (Z.of_nat (length (res_rows r))) in
      if negb (n =? 1) then Ok (POLL_HOST_MISSING, host, ping, w) else
      match mysql_fetch_row (res_rows r) with
      | None => Ok (POLL_HOST_LOADED, set_ignore_host true host, ping, w)
      | Some row =>
          let host := Host.load_host_metadata set (mysql_real_escape_string w mysql) row in
          let '(host, w) := Host.initialize_host_snmp w host in
          let* (host, ping, include, w) := Availability.refresh_host_availability set w host ping (host_thread work) in
          let* w := (if host_thread work =? 1
                     then Persist.persist_host_status (mysql_real_escape_string w mysql) w mysql host (include && negb (ignore_host host))
                     else Ok w) in
          Ok (POLL_HOST_LOADED, host, ping, w)
      end
  end.

(** Whether this poller writes to the main server too. *)
Definition needs_remote : bool := (1 <? poller_id set) && (mode set =? REMOTE_ONLINE).

Definition release_poll_connections (p : pools) (local remote : option nat) : pools :=
  let p := match local with Some id => db_release_connection p LOCAL id | None => p end in
  if needs_remote then match remote with Some id => db_release_connection p REMOTE id | None => p end else p.

(** The connections of a partition: both, or none. *)
Definition get_poll_connections (p : pools) : option (nat * option nat) * pools :=
  match db_get_connection p LOCAL with
  | (None, p) => (None, p)
  | (Some local, p) =>
      if needs_remote then
        match db_get_connection p REMOTE with
        | (None, p) => (None, db_release_connection p LOCAL local)
        | (Some remote, p) => (Some (local, Some remote), p)
        end
      else (Some (local, None), p)
  end.

Definition close_host_session (w : W) (host : host_t) : W := match session (snmp host) with Some s => close_session w s | None => w end.

Definition no_key : Items.snmp_item_key_t := {| Items.key_initialized := false; Items.key_profile := profile (snmp zero_host) |}.

(** Reindexing, collecting and writing: the output and poll failures, the error count and
    the error text. *)
Definition poll_items (w : W) (mysql mysqlr : conn) (queries : poller_queries_t) (host : host_t) (work : poller_thread_t) :
    outcome (option (bool * bool * Z * cstr * W)) :=
  let e := {| Reindex.ev_host_id := host_id host; Reindex.ev_work_id := pt_host_id work; Reindex.ev_thread := host_thread work; Reindex.ev_debug := debug (host_id host);
              Reindex.ev_log_level := log_level; Reindex.ev_local := mysql; Reindex.ev_remote := mysqlr |} in
  let* r := Reindex.poll_host_reindex set ssl e w host (q_reindex queries) 0 false in
  match r with
  | None => Ok None
  | Some (host, errors, spike_kill, w) =>
      let* (result, num_rows, w) := select_poll_items set ssl w mysql queries in
      match result with
      | Some res =>
          if 0 <? num_rows then
            let '(items, oids, host) := Items.load_poll_items set (res_rows res) host in
            match Items.collect_poll_items w host {| Items.items := items; Items.oids := oids; Items.count := 0; Items.key := no_key;
                    Items.err_buffer := Output.empty_errors; Items.errors := errors |} (length items) spike_kill with
            | None => Ok None
            | Some (rows, b, host, w) =>
                let* r := Persist.write_poll_results set (mysql_real_escape_string w) queries w mysql mysqlr (take rows (Items.items b)) (host_time work) in
                match r with
                | None => Ok None
                | Some (output_failed, w) =>
                    Ok (Some (output_failed, false, Items.errors b, Output.error_string (Items.err_buffer b), close_host_session w host))
                end
            end
          else Ok (Some (false, false, errors, [], w))
      | None => Ok (Some (false, true, errors, [], w))
      end
  end.

(** The pools, the device record and the number of errors; [None] is a table walk that
    does not end or an access outside an array. *)
Definition poll_host (w : W) (p : pools) (d : device) (work : poller_thread_t) : outcome (option (pools * device * Z * W)) :=
  let complete (w : W) mysql queries errors error_string output_failed poll_failed :=
    complete_poll_host (H := sink) set get_time_as_double w mysql queries (pt_host_id work) (host_time_double work) errors error_string output_failed poll_failed d in
  let no_queries := {| q_items := []; q_host := []; q_reindex := []; q_due_items := []; q_schedule := []; q_output := [];
                       q_agents := []; q_due_agents := []; q_boost_output := []; q_suffix := [] |} in
  let '(_, w) := get_time_as_double w in
  match get_poll_connections p with
  | (None, p) => let* (d, w) := complete w 0%nat no_queries 0 [] false true in Ok (Some (p, d, 0, w))
  | (Some (local, remote), p) =>
      let mysql := (local_base + local)%nat in
      let mysqlr := (remote_base + default 0 remote)%nat in
      let release := release_poll_connections p (Some local) remote in
      let* queries := poller_prepare_queries set (pt_host_id work) (host_thread work) (host_data_ids work) in
      let* (loaded, host, ping, w) := load_poll_host w mysql queries zero_host initial_ping work in
      match loaded with
      | POLL_HOST_FAILED => let* (d, w) := complete w mysql queries 0 [] false true in Ok (Some (release, d, 0, w))
      | POLL_HOST_MISSING => Ok (Some (release, d, 0, w))
      | POLL_HOST_LOADED =>
          if ping_only set then Ok (Some (release, d, 0, close_host_session w host)) else
          let* r := poll_items w mysql mysqlr queries host work in
          match r with
          | None => Ok None
          | Some (output_failed, poll_failed, errors, error_string, w) =>
              let* (d, w) := complete w mysql queries errors error_string output_failed poll_failed in
              Ok (Some (release, d, errors, w))
          end
      end
  end.

End Poll.
End PollHost.

(** * Facts *)

Module PollHostFacts.
Import Pool PoolFacts Queries Completion PollHost Workers.

Lemma set_pool_id type p : set_pool type (pool_of type p) p = p.
Proof. unfold set_pool, pool_of. destruct p. by destruct (type =? LOCAL). Qed.
Lemma set_pool_twice type l l' p : set_pool type l' (set_pool type l p) = set_pool type l' p.
Proof. unfold set_pool. by destruct (type =? LOCAL). Qed.

(** What [db_get_connection] takes, [db_release_connection] gives back. *)
Lemma get_release type p id p' : db_get_connection p type = (Some id, p') → db_release_connection p' type id = p.
Proof.
  unfold db_get_connection, db_release_connection. pose proof (take_free_spec (pool_of type p)) as Hs.
  destruct (take_free (pool_of type p)) as [[i l]|]; [|done]. intros [= -> <-]. destruct Hs as (Hfree & -> & _).
  rewrite pool_of_set, set_pool_twice, list_insert_insert_eq, list_insert_id by done. apply set_pool_id.
Qed.
Lemma get_none type p p' : db_get_connection p type = (None, p') → p' = p.
Proof. unfold db_get_connection. destruct (take_free (pool_of type p)) as [[i l]|]; [done|]. by intros [= <-]. Qed.
Lemma release_commutes p i j :
  db_release_connection (db_release_connection p LOCAL i) REMOTE j = db_release_connection (db_release_connection p REMOTE j) LOCAL i.
Proof. done. Qed.

Lemma get_poll_connections_balanced set p :
  match get_poll_connections set p with
  | (None, p') => p' = p
  | (Some (local, remote), p') => release_poll_connections set p' (Some local) remote = p
  end.
Proof.
  unfold get_poll_connections, release_poll_connections. destruct (db_get_connection p LOCAL) as [[l|] p1] eqn:E1; [|by eapply get_none].
  destruct (needs_remote set).
  - destruct (db_get_connection p1 REMOTE) as [[r|] p2] eqn:E2.
    + rewrite release_commutes, (get_release REMOTE p1 r p2 E2). by apply get_release.
    + apply get_none in E2 as ->. by apply get_release.
  - by apply get_release.
Qed.

(** A partition is counted once by [complete_poll_host]. *)
Lemma complete_counts {W} (I : StatementSink W) set clock (w : W) mysql queries host_id t errors text of_ pf d d' w' :
  complete_poll_host set clock w mysql queries host_id t errors text of_ pf d = Ok (d', w') →
  threads_complete d' = threads_complete d + 1 ∧ host_threads d' = host_threads d ∧
  (of_ || pf = true → output_failed d' || poll_failed d' = true ∧ exit_failure d' = true).
Proof.
  unfold complete_poll_host, count_partition. destruct pf.
  { intros [= <- _]. cbn. split_and!; try done. intros _. by rewrite !orb_true_r. }
  destruct (completion_writes _ _ _ _ _ _ _ _ _ _ _) as [[failed w1]|]; cbn [obind]; [|done]. intros [= <- _].
  destruct failed; cbn; (split_and!; [done|done|]); rewrite ?orb_false_r; intros ->; rewrite ?orb_true_r; done.
Qed.

End PollHostFacts.
Import PollHostFacts.

(** * Properties *)

(** C8: a partition returns its connections and is counted once, on every path.
    Whenever [poll_host] returns - with no connection free, with only one of the two it
    needs, with a device that cannot be loaded or is gone, or after polling - the pools
    are as before the call; and unless the device is gone or only pinged, the partition
    is counted exactly once in its device; without its connections it is counted as a
    failure, and the exit code says so. *)
Theorem poll_host_balanced {W} `{MySQL W} `{Probes W} `{Collectors W} `{ReindexSource W} (set : config_t) (ssl : list mysql_feature)
  (local_base remote_base : nat) (debug : Z → bool) (log_level : Z) (mysql_fetch_row : list row_t → option row_t) (w w' : W) (p p' : Pool.pools) (d d' : Completion.device)
  (work : poller_thread_t) (errors : Z)
  (Hrun : PollHost.poll_host set ssl local_base remote_base debug log_level mysql_fetch_row w p d work = Ok (Some (p', d', errors, w'))) :
  p' = p ∧ Completion.host_threads d' = Completion.host_threads d ∧
  (Completion.threads_complete d' = Completion.threads_complete d + 1 ∨
   d' = d ∧ (ping_only set = true ∨
             ∃ w1 w2 mysql queries host ping, PollHost.load_poll_host set ssl mysql_fetch_row w1 mysql queries PollHost.zero_host PollHost.initial_ping work =
               Ok (PollHost.POLL_HOST_MISSING, host, ping, w2))) ∧
  (fst (PollHost.get_poll_connections set p) = None → Completion.poll_failed d' = true ∧ Completion.exit_failure d' = true).
Proof.
  unfold PollHost.poll_host in Hrun. destruct (get_time_as_double w) as [t w1].
  pose proof (get_poll_connections_balanced set p) as Hp. destruct (PollHost.get_poll_connections set p) as [[[local remote]|] p1].
  2:{ unfold Completion.complete_poll_host, Completion.count_partition in Hrun. cbn in Hrun. injection Hrun as <- <- _ _. subst p1.
      cbn. rewrite !orb_true_r. split_and!; try done. by left. }
  destruct (Queries.poller_prepare_queries set _ _ _) as [queries|]; cbn [obind] in Hrun; [|done].
  destruct (PollHost.load_poll_host set ssl mysql_fetch_row w1 _ _ _ _ _) as [[[[loaded host] ping] w2]|] eqn:El; cbn [obind] in Hrun; [|done].
  cbn [fst]. destruct loaded.
  - destruct (ping_only set) eqn:Eping.
    { injection Hrun as <- <- _ _. split_and!; try done. right. auto. }
    destruct (PollHost.poll_items _ _ _ _ _ _ _ _ _ _) as [[[[[[of_ pf] errs] text] w3]|]|]; cbn [obind] in Hrun; [|done|done].
    destruct (Completion.complete_poll_host _ _ _ _ _ _ _ _ _ _ _ _) as [[d1 w4]|] eqn:Ec; cbn [obind] in Hrun; [|done].
    injection Hrun as <- <- _ _. apply complete_counts in Ec as (Hc1 & Hc2 & _). split_and!; try done. by left.
  - injection Hrun as <- <- _ _. split_and!; try done. right. split; [done|]. right. eauto 10.
  - destruct (Completion.complete_poll_host _ _ _ _ _ _ _ _ _ _ _ _) as [[d1 w4]|] eqn:Ec; cbn [obind] in Hrun; [|done].
    injection Hrun as <- <- _ _. apply complete_counts in Ec as (Hc1 & Hc2 & _). split_and!; try done. by left.
Qed.

(** ** A small world *)

(** The open SNMP sessions, how many were ever opened, and the last statement. *)
Record small_world := { open_sessions : list nat; sessions_opened : nat; last_query : cstr }.
Definition open_one (w : small_world) : option nat * small_world :=
  (Some (S (sessions_opened w)),
   {| open_sessions := S (sessions_opened w) :: open_sessions w; sessions_opened := S (sessions_opened w); last_query := last_query w |}).
Definition close_one (w : small_world) (s : nat) : small_world :=
  {| open_sessions := filter (fun x => x ≠ s) (open_sessions w); sessions_opened := sessions_opened w; last_query := last_query w |}.

(** The database knows one device, an SNMP device that is checked by ping, and no item
    that is due. *)
Definition device_row : row_t :=
  [Some ($"7"); Some ($"router"); Some ($"public"); Some ($"2"); None; None; None; None; None; None; None; Some ($"161"); Some ($"500"); Some ($"10");
   Some ($"3"); Some ($"1"); None; None; None; Some ($"3")].
Definition small_mysql : MySQL small_world := {|
  mysql_query w _ q := (0, {| open_sessions := open_sessions w; sessions_opened := sessions_opened w; last_query := q |});
  mysql_store_result w _ := (Some {| res_fields := 37; res_rows := if has_substr (last_query w) ($"FROM host WHERE") then [device_row] else [] |}, w);
  mysql_thread_id _ _ := 1; mysql_ping w _ := (0, w); mysql_close w _ := w; mysql_init w _ := (true, w); mysql_options w _ _ := (0, w);
  mysql_real_connect w _ _ := (0, w); mysql_real_escape_string _ _ s := s; errno_is_EINTR _ := false; stat_socket _ _ := None; sleep_usec w _ := w |}.
(** The probes find the device in state [st]. *)
Definition small_probes (st : Z) : Probes small_world := {|
  ping_icmp w _ p := (st, p, w); ping_icmp_ipv6 w _ p := (st, p, w); ping_udp w _ p := (st, p, w); ping_tcp w _ p := (st, p, w);
  lookup_addresses w _ := (Some [Resolve.AF_INET], w); snmp_get w h _ := (h, w); snmp_getnext w h _ := (h, w);
  snmp_host_init w _ _ _ := open_one w; get_system_information w h := (h, w); get_time_as_double w := (of_int 1, w); unix_time w := (1700000000, w) |}.
Definition small_collectors : Collectors small_world := {|
  get_multi w h l := (l, h, w); open_session w _ _ _ := open_one w; close_session := close_one;
  exec_poll w _ _ _ := (UNDEFINED, w); php_cmd w _ := (UNDEFINED, w); regexec _ _ := None |}.
Definition small_source : ReindexSource small_world := fun w host _ uptime => Some (None, false, uptime, host, w).
Definition small_start : small_world := {| open_sessions := []; sessions_opened := 0; last_query := [] |}.
Definition small_pools : Pool.pools := {| Pool.db_pool_local := [false; true]; Pool.db_pool_remote := [] |}.
Definition small_device : Completion.device := {|
  Completion.host_threads := 1; Completion.threads_complete := 0; Completion.output_failed := false; Completion.poll_failed := false;
  Completion.complete := false; Completion.exit_failure := false |}.
Definition small_work : poller_thread_t := {|
  device_counter := 0; pt_host_id := 7; host_thread := 1; pt_host_threads := 1; host_data_ids := 0; host_time := $"1700000000";
  host_time_double := of_int 1700000000; pt_complete := false; pt_threads_complete := 0; pt_output_failed := false; pt_poll_failed := false |}.
Abbreviation small_poll st :=
  (PollHost.poll_host (H := small_mysql) (H0 := small_probes st) (H1 := small_collectors) (H2 := small_source)
     sample_config [] 0 100 (fun _ => false) 0 head small_start small_pools small_device small_work).

(** The device and the world after polling the device found up, and down. *)
Definition after (st : Z) : Pool.pools * Completion.device * small_world :=
  match small_poll st with Ok (Some (p, d, _, w)) => (p, d, w) | _ => (small_pools, small_device, small_start) end.
Definition after_up := Eval vm_compute in after HOST_UP.
Definition after_down := Eval vm_compute in after HOST_DOWN.
Lemma small_poll_up : small_poll HOST_UP = Ok (Some (fst (fst after_up), snd (fst after_up), 0, snd after_up)).
Proof. vm_compute. reflexivity. Qed.
Lemma small_poll_down : small_poll HOST_DOWN = Ok (Some (fst (fst after_down), snd (fst after_down), 0, snd after_down)).
Proof. vm_compute. reflexivity. Qed.

Lemma poll_host_balanced_witness :
  ∃ p d w, small_poll HOST_UP = Ok (Some (p, d, 0, w)) ∧ p = small_pools ∧ Completion.threads_complete d = 1 ∧ open_sessions w = [].
Proof.
  exists (fst (fst after_up)), (snd (fst after_up)), (snd after_up). split; [exact small_poll_up|].
  split; [exact (proj1 (poll_host_balanced _ _ _ _ _ _ _ _ _ _ _ _ _ _ _ small_poll_up))|]. split; reflexivity.
Defined.

(** The session of a device that is down and has nothing due is never closed.
    [initialize_host_snmp] opens an SNMP session for the device; [poll_host_reindex]
    returns without closing it when the device is to be ignored, and with no due item
    [poll_host] skips the branch that closes it before it frees the device record.  The
    same device found up leaves no session open. *)
Theorem down_device_leaks_session :
  let run st := PollHost.poll_host (H := small_mysql) (H0 := small_probes st) (H1 := small_collectors) (H2 := small_source)
                  sample_config [] 0 100 (fun _ => false) 0 head small_start small_pools small_device small_work in
  (∃ p d w, run HOST_DOWN = Ok (Some (p, d, 0, w)) ∧ sessions_opened w = 1%nat ∧ open_sessions w = [1%nat]) ∧
  ∃ p d w, run HOST_UP = Ok (Some (p, d, 0, w)) ∧ sessions_opened w = 1%nat ∧ open_sessions w = [].
Proof.
  intros run. split; [exists (fst (fst after_down)), (snd (fst after_down)), (snd after_down)|exists (fst (fst after_up)), (snd (fst after_up)), (snd after_up)];
    (split; [first [exact small_poll_down|exact small_poll_up]|]); split; reflexivity.
Qed.
