(* ===== verification/Process.v ===== *)
(** Child processes: src/src/process/nft_popen.c and src/src/process/fd.c, with the
    close-on-exec helpers of src/src/platform/descriptor.c.

    The system calls are an interface ([Class Posix]) over a world that holds the
    program's shared registry of children.  [Class PosixLaws] states what the calls do to
    the descriptors, as a view of the world; [errno] is not modelled beyond the results
    the code branches on, nor is thread cancellation. *)

From stdpp Require Import gmap.
From Stdlib Require Import SpecFloat.
From S2P Require Import Prelude CLib.

(** The results of [waitpid(pid, &status, WNOHANG)]. *)
Inductive wait_result := WaitReaped (status : Z) | WaitRunning | WaitError (errno : Z).
Inductive file_action := AddClose (fd : Z) | AddDup2 (fd newfd : Z).
Inductive fcntl_t := F_GETFD | F_SETFD (flags : Z) | F_GETFL | F_SETFL (flags : Z).
Inductive attr_t := Attr_init | Attr_setpgroup (pgroup : Z) | Attr_setsigdefault_SIGPIPE | Attr_setflags_SETPGROUP | Attr_setflags_SETSIGDEF.

(** [PidList] (newest first) and [AbandonedPids] up to [AbandonedCount]. *)
Record registry := { pid_list : list (Z * Z) (* fd, pid *); abandoned : list Z }.

(** A call returns 0 or an error number where C does; [file_actions_add] and [spawnattr]
    are the functions of those names' families, [attempt_malloc] is a [malloc] whose
    failure is handled. *)
Class Posix (W : Type) := {
  pipe : W → option (Z * Z) * W;
  socketpair : W → option (Z * Z) * W;
  dup : W → Z → Z * W;
  close : W → Z → W;
  fcntl : W → Z → fcntl_t → Z * W;
  attempt_malloc : W → bool * W;
  file_actions_init : W → Z * W;
  file_actions_add : W → file_action → Z * W;
  spawnattr : W → attr_t → Z * W;
  posix_spawn : W → cstr → list file_action → list attr_t → list cstr → Z * Z * W;   (* error, pid *)
  waitpid : W → Z → wait_result * W;
  kill : W → Z → Z → W;
  usleep : W → Z → W;
  monotonic_time : W → double * W;
  list_lock : W → W;
  list_unlock : W → W;
  get_registry : W → registry;
  put_registry : W → registry → W }.

Module Process.

Definition EINTR : Z := 4.
Definition ECHILD : Z := 10.
Definition EAGAIN : Z := 11.
Definition ENOMEM : Z := 12.
Definition SIGKILL : Z := 9.
Definition FD_CLOEXEC : Z := 1.
Definition STDIN_FILENO : Z := 0.
Definition STDOUT_FILENO : Z := 1.
Definition NFT_PCLOSE_REAP_USEC : Z := 50000.
Definition NFT_PCLOSE_SPIN_USEC : Z := 200.
Definition NFT_PCLOSE_SPIN_ATTEMPTS : Z := 100.
Definition NFT_ABANDONED_MAX : Z := 64.

Definition set_pid_list (l : list (Z * Z)) (r : registry) : registry := {| pid_list := l; abandoned := abandoned r |}.
Definition set_abandoned (l : list Z) (r : registry) : registry := {| pid_list := pid_list r; abandoned := l |}.

Section Calls.
Context {W : Type} `{Posix W}.

(** ** Descriptors *)

Definition spine_set_cloexec (w : W) (fd : Z) : Z * W :=
  let '(flags, w) := fcntl w fd F_GETFD in
  if flags <? 0 then (-1, w) else
  let '(rc, w) := fcntl w fd (F_SETFD (Z.lor flags FD_CLOEXEC)) in
  (if rc =? 0 then 0 else -1, w).

Definition spine_dup_cloexec (w : W) (fd : Z) : Z * W :=
  let '(duplicate, w) := dup w fd in
  if duplicate <? 0 then (-1, w) else
  let '(rc, w) := spine_set_cloexec w duplicate in
  if negb (rc =? 0) then (-1, close w duplicate) else (duplicate, w).

Definition close_pair (w : W) (pdes : Z * Z) : W := close (close w (fst pdes)) (snd pdes).

(** [spine_set_cloexec(pdes[0]) != 0 || spine_set_cloexec(pdes[1]) != 0], with both ends
    closed then. *)
Definition pair_cloexec (r : option (Z * Z) * W) : option (Z * Z) * W :=
  match r with
  | (None, w) => (None, w)
  | (Some pdes, w) =>
      let '(rc, w) := spine_set_cloexec w (fst pdes) in
      if negb (rc =? 0) then (None, close_pair w pdes) else
      let '(rc, w) := spine_set_cloexec w (snd pdes) in
      if negb (rc =? 0) then (None, close_pair w pdes) else (Some pdes, w)
  end.
Definition spine_open_pipe_cloexec (w : W) : option (Z * Z) * W := pair_cloexec (pipe w).

(** An attribute object is the calls that succeeded on it, in order. *)
Definition attr_call (w : W) (attr : list attr_t) (a : attr_t) : Z * list attr_t * W :=
  let '(rc, w) := spawnattr w a in (rc, if rc =? 0 then attr ++ [a] else attr, w).

(** The attributes set, or an error. *)
Definition spine_spawnattr_sigpipe_default (w : W) : option (list attr_t) * W :=
  let '(rc, attr, w) := attr_call w [] Attr_init in
  if negb (rc =? 0) then (None, w) else
  let '(rc, attr, w) := attr_call w attr Attr_setsigdefault_SIGPIPE in
  if negb (rc =? 0) then (None, w) else
  let '(rc, attr, w) := attr_call w attr Attr_setflags_SETSIGDEF in
  if negb (rc =? 0) then (None, w) else (Some attr, w).

(** ** Waiting for a child *)

(** The [do ... while] over an interrupted [waitpid], with a deadline or without. *)
Fixpoint wait_child (budget : nat) (w : W) (pid : Z) (deadline : option double) : wait_result * W :=
  let '(r, w) := waitpid w pid in
  match r with
  | WaitError e =>
      if e =? EINTR then
        match budget with
        | O | 1%nat => (r, w)
        | S b =>
            match deadline with
            | None => wait_child b w pid deadline
            | Some d => let '(now, w) := monotonic_time w in if dlt now d then wait_child b w pid deadline else (r, w)
            end
        end
      else (r, w)
  | _ => (r, w)
  end.

Inductive reap_t := Reaped (status : Z) | StillRunning | ReapError.

Fixpoint reap_loop (left : nat) (w : W) (pid : Z) (deadline : double) (attempt : Z) : reap_t * W :=
  match left with
  | O => (StillRunning, w)
  | S l =>
      let '(r, w) := wait_child 1000 w pid (Some deadline) in
      match r with
      | WaitReaped status => (Reaped status, w)
      | WaitError e => if e =? ECHILD then (Reaped 0, w) else (ReapError, w)
      | WaitRunning =>
          let '(now, w) := monotonic_time w in
          if dle deadline now then (StillRunning, w) else
          reap_loop l (usleep w (if attempt <? NFT_PCLOSE_SPIN_ATTEMPTS then NFT_PCLOSE_SPIN_USEC else NFT_PCLOSE_REAP_USEC))
            pid deadline (attempt + 1)
      end
  end.
Definition spine_reap_child_bounded (w : W) (pid : Z) (attempts : Z) : reap_t * W :=
  if attempts <=? 0 then (StillRunning, w) else
  let fast_attempts := if attempts <? NFT_PCLOSE_SPIN_ATTEMPTS then attempts else NFT_PCLOSE_SPIN_ATTEMPTS in
  let '(now, w) := monotonic_time w in
  let deadline := dadd now (ddiv (dadd (dmul (of_int fast_attempts) (of_int NFT_PCLOSE_SPIN_USEC))
                                       (dmul (of_int (attempts - fast_attempts)) (of_int NFT_PCLOSE_REAP_USEC))) (of_int 1000000)) in
  reap_loop (Z.to_nat attempts) w pid deadline 0.

(** ** The children given up *)

(** [AbandonedPids[i] = AbandonedPids[AbandonedCount - 1]; AbandonedCount--]. *)
Definition remove_swap (i : nat) (l : list Z) : list Z :=
  match l !! (length l - 1)%nat with Some x => take (length l - 1) (<[i := x]> l) | None => l end.
Definition child_gone (r : wait_result) : bool :=
  match r with WaitReaped _ => true | WaitError e => e =? ECHILD | WaitRunning => false end.

(** [while (i < AbandonedCount)]: every turn brings [i] and the count closer, so as many
    turns as there are children are enough. *)
Fixpoint sweep_loop (turns : nat) (w : W) (l : list Z) (i : nat) : list Z * W :=
  match turns with
  | O => (l, w)
  | S t =>
      match l !! i with
      | None => (l, w)
      | Some pid =>
          let '(r, w) := wait_child 1000 w pid None in
          if child_gone r then sweep_loop t w (remove_swap i l) i else sweep_loop t w l (S i)
      end
  end.
Definition nft_sweep_abandoned (w : W) : W :=
  let r := get_registry w in
  let '(l, w) := sweep_loop (length (abandoned r)) w (abandoned r) 0 in
  put_registry w (set_abandoned l (get_registry w)).

(** The number of children still parked. *)
Definition nft_abandoned_pending (w : W) : Z * W :=
  let w := nft_sweep_abandoned (list_lock w) in
  (Z.of_nat (length (abandoned (get_registry w))), list_unlock w).

Definition nft_abandon_child (w : W) (pid : Z) : W :=
  let w := nft_sweep_abandoned (list_lock w) in
  let r := get_registry w in
  let w := if Z.of_nat (length (abandoned r)) <? NFT_ABANDONED_MAX then put_registry w (set_abandoned (abandoned r ++ [pid]) r) else w in
  list_unlock w.

(** ** Starting a script *)

(** A file action whose setup fails is dropped: the result is not checked. *)
Fixpoint add_actions (w : W) (fa : list file_action) (new : list file_action) : list file_action * W :=
  match new with
  | [] => (fa, w)
  | a :: new' =>
      let '(rc, w) := file_actions_add w a in
      add_actions w (if rc =? 0 then fa ++ [a] else fa) new'
  end.

(** The child leads its own process group; an error number otherwise. *)
Definition popen_attr (w : W) : Z * list attr_t * W :=
  let '(attr_err, attr, w) := attr_call w [] Attr_init in
  let '(attr_err, attr, w) := if attr_err =? 0 then attr_call w attr (Attr_setpgroup 0) else (attr_err, attr, w) in
  if attr_err =? 0 then attr_call w attr Attr_setflags_SETPGROUP else (attr_err, attr, w).

(** The redirection of the child's end: the actions and [inherit_fd], -1 for none;
    [None] when the end could not be duplicated. *)
Definition popen_redirect (w : W) (read twoway : bool) (pdes : Z * Z) : option (list file_action * Z) * W :=
  let '(p0, p1) := pdes in
  let both := if twoway then [AddDup2 STDOUT_FILENO STDIN_FILENO] else [] in
  if read then
    let '(fa, w) := add_actions w [] [AddClose p0] in
    if negb (p1 =? STDOUT_FILENO) then
      let '(fa, w) := add_actions w fa ([AddDup2 p1 STDOUT_FILENO; AddClose p1] ++ both) in (Some (fa, -1), w)
    else
      let '(inherit_fd, w) := spine_dup_cloexec w p1 in
      if inherit_fd <? 0 then (None, w) else
      let '(fa, w) := add_actions w fa ([AddDup2 inherit_fd STDOUT_FILENO; AddClose inherit_fd] ++ both) in (Some (fa, inherit_fd), w)
  else
    if negb (p0 =? STDIN_FILENO) then
      let '(fa, w) := add_actions w [] [AddDup2 p0 STDIN_FILENO; AddClose p0; AddClose p1] in (Some (fa, -1), w)
    else
      let '(inherit_fd, w) := spine_dup_cloexec w p0 in
      if inherit_fd <? 0 then (None, w) else
      let '(fa, w) := add_actions w [] [AddDup2 inherit_fd STDIN_FILENO; AddClose inherit_fd; AddClose p1] in (Some (fa, inherit_fd), w).

(** The other scripts' pipes, closed in the child unless this spawn redirected a fresh
    pipe onto the same number. *)
Definition redirected (read twoway : bool) (fd : Z) : bool :=
  (read && (fd =? STDOUT_FILENO)) || (read && twoway && (fd =? STDIN_FILENO)) || (negb read && (fd =? STDIN_FILENO)).
Definition close_others (read twoway : bool) (l : list (Z * Z)) : list file_action :=
  map (fun p => AddClose (fst p)) (filter (fun p => redirected read twoway (fst p) = false) l).

(** [retry:] around [posix_spawn], with [left] retries. *)
Fixpoint spawn_retry (left : nat) (w : W) (path : cstr) (fa : list file_action) (attr : list attr_t) (argv : list cstr) : Z * Z * W :=
  let '(spawn_err, pid, w) := posix_spawn w path fa attr argv in
  if (spawn_err =? EAGAIN) || (spawn_err =? ENOMEM) then
    match left with
    | O => (spawn_err, pid, w)
    | S l => spawn_retry l (usleep w 50000) path fa attr argv
    end
  else (spawn_err, pid, w).

Definition close_inherited (w : W) (inherit_fd : Z) : W := if negb (inherit_fd =? -1) then close w inherit_fd else w.

(** [spawn_failed:]. *)
Definition spawn_failed (w : W) (pdes : Z * Z) (inherit_fd : Z) : Z * W :=
  (-1, list_unlock (close_pair (close_inherited w inherit_fd) pdes)).

(** With the list locked: from the file actions on. *)
Definition popen_spawn (w : W) (read twoway : bool) (pdes : Z * Z) (command : cstr) : Z * W :=
  let '(rc, w) := file_actions_init w in
  if negb (rc =? 0) then (-1, list_unlock (close_pair w pdes)) else
  let '(attr_err, attr, w) := popen_attr w in
  if negb (attr_err =? 0) then spawn_failed w pdes (-1) else
  let '(redirection, w) := popen_redirect w read twoway pdes in
  match redirection with
  | None => spawn_failed w pdes (-1)
  | Some (fa, inherit_fd) =>
      let '(fa, w) := add_actions w fa (close_others read twoway (pid_list (get_registry w))) in
      let '(spawn_err, pid, w) := spawn_retry 3 w ($"/bin/sh") fa attr [$"sh"; $"-c"; command] in
      if negb (spawn_err =? 0) then spawn_failed w pdes inherit_fd else
      let w := close_inherited w inherit_fd in
      let '(fd, w) := if read then (fst pdes, close w (snd pdes)) else (snd pdes, close w (fst pdes)) in
      let r := get_registry w in
      (fd, list_unlock (put_registry w (set_pid_list ((fd, pid) :: pid_list r) r)))
  end.

(** The documented modes: r, w and r+. *)
Definition popen_mode (type : cstr) : option (bool * bool) :=
  if bool_decide (type = $"r+") then Some (true, true)
  else if bool_decide (type = $"r") then Some (true, false)
  else if bool_decide (type = $"w") then Some (false, false)
  else None.

Definition nft_popen (w : W) (command type : cstr) : Z * W :=
  match popen_mode type with
  | None => (-1, w)
  | Some (read, twoway) =>
      let '(pdes, w) := if twoway : bool then pair_cloexec (socketpair w) else spine_open_pipe_cloexec w in
      match pdes with
      | None => (-1, w)
      | Some pdes =>
          let '(cur, w) := attempt_malloc w in
          if negb cur then (-1, close_pair w pdes) else
          let '(command_copy, w) := attempt_malloc w in
          if negb command_copy then (-1, close_pair w pdes) else
          popen_spawn (nft_sweep_abandoned (list_lock w)) read twoway pdes command
      end
  end.

(** ** Ending a script *)

(** The first entry of a descriptor. *)
Fixpoint take_entry (fd : Z) (l : list (Z * Z)) : option (Z * list (Z * Z)) :=
  match l with
  | [] => None
  | (fd', pid) :: l' => if fd' =? fd then Some (pid, l') else '(p, l'') ← take_entry fd l'; Some (p, (fd', pid) :: l'')
  end.
Definition nft_pchild (w : W) (fd : Z) : Z * W :=
  let w := list_lock w in
  (match take_entry fd (pid_list (get_registry w)) with Some (pid, _) => pid | None => -1 end, list_unlock w).

Definition pid_list_close_and_take (w : W) (fd : Z) : option Z * W :=
  let w := list_lock w in
  match take_entry fd (pid_list (get_registry w)) with
  | Some (pid, l) =>
      let w := close w fd in
      (Some pid, list_unlock (put_registry w (set_pid_list l (get_registry w))))
  | None => (None, list_unlock w)
  end.

(** The exit status, or -1. *)
Definition nft_pclose (w : W) (fd : Z) : Z * W :=
  let '(cur, w) := pid_list_close_and_take w fd in
  match cur with
  | None => (-1, w)
  | Some pid =>
      let '(r, w) := spine_reap_child_bounded w pid NFT_PCLOSE_SPIN_ATTEMPTS in
      match r with
      | Reaped pstat => (pstat, w)
      | StillRunning | ReapError => (-1, nft_abandon_child (kill w (- pid) SIGKILL) pid)
      end
  end.

End Calls.
End Process.

(** * The promises of the system *)

(** What a descriptor refers to: an end of a pipe or socket pair, or anything else. *)
Inductive file := End (channel : nat) (second : bool) | OtherFile (n : nat).

Record spawn_t := {
  sp_path : cstr; sp_actions : list file_action; sp_attr : list attr_t; sp_argv : list cstr; sp_fds : gmap Z file; sp_error : Z; sp_pid : Z }.

(** A slot of [php_processes]. *)
Record php_t := { php_state : Z; php_pid : Z; php_write_fd : Z; php_read_fd : Z }.

(** The view: open descriptors, the registry, the script server slots, the script permits
    held, how often the list is locked, the calls of
    [posix_spawn] with the descriptors open then, and the signals sent. *)
Record os := {
  fds : gmap Z file; children : registry; servers : nat → php_t; scripts_held : Z; locked : Z; spawned : list spawn_t; killed : list (Z * Z) }.
Definition set_fds (m : gmap Z file) (v : os) : os :=
  {| fds := m; children := children v; servers := servers v; scripts_held := scripts_held v; locked := locked v; spawned := spawned v; killed := killed v |}.
Definition set_children (r : registry) (v : os) : os :=
  {| fds := fds v; children := r; servers := servers v; scripts_held := scripts_held v; locked := locked v; spawned := spawned v; killed := killed v |}.
Definition set_servers (f : nat → php_t) (v : os) : os :=
  {| fds := fds v; children := children v; servers := f; scripts_held := scripts_held v; locked := locked v; spawned := spawned v; killed := killed v |}.
Definition add_held (d : Z) (v : os) : os :=
  {| fds := fds v; children := children v; servers := servers v; scripts_held := scripts_held v + d; locked := locked v; spawned := spawned v; killed := killed v |}.
Definition add_locked (d : Z) (v : os) : os :=
  {| fds := fds v; children := children v; servers := servers v; scripts_held := scripts_held v; locked := locked v + d; spawned := spawned v; killed := killed v |}.
Definition add_spawned (l : list spawn_t) (v : os) : os :=
  {| fds := fds v; children := children v; servers := servers v; scripts_held := scripts_held v; locked := locked v; spawned := spawned v ++ l; killed := killed v |}.
Definition add_killed (k : Z * Z) (v : os) : os :=
  {| fds := fds v; children := children v; servers := servers v; scripts_held := scripts_held v; locked := locked v; spawned := spawned v; killed := killed v ++ [k] |}.

Definition fresh_channel (k : nat) (v : os) : Prop := ∀ fd b, fds v !! fd ≠ Some (End k b).

(** Two new descriptors on the ends of a new channel, or no change. *)
Definition opens {W} (view : W → os) (v : os) (r : option (Z * Z) * W) : Prop :=
  match r with
  | (None, w) => view w = v
  | (Some (a, b), w) =>
      0 ≤ a ∧ 0 ≤ b ∧ a ≠ b ∧ fds v !! a = None ∧ fds v !! b = None ∧
      ∃ k, fresh_channel k v ∧ view w = set_fds (<[a := End k false]> (<[b := End k true]> (fds v))) v
  end.
(** A new descriptor for the same file, or no change. *)
Definition duplicates {W} (view : W → os) (v : os) (fd : Z) (r : Z * W) : Prop :=
  (fst r = -1 ∧ view (snd r) = v) ∨
  (0 ≤ fst r ∧ fds v !! fst r = None ∧ ∃ f, fds v !! fd = Some f ∧ view (snd r) = set_fds (<[fst r := f]> (fds v)) v).

Class PosixLaws (W : Type) `{Posix W} := {
  view : W → os;
  pipe_law w : opens view (view w) (pipe w);
  socketpair_law w : opens view (view w) (socketpair w);
  dup_law w fd : duplicates view (view w) fd (dup w fd);
  close_law w fd : view (close w fd) = set_fds (delete fd (fds (view w))) (view w);
  fcntl_law w fd c : view (snd (fcntl w fd c)) = view w;
  malloc_law w : view (snd (attempt_malloc w)) = view w;
  actions_init_law w : view (snd (file_actions_init w)) = view w;
  actions_add_law w a : view (snd (file_actions_add w a)) = view w;
  spawnattr_law w a : view (snd (spawnattr w a)) = view w;
  spawn_law w path fa attr argv : let '(e, pid, w') := posix_spawn w path fa attr argv in
    view w' = add_spawned [{| sp_path := path; sp_actions := fa; sp_attr := attr; sp_argv := argv; sp_fds := fds (view w); sp_error := e; sp_pid := pid |}] (view w);
  waitpid_law w pid : view (snd (waitpid w pid)) = view w;
  kill_law w pid sig : view (kill w pid sig) = add_killed (pid, sig) (view w);
  usleep_law w n : view (usleep w n) = view w;
  time_law w : view (snd (monotonic_time w)) = view w;
  lock_law w : view (list_lock w) = add_locked 1 (view w);
  unlock_law w : view (list_unlock w) = add_locked (-1) (view w);
  registry_law w : get_registry w = children (view w);
  put_registry_law w r : view (put_registry w r) = set_children r (view w) }.

(** The child's descriptors after its file actions; [None] when one of them fails. *)
Fixpoint run_actions (l : list file_action) (t : gmap Z file) : option (gmap Z file) :=
  match l with
  | [] => Some t
  | AddClose fd :: l' => match t !! fd with Some _ => run_actions l' (delete fd t) | None => None end
  | AddDup2 a b :: l' => match t !! a with Some f => run_actions l' (<[b := f]> t) | None => None end
  end.

(** The process group of a child with these attributes: [None] is the group of its parent,
    [Some 0] a group of its own.  The object starts without flags, and a call that sets the
    flags replaces them. *)
Definition attr_effect (g : bool * Z) (a : attr_t) : bool * Z :=
  match a with
  | Attr_init => (false, 0)
  | Attr_setpgroup pgroup => (fst g, pgroup)
  | Attr_setflags_SETPGROUP => (true, snd g)
  | Attr_setflags_SETSIGDEF => (false, snd g)
  | Attr_setsigdefault_SIGPIPE => g
  end.
Definition child_group (attr : list attr_t) : option Z :=
  let g := foldl attr_effect (false, 0) attr in if fst g then Some (snd g) else None.
