(* ===== verification/ProcessFacts.v ===== *)
(** Correctness of the child processes of Process.v: descriptors, the child's streams, the
    registry and the children given up. *)

From stdpp Require Import gmap.
From S2P Require Import Prelude CLib Process.

Module ProcessFacts.
Import Process.

Section Views.
Context {W : Type} `{PosixLaws W}.

Lemma set_cloexec_view w fd : view (snd (spine_set_cloexec w fd)) = view w.
Proof.
  unfold spine_set_cloexec. pose proof (fcntl_law w fd F_GETFD) as E1. destruct (fcntl w fd F_GETFD) as [fl w1]; cbn [snd] in *.
  destruct (fl <? 0); [done|]. pose proof (fcntl_law w1 fd (F_SETFD (Z.lor fl FD_CLOEXEC))) as E2.
  destruct (fcntl w1 fd _) as [rc w2]; cbn [snd] in *. congruence.
Qed.

Lemma close_pair_view w p : view (close_pair w p) = set_fds (delete (snd p) (delete (fst p) (fds (view w)))) (view w).
Proof. unfold close_pair. by rewrite !close_law. Qed.

Lemma set_fds_id v : set_fds (fds v) v = v.
Proof. by destruct v. Qed.
Lemma set_fds_twice m m' v : set_fds m (set_fds m' v) = set_fds m v.
Proof. done. Qed.

(** Closing both ends of a pair that was opened undoes the opening. *)
Lemma close_opened v a b k : fds v !! a = None → fds v !! b = None → a ≠ b →
  delete b (delete a (<[a := End k false]> (<[b := End k true]> (fds v)))) = fds v.
Proof.
  intros Ha Hb Hab. rewrite delete_insert_id by (by rewrite lookup_insert_ne). by rewrite delete_insert_id.
Qed.

Lemma pair_cloexec_opens v r : opens view v r → opens view v (pair_cloexec r).
Proof.
  destruct r as [[[a b]|] w]; [|done]. intros Ho. unfold pair_cloexec. cbn [fst snd].
  assert (Hclose : ∀ w', view w' = view w → view (close_pair w' (a, b)) = v).
  { intros w' Ew. destruct Ho as (_ & _ & Hab & Ha & Hb & k & _ & Ev). rewrite close_pair_view, Ew, Ev. cbn [fst snd fds set_fds].
    rewrite close_opened by done. by rewrite set_fds_twice, set_fds_id. }
  pose proof (set_cloexec_view w a) as E1. destruct (spine_set_cloexec w a) as [rc1 w1]; cbn [snd] in *.
  destruct (negb (rc1 =? 0)); [cbn; by apply Hclose|].
  pose proof (set_cloexec_view w1 b) as E2. destruct (spine_set_cloexec w1 b) as [rc2 w2]; cbn [snd] in *. assert (E : view w2 = view w) by congruence.
  destruct (negb (rc2 =? 0)); [cbn; by apply Hclose|]. cbn in *. by rewrite E.
Qed.

Lemma open_pipe_opens w : opens view (view w) (spine_open_pipe_cloexec w).
Proof. apply pair_cloexec_opens, pipe_law. Qed.

Lemma dup_cloexec_duplicates w fd : duplicates view (view w) fd (spine_dup_cloexec w fd).
Proof.
  unfold spine_dup_cloexec. pose proof (dup_law w fd) as Hd. destruct (dup w fd) as [d w1]. unfold duplicates in Hd. cbn [fst snd] in Hd.
  destruct Hd as [[-> E]|(Hd & Hn & f & Hf & E)]; [by left|]. rewrite (proj2 (Z.ltb_ge _ _) Hd).
  pose proof (set_cloexec_view w1 d) as E1. destruct (spine_set_cloexec w1 d) as [rc w2]; cbn [snd] in *. destruct (negb (rc =? 0)).
  - left. split; [done|]. cbn [snd]. rewrite close_law, E1, E. cbn [fds set_fds]. rewrite delete_insert_id by done. by rewrite set_fds_twice, set_fds_id.
  - right. split; [done|]. split; [done|]. exists f. split; [done|]. cbn [snd fst]. congruence.
Qed.

(** ** Waiting *)

Lemma wait_child_view budget : ∀ w pid d, view (snd (wait_child budget w pid d)) = view w.
Proof.
  induction budget as [|b IH]; intros w pid d; cbn [wait_child]; pose proof (waitpid_law w pid) as E1;
    destruct (waitpid w pid) as [r w1]; cbn [snd] in E1; destruct r; try done; destruct (_ =? EINTR); try done.
  destruct b as [|b]; [done|]. destruct d as [d|]; [|rewrite IH; done]. pose proof (time_law w1) as E2.
  destruct (monotonic_time w1) as [now w2]; cbn [snd] in E2. destruct (dlt now d); [rewrite IH|cbn [snd]]; congruence.
Qed.

Lemma reap_loop_view left : ∀ w pid d a, view (snd (reap_loop left w pid d a)) = view w.
Proof.
  induction left as [|l IH]; intros w pid d a; cbn [reap_loop]; [done|]. pose proof (wait_child_view 1000 w pid (Some d)) as E1.
  destruct (wait_child 1000 w pid (Some d)) as [r w1]; cbn [snd] in E1. destruct r; [done| |by destruct (_ =? ECHILD)].
  pose proof (time_law w1) as E2. destruct (monotonic_time w1) as [now w2]; cbn [snd] in E2. destruct (dle d now); [cbn [snd]; congruence|].
  rewrite IH, usleep_law. congruence.
Qed.

Lemma reap_bounded_view w pid n : view (snd (spine_reap_child_bounded w pid n)) = view w.
Proof.
  unfold spine_reap_child_bounded. destruct (n <=? 0); [done|]. pose proof (time_law w) as E. destruct (monotonic_time w) as [now w1]; cbn [snd] in E.
  rewrite reap_loop_view. done.
Qed.

Lemma sweep_loop_view turns : ∀ w l i, view (snd (sweep_loop turns w l i)) = view w.
Proof.
  induction turns as [|t IH]; intros w l i; cbn [sweep_loop]; [done|]. destruct (l !! i) as [pid|]; [|done].
  pose proof (wait_child_view 1000 w pid None) as E. destruct (wait_child 1000 w pid None) as [r w1]; cbn [snd] in E.
  destruct (child_gone r); rewrite IH; done.
Qed.

Lemma sweep_view w : ∃ l, view (nft_sweep_abandoned w) = set_children (set_abandoned l (children (view w))) (view w).
Proof.
  unfold nft_sweep_abandoned. pose proof (sweep_loop_view (length (abandoned (get_registry w))) w (abandoned (get_registry w)) 0) as E.
  destruct (sweep_loop _ w _ 0) as [l w1]; cbn [snd] in E. exists l. by rewrite put_registry_law, registry_law, E.
Qed.

(** ** Starting *)

Lemma add_actions_view new : ∀ w fa, view (snd (add_actions w fa new)) = view w.
Proof.
  induction new as [|a new IH]; intros w fa; cbn [add_actions]; [done|]. pose proof (actions_add_law w a) as E.
  destruct (file_actions_add w a) as [rc w1]; cbn [snd] in E. by rewrite IH.
Qed.

Lemma attr_call_spec w attr a : let '(rc, attr', w') := attr_call w attr a in
  view w' = view w ∧ (rc = 0 → attr' = attr ++ [a]).
Proof.
  unfold attr_call. pose proof (spawnattr_law w a) as E. destruct (spawnattr w a) as [rc w1]. split; [done|]. by intros ->.
Qed.

(** Without an error the attributes put the child into a group of its own. *)
Lemma popen_attr_spec w : let '(rc, attr, w') := popen_attr w in view w' = view w ∧ (rc = 0 → child_group attr = Some 0).
Proof.
  unfold popen_attr. pose proof (attr_call_spec w [] Attr_init) as H1. destruct (attr_call w [] Attr_init) as [[r1 a1] w1]. destruct H1 as [E1 A1].
  destruct (Z.eqb_spec r1 0) as [->|]; cbn [negb].
  2: { rewrite (proj2 (Z.eqb_neq r1 0)) by done. by split. }
  pose proof (attr_call_spec w1 a1 (Attr_setpgroup 0)) as H2. destruct (attr_call w1 a1 _) as [[r2 a2] w2]. destruct H2 as [E2 A2].
  destruct (Z.eqb_spec r2 0) as [->|]; [|split; [congruence|done]].
  pose proof (attr_call_spec w2 a2 Attr_setflags_SETPGROUP) as H3. destruct (attr_call w2 a2 _) as [[r3 a3] w3]. destruct H3 as [E3 A3].
  split; [congruence|]. intros Hr. by rewrite (A3 Hr), (A2 eq_refl), (A1 eq_refl).
Qed.

(** The redirection duplicates the child's end or leaves the descriptors alone. *)
Lemma redirect_view w read twoway p0 p1 :
  match popen_redirect w read twoway (p0, p1) with
  | (None, w') => view w' = view w
  | (Some (_, inh), w') => duplicates view (view w) (if read then p1 else p0) (inh, w')
  end.
Proof.
  unfold popen_redirect.
  assert (Hadd : ∀ w0 fa new, view w0 = view w → duplicates view (view w) (if read then p1 else p0) (-1, snd (add_actions w0 fa new))).
  { intros w0 fa new E. left. split; [done|]. cbn [snd]. by rewrite add_actions_view. }
  destruct read.
  - pose proof (add_actions_view [AddClose p0] w []) as E0. destruct (add_actions w [] [AddClose p0]) as [fa w1]; cbn [snd] in E0.
    destruct (negb _).
    + match goal with |- context [add_actions w1 fa ?n] => specialize (Hadd w1 fa n E0); destruct (add_actions w1 fa n) as [fa2 w2] end. done.
    + pose proof (dup_cloexec_duplicates w1 p1) as Hd. rewrite E0 in Hd. destruct (spine_dup_cloexec w1 p1) as [inh w2].
      destruct (inh <? 0) eqn:Ei.
      * destruct Hd as [[_ E]|(Hge & _)]; [done|]. cbn in Hge. lia.
      * match goal with |- context [add_actions w2 fa ?n] => pose proof (add_actions_view n w2 fa) as E2; destruct (add_actions w2 fa n) as [fa2 w3] end.
        cbn [snd] in E2. unfold duplicates in *. cbn [fst snd] in *. by rewrite E2.
  - destruct (negb _).
    + match goal with |- context [add_actions w [] ?n] => specialize (Hadd w [] n eq_refl); destruct (add_actions w [] n) as [fa2 w2] end. done.
    + pose proof (dup_cloexec_duplicates w p0) as Hd. destruct (spine_dup_cloexec w p0) as [inh w2].
      destruct (inh <? 0) eqn:Ei.
      * destruct Hd as [[_ E]|(Hge & _)]; [done|]. cbn in Hge. lia.
      * match goal with |- context [add_actions w2 [] ?n] => pose proof (add_actions_view n w2 []) as E2; destruct (add_actions w2 [] n) as [fa2 w3] end.
        cbn [snd] in E2. unfold duplicates in *. cbn [fst snd] in *. by rewrite E2.
Qed.

(** Every try of a spawn is the same call with the same descriptors. *)
Lemma spawn_retry_view left : ∀ w path fa attr argv, let '(e, pid, w') := spawn_retry left w path fa attr argv in
  ∃ l, view w' = add_spawned l (view w) ∧
    Forall (fun s => sp_path s = path ∧ sp_actions s = fa ∧ sp_attr s = attr ∧ sp_argv s = argv ∧ sp_fds s = fds (view w)) l ∧
    (length l ≤ S left)%nat ∧ ∃ l0 s, l = l0 ++ [s] ∧ sp_error s = e ∧ sp_pid s = pid.
Proof.
  induction left as [|n IH]; intros w path fa attr argv; cbn [spawn_retry]; pose proof (spawn_law w path fa attr argv) as E;
    destruct (posix_spawn w path fa attr argv) as [[e pid] w1].
  - assert (Hone : ∃ l, view w1 = add_spawned l (view w) ∧
      Forall (fun s => sp_path s = path ∧ sp_actions s = fa ∧ sp_attr s = attr ∧ sp_argv s = argv ∧ sp_fds s = fds (view w)) l ∧
      (length l ≤ 1)%nat ∧ ∃ l0 s, l = l0 ++ [s] ∧ sp_error s = e ∧ sp_pid s = pid).
    { eexists. split; [exact E|]. split; [by repeat constructor|]. split; [done|]. by eexists [], _. }
    destruct (_ || _); done.
  - destruct (_ || _).
    + specialize (IH (usleep w1 50000) path fa attr argv). destruct (spawn_retry n _ path fa attr argv) as [[e2 pid2] w2].
      destruct IH as (l & E2 & Hl & Hn & l0 & s & Hs & He). rewrite usleep_law, E in E2, Hl. eexists (_ :: l).
      split; [rewrite E2; unfold add_spawned; cbn; by rewrite <- app_assoc|]. split; [constructor; [done|exact Hl]|]. split; [cbn; lia|].
      eexists (_ :: l0), s. by rewrite Hs.
    + eexists. split; [exact E|]. split; [by repeat constructor|]. split; [cbn; lia|]. by eexists [], _.
Qed.

(** The file actions of a script when each of them can be recorded. *)
Definition actions_recorded : Prop := ∀ w a, fst (file_actions_add w a) = 0.
Definition redirect_actions (read twoway : bool) (a b inh : Z) : list file_action :=
  if read then let src := if inh =? -1 then b else inh in
    [AddClose a; AddDup2 src STDOUT_FILENO; AddClose src] ++ (if twoway then [AddDup2 STDOUT_FILENO STDIN_FILENO] else [])
  else let src := if inh =? -1 then a else inh in [AddDup2 src STDIN_FILENO; AddClose src; AddClose b].
Definition child_end (read : bool) (a b : Z) : Z := if read then b else a.
Definition child_std (read : bool) : Z := if read then STDOUT_FILENO else STDIN_FILENO.

Lemma add_actions_all new : actions_recorded → ∀ w fa, fst (add_actions w fa new) = fa ++ new.
Proof.
  intros Hr. induction new as [|x new IH]; intros w fa; cbn [add_actions]; [by rewrite app_nil_r|].
  pose proof (Hr w x) as E. destruct (file_actions_add w x) as [rc w1]. cbn [fst] in E. subst rc. cbn [Z.eqb]. rewrite IH. by rewrite <- app_assoc.
Qed.

Lemma redirect_recorded w read twoway a b fa inh w' : actions_recorded → popen_redirect w read twoway (a, b) = (Some (fa, inh), w') →
  fa = redirect_actions read twoway a b inh ∧ (inh = -1 ∧ child_end read a b ≠ child_std read ∨ 0 ≤ inh ∧ child_end read a b = child_std read).
Proof.
  intros Hr E. unfold popen_redirect in E. unfold redirect_actions, child_end, child_std. destruct read.
  - pose proof (add_actions_all [AddClose a] Hr w []) as E0. destruct (add_actions w [] _) as [f0 w0]. cbn [fst] in E0. subst f0.
    destruct (Z.eqb_spec b STDOUT_FILENO) as [Eb|Eb]; cbn [negb] in E.
    + destruct (spine_dup_cloexec w0 b) as [i w1]. destruct (Z.ltb_spec i 0); [done|].
      match type of E with context [add_actions w1 ?f ?n] => pose proof (add_actions_all n Hr w1 f) as E1; destruct (add_actions w1 f n) as [f1 w2] end.
      injection E as <- <- <-. cbn [fst] in E1. subst f1. rewrite (proj2 (Z.eqb_neq i (-1))) by lia. split; [done|]. by right.
    + match type of E with context [add_actions w0 ?f ?n] => pose proof (add_actions_all n Hr w0 f) as E1; destruct (add_actions w0 f n) as [f1 w2] end.
      injection E as <- <- <-. cbn [fst] in E1. subst f1. split; [done|]. by left.
  - destruct (Z.eqb_spec a STDIN_FILENO) as [Ea|Ea]; cbn [negb] in E.
    + destruct (spine_dup_cloexec w a) as [i w1]. destruct (Z.ltb_spec i 0); [done|].
      match type of E with context [add_actions w1 ?f ?n] => pose proof (add_actions_all n Hr w1 f) as E1; destruct (add_actions w1 f n) as [f1 w2] end.
      injection E as <- <- <-. cbn [fst] in E1. subst f1. rewrite (proj2 (Z.eqb_neq i (-1))) by lia. split; [done|]. by right.
    + match type of E with context [add_actions w ?f ?n] => pose proof (add_actions_all n Hr w f) as E1; destruct (add_actions w f n) as [f1 w2] end.
      injection E as <- <- <-. cbn [fst] in E1. subst f1. split; [done|]. by left.
Qed.

(** The spawn of a script on the channel [k] with ends [a] and [b]. *)
Definition script_spawn (read twoway : bool) (command : cstr) (a b : Z) (k : nat) (m : gmap Z file) (others : list (Z * Z)) (s : spawn_t) : Prop :=
  sp_path s = $"/bin/sh" ∧ sp_argv s = [$"sh"; $"-c"; command] ∧ child_group (sp_attr s) = Some 0 ∧
  (actions_recorded → ∃ inh, sp_actions s = redirect_actions read twoway a b inh ++ close_others read twoway others ∧
     let t := <[a := End k false]> (<[b := End k true]> m) in
     (inh = -1 ∧ child_end read a b ≠ child_std read ∧ sp_fds s = t ∨
      0 ≤ inh ∧ child_end read a b = child_std read ∧ t !! inh = None ∧ sp_fds s = <[inh := End k read]> t)).

Definition parent_end (read : bool) (a b : Z) : Z := if read then a else b.

(** What a start leaves behind: nothing, or the parent's end and its entry. *)
Definition started (read twoway : bool) (command : cstr) (v v' : os) (r : Z) : Prop :=
  locked v' = locked v ∧ (killed v' = killed v ∧ scripts_held v' = scripts_held v) ∧
  ((r = -1 ∧ fds v' = fds v ∧ pid_list (children v') = pid_list (children v) ∧ spawned v' = spawned v) ∨
   ∃ a b k l, 0 ≤ a ∧ 0 ≤ b ∧ a ≠ b ∧ fds v !! a = None ∧ fds v !! b = None ∧ fresh_channel k v ∧
     spawned v' = spawned v ++ l ∧ Forall (script_spawn read twoway command a b k (fds v) (pid_list (children v))) l ∧
     (r = -1 ∧ fds v' = fds v ∧ pid_list (children v') = pid_list (children v) ∨
      r = parent_end read a b ∧ fds v' = <[r := End k (negb read)]> (fds v) ∧
      ∃ l0 s, l = l0 ++ [s] ∧ sp_error s = 0 ∧ pid_list (children v') = (r, sp_pid s) :: pid_list (children v))).

Section Start.
Context (v : os) (a b : Z) (k : nat).
Hypothesis (Ha : fds v !! a = None) (Hb : fds v !! b = None) (Hab : a ≠ b).
Let t : gmap Z file := <[a := End k false]> (<[b := End k true]> (fds v)).

(** [w] is [v] with the channel open, the list locked and swept, and possibly spawns. *)
Definition in_start (l : list spawn_t) (w : W) : Prop :=
  fds (view w) = t ∧ locked (view w) = locked v + 1 ∧ (killed (view w) = killed v ∧ scripts_held (view w) = scripts_held v) ∧
  pid_list (children (view w)) = pid_list (children v) ∧ spawned (view w) = spawned v ++ l.

Lemma in_start_view l w w' : in_start l w → view w' = view w → in_start l w'.
Proof. unfold in_start. by intros ? ->. Qed.

(** Failing returns both ends. *)
Lemma fail_closes l w : in_start l w → let w' := list_unlock (close_pair w (a, b)) in
  fds (view w') = fds v ∧ locked (view w') = locked v ∧ (killed (view w') = killed v ∧ scripts_held (view w') = scripts_held v) ∧
  pid_list (children (view w')) = pid_list (children v) ∧ spawned (view w') = spawned v ++ l.
Proof.
  intros (E1 & E2 & E3 & E4 & E5) w'. unfold w'. rewrite unlock_law, close_pair_view. cbn [fst snd fds locked killed scripts_held children spawned add_locked set_fds].
  rewrite E1, E2. unfold t. rewrite close_opened by done. destruct E3. repeat split; [lia|done..].
Qed.

(** A duplicate of the child's end is gone again after [close_inherited]. *)
Lemma inherited_closes w w' fd inh : duplicates view (view w) fd (inh, w') →
  ∀ w'' l, view w'' = add_spawned l (view w') → view (close_inherited w'' inh) = add_spawned l (view w).
Proof.
  intros Hd w'' l E. unfold close_inherited. destruct Hd as [[Hi Ev]|(Hi & Hn & f & _ & Ev)]; cbn [fst snd] in *.
  - subst inh. rewrite Z.eqb_refl. cbn [negb]. by rewrite E, Ev.
  - rewrite (proj2 (Z.eqb_neq inh (-1))) by lia. cbn [negb]. rewrite close_law, E, Ev. unfold add_spawned, set_fds. cbn.
    by rewrite delete_insert_id.
Qed.

(** Success keeps the parent's end and registers the child. *)
Lemma success_started (Hpos : 0 ≤ a ∧ 0 ≤ b) (Hk : fresh_channel k v) w read twoway command l l0 s : in_start l w →
  Forall (script_spawn read twoway command a b k (fds v) (pid_list (children v))) l → l = l0 ++ [s] → sp_error s = 0 →
  let fd := parent_end read a b in let w1 := close w (child_end read a b) in
  started read twoway command v
    (view (list_unlock (put_registry w1 (set_pid_list ((fd, sp_pid s) :: pid_list (get_registry w1)) (get_registry w1))))) fd.
Proof.
  intros (G1 & G2 & G3 & G4 & G5) Hl Els He fd w1. unfold w1. rewrite unlock_law, put_registry_law, registry_law, close_law.
  unfold started. cbn [fds locked killed scripts_held children spawned pid_list add_locked set_children set_fds set_pid_list]. split; [lia|]. split; [done|]. right.
  exists a, b, k, l. destruct Hpos. repeat split; try done. right. split; [done|]. split.
  - rewrite G1. unfold t, fd. destruct read; cbn [parent_end child_end negb].
    + rewrite delete_insert_ne by done. by rewrite delete_insert_id.
    + by rewrite delete_insert_id by (by rewrite lookup_insert_ne).
  - exists l0, s. split; [done|]. split; [done|]. by rewrite G4.
Qed.

Lemma popen_spawn_started (Hpos : 0 ≤ a ∧ 0 ≤ b) (Hk : fresh_channel k v) w read twoway command : in_start [] w →
  let '(r, w') := popen_spawn w read twoway (a, b) command in started read twoway command v (view w') r.
Proof.
  intros Hw. unfold popen_spawn.
  assert (Hfail : ∀ w0 l, in_start l w0 → Forall (script_spawn read twoway command a b k (fds v) (pid_list (children v))) l →
    started read twoway command v (view (list_unlock (close_pair w0 (a, b)))) (-1)).
  { intros w0 l Hw0 Hl. destruct (fail_closes l w0 Hw0) as (F1 & F2 & F3 & F4 & F5). split; [done|]. split; [done|]. right.
    exists a, b, k, l. destruct Hpos. by repeat split; [..|left]. }
  pose proof (actions_init_law w) as E1. destruct (file_actions_init w) as [rc w1]; cbn [snd] in E1.
  pose proof (in_start_view _ _ _ Hw E1) as Hw1. destruct (negb (rc =? 0)); [by apply (Hfail w1 [])|].
  pose proof (popen_attr_spec w1) as E2. destruct (popen_attr w1) as [[ae attr] w2]. destruct E2 as [E2 Hattr].
  pose proof (in_start_view _ _ _ Hw1 E2) as Hw2. destruct (Z.eqb_spec ae 0) as [->|]; cbn [negb]; [|by apply (Hfail w2 [])].
  pose proof (redirect_view w2 read twoway a b) as Hd. pose proof (redirect_recorded w2 read twoway a b) as Hrec.
  destruct (popen_redirect w2 read twoway (a, b)) as [[[fa inh]|] w3]; [|by apply (Hfail w3 []); [eapply in_start_view|]].
  fold (child_end read a b) in Hd.
  pose proof (add_actions_view (close_others read twoway (pid_list (get_registry w3))) w3 fa) as E4.
  pose proof (fun Hr => add_actions_all (close_others read twoway (pid_list (get_registry w3))) Hr w3 fa) as A4.
  assert (Hpl : pid_list (get_registry w3) = pid_list (children v)).
  { rewrite registry_law. destruct Hw2 as (_ & _ & _ & <- & _). destruct Hd as [[_ E]|(_ & _ & f & _ & E)]; cbn [snd] in E; by rewrite E. }
  rewrite Hpl in E4, A4. rewrite Hpl. destruct (add_actions w3 fa _) as [fa4 w4]; cbn [fst snd] in E4, A4.
  pose proof (spawn_retry_view 3 w4 ($"/bin/sh") fa4 attr [$"sh"; $"-c"; command]) as Hs.
  destruct (spawn_retry 3 w4 _ fa4 _ _) as [[e pid] w5]. destruct Hs as (l & E5 & Hl & _ & l0 & s & Els & He & Hpid). rewrite E4 in E5.
  pose proof (inherited_closes w2 w3 _ inh Hd w5 l E5) as Hci. set (w6 := close_inherited w5 inh) in *.
  assert (Hw6 : in_start l w6).
  { destruct Hw2 as (G1 & G2 & G3 & G4 & G5). unfold in_start. rewrite Hci. cbn [fds locked killed scripts_held children spawned add_spawned]. by rewrite G5, app_nil_r. }
  assert (Hspawn : Forall (script_spawn read twoway command a b k (fds v) (pid_list (children v))) l).
  { eapply Forall_impl; [|exact Hl]. intros s' (P1 & P2 & P3 & P4 & P5). split; [done|]. split; [done|]. split; [rewrite P3; by apply Hattr|]. intros Hr.
    destruct (Hrec fa inh w3 Hr eq_refl) as [Efa Hinh]. exists inh. split; [rewrite P2, (A4 Hr), Efa; done|].
    destruct Hw2 as (G1 & _). rewrite E4 in P5. cbv zeta. fold t. destruct Hd as [[Hi Ev]|(Hi & Hn & f & Hf & Ev)]; cbn [fst snd] in *.
    - left. destruct Hinh as [[? ?]|[? ?]]; [|lia]. by rewrite P5, Ev.
    - right. destruct Hinh as [[? ?]|[? ?]]; [lia|]. rewrite G1 in Hn, Hf, Ev. rewrite P5, Ev. cbn [fds set_fds].
      repeat split; [done..|]. unfold child_end, t in Hf. destruct read; rewrite ?lookup_insert_ne, ?lookup_insert_eq in Hf by done; by injection Hf as <-. }
  destruct (Z.eqb_spec e 0) as [->|Hne]; cbn [negb]; [|unfold spawn_failed; fold w6; by apply (Hfail w6 l)].
  cbn [fst snd]. subst pid. pose proof (success_started Hpos Hk w6 read twoway command l l0 s Hw6 Hspawn Els He) as Hok. by destruct read.
Qed.

End Start.

Lemma popen_started w command type read twoway : popen_mode type = Some (read, twoway) →
  let '(r, w') := nft_popen w command type in started read twoway command (view w) (view w') r.
Proof.
  intros Hm. unfold nft_popen. rewrite Hm.
  assert (Hnone : ∀ w', view w' = view w → started read twoway command (view w) (view w') (-1)) by (intros w' ->; split; [done|split; [done|by left]]).
  assert (Ho : opens view (view w) (if twoway then pair_cloexec (socketpair w) else spine_open_pipe_cloexec w)).
  { destruct twoway; [apply pair_cloexec_opens, socketpair_law|apply open_pipe_opens]. }
  destruct (if twoway then _ else _) as [[[a b]|] w1]; [|by apply Hnone]. destruct Ho as (H0a & H0b & Hab & Ha & Hb & k & Hk & Ev).
  assert (Hclose : ∀ w', view w' = view w1 → started read twoway command (view w) (view (close_pair w' (a, b))) (-1)).
  { intros w' E. apply Hnone. rewrite close_pair_view, E, Ev. cbn [fst snd fds set_fds]. by rewrite close_opened, set_fds_twice, set_fds_id. }
  pose proof (malloc_law w1) as E1. destruct (attempt_malloc w1) as [c1 w2]; cbn [snd] in E1. destruct (negb c1); [by apply Hclose|].
  pose proof (malloc_law w2) as E2. destruct (attempt_malloc w2) as [c2 w3]; cbn [snd] in E2. destruct (negb c2); [apply Hclose; congruence|].
  apply (popen_spawn_started (view w) a b k); [done..|]. destruct (sweep_view (list_lock w3)) as [ab E]. unfold in_start. rewrite E, lock_law, E2, E1, Ev. cbn. by rewrite app_nil_r.
Qed.

(** A descriptor returned is new, and registered. *)
Lemma popen_registers w command type : let '(fd, w') := nft_popen w command type in
  0 ≤ fd → fds (view w) !! fd = None ∧ ∃ f pid, fds (view w') = <[fd := f]> (fds (view w)) ∧ pid_list (children (view w')) = (fd, pid) :: pid_list (children (view w)).
Proof.
  destruct (popen_mode type) as [[read twoway]|] eqn:Em; [|unfold nft_popen; rewrite Em; lia].
  pose proof (popen_started w command type read twoway Em) as Hs. destruct (nft_popen w command type) as [fd w']. intros Hfd.
  destruct Hs as (_ & _ & [(-> & _)|(a & b & k & l & _ & _ & _ & Na & Nb & _ & _ & _ & [(-> & _)|(-> & Hf & l0 & s & _ & _ & Hp)])]); [lia..|].
  split; [by destruct read|]. by exists (End k (negb read)), (sp_pid s).
Qed.

(** Processes do not touch the permits. *)
Lemma popen_held w command type : scripts_held (view (snd (nft_popen w command type))) = scripts_held (view w).
Proof.
  destruct (popen_mode type) as [[read twoway]|] eqn:Em; [|unfold nft_popen; by rewrite Em].
  pose proof (popen_started w command type read twoway Em) as Hs. destruct (nft_popen w command type) as [fd w']. apply Hs.
Qed.

(** ** The child's descriptors *)

Lemma run_actions_app l1 l2 t : run_actions (l1 ++ l2) t = t' ← run_actions l1 t; run_actions l2 t'.
Proof.
  revert t. induction l1 as [|[fd|x y] l1 IH]; intros t; cbn [run_actions app]; [done| |].
  - destruct (t !! fd); [apply IH|done].
  - destruct (t !! x); [apply IH|done].
Qed.

Lemma run_closes l : ∀ t, NoDup l → (∀ x, x ∈ l → t !! x ≠ None) →
  ∃ t', run_actions (map AddClose l) t = Some t' ∧ ∀ x, t' !! x = if decide (x ∈ l) then None else t !! x.
Proof.
  induction l as [|fd l IH]; intros t Hnd Hin.
  - exists t. split; [done|]. intros x. destruct (decide (x ∈ [])) as [Hx|]; [by apply not_elem_of_nil in Hx|done].
  - apply list.NoDup_cons in Hnd as [Hnin Hnd]. cbn [map run_actions]. destruct (t !! fd) as [f|] eqn:Ef; [|destruct (Hin fd); [left|done]].
    destruct (IH (delete fd t) Hnd) as (t' & E & Ht').
    { intros x Hx. rewrite lookup_delete_ne by (intros ->; done). apply Hin. by right. }
    exists t'. split; [done|]. intros x. rewrite Ht'. destruct (decide (x = fd)) as [->|Hne].
    + rewrite (decide_True (P := fd ∈ fd :: l)) by left. rewrite decide_False by done. apply lookup_delete_eq.
    + destruct (decide (x ∈ l)) as [Hx|Hx].
      * by rewrite decide_True by (by right).
      * rewrite decide_False by (intros [?|?]%elem_of_cons; done). by rewrite lookup_delete_ne.
Qed.

Definition child_stream (twoway : bool) (x : Z) : bool := (x =? STDOUT_FILENO) || twoway && (x =? STDIN_FILENO).

(** A redirection for reading leaves the second end on the child's standard output (and
    input), and nothing else changed. *)
Lemma redirect_runs twoway a b inh k m t0 : a ≠ b → m !! a = None → m !! b = None → 0 ≤ b →
  (let t := <[a := End k false]> (<[b := End k true]> m) in
   inh = -1 ∧ b ≠ STDOUT_FILENO ∧ t0 = t ∨ 0 ≤ inh ∧ b = STDOUT_FILENO ∧ t !! inh = None ∧ t0 = <[inh := End k true]> t) →
  ∃ t1, run_actions (redirect_actions true twoway a b inh) t0 = Some t1 ∧
    ∀ x, t1 !! x = if child_stream twoway x then Some (End k true) else m !! x.
Proof.
  intros Hab Ha Hb Hpos Ht. cbv zeta in Ht.
  assert (Hsrc : ∃ src, (if inh =? -1 then b else inh) = src ∧ src ≠ a ∧ src ≠ STDOUT_FILENO ∧ t0 !! a = Some (End k false) ∧
    t0 !! src = Some (End k true) ∧ ∀ x, x ≠ a → x ≠ src → x ≠ STDOUT_FILENO → t0 !! x = m !! x).
  { destruct Ht as [(-> & Hb1 & ->)|(Hi & -> & Hn & ->)].
    - exists b. rewrite Z.eqb_refl. repeat split; [done..|by rewrite lookup_insert_eq|by rewrite lookup_insert_ne, lookup_insert_eq|].
      intros x Hxa Hxb _. by rewrite !lookup_insert_ne.
    - rewrite (proj2 (Z.eqb_neq inh (-1))) by lia. exists inh.
      assert (inh ≠ a) by (intros ->; by rewrite lookup_insert_eq in Hn).
      assert (inh ≠ STDOUT_FILENO) by (intros ->; by rewrite lookup_insert_ne, lookup_insert_eq in Hn by done).
      repeat split; [done..|by rewrite lookup_insert_ne, lookup_insert_eq|by rewrite lookup_insert_eq|].
      intros x Hxa Hxb Hx1. by rewrite !lookup_insert_ne. }
  destruct Hsrc as (src & Esrc & Hsa & Hs1 & Ea & Es & Hrest). unfold redirect_actions. rewrite Esrc. cbn [app run_actions].
  rewrite Ea, (lookup_delete_ne _ a src), Es, (lookup_insert_ne _ STDOUT_FILENO src), (lookup_delete_ne _ a src), Es by done.
  set (t1 := delete src (<[STDOUT_FILENO := End k true]> (delete a t0))).
  assert (H1 : t1 !! STDOUT_FILENO = Some (End k true)) by (unfold t1; by rewrite lookup_delete_ne, lookup_insert_eq).
  assert (Hx : ∀ x, x ≠ STDOUT_FILENO → t1 !! x = m !! x).
  { intros x Hx. unfold t1. destruct (decide (x = src)) as [->|Hxs].
    - rewrite lookup_delete_eq. destruct Ht as [(-> & _ & _)|(Hi & -> & Hn & _)].
      + rewrite Z.eqb_refl in Esrc. by subst.
      + rewrite (proj2 (Z.eqb_neq inh (-1))) in Esrc by lia. subst inh. by rewrite !lookup_insert_ne in Hn.
    - rewrite lookup_delete_ne, lookup_insert_ne by done. destruct (decide (x = a)) as [->|Hxa]; [by rewrite lookup_delete_eq|].
      rewrite lookup_delete_ne by done. by apply Hrest. }
  unfold child_stream. destruct twoway; cbn [run_actions].
  - rewrite H1. eexists. split; [done|]. intros x. destruct (Z.eqb_spec x STDOUT_FILENO) as [->|Hx1]; [by rewrite lookup_insert_ne|].
    destruct (Z.eqb_spec x STDIN_FILENO) as [->|Hx0]; cbn [orb andb]; [by rewrite lookup_insert_eq|]. rewrite lookup_insert_ne by done. by apply Hx.
  - eexists. split; [done|]. intros x. destruct (Z.eqb_spec x STDOUT_FILENO) as [->|Hx1]; [done|]. by apply Hx.
Qed.

(** The registry names distinct open descriptors. *)
Definition registered (v : os) : Prop :=
  NoDup (map fst (pid_list (children v))) ∧ ∀ p, p ∈ pid_list (children v) → fds v !! fst p ≠ None.

Lemma child_runs v twoway command a b k s : registered v → actions_recorded → a ≠ b → 0 ≤ b → fds v !! a = None → fds v !! b = None →
  script_spawn true twoway command a b k (fds v) (pid_list (children v)) s →
  ∃ t, run_actions (sp_actions s) (sp_fds s) = Some t ∧
    ∀ x, t !! x = if child_stream twoway x then Some (End k true) else if decide (x ∈ map fst (pid_list (children v))) then None else fds v !! x.
Proof.
  intros [Hnd Hopen] Hr Hab Hpos Ha Hb (_ & _ & _ & Hs). destruct (Hs Hr) as (inh & -> & Ht). cbn [child_end child_std] in Ht.
  destruct (redirect_runs twoway a b inh k (fds v) (sp_fds s) Hab Ha Hb Hpos Ht) as (t1 & E1 & H1).
  set (L := map fst (filter (fun p => redirected true twoway (fst p) = false) (pid_list (children v)))).
  assert (HL : ∀ x, x ∈ L ↔ child_stream twoway x = false ∧ x ∈ map fst (pid_list (children v))).
  { intros x. unfold L. rewrite !list_elem_of_fmap. unfold redirected, child_stream. cbn [negb andb]. setoid_rewrite list_elem_of_filter.
    split; [intros (p & -> & Hf & Hp)|intros (Hf & p & -> & Hp)]; [split|exists p]; repeat split; eauto; by destruct (_ =? _), twoway, (_ =? _). }
  destruct (run_closes L t1) as (t & E & Ht').
  { unfold L. clear -Hnd. induction (pid_list (children v)) as [|p l IH]; [constructor|]. cbn [map] in Hnd. apply list.NoDup_cons in Hnd as [Hn Hnd].
    rewrite filter_cons. destruct (decide _); [|by apply IH]. cbn [map]. apply list.NoDup_cons. split; [|by apply IH].
    intros (q & Eq & [_ Hq]%list_elem_of_filter)%list_elem_of_fmap. apply Hn. apply list_elem_of_fmap. by exists q. }
  { intros x [Hc (p & -> & Hp)%list_elem_of_fmap]%HL. rewrite H1, Hc. by apply Hopen. }
  exists t. split.
  - rewrite run_actions_app, E1. cbn [mbind option_bind]. unfold close_others. rewrite <- E. f_equal. unfold L. by rewrite map_map.
  - intros x. rewrite Ht', H1. destruct (decide (x ∈ L)) as [Hin|Hin].
    + apply HL in Hin as [-> Hx]. by rewrite decide_True.
    + destruct (child_stream twoway x) eqn:Ec; [done|]. rewrite decide_False; [done|]. intros Hx. apply Hin, HL. done.
Qed.

(** ** The children given up *)

Lemma remove_swap_split l1 pid l2 : ∃ l3, remove_swap (length l1) (l1 ++ pid :: l2) = l1 ++ l3 ∧ l3 ≡ₚ l2.
Proof.
  unfold remove_swap. destruct l2 as [|x l2 _] using rev_ind.
  - exists []. rewrite length_app. cbn [length]. replace (length l1 + 1 - 1)%nat with (length l1) by lia.
    rewrite list_lookup_middle by done. rewrite insert_app_r_alt, Nat.sub_diag by lia. split; [|done]. by rewrite take_app_length, app_nil_r.
  - exists (x :: l2). replace (length (l1 ++ pid :: l2 ++ [x]) - 1)%nat with (length l1 + S (length l2))%nat
      by (rewrite !length_app; cbn [length]; rewrite length_app; cbn [length]; lia).
    rewrite lookup_app_r by lia. replace (length l1 + S (length l2) - length l1)%nat with (S (length l2)) by lia.
    replace ((pid :: l2 ++ [x]) !! S (length l2)) with (Some x) by (change (Some x = (l2 ++ [x]) !! length l2); by rewrite list_lookup_middle).
    split; [|by rewrite Permutation_cons_append]. rewrite insert_app_r_alt, Nat.sub_diag by lia. cbn [insert list_insert].
    rewrite take_app_add. f_equal. cbn [take]. f_equal. by rewrite take_app_length.
Qed.

Lemma wait_child_answer (answer : Z → wait_result) : (∀ w pid, fst (waitpid w pid) = answer pid) →
  ∀ budget w pid, fst (wait_child budget w pid None) = answer pid.
Proof.
  intros Ha. induction budget as [|n IH]; intros w pid; cbn [wait_child]; pose proof (Ha w pid) as E; destruct (waitpid w pid) as [r w1];
    cbn [fst] in E; subst r; destruct (answer pid) eqn:Er; try done; destruct (_ =? EINTR); try done.
  destruct n as [|n]; [done|]. by rewrite IH.
Qed.

Lemma sweep_loop_keeps (answer : Z → wait_result) : (∀ w pid, fst (waitpid w pid) = answer pid) →
  ∀ turns w l1 l2, (length l2 ≤ turns)%nat →
  fst (sweep_loop turns w (l1 ++ l2) (length l1)) ≡ₚ l1 ++ filter (fun p => child_gone (answer p) = false) l2.
Proof.
  intros Ha. induction turns as [|n IH]; intros w l1 l2 Hl; cbn [sweep_loop].
  { destruct l2; [by rewrite filter_nil|cbn in Hl; lia]. }
  destruct l2 as [|pid l2]; [rewrite filter_nil, app_nil_r, lookup_ge_None_2 by done; done|]. rewrite list_lookup_middle by done.
  pose proof (wait_child_answer answer Ha 1000 w pid) as E. destruct (wait_child 1000 w pid None) as [r w1]. cbn [fst] in E. subst r.
  cbn [length] in Hl. rewrite filter_cons. destruct (child_gone (answer pid)) eqn:Eg.
  - rewrite decide_False by done. destruct (remove_swap_split l1 pid l2) as (l3 & -> & Hp). rewrite IH by (rewrite Hp; lia). by rewrite Hp.
  - rewrite decide_True by done. replace (l1 ++ pid :: l2) with ((l1 ++ [pid]) ++ l2) by (by rewrite <- app_assoc).
    replace (S (length l1)) with (length (l1 ++ [pid])) by (rewrite length_app; cbn; lia). rewrite IH by lia. by rewrite <- app_assoc.
Qed.

Lemma sweep_loop_length turns : ∀ w l i, (length (fst (sweep_loop turns w l i)) ≤ length l)%nat.
Proof.
  induction turns as [|n IH]; intros w l i; cbn [sweep_loop]; [done|]. destruct (l !! i) as [pid|] eqn:E; [|done].
  destruct (wait_child 1000 w pid None) as [r w1]. destruct (child_gone r); [|apply IH]. etrans; [apply IH|].
  apply list_elem_of_split_length in E as (l1 & l2 & -> & ->). destruct (remove_swap_split l1 pid l2) as (l3 & -> & Hp).
  rewrite !length_app, Hp. cbn. lia.
Qed.

Lemma sweep_length w : (length (abandoned (children (view (nft_sweep_abandoned w)))) ≤ length (abandoned (children (view w))))%nat.
Proof.
  unfold nft_sweep_abandoned. pose proof (sweep_loop_length (length (abandoned (get_registry w))) w (abandoned (get_registry w)) 0) as E.
  destruct (sweep_loop _ w _ 0) as [l w1]. rewrite put_registry_law. cbn [fst] in E. rewrite registry_law in E. done.
Qed.

(** Within the bound of the array. *)
Definition parked_bound (v : os) : Prop := Z.of_nat (length (abandoned (children v))) ≤ NFT_ABANDONED_MAX.

(** A child given up is parked, unless all places are taken. *)
Lemma abandon_view w pid : ∃ l, view (nft_abandon_child w pid) = set_children (set_abandoned l (children (view w))) (view w) ∧
  (parked_bound (view w) → Z.of_nat (length l) ≤ NFT_ABANDONED_MAX ∧ (pid ∈ l ∨ Z.of_nat (length l) = NFT_ABANDONED_MAX)).
Proof.
  unfold nft_abandon_child. destruct (sweep_view (list_lock w)) as [l E]. pose proof (sweep_length (list_lock w)) as Hl. rewrite E, lock_law in Hl.
  cbn [children set_children add_locked abandoned set_abandoned] in Hl. rewrite registry_law, E.
  cbn [children set_children add_locked abandoned set_abandoned]. rewrite lock_law in E |- *. unfold parked_bound.
  destruct (Z.ltb_spec (Z.of_nat (length l)) NFT_ABANDONED_MAX) as [Hlt|Hge].
  - exists (l ++ [pid]). rewrite unlock_law, put_registry_law, E. split; [|intros _; split; [rewrite length_app; cbn; lia|left; apply elem_of_app; right; left]].
    unfold add_locked, set_children, set_abandoned. cbn. f_equal. lia.
  - exists l. rewrite unlock_law, E. split; [|intros Hb; lia]. unfold add_locked, set_children. cbn. f_equal. lia.
Qed.

Lemma take_entry_spec fd l : match take_entry fd l with
  | Some (pid, l') => ∃ l1 l2, l = l1 ++ (fd, pid) :: l2 ∧ l' = l1 ++ l2
  | None => fd ∉ map fst l
  end.
Proof.
  induction l as [|[fd' pid] l IH]; cbn [take_entry]; [apply not_elem_of_nil|]. destruct (Z.eqb_spec fd' fd) as [->|Hne]; [by exists [], l|].
  destruct (take_entry fd l) as [[p l']|]; cbn [mbind option_bind].
  - destruct IH as (l1 & l2 & -> & ->). by exists ((fd', pid) :: l1), l2.
  - cbn [map fst]. intros [?|?]%elem_of_cons; done.
Qed.

(** [pid] is gone: the very last call, made in [w1], was a [waitpid] for it that reaped it
    with status [r], or that knows no such child, which counts as status 0. *)
Definition waited_for (pid r : Z) (w' : W) : Prop :=
  ∃ w1, waitpid w1 pid = (WaitReaped r, w') ∨ waitpid w1 pid = (WaitError ECHILD, w') ∧ r = 0.

Lemma wait_child_last budget : ∀ w pid d, let '(r, w') := wait_child budget w pid d in
  child_gone r = true → ∃ w1, waitpid w1 pid = (r, w').
Proof.
  induction budget as [|b IH]; intros w pid d; cbn [wait_child]; destruct (waitpid w pid) as [r w1] eqn:E; destruct r; try (by eauto);
    destruct (Z.eqb_spec errno EINTR) as [->|]; try (by eauto).
  destruct b as [|b]; [by eauto|]. destruct d as [d|]; [|apply IH]. destruct (monotonic_time w1) as [now w2]. destruct (dlt now d); [apply IH|done].
Qed.

Lemma reap_loop_last left : ∀ w pid d a, let '(r, w') := reap_loop left w pid d a in
  match r with Reaped status => waited_for pid status w' | _ => True end.
Proof.
  induction left as [|l IH]; intros w pid d a; cbn [reap_loop]; [done|]. pose proof (wait_child_last 1000 w pid (Some d)) as Hl.
  destruct (wait_child 1000 w pid (Some d)) as [r w1]. destruct r as [st| |e].
  - destruct (Hl eq_refl) as [w0 E]. exists w0. by left.
  - destruct (monotonic_time w1) as [now w2]. destruct (dle d now); [done|apply IH].
  - cbn [child_gone] in Hl. destruct (Z.eqb_spec e ECHILD) as [->|]; [|done]. destruct (Hl eq_refl) as [w0 E]. exists w0. by right.
Qed.

Lemma reap_bounded_last w pid n : let '(r, w') := spine_reap_child_bounded w pid n in
  match r with Reaped status => waited_for pid status w' | _ => True end.
Proof.
  unfold spine_reap_child_bounded. destruct (n <=? 0); [done|]. destruct (monotonic_time w) as [now w1]. apply reap_loop_last.
Qed.

(** What ending a script leaves: its descriptor closed, its entry gone, and the child
    reaped or killed with its group and parked. *)
Lemma pclose_view w fd pid l : take_entry fd (pid_list (children (view w))) = Some (pid, l) →
  let '(r, w') := nft_pclose w fd in
  fds (view w') = delete fd (fds (view w)) ∧ pid_list (children (view w')) = l ∧ locked (view w') = locked (view w) ∧ spawned (view w') = spawned (view w) ∧
  (waited_for pid r w' ∧ killed (view w') = killed (view w) ∧ abandoned (children (view w')) = abandoned (children (view w)) ∨
   r = -1 ∧ killed (view w') = killed (view w) ++ [(- pid, SIGKILL)] ∧
   (parked_bound (view w) → pid ∈ abandoned (children (view w')) ∨ Z.of_nat (length (abandoned (children (view w')))) = NFT_ABANDONED_MAX)) ∧
  (parked_bound (view w) → parked_bound (view w')).
Proof.
  intros Ht. unfold nft_pclose, pid_list_close_and_take. rewrite registry_law, lock_law. cbn [children add_locked]. rewrite Ht.
  set (w1 := list_unlock _). assert (E1 : view w1 = set_children (set_pid_list l (children (view w))) (set_fds (delete fd (fds (view w))) (view w))).
  { unfold w1. rewrite unlock_law, put_registry_law, registry_law, close_law, lock_law. unfold add_locked, set_children, set_fds, set_pid_list. cbn. f_equal. lia. }
  pose proof (reap_bounded_view w1 pid NFT_PCLOSE_SPIN_ATTEMPTS) as E2. pose proof (reap_bounded_last w1 pid NFT_PCLOSE_SPIN_ATTEMPTS) as Hlast.
  destruct (spine_reap_child_bounded w1 pid _) as [r w2]; cbn [snd] in E2.
  assert (Hgive : let w' := nft_abandon_child (kill w2 (- pid) SIGKILL) pid in
    fds (view w') = delete fd (fds (view w)) ∧ pid_list (children (view w')) = l ∧ locked (view w') = locked (view w) ∧ spawned (view w') = spawned (view w) ∧
    (killed (view w') = killed (view w) ++ [(- pid, SIGKILL)] ∧
     (parked_bound (view w) → (pid ∈ abandoned (children (view w')) ∨ Z.of_nat (length (abandoned (children (view w')))) = NFT_ABANDONED_MAX) ∧ parked_bound (view w')))).
  { destruct (abandon_view (kill w2 (- pid) SIGKILL) pid) as (ab & E3 & Hab). cbv zeta. unfold parked_bound in Hab |- *. rewrite E3.
    rewrite kill_law, E2, E1 in Hab |- *. cbn in Hab |- *. repeat split; try done; by apply Hab. }
  destruct r as [st| |].
  - rewrite E2, E1. unfold parked_bound. cbn. repeat split; try done. by left.
  - destruct Hgive as (G1 & G2 & G3 & G4 & G5 & G6). repeat split; try done; [right; repeat split; [done|by apply G6]|apply G6].
  - destruct Hgive as (G1 & G2 & G3 & G4 & G5 & G6). repeat split; try done; [right; repeat split; [done|by apply G6]|apply G6].
Qed.

Lemma pclose_held w fd : scripts_held (view (snd (nft_pclose w fd))) = scripts_held (view w).
Proof.
  unfold nft_pclose, pid_list_close_and_take. destruct (take_entry fd _) as [[pid l]|]; cbn [snd]; [|by rewrite unlock_law, lock_law].
  match goal with |- context [spine_reap_child_bounded ?x pid _] => set (w1 := x) end.
  assert (E1 : scripts_held (view w1) = scripts_held (view w)) by (unfold w1; by rewrite unlock_law, put_registry_law, close_law, lock_law).
  pose proof (reap_bounded_view w1 pid NFT_PCLOSE_SPIN_ATTEMPTS) as E2. destruct (spine_reap_child_bounded w1 pid _) as [r w2]; cbn [snd] in E2.
  destruct (abandon_view (kill w2 (- pid) SIGKILL) pid) as (ab & E3 & _). rewrite kill_law, E2 in E3. destruct r; cbn [snd]; rewrite ?E3, ?E2; done.
Qed.

End Views.
End ProcessFacts.
Import ProcessFacts.

(** * A machine *)

Module Machine.
Import Process.

(** The lowest free descriptor below 64. *)
Fixpoint free_from (n : nat) (fd : Z) (m : gmap Z file) : option Z :=
  match n with O => None | S n' => match m !! fd with None => Some fd | Some _ => free_from n' (fd + 1) m end end.
Definition channel_of (f : file) : nat := match f with End k _ => k | OtherFile _ => 0 end.
Definition new_channel (m : gmap Z file) : nat := S (list_max (map (fun p => channel_of (snd p)) (map_to_list m))).
Definition open_pair (v : os) : option (Z * Z) * os :=
  match free_from 64 0 (fds v) with
  | None => (None, v)
  | Some a =>
      let k := new_channel (fds v) in
      match free_from 64 0 (<[a := End k false]> (fds v)) with
      | None => (None, v)
      | Some b => (Some (a, b), set_fds (<[a := End k false]> (<[b := End k true]> (fds v))) v)
      end
  end.

(** Children with an even process number have ended. *)
#[export] Instance machine : Posix os := {|
  pipe := open_pair; socketpair := open_pair;
  dup v fd := match fds v !! fd, free_from 64 0 (fds v) with Some f, Some d => (d, set_fds (<[d := f]> (fds v)) v) | _, _ => (-1, v) end;
  close v fd := set_fds (delete fd (fds v)) v; fcntl v _ _ := (0, v); attempt_malloc v := (true, v);
  file_actions_init v := (0, v); file_actions_add v _ := (0, v); spawnattr v _ := (0, v);
  posix_spawn v path fa attr argv := let pid := 100 + Z.of_nat (length (spawned v)) in
    (0, pid, add_spawned [{| sp_path := path; sp_actions := fa; sp_attr := attr; sp_argv := argv; sp_fds := fds v; sp_error := 0; sp_pid := pid |}] v);
  waitpid v pid := (if Z.even pid then WaitReaped 0 else WaitRunning, v); kill v pid sig := add_killed (pid, sig) v;
  usleep v _ := v; monotonic_time v := (of_int 1, v); list_lock v := add_locked 1 v; list_unlock v := add_locked (-1) v;
  get_registry := children; put_registry v r := set_children r v |}.

Lemma free_from_spec n : ∀ fd m x, free_from n fd m = Some x → fd ≤ x ∧ m !! x = None.
Proof.
  induction n as [|n IH]; intros fd m x; cbn [free_from]; [done|]. destruct (m !! fd) eqn:E; [|intros [= <-]; split; [lia|done]].
  intros Hx. apply IH in Hx as [? ?]. split; [lia|done].
Qed.

Lemma new_channel_fresh v : fresh_channel (new_channel (fds v)) v.
Proof.
  intros fd b E%elem_of_map_to_list. unfold new_channel in E.
  assert (Hle : ∀ p, p ∈ map_to_list (fds v) → (channel_of (snd p) ≤ list_max (map (fun p => channel_of (snd p)) (map_to_list (fds v))))%nat).
  { intros p Hp. pose proof (proj1 (list_max_le (map (fun p => channel_of (snd p)) (map_to_list (fds v))) _) (Nat.le_refl _)) as Hf.
    rewrite List.Forall_forall in Hf. apply Hf. apply in_map_iff. exists p. split; [done|]. by apply list_elem_of_In. }
  apply Hle in E. cbn [snd channel_of] in E. lia.
Qed.

Lemma open_pair_opens v : opens id v (open_pair v).
Proof.
  unfold open_pair. destruct (free_from 64 0 (fds v)) as [a|] eqn:Ea; [|done]. destruct (free_from 64 0 (<[a:=_]> _)) as [b|] eqn:Eb; [|done].
  apply free_from_spec in Ea as [? Ha]. apply free_from_spec in Eb as [? Hb]. assert (a ≠ b) by (intros <-; by rewrite lookup_insert_eq in Hb).
  rewrite lookup_insert_ne in Hb by done. repeat split; [done..|]. exists (new_channel (fds v)). split; [apply new_channel_fresh|done].
Qed.

Lemma free_from_lowest n : ∀ fd m x, free_from n fd m = Some x → ∀ y, fd ≤ y < x → m !! y ≠ None.
Proof.
  induction n as [|n IH]; intros fd m x; cbn [free_from]; [done|]. destruct (m !! fd) eqn:E; [|intros [= <-]; lia].
  intros Hx y Hy. destruct (decide (y = fd)) as [->|]; [by rewrite E|]. apply (IH (fd + 1) m x); [done|lia].
Qed.

Lemma open_pair_lowest v a b w : open_pair v = (Some (a, b), w) → a < b ∧ ∀ x, 0 ≤ x < b → x ≠ a → fds v !! x ≠ None.
Proof.
  unfold open_pair. destruct (free_from 64 0 (fds v)) as [a'|] eqn:Ea; [|done]. destruct (free_from 64 0 (<[a':=_]> _)) as [b'|] eqn:Eb; [|done].
  intros [= <- <- _]. pose proof (free_from_lowest _ _ _ _ Ea) as La. pose proof (free_from_lowest _ _ _ _ Eb) as Lb.
  apply free_from_spec in Ea as [? Ha]. apply free_from_spec in Eb as [? Hb]. assert (a' ≠ b') by (intros <-; by rewrite lookup_insert_eq in Hb).
  rewrite lookup_insert_ne in Hb by done. split.
  - destruct (decide (b' < a')); [|lia]. destruct (La b'); [lia|done].
  - intros x Hx Hxa Hno. apply (Lb x Hx). by rewrite lookup_insert_ne.
Qed.

#[export] Program Instance machine_laws : PosixLaws os := {| view := id; pipe_law := open_pair_opens; socketpair_law := open_pair_opens |}.
Next Obligation.
  intros v fd. unfold id. cbn [dup machine]. unfold duplicates. destruct (fds v !! fd) as [f|] eqn:Ef; [|by left]. destruct (free_from 64 0 (fds v)) as [d|] eqn:Ed; [|by left].
  apply free_from_spec in Ed as [? ?]. right. repeat split; [done..|]. by exists f.
Qed.
Solve All Obligations with done.

End Machine.

(** * Properties *)

(** C22: starting a script keeps no descriptor but the one it returns, on every path.
    [nft_popen] leaves the list unlocked and sends no signal; it returns -1 with the open
    descriptors and the registry as they were - whichever of its calls failed - or a new
    descriptor, which is then the only one added, on one end of a fresh channel whose
    other end the program does not hold (so that the end of the script is seen), with its
    child at the head of the registry.  The registry keeps naming distinct open
    descriptors. *)
Theorem nft_popen_owns {W} `{PosixLaws W} (w : W) (command type : cstr) :
  let '(fd, w') := Process.nft_popen w command type in
  locked (view w') = locked (view w) ∧ killed (view w') = killed (view w) ∧
  (fd = -1 ∧ fds (view w') = fds (view w) ∧ pid_list (children (view w')) = pid_list (children (view w)) ∨
   0 ≤ fd ∧ fds (view w) !! fd = None ∧
   ∃ k b pid, fresh_channel k (view w) ∧ fds (view w') = <[fd := End k b]> (fds (view w)) ∧
     pid_list (children (view w')) = (fd, pid) :: pid_list (children (view w))) ∧
  (registered (view w) → registered (view w')).
Proof.
  destruct (Process.popen_mode type) as [[read twoway]|] eqn:Em.
  - pose proof (popen_started w command type read twoway Em) as Hs. destruct (Process.nft_popen w command type) as [fd w'].
    destruct Hs as (H1 & [H2 _] & Hs). split; [done|]. split; [done|].
    assert (Hsame : fds (view w') = fds (view w) → pid_list (children (view w')) = pid_list (children (view w)) → registered (view w) → registered (view w'))
      by (unfold registered; by intros -> ->).
    destruct Hs as [(-> & Hf & Hp & _)|(a & b & k & l & Ha & Hb & Hab & Na & Nb & Hk & _ & _ & [(-> & Hf & Hp)|(-> & Hf & l0 & s & _ & _ & Hp)])]; [by split; [left|auto]..|].
    assert (Hn : fds (view w) !! parent_end read a b = None ∧ 0 ≤ parent_end read a b) by (by destruct read). destruct Hn as [Hn Hpos].
    split; [right; split; [done|]; split; [done|]; by exists k, (negb read), (sp_pid s)|]. intros [Hnd Hopen]. unfold registered. rewrite Hf, Hp. split.
    + cbn [map fst]. apply list.NoDup_cons. split; [|done]. intros (p & Ep & Hin)%list_elem_of_fmap. apply (Hopen p Hin). by rewrite <- Ep.
    + intros p [->|Hin]%elem_of_cons; [by rewrite lookup_insert_eq|]. rewrite lookup_insert_ne; [by apply Hopen|].
      intros Ep. apply (Hopen p Hin). by rewrite <- Ep.
  - unfold Process.nft_popen. rewrite Em. split; [done|]. split; [done|]. split; [by left|done].
Qed.

(** C24: the child of a script writes to the pipe and to nothing else of the poller's.
    Whatever numbers the new descriptors got - also when the poller runs with its standard
    streams closed - and if each file action can be recorded (the code does not check), every
    [posix_spawn] of a script opened for reading runs /bin/sh -c with the command, with
    attributes that put it into a process group of its own ([child_group]); its file actions
    all succeed, and leave the
    child with the pipe's write end as its standard output (and input, in the two-way
    mode), no descriptor of another script, and every other descriptor as it was: in
    particular no second copy of either end of its own pipe. *)
Theorem nft_popen_child {W} `{PosixLaws W} (w : W) (command type : cstr) (twoway : bool)
  (Hmode : Process.popen_mode type = Some (true, twoway)) (Hregistered : registered (view w)) (Hrecorded : actions_recorded) :
  let '(fd, w') := Process.nft_popen w command type in
  ∃ l, spawned (view w') = spawned (view w) ++ l ∧
    ∀ s, s ∈ l → sp_path s = $"/bin/sh" ∧ sp_argv s = [$"sh"; $"-c"; command] ∧ child_group (sp_attr s) = Some 0 ∧
      ∃ k t, fresh_channel k (view w) ∧ run_actions (sp_actions s) (sp_fds s) = Some t ∧
        (∀ x, t !! x = if child_stream twoway x then Some (End k true)
                       else if decide (x ∈ map fst (pid_list (children (view w)))) then None else fds (view w) !! x) ∧
        (0 ≤ fd → fds (view w') !! fd = Some (End k false)).
Proof.
  pose proof (popen_started w command type true twoway Hmode) as Hs. destruct (Process.nft_popen w command type) as [fd w'].
  destruct Hs as (_ & _ & [(_ & _ & _ & E)|(a & b & k & l & Ha & Hb & Hab & Na & Nb & Hk & E & Hl & Hend)]).
  { exists []. rewrite app_nil_r. split; [done|]. intros s Hs. by apply not_elem_of_nil in Hs. }
  exists l. split; [done|]. intros s Hs. rewrite list.Forall_forall in Hl. pose proof (Hl s Hs) as Hsp.
  destruct (child_runs (view w) twoway command a b k s Hregistered Hrecorded Hab Hb Na Nb Hsp) as (t & Et & Ht).
  destruct Hsp as (-> & -> & Hgroup & _). split; [done|]. split; [done|]. split; [done|]. exists k, t. split; [done|]. split; [done|]. split; [done|].
  intros Hfd. destruct Hend as [(-> & _)|(-> & -> & _)]; [lia|]. by rewrite lookup_insert_eq.
Qed.

(** A poller with standard output closed and a script's pipe on standard input. *)
Definition no_stdout : os := {|
  fds := <[0 := End 5 false]> (<[2 := OtherFile 2]> ∅); children := {| pid_list := [(0, 41)]; abandoned := [7; 8; 9] |};
  servers := fun _ => {| php_state := 1; php_pid := -1; php_write_fd := -1; php_read_fd := -1 |};
  scripts_held := 0; locked := 0; spawned := []; killed := [] |}.
Definition sample_popen : Z * os := Process.nft_popen (H := Machine.machine) no_stdout ($"uptime") ($"r").

Lemma nft_popen_child_witness : ∃ fd w' s k t, sample_popen = (fd, w') ∧ spawned w' = [s] ∧ fd = 1 ∧
  run_actions (sp_actions s) (sp_fds s) = Some t ∧ t !! 1 = Some (End k true) ∧ t !! 0 = None ∧ fds w' !! 1 = Some (End k false).
Proof.
  assert (Hreg : registered no_stdout).
  { split; [by vm_compute; repeat constructor; intros ?%not_elem_of_nil|]. intros p [->|?%not_elem_of_nil]%elem_of_cons; [by vm_compute|done]. }
  pose proof (nft_popen_child (H := Machine.machine) (H0 := Machine.machine_laws) no_stdout ($"uptime") ($"r") false eq_refl Hreg (fun _ _ => eq_refl)) as Hc.
  fold sample_popen in Hc. destruct sample_popen as [fd w'] eqn:E. destruct Hc as (l & El & Hc). vm_compute in E. injection E as <- Ew.
  assert (Hl : ∃ s, l = [s]) by (rewrite <- Ew in El; destruct l as [|s [|]]; [by vm_compute in El|by exists s|by vm_compute in El]).
  destruct Hl as [s ->]. destruct (Hc s ltac:(left)) as (_ & _ & _ & k & t & _ & Et & Ht & Hfd). exists 1, w', s, k, t.
  repeat split; [done..| | |by apply Hfd]; rewrite Ht; by vm_compute.
Defined.

(** C23: what was started can be ended, and ending it undoes starting it.  For a registered
    descriptor [nft_pclose] closes it, drops its entry and no other, keeps the lock
    balanced, and has either waited for the child - its last call is a [waitpid] that reaped
    it with the status returned, or that no longer knew it - or killed its process group and
    parked it for a later sweep unless all 64 places are taken, which they never exceed; for any
    other descriptor it changes nothing.  After a successful [nft_popen] this restores the
    descriptors and the registry exactly. *)
Theorem nft_pclose_ends {W} `{PosixLaws W} (w : W) (fd : Z) :
  (fd ∉ map fst (pid_list (children (view w))) → ∃ w', Process.nft_pclose w fd = (-1, w') ∧ view w' = view w) ∧
  (∀ l1 pid l2, pid_list (children (view w)) = l1 ++ (fd, pid) :: l2 → fd ∉ map fst l1 →
   let '(r, w') := Process.nft_pclose w fd in
   fds (view w') = delete fd (fds (view w)) ∧ pid_list (children (view w')) = l1 ++ l2 ∧ locked (view w') = locked (view w) ∧
   (waited_for pid r w' ∧ killed (view w') = killed (view w) ∧ abandoned (children (view w')) = abandoned (children (view w)) ∨
    r = -1 ∧ killed (view w') = killed (view w) ++ [(- pid, Process.SIGKILL)] ∧
    (parked_bound (view w) → pid ∈ abandoned (children (view w')) ∨ Z.of_nat (length (abandoned (children (view w')))) = Process.NFT_ABANDONED_MAX)) ∧
   (parked_bound (view w) → parked_bound (view w'))) ∧
  (∀ w0 command type, Process.nft_popen w0 command type = (fd, w) → 0 ≤ fd →
   let '(_, w') := Process.nft_pclose w fd in fds (view w') = fds (view w0) ∧ pid_list (children (view w')) = pid_list (children (view w0))).
Proof.
  split; [|split].
  - intros Hn. unfold Process.nft_pclose, Process.pid_list_close_and_take. rewrite registry_law, lock_law. cbn [children add_locked].
    pose proof (take_entry_spec fd (pid_list (children (view w)))) as Ht. destruct (Process.take_entry fd _) as [[pid l]|].
    + destruct Ht as (l1 & l2 & E & _). destruct Hn. apply list_elem_of_fmap. exists (fd, pid). split; [done|]. rewrite E. apply elem_of_app. right. left.
    + eexists. split; [done|]. rewrite unlock_law, lock_law. destruct (view w). unfold add_locked. cbn. f_equal. lia.
  - intros l1 pid l2 E Hn. assert (Ht : Process.take_entry fd (pid_list (children (view w))) = Some (pid, l1 ++ l2)).
    { rewrite E. clear E. induction l1 as [|[fd' p] l1 IH]; cbn [app Process.take_entry]; [by rewrite Z.eqb_refl|]. cbn [map fst] in Hn.
      apply not_elem_of_cons in Hn as [Hne Hn]. rewrite (proj2 (Z.eqb_neq fd' fd)) by congruence. by rewrite IH. }
    pose proof (pclose_view w fd pid _ Ht) as Hp. destruct (Process.nft_pclose w fd) as [r w']. destruct Hp as (? & ? & ? & _ & ? & ?). done.
  - intros w0 command type E Hfd. pose proof (popen_registers w0 command type) as Hp. rewrite E in Hp. destruct (Hp Hfd) as (Hn & f & pid & Ef & Ep).
    assert (Ht : Process.take_entry fd (pid_list (children (view w))) = Some (pid, pid_list (children (view w0)))) by (rewrite Ep; cbn; by rewrite Z.eqb_refl).
    pose proof (pclose_view w fd pid _ Ht) as Hc. destruct (Process.nft_pclose w fd) as [r w']. destruct Hc as (Hf & Hl & _).
    split; [|done]. rewrite Hf, Ef. by rewrite delete_insert_id.
Qed.

(** The child of [sample_popen] ended, so that its number is not parked. *)
Lemma nft_pclose_ends_witness : let '(_, w') := Process.nft_pclose (H := Machine.machine) (snd sample_popen) 1 in
  fds w' = fds no_stdout ∧ pid_list (children w') = [(0, 41)].
Proof.
  exact (proj2 (proj2 (nft_pclose_ends (H0 := Machine.machine_laws) (snd sample_popen) 1)) no_stdout ($"uptime") ($"r") eq_refl ltac:(done)).
Defined.

(** The sweep reaps every child that ended and keeps every other.  With [waitpid]
    answering by child, the parked children after a sweep are exactly those it did not
    report as gone, each kept once, though removal moves the last one into the gap and
    the loop looks at that place again. *)
Theorem sweep_keeps_running {W} `{PosixLaws W} (w : W) (answer : Z → wait_result) (Hanswer : ∀ w pid, fst (waitpid w pid) = answer pid) :
  abandoned (children (view (Process.nft_sweep_abandoned w))) ≡ₚ
    filter (fun pid => Process.child_gone (answer pid) = false) (abandoned (children (view w))).
Proof.
  unfold Process.nft_sweep_abandoned. rewrite registry_law.
  pose proof (sweep_loop_keeps answer Hanswer (length (abandoned (children (view w)))) w [] (abandoned (children (view w))) ltac:(done)) as Hk.
  cbn [app length] in Hk. destruct (Process.sweep_loop _ w _ 0) as [l w1]. by rewrite put_registry_law.
Qed.

Lemma sweep_keeps_running_witness : abandoned (children (Process.nft_sweep_abandoned (H := Machine.machine) no_stdout)) ≡ₚ [7; 9].
Proof.
  apply (sweep_keeps_running (H := Machine.machine) (H0 := Machine.machine_laws) no_stdout (fun pid => if Z.even pid then WaitReaped 0 else WaitRunning)). done.
Defined.
