(* ===== verification/Script.v ===== *)
(** The PHP script server: src/src/script/protocol.c, src/src/script/read.c and
    src/src/script/server.c.

    The slots, their mutexes and the reads and writes are an interface ([Class ScriptEnv])
    over a world that other threads change between two calls; processes and pipes are
    those of Process.v.  A
    server that does not answer is restarted; the restart's own handshake never restarts
    again, so the mutual recursion of [php_init] and [php_read_result] is two functions
    here, one for each value of [allow_restart]. *)

From stdpp Require Import gmap.
From Stdlib Require Import SpecFloat.
From S2P Require Import Prelude CLib Buffer Text Result Settings Sql Process.

Inductive select_result := SelReady | SelNotSet | SelTimeout | SelEintr | SelError.
Inductive read_result := RdBytes (bytes : list ascii) | RdEintr | RdEnd.

(** [write_fd] is [php_write_no_sigpipe], which [Signals] models;
    [wait_readable] is [spine_wait_readable]; [script_clock] is [get_time_as_double]. *)
Class ScriptEnv (W : Type) := {
  get_slot : W → nat → php_t;
  put_slot : W → nat → php_t → W;
  slot_trylock : W → nat → bool * W;
  slot_lock : W → nat → W;
  slot_unlock : W → nat → W;
  write_fd : W → Z → cstr → Z * W;
  select_fd : W → Z → Z * Z → select_result * W;
  wait_readable : W → Z → double → Z * W;
  read_fd : W → Z → Z → read_result * W;
  script_clock : W → double * W }.

Module Script.

Definition PHP_READY : Z := 0.
Definition PHP_BUSY : Z := 1.
Definition MAX_PHP_SERVERS : Z := 15.
Definition FD_SETSIZE : Z := 1024.

Definition set_php_state (st : Z) (s : php_t) : php_t :=
  {| php_state := st; php_pid := php_pid s; php_write_fd := php_write_fd s; php_read_fd := php_read_fd s |}.

(** A slot that may be sent a command. *)
Definition slot_usable (s : php_t) : bool :=
  (php_state s =? PHP_READY) && (1 <? php_pid s) && (0 <=? php_read_fd s) && (0 <=? php_write_fd s).

(** The first token of a command. *)
Definition php_command_script (command : cstr) (capacity : Z) : cstr :=
  let length_ := Z.of_nat (strcspn command [" "%char; byte_of 9; byte_of 13; byte_of 10]) in
  take (Z.to_nat (if capacity <=? length_ then capacity - 1 else length_)) command.

Definition CRLF : cstr := [byte_of 13; byte_of 10].
Definition LF : cstr := [byte_of 10].

(** What is written for a command: [snprintf(command, BUFSIZE, "%s\r\n", php_command)]. *)
Definition php_command_line (php_command : cstr) : cstr := snprintf_s BUFSIZE (php_command ++ CRLF).

(** [floor] and [rint] of a finite double. *)
Definition dfloor (d : double) : Z :=
  match d with
  | S754_finite s m e => let v := if s then Zneg m else Zpos m in if 0 <=? e then v * 2 ^ e else v / 2 ^ (- e)
  | _ => 0
  end.
Definition drint (d : double) : Z :=
  match d with
  | S754_finite s m e => let v := if s then Zneg m else Zpos m in if 0 <=? e then v * 2 ^ e else round_half_even v (2 ^ (- e))
  | _ => 0
  end.

Section Server.
Context {W : Type} `{Posix W} `{ScriptEnv W} (set : config_t).

(** ** Reading an answer *)

(** [while (1)] over the pipe: the text, and whether a whole line came.  [None] when the
    fuel runs out: every turn but an interrupted read adds a byte. *)
Fixpoint read_line (fuel : nat) (w : W) (fd : Z) (read_deadline : double) (buf : list ascii) : option (cstr * bool * W) :=
  match fuel with
  | O => None
  | S f =>
      if RESULTS_BUFFER - 1 <=? slen buf then Some (UNDEFINED, false, w) else
      let '(ready, w) := if 0 <? slen buf then wait_readable w fd read_deadline else (1, w) in
      if ready <=? 0 then Some (UNDEFINED, false, w) else
      let '(r, w) := read_fd w fd (RESULTS_BUFFER - 1 - slen buf) in
      match r with
      | RdEintr => read_line f w fd read_deadline buf
      | RdEnd => Some (UNDEFINED, false, w)
      | RdBytes bytes =>
          let buf := buf ++ bytes in
          if has_substr (c_str buf) LF then Some (c_str buf, true, w)
          else if RESULTS_BUFFER - 1 <=? slen buf then Some (UNDEFINED, false, w)
          else read_line f w fd read_deadline buf
      end
  end.

(** The timeout left after an interrupted [select]. *)
Definition time_left (response_timeout : Z) (elapsed : double) : Z * Z :=
  let tv_sec := dfloor (dsub (of_int response_timeout) elapsed) in
  let remaining_usec := dsub (of_int (response_timeout - tv_sec)) elapsed in
  (tv_sec, if dlt dzero remaining_usec then drint (dmul remaining_usec (of_int 1000000)) else 0).

(** [php_fail_read]; [restart] closes and starts the server again, or does nothing during
    a handshake. *)
Definition php_fail_read (restart : W → nat → option W) (w : W) (slot : nat) : option W :=
  restart (put_slot w slot (set_php_state PHP_BUSY (get_slot w slot))) slot.

Fixpoint select_loop (restart : W → nat → option W) (fuel : nat) (w : W) (slot : nat) (response_timeout : Z) (begin_time read_deadline : double) (tv : Z * Z) :
    option (cstr * W) :=
  match fuel with
  | O => None
  | S f =>
      let fd := php_read_fd (get_slot w slot) in
      let failed w := w ← php_fail_read restart w slot; Some (UNDEFINED, w) in
      if (fd <? 0) || (FD_SETSIZE <=? fd) then failed w else
      let '(r, w) := select_fd w fd tv in
      match r with
      | SelEintr =>
          let w := usleep w 2000 in
          let '(end_time, w) := script_clock w in
          let tv := time_left response_timeout (dsub end_time begin_time) in
          if 0 <? fst tv + snd tv then select_loop restart f w slot response_timeout begin_time read_deadline tv else failed w
      | SelError | SelTimeout | SelNotSet => failed w
      | SelReady =>
          '(text, ok, w) ← read_line fuel w fd read_deadline [];
          if ok : bool then Some (text, put_slot w slot (set_php_state PHP_READY (get_slot w slot)))
          else w ← php_fail_read restart w slot; Some (text, w)
      end
  end.

Definition slot_exists (slot : Z) : bool := (0 <=? slot) && (slot <? php_servers set) && (slot <? MAX_PHP_SERVERS).

Definition php_read_with (restart : W → nat → option W) (allow_restart : bool) (fuel : nat) (w : W) (slot : nat) : option (cstr * W) :=
  if negb (slot_exists (Z.of_nat slot)) then Some (UNDEFINED, w) else
  let '(begin_time, w) := script_clock w in
  let response_timeout := if allow_restart || (script_timeout set <? 2) then script_timeout set else 2 in
  let '(now, w) := monotonic_time w in
  select_loop restart fuel w slot response_timeout begin_time (dadd now (of_int response_timeout)) (response_timeout, 0).

(** ** Starting a server *)

(** [php_close_fd]: -1 is no descriptor. *)
Definition php_close_fd (w : W) (fd : Z) : W := if 0 <=? fd then close w fd else w.

(** The file actions until one fails. *)
Fixpoint add_checked (w : W) (fa new : list file_action) : option (list file_action) * W :=
  match new with
  | [] => (Some fa, w)
  | a :: new' =>
      let '(rc, w) := file_actions_add w a in
      if rc =? 0 then add_checked w (fa ++ [a]) new' else (None, w)
  end.

(** [child_stdin] or [child_stdout] and its duplicate, which is made when the end sits on
    the descriptor it is meant for; -1 for none. *)
Definition child_stream_fd (w : W) (fd std : Z) : Z * Z * W :=
  if fd =? std then
    let '(d, w) := dup w fd in
    if 0 <=? d then
      let '(rc, w) := Process.spine_set_cloexec w d in
      if negb (rc =? 0) then (-1, -1, php_close_fd w d) else (d, d, w)
    else (d, d, w)
  else (fd, -1, w).

(** [php_addclose_unless_std]. *)
Definition addclose_unless_std (fd : Z) : list file_action :=
  if (fd =? Process.STDIN_FILENO) || (fd =? Process.STDOUT_FILENO) then [] else [AddClose fd].
Definition server_actions (c2p p2c : Z * Z) (child_stdin child_stdout dup_stdin dup_stdout : Z) : list file_action :=
  [AddDup2 child_stdin Process.STDIN_FILENO; AddDup2 child_stdout Process.STDOUT_FILENO] ++
  addclose_unless_std (fst c2p) ++ addclose_unless_std (snd c2p) ++ addclose_unless_std (fst p2c) ++ addclose_unless_std (snd p2c) ++
  (if negb (dup_stdin =? -1) then [AddClose dup_stdin] else []) ++ (if negb (dup_stdout =? -1) then [AddClose dup_stdout] else []).

Definition server_argv : list cstr :=
  if cacti_version set <=? 1222 then
    [path_php set; $"-q"; path_php_server set; $"spine"; snprintf_s SMALL_BUFSIZE (sdec (poller_id set))]
  else
    [path_php set; $"-q"; path_php_server set; $"--environ=spine"; snprintf_s SMALL_BUFSIZE ($"--poller=" ++ sdec (poller_id set))] ++
    (if 1 <? poller_id set then [if mode set =? REMOTE_ONLINE then $"--mode=online" else $"--mode=offline"] else []).

(** [cleanup:] of the descriptors. *)
Definition init_cleanup (w : W) (dup_stdin dup_stdout : Z) (c2p p2c : Z * Z) : W :=
  let w := php_close_fd (php_close_fd w dup_stdin) dup_stdout in
  let w := php_close_fd (php_close_fd w (fst c2p)) (snd c2p) in
  php_close_fd (php_close_fd w (fst p2c)) (snd p2c).

(** The process, and the ends the parent keeps: to read and to write. *)
Definition spawn_server (w : W) : option (Z * Z * Z) * W :=
  let none := (-1, -1) in
  let '(r, w) := Process.spine_open_pipe_cloexec w in
  match r with
  | None => (None, init_cleanup w (-1) (-1) none none)
  | Some c2p =>
      let '(r, w) := Process.spine_open_pipe_cloexec w in
      match r with
      | None => (None, init_cleanup w (-1) (-1) c2p none)
      | Some p2c =>
          let '(rc, w) := file_actions_init w in
          if negb (rc =? 0) then (None, init_cleanup w (-1) (-1) c2p p2c) else
          let '(attr, w) := Process.spine_spawnattr_sigpipe_default w in
          match attr with
          | None => (None, init_cleanup w (-1) (-1) c2p p2c)
          | Some attr =>
              let '(child_stdin, dup_stdin, w) := child_stream_fd w (fst c2p) Process.STDIN_FILENO in
              let '(child_stdout, dup_stdout, w) := child_stream_fd w (snd p2c) Process.STDOUT_FILENO in
              if (child_stdin <? 0) || (child_stdout <? 0) then (None, init_cleanup w dup_stdin dup_stdout c2p p2c) else
              let '(fa, w) := add_checked w [] (server_actions c2p p2c child_stdin child_stdout dup_stdin dup_stdout) in
              match fa with
              | None => (None, init_cleanup w dup_stdin dup_stdout c2p p2c)
              | Some fa =>
                  let '(spawn_err, pid, w) := Process.spawn_retry 3 w (path_php set) fa attr server_argv in
                  let w := php_close_fd (php_close_fd w dup_stdin) dup_stdout in
                  if negb (spawn_err =? 0) then (None, init_cleanup w (-1) (-1) c2p p2c) else
                  (Some (pid, fst p2c, snd c2p), php_close_fd (php_close_fd w (fst c2p)) (snd p2c))
              end
          end
      end
  end.

(** The handshake: [php_read_result(slot, "INIT", FALSE)]. *)
Definition php_read_handshake (fuel : nat) (w : W) (slot : nat) : option (cstr * W) :=
  php_read_with (fun w _ => Some w) false fuel w slot.

(** One turn of [php_init]: TRUE once a process was started, whose state the slot tells. *)
Definition start_slot (fuel : nat) (w : W) (slot : nat) : option (bool * W) :=
  match spawn_server w with
  | (None, w) => Some (false, put_slot w slot {| php_state := PHP_BUSY; php_pid := -1; php_write_fd := -1; php_read_fd := -1 |})
  | (Some (pid, r, wr), w) =>
      let w := put_slot w slot {| php_state := php_state (get_slot w slot); php_pid := pid; php_write_fd := wr; php_read_fd := r |} in
      '(text, w) ← php_read_handshake fuel w slot;
      Some (true, put_slot w slot (set_php_state (if has_substr text ($"Started") then PHP_READY else PHP_BUSY) (get_slot w slot)))
  end.
Fixpoint start_slots (n fuel : nat) (w : W) (slot : nat) : option (bool * W) :=
  match n with
  | O => Some (true, w)
  | S n' => '(ok, w) ← start_slot fuel w slot; if ok : bool then start_slots n' fuel w (S slot) else Some (false, w)
  end.

Definition PHP_INIT : Z := 999.
Definition valid_process (php_process : Z) : bool :=
  (0 <=? php_servers set) && (php_servers set <=? MAX_PHP_SERVERS) &&
  ((php_process =? PHP_INIT) || (0 <=? php_process) && (php_process <? php_servers set)).
Definition php_init (fuel : nat) (w : W) (php_process : Z) : option (bool * W) :=
  if negb (valid_process php_process) then Some (false, w)
  else if php_process =? PHP_INIT then start_slots (Z.to_nat (php_servers set)) fuel w 0
  else start_slots 1 fuel w (Z.to_nat php_process).

(** ** Stopping a server *)

(** TRUE when the child is gone; [None] when the fuel runs out: [waitpid] is repeated as
    long as signals interrupt it. *)
Fixpoint php_terminate_and_reap (fuel : nat) (w : W) (pid : Z) : option (bool * W) :=
  match fuel with
  | O => None
  | S f =>
      let '(r, w) := waitpid w pid in
      match r with
      | WaitReaped _ => Some (true, w)
      | WaitRunning => Some (false, kill w pid Process.SIGKILL)
      | WaitError e =>
          if e =? Process.EINTR then php_terminate_and_reap f w pid else Some (e =? Process.ECHILD, w)
      end
  end.

Definition O_NONBLOCK : Z := 2048.
(** "quit", without blocking, then the end of the input. *)
Definition send_quit (w : W) (fd : Z) : W :=
  let '(flags, w) := fcntl w fd F_GETFL in
  let w := if 0 <=? flags then snd (fcntl w fd (F_SETFL (Z.lor flags O_NONBLOCK))) else w in
  let '(_, w) := write_fd w fd ($"quit" ++ CRLF) in
  close w fd.

Definition set_php_fds (pid write_fd read_fd : Z) (s : php_t) : php_t :=
  {| php_state := php_state s; php_pid := pid; php_write_fd := write_fd; php_read_fd := read_fd |}.

(** One turn of [php_close]. *)
Definition close_slot (fuel : nat) (w : W) (slot : nat) : option W :=
  let s := get_slot w slot in
  let w := if 0 <=? php_write_fd s then
             let w := send_quit w (php_write_fd s) in
             usleep (put_slot w slot (set_php_fds (php_pid s) (-1) (php_read_fd s) s)) 50000
           else w in
  let s := get_slot w slot in
  w ← (if 1 <? php_pid s then
         '(gone, w) ← php_terminate_and_reap fuel w (php_pid s);
         let w := if gone : bool then w else Process.nft_abandon_child w (php_pid s) in
         Some (put_slot w slot (set_php_fds (-1) (php_write_fd s) (php_read_fd s) s))
       else Some w);
  let s := get_slot w slot in
  let w := close w (php_read_fd s) in
  Some (put_slot w slot (set_php_fds (php_pid s) (php_write_fd s) (-1) s)).
Fixpoint close_slots (n fuel : nat) (w : W) (slot : nat) : option W :=
  match n with
  | O => Some w
  | S n' => w ← close_slot fuel w slot; close_slots n' fuel w (S slot)
  end.
Definition php_close (fuel : nat) (w : W) (php_process : Z) : option W :=
  if negb (valid_process php_process) then Some w
  else if php_process =? PHP_INIT then close_slots (Z.to_nat (php_servers set)) fuel w 0
  else close_slots 1 fuel w (Z.to_nat php_process).

Definition php_restart (fuel : nat) (w : W) (slot : nat) : option W :=
  w ← php_close fuel w (Z.of_nat slot);
  '(_, w) ← php_init fuel w (Z.of_nat slot); Some w.

(** [php_readpipe]. *)
Definition php_readpipe (fuel : nat) (w : W) (slot : nat) : option (cstr * W) := php_read_with (php_restart fuel) true fuel w slot.

(** ** Sending a command *)

(** [retry:] with [left] attempts; the slot is locked. *)
Fixpoint cmd_loop (left fuel : nat) (w : W) (command : cstr) (slot : nat) : option (cstr * W) :=
  match left with
  | O => Some (UNDEFINED, w)
  | S left' =>
      if negb (slot_usable (get_slot w slot)) then Some (UNDEFINED, w) else
      let '(bytes, w) := write_fd w (php_write_fd (get_slot w slot)) command in
      if bytes <=? 0 then
        w ← php_close fuel w (Z.of_nat slot);
        match left' with
        | O => Some (UNDEFINED, w)
        | S _ => '(started, w) ← php_init fuel w (Z.of_nat slot);
                 if started && (php_state (get_slot w slot) =? PHP_READY) then cmd_loop left' fuel w command slot else Some (UNDEFINED, w)
        end
      else
        '(text, w) ← php_readpipe fuel w slot;
        Some (match text with [] => UNDEFINED | _ => text end, w)
  end.

Definition php_cmd (fuel : nat) (w : W) (php_command : cstr) (slot : Z) : option (cstr * W) :=
  if negb (slot_exists slot) then Some (UNDEFINED, w) else
  let i := Z.to_nat slot in
  '(text, w) ← cmd_loop 3 fuel (slot_lock w i) (php_command_line php_command) i;
  Some (text, slot_unlock w i).

(** ** Choosing a server *)

(** The scan from [candidate], [n] slots long: a usable slot, or the first contended one
    and the first one to recover. *)
Fixpoint scan_slots (w : W) (start count : Z) (checked : Z) (n : nat) (contended recovery : option Z) :
    option Z * option Z * option Z * W :=
  match n with
  | O => (None, contended, recovery, w)
  | S n' =>
      let candidate := (start + checked) mod count in
      let '(locked, w) := slot_trylock w (Z.to_nat candidate) in
      if negb locked then scan_slots w start count (checked + 1) n' (Some (default candidate contended)) recovery
      else
        let usable := slot_usable (get_slot w (Z.to_nat candidate)) in
        let w := slot_unlock w (Z.to_nat candidate) in
        if usable then (Some candidate, contended, recovery, w)
        else scan_slots w start count (checked + 1) n' contended (Some (default candidate recovery))
  end.

(** The slot, -1 for none, and the new round-robin cursor. *)
Definition php_get_process (fuel : nat) (w : W) (php_current_server : Z) : option (Z * Z * W) :=
  if php_servers set <=? 0 then Some (-1, php_current_server, w) else
  let server_count := if MAX_PHP_SERVERS <? php_servers set then MAX_PHP_SERVERS else php_servers set in
  let start := if server_count <=? php_current_server then 0 else php_current_server in
  let cursor := start + 1 in
  let '(ready, contended, recovery, w) := scan_slots w start server_count 0 (Z.to_nat server_count) None None in
  match ready with
  | Some c => Some (c, cursor, w)
  | None =>
      let fallback := default (-1) contended in
      match recovery with
      | None => Some (fallback, cursor, w)
      | Some c =>
          let i := Z.to_nat c in
          let '(locked, w) := slot_trylock w i in
          if negb locked then Some (fallback, cursor, w) else
          let s := get_slot w i in
          if slot_usable s then Some (c, cursor, slot_unlock w i) else
          w ← (if (1 <? php_pid s) || (0 <=? php_read_fd s) || (0 <=? php_write_fd s) then php_close fuel w c else Some w);
          '(started, w) ← php_init fuel w c;
          let ready := started && (php_state (get_slot w i) =? PHP_READY) in
          Some (if ready : bool then c else fallback, cursor, slot_unlock w i)
      end
  end.

End Server.
End Script.

(** * The promises of the interface *)

Definition set_slot (i : nat) (s : php_t) (v : os) : os := set_servers (fun j => if decide (j = i) then s else servers v j) v.

(** The slots are memory, and reads, writes and waits open or close nothing. *)
Class ScriptLaws (W : Type) `{PosixLaws W} `{ScriptEnv W} := {
  get_slot_law w i : get_slot w i = servers (view w) i;
  put_slot_law w i s : view (put_slot w i s) = set_slot i s (view w);
  slot_lock_law w i : view (slot_lock w i) = view w;
  slot_unlock_law w i : view (slot_unlock w i) = view w;
  slot_trylock_law w i : view (snd (slot_trylock w i)) = view w;
  write_law w fd s : view (snd (write_fd w fd s)) = view w;
  select_law w fd tv : view (snd (select_fd w fd tv)) = view w;
  wait_law w fd d : view (snd (wait_readable w fd d)) = view w;
  read_law w fd n : view (snd (read_fd w fd n)) = view w;
  clock_law w : view (snd (script_clock w)) = view w }.
