(* ===== verification/ScriptFacts.v ===== *)
(** Correctness of the script server of Script.v: answers, the choice of a server, and the
    descriptors of the servers. *)

From stdpp Require Import gmap.
From Stdlib Require Import SpecFloat.
From S2P Require Import Prelude CLib Buffer Text Result Settings Sql Process ProcessFacts Script.

(** * Facts *)

Module ScriptFacts.
Import Script ProcessFacts.

Lemma has_LF_In s : has_substr s LF = true ↔ byte_of 10 ∈ s.
Proof.
  unfold has_substr. induction s as [|c s IH]; [split; [done|by intros ?%not_elem_of_nil]|].
  cbn [strstr]. rewrite elem_of_cons. destruct (decide (LF `prefix_of` c :: s)) as [[k Hk]|Hp].
  - split; [|done]. intros _. left. unfold LF in Hk. cbn in Hk. congruence.
  - assert (Hc : byte_of 10 ≠ c) by (intros <-; apply Hp; by exists s). destruct (strstr s LF) as [i|] eqn:E; cbn [fmap option_fmap option_map].
    + split; [|done]. intros _. right. by apply IH.
    + split; [done|]. intros [?|Hin]; [done|]. by apply IH in Hin.
Qed.

(** ** Choosing a server *)

Section Choice.
Context {W : Type} `{Posix W} `{ScriptEnv W}.

Lemma scan_range w start count n : 0 < count → ∀ checked contended recovery,
  (∀ c, contended = Some c → 0 ≤ c < count) → (∀ c, recovery = Some c → 0 ≤ c < count) →
  let '(ready, contended', recovery', _) := scan_slots w start count checked n contended recovery in
  ∀ c, ready = Some c ∨ contended' = Some c ∨ recovery' = Some c → 0 ≤ c < count.
Proof.
  intros Hc. revert w. induction n as [|n IH]; intros w checked contended recovery H1 H2; cbn [scan_slots].
  { intros c [?|[?|?]]; [done|by apply H1|by apply H2]. }
  pose proof (Z.mod_pos_bound (start + checked) count Hc) as Hm. destruct (slot_trylock w _) as [[] w1]; cbn [negb].
  - destruct (slot_usable _).
    + intros c [[= <-]|[?|?]]; [done|by apply H1|by apply H2].
    + apply IH; [done|]. intros c [= <-]. destruct recovery as [r|]; [by apply H2|done].
  - apply IH; [|done]. intros c [= <-]. destruct contended as [r|]; [by apply H1|done].
Qed.

Context (w : W) (locked : nat → bool).
Hypothesis Htry : ∀ i, slot_trylock w i = (negb (locked i), w).
Hypothesis Hunlock : ∀ i, slot_unlock w i = w.

Definition candidate (start count k : Z) : nat := Z.to_nat ((start + k) mod count).
Definition available (i : nat) : bool := negb (locked i) && slot_usable (get_slot w i).

Lemma scan_first start count k n : ∀ checked contended recovery, checked ≤ k < checked + Z.of_nat n →
  available (candidate start count k) = true → (∀ j, checked ≤ j < k → available (candidate start count j) = false) →
  ∃ c r, scan_slots w start count checked n contended recovery = (Some ((start + k) mod count), c, r, w).
Proof.
  induction n as [|n IH]; intros checked contended recovery Hk Hav Hbefore; [lia|]. cbn [scan_slots]. rewrite Htry.
  destruct (decide (k = checked)) as [->|Hne].
  - apply andb_true_iff in Hav as [Hl Hu]. unfold candidate in Hl, Hu. rewrite Hl. cbn [negb]. rewrite Hu, Hunlock. eauto.
  - pose proof (Hbefore checked ltac:(lia)) as Hb. unfold available, candidate in Hb.
    destruct (negb (locked _)) eqn:El; cbn [negb andb] in *.
    + rewrite Hb, Hunlock. apply IH; [lia|done|]. intros j Hj. apply Hbefore. lia.
    + apply IH; [lia|done|]. intros j Hj. apply Hbefore. lia.
Qed.

Lemma scan_locked start count n : ∀ checked contended, (∀ j, checked ≤ j < checked + Z.of_nat n → locked (candidate start count j) = true) →
  (n = 0%nat → contended ≠ None) →
  scan_slots w start count checked n contended None = (None, Some (default ((start + checked) mod count) contended), None, w).
Proof.
  induction n as [|n IH]; intros checked contended Hl Hn; cbn [scan_slots].
  { by destruct contended; [|destruct (Hn eq_refl)]. }
  rewrite Htry. pose proof (Hl checked ltac:(lia)) as Hc. unfold candidate in Hc. rewrite Hc. cbn [negb].
  rewrite IH; [done| |done]. intros j Hj. apply Hl. lia.
Qed.

End Choice.

(** ** Reading an answer *)

Section Read.
Context {W : Type} `{Posix W} `{ScriptEnv W}.

(** What [read] promises when no signal arrives: between one byte and the bytes asked
    for, or the end. *)
Definition reads_bytes : Prop :=
  ∀ w fd n, 0 < n → match fst (read_fd w fd n) with RdBytes b => 1 ≤ slen b ≤ n | RdEintr => False | RdEnd => True end.
Definition no_signals : Prop :=
  reads_bytes ∧ (∀ w fd tv, fst (select_fd w fd tv) ≠ SelEintr) ∧ ∀ w pid, fst (waitpid w pid) ≠ WaitError Process.EINTR.

(** U, or a whole line that fits the buffer. *)
Definition answer (text : cstr) : Prop := text = UNDEFINED ∨ byte_of 10 ∈ text ∧ slen text < RESULTS_BUFFER.

Lemma answer_nonempty text : answer text → text ≠ [] ∧ slen text < RESULTS_BUFFER.
Proof. intros [->|[Hin Hl]]; [done|]. split; [|done]. intros ->. by apply not_elem_of_nil in Hin. Qed.

Lemma read_line_total fuel d : reads_bytes → ∀ w fd buf, slen buf < RESULTS_BUFFER → RESULTS_BUFFER ≤ Z.of_nat fuel + slen buf →
  ∃ text ok w', read_line fuel w fd d buf = Some (text, ok, w') ∧ answer text.
Proof.
  intros Hr. induction fuel as [|f IH]; intros w fd buf Hb Hf; [lia|]. cbn [read_line].
  destruct (RESULTS_BUFFER - 1 <=? slen buf) eqn:Efull; [eexists _, _, _; split; [done|by left]|]. apply Z.leb_gt in Efull.
  destruct (if 0 <? slen buf then wait_readable w fd d else (1, w)) as [ready w1]. destruct (ready <=? 0); [eexists _, _, _; split; [done|by left]|].
  pose proof (Hr w1 fd (RESULTS_BUFFER - 1 - slen buf) ltac:(lia)) as Hread. destruct (read_fd w1 fd _) as [[bytes| |] w2]; cbn [fst] in Hread;
    [|done|eexists _, _, _; split; [done|by left]].
  destruct (has_substr (c_str (buf ++ bytes)) LF) eqn:EL.
  - eexists _, _, _. split; [done|]. right. split; [by apply has_LF_In|]. pose proof (c_str_length (buf ++ bytes)) as Hc.
    rewrite length_app in Hc. unfold slen in *. lia.
  - destruct (RESULTS_BUFFER - 1 <=? slen (buf ++ bytes)) eqn:E2; [eexists _, _, _; split; [done|by left]|]. apply Z.leb_gt in E2.
    rewrite slen_app in E2. apply IH; rewrite slen_app; lia.
Qed.

Lemma select_loop_total restart fuel w slot t b d tv : no_signals → RESULTS_BUFFER ≤ Z.of_nat fuel → (∀ w i, restart w i ≠ None) →
  ∃ text w', select_loop restart fuel w slot t b d tv = Some (text, w') ∧ answer text.
Proof.
  intros [Hr [Hs _]] Hf Hre. destruct fuel as [|f]; [unfold RESULTS_BUFFER in Hf; lia|]. cbn [select_loop].
  assert (Hfail : ∀ w text, answer text → ∃ text' w', (w1 ← php_fail_read restart w slot; Some (text, w1)) = Some (text', w') ∧ answer text').
  { intros w1 text Ht. unfold php_fail_read. destruct (restart _ slot) as [w2|] eqn:E; [|by destruct (Hre _ _ E)]. by eexists _, _. }
  destruct (_ || _); [by apply Hfail; left|]. pose proof (Hs w (php_read_fd (get_slot w slot)) tv) as Hsel.
  destruct (select_fd w _ tv) as [[] w1]; cbn [fst] in Hsel; try done; try (by apply Hfail; left).
  destruct (read_line_total (S f) d Hr w1 (php_read_fd (get_slot w slot)) [] ltac:(done) ltac:(rewrite slen_nil; lia)) as (text & ok & w2 & E & Ha).
  rewrite E. cbn [mbind option_bind]. destruct ok; [by eexists _, _|by apply Hfail].
Qed.

Context (set : config_t).

Lemma handshake_total fuel w slot : no_signals → RESULTS_BUFFER ≤ Z.of_nat fuel → ∃ text w', php_read_handshake set fuel w slot = Some (text, w').
Proof.
  intros Hn Hf. unfold php_read_handshake, php_read_with. destruct (negb _); [by eexists _, _|]. destruct (script_clock _) as [t w2].
  destruct (monotonic_time w2) as [now w3].
  match goal with |- context [select_loop ?re fuel w3 slot ?a ?b ?d ?tv] =>
    destruct (select_loop_total re fuel w3 slot a b d tv Hn Hf ltac:(done)) as (text & w' & E & _) end.
  rewrite E. by eexists _, _.
Qed.

Lemma start_slots_total n fuel : no_signals → RESULTS_BUFFER ≤ Z.of_nat fuel → ∀ w slot, ∃ ok w', start_slots set n fuel w slot = Some (ok, w').
Proof.
  intros Hn Hf. induction n as [|n IH]; intros w slot; cbn [start_slots]; [by eexists _, _|]. unfold start_slot.
  destruct (spawn_server set w) as [[[[pid r] wr]|] w1]; cbn [mbind option_bind]; [|by eexists _, _].
  destruct (handshake_total fuel (put_slot w1 slot {| php_state := php_state (get_slot w1 slot); php_pid := pid; php_write_fd := wr; php_read_fd := r |})
    slot Hn Hf) as (text & w2 & ->). cbn [mbind option_bind]. apply IH.
Qed.

Lemma php_init_total fuel w p : no_signals → RESULTS_BUFFER ≤ Z.of_nat fuel → ∃ ok w', php_init set fuel w p = Some (ok, w').
Proof. intros Hn Hf. unfold php_init. destruct (negb _); [by eexists _, _|]. destruct (p =? PHP_INIT); by apply start_slots_total. Qed.

Lemma terminate_total fuel w pid : no_signals → (0 < fuel)%nat → ∃ gone w', php_terminate_and_reap fuel w pid = Some (gone, w').
Proof.
  intros (_ & _ & Hw) Hf. destruct fuel as [|f]; [lia|]. cbn [php_terminate_and_reap]. pose proof (Hw w pid) as Hne. destruct (waitpid w pid) as [r w1].
  cbn [fst] in Hne. destruct r as [st| |e]; [by eexists _, _..|]. rewrite (proj2 (Z.eqb_neq e Process.EINTR)) by congruence. by eexists _, _.
Qed.

Lemma close_slots_total n fuel : no_signals → (0 < fuel)%nat → ∀ w slot, ∃ w', close_slots n fuel w slot = Some w'.
Proof.
  intros Hn Hf. induction n as [|n IH]; intros w slot; cbn [close_slots]; [by eexists|].
  assert (Hc : ∃ w', close_slot fuel w slot = Some w').
  { unfold close_slot. match goal with |- context [if 0 <=? _ then ?x else w] => set (w1 := if 0 <=? php_write_fd (get_slot w slot) then x else w) end.
    destruct (1 <? php_pid (get_slot w1 slot)); cbn [mbind option_bind]; [|by eexists].
    destruct (terminate_total fuel w1 (php_pid (get_slot w1 slot)) Hn Hf) as (gone & w2 & ->). cbn [mbind option_bind]. by eexists. }
  destruct Hc as [w' ->]. cbn [mbind option_bind]. apply IH.
Qed.

Lemma php_close_total fuel w p : no_signals → (0 < fuel)%nat → ∃ w', php_close set fuel w p = Some w'.
Proof. intros Hn Hf. unfold php_close. destruct (negb _); [by eexists|]. destruct (p =? PHP_INIT); by apply close_slots_total. Qed.

Lemma fuel_positive fuel : RESULTS_BUFFER ≤ Z.of_nat fuel → (0 < fuel)%nat.
Proof. unfold RESULTS_BUFFER. lia. Qed.

Lemma php_readpipe_total fuel w slot : no_signals → RESULTS_BUFFER ≤ Z.of_nat fuel →
  ∃ text w', php_readpipe set fuel w slot = Some (text, w') ∧ answer text.
Proof.
  intros Hn Hf. unfold php_readpipe, php_read_with. destruct (negb _); [eexists _, _; split; [done|by left]|].
  destruct (script_clock w) as [t w1]. destruct (monotonic_time w1) as [now w2]. apply select_loop_total; [done|done|]. intros w3 i. unfold php_restart.
  destruct (php_close_total fuel w3 (Z.of_nat i) Hn (fuel_positive _ Hf)) as (w4 & ->). cbn [mbind option_bind].
  destruct (php_init_total fuel w4 (Z.of_nat i) Hn Hf) as (ok & w5 & ->). done.
Qed.

Lemma cmd_loop_total left fuel command slot : no_signals → RESULTS_BUFFER ≤ Z.of_nat fuel → ∀ w,
  ∃ text w', cmd_loop set left fuel w command slot = Some (text, w') ∧ answer text.
Proof.
  intros Hn Hf. induction left as [|left IH]; intros w; cbn [cmd_loop]; [eexists _, _; split; [done|by left]|].
  destruct (negb _); [eexists _, _; split; [done|by left]|]. destruct (write_fd w _ command) as [bytes w1]. destruct (bytes <=? 0).
  - destruct (php_close_total fuel w1 (Z.of_nat slot) Hn (fuel_positive _ Hf)) as (w1' & ->). cbn [mbind option_bind].
    destruct left as [|left]; [eexists _, _; split; [done|by left]|].
    destruct (php_init_total fuel w1' (Z.of_nat slot) Hn Hf) as (ok & w2 & ->). cbn [mbind option_bind].
    destruct (ok && _); [apply IH|eexists _, _; split; [done|by left]].
  - destruct (php_readpipe_total fuel w1 slot Hn Hf) as (text & w2 & -> & Ha). cbn [mbind option_bind]. eexists _, _. split; [done|].
    destruct text; [by left|done].
Qed.

End Read.

(** ** Starting a server *)

Section Servers.
Context {W : Type} `{ScriptLaws W} (set : config_t).

Definition drop_fd (fd : Z) (m : gmap Z file) : gmap Z file := if 0 <=? fd then delete fd m else m.

Lemma php_close_fd_view w fd : view (php_close_fd w fd) = set_fds (drop_fd fd (fds (view w))) (view w).
Proof. unfold php_close_fd, drop_fd. destruct (0 <=? fd); [apply close_law|]. by rewrite set_fds_id. Qed.

Lemma drop_fd_insert fd f m : 0 ≤ fd → m !! fd = None → drop_fd fd (<[fd := f]> m) = m.
Proof. intros Hp Hm. unfold drop_fd. rewrite (proj2 (Z.leb_le _ _) Hp). by apply delete_insert_id. Qed.
Lemma drop_fd_insert_ne fd x f m : fd ≠ x → drop_fd fd (<[x := f]> m) = <[x := f]> (drop_fd fd m).
Proof. intros Hne. unfold drop_fd. destruct (0 <=? fd); [by rewrite delete_insert_ne|done]. Qed.
Lemma drop_fd_none m : drop_fd (-1) m = m.
Proof. done. Qed.

(** The stream of a child: a duplicate, or the end itself where it may stay. *)
Lemma stream_duplicates w fd std : 0 ≤ fd → let '(c, d, w') := child_stream_fd w fd std in
  duplicates view (view w) fd (d, w') ∧ (c = -1 ∨ d = -1 ∧ c = fd ∧ fd ≠ std ∨ 0 ≤ d ∧ c = d ∧ fd = std).
Proof.
  intros Hfd. unfold child_stream_fd. destruct (Z.eqb_spec fd std) as [Hstd|Hne].
  - pose proof (dup_law w fd) as Hd. destruct (dup w fd) as [d w1]. destruct (Z.leb_spec 0 d) as [Hpos|Hneg].
    + pose proof (set_cloexec_view w1 d) as E1. destruct (Process.spine_set_cloexec w1 d) as [rc w2]; cbn [snd] in E1.
      destruct Hd as [[? _]|(_ & Hn & f & Hf & Ev)]; cbn [fst snd] in *; [lia|]. destruct (negb (rc =? 0)).
      * split; [|by left]. left. split; [done|]. cbn [snd]. rewrite php_close_fd_view, E1, Ev. cbn [fds set_fds]. rewrite drop_fd_insert by done.
        by rewrite set_fds_twice, set_fds_id.
      * split; [|right; right; done]. right. split; [done|]. split; [done|]. exists f. cbn [fst snd]. split; [done|congruence].
    + split; [done|]. destruct Hd as [[? _]|(? & _)]; cbn [fst] in *; [by left|lia].
  - split; [by left|]. right. left. done.
Qed.

Lemma add_checked_view new : ∀ w fa, view (snd (add_checked w fa new)) = view w ∧ ∀ l, fst (add_checked w fa new) = Some l → l = fa ++ new.
Proof.
  induction new as [|a new IH]; intros w fa; cbn [add_checked]; [split; [done|]; intros l [= <-]; by rewrite app_nil_r|].
  pose proof (actions_add_law w a) as E. destruct (file_actions_add w a) as [rc w1]; cbn [snd] in E. destruct (rc =? 0); [|done].
  destruct (IH w1 (fa ++ [a])) as [E2 Hl]. split; [congruence|]. intros l El. rewrite (Hl l El). by rewrite <- app_assoc.
Qed.

Lemma sigpipe_attr_view w : view (snd (Process.spine_spawnattr_sigpipe_default w)) = view w.
Proof.
  unfold Process.spine_spawnattr_sigpipe_default. pose proof (attr_call_spec w [] Attr_init) as P1. destruct (Process.attr_call w [] Attr_init) as [[r1 a1] w1].
  destruct (negb _); [apply P1|]. pose proof (attr_call_spec w1 a1 Attr_setsigdefault_SIGPIPE) as P2. destruct (Process.attr_call w1 a1 _) as [[r2 a2] w2].
  destruct (negb _); [cbn [snd]; destruct P1, P2; congruence|]. pose proof (attr_call_spec w2 a2 Attr_setflags_SETSIGDEF) as P3.
  destruct (Process.attr_call w2 a2 _) as [[r3 a3] w3]. destruct P1, P2, P3. destruct (negb _); cbn [snd]; congruence.
Qed.

(** Closing the duplicates undoes making them. *)
Lemma undo_dups w w1 w2 f1 f2 d1 d2 : duplicates view (view w) f1 (d1, w1) → duplicates view (view w1) f2 (d2, w2) →
  ∀ m, m = fds (view w2) → drop_fd d2 (drop_fd d1 m) = fds (view w).
Proof.
  unfold duplicates. cbn [fst snd]. intros P1' P2' m ->. destruct P1' as [[-> E1]|(Hp1 & Hn1 & g1 & _ & E1)], P2' as [[-> E2]|(Hp2 & Hn2 & g2 & _ & E2)]; rewrite E2.
  - by rewrite !drop_fd_none, E1.
  - cbn [fds set_fds]. rewrite drop_fd_none, drop_fd_insert by done. by rewrite E1.
  - rewrite drop_fd_none, E1. cbn [fds set_fds]. by apply drop_fd_insert.
  - cbn [fds set_fds]. rewrite E1 in Hn2 |- *. cbn [fds set_fds] in *.
    assert (d1 ≠ d2) by (intros <-; by rewrite lookup_insert_eq in Hn2). rewrite lookup_insert_ne in Hn2 by done.
    rewrite drop_fd_insert_ne, (drop_fd_insert d1) by done. by apply drop_fd_insert.
Qed.

Lemma init_cleanup_view w d1 d2 c p : view (init_cleanup w d1 d2 c p) =
  set_fds (drop_fd (snd p) (drop_fd (fst p) (drop_fd (snd c) (drop_fd (fst c) (drop_fd d2 (drop_fd d1 (fds (view w)))))))) (view w).
Proof. unfold init_cleanup. by rewrite !php_close_fd_view. Qed.

(** The two pipes of a server. *)
Record pipes := { c0 : Z; c1 : Z; p0 : Z; p1 : Z; k1 : nat; k2 : nat }.
Definition with_pipes (q : pipes) (m : gmap Z file) : gmap Z file :=
  <[p0 q := End (k2 q) false]> (<[p1 q := End (k2 q) true]> (<[c0 q := End (k1 q) false]> (<[c1 q := End (k1 q) true]> m))).
Definition fresh_pipes (q : pipes) (m : gmap Z file) : Prop :=
  0 ≤ c0 q ∧ 0 ≤ c1 q ∧ 0 ≤ p0 q ∧ 0 ≤ p1 q ∧ NoDup [c0 q; c1 q; p0 q; p1 q] ∧ (∀ x, x ∈ [c0 q; c1 q; p0 q; p1 q] → m !! x = None) ∧
  k1 q ≠ k2 q ∧ (∀ fd b, m !! fd ≠ Some (End (k1 q) b) ∧ m !! fd ≠ Some (End (k2 q) b)).

(** [pipe] takes the two lowest free descriptors, the end to read first. *)
Definition lowest_first : Prop := ∀ w, match pipe w with
  | (Some (a, b), _) => a < b ∧ ∀ x, 0 ≤ x < b → x ≠ a → fds (view w) !! x ≠ None
  | _ => True
  end.
(** With both pipes open the standard streams are taken, and not by the child's end to
    write for its input. *)
Definition std_taken (q : pipes) (m : gmap Z file) : Prop :=
  p1 q ≠ Process.STDIN_FILENO ∧ with_pipes q m !! Process.STDIN_FILENO ≠ None ∧ with_pipes q m !! Process.STDOUT_FILENO ≠ None.

Lemma fresh_pipes_ne q m : fresh_pipes q m → c0 q ≠ c1 q ∧ c0 q ≠ p0 q ∧ c0 q ≠ p1 q ∧ c1 q ≠ p0 q ∧ c1 q ≠ p1 q ∧ p0 q ≠ p1 q ∧
  m !! c0 q = None ∧ m !! c1 q = None ∧ m !! p0 q = None ∧ m !! p1 q = None.
Proof.
  intros (_ & _ & _ & _ & Hnd & Hn & _). rewrite !list.NoDup_cons in Hnd. rewrite !not_elem_of_cons in Hnd. destruct Hnd as ((? & ? & ? & _) & (? & ? & _) & (? & _) & _).
  repeat split; try done; apply Hn; rewrite !elem_of_cons; tauto.
Qed.

Lemma undo_pipes q m : fresh_pipes q m → drop_fd (p1 q) (drop_fd (p0 q) (drop_fd (c1 q) (drop_fd (c0 q) (with_pipes q m)))) = m.
Proof.
  intros Hq. destruct (fresh_pipes_ne q m Hq) as (? & ? & ? & ? & ? & ? & ? & ? & ? & ?). destruct Hq as (? & ? & ? & ? & _). unfold with_pipes.
  rewrite !(drop_fd_insert_ne (c0 q)) by done. rewrite drop_fd_insert by (try done; by rewrite lookup_insert_ne).
  rewrite !(drop_fd_insert_ne (c1 q)) by done. rewrite (drop_fd_insert (c1 q)) by done.
  rewrite drop_fd_insert by (try done; by rewrite lookup_insert_ne). by rewrite drop_fd_insert.
Qed.

(** The parent keeps the end to write of the first pipe and the end to read of the second. *)
Lemma keep_ends q m : fresh_pipes q m → drop_fd (p1 q) (drop_fd (c0 q) (with_pipes q m)) = <[p0 q := End (k2 q) false]> (<[c1 q := End (k1 q) true]> m).
Proof.
  intros Hq. destruct (fresh_pipes_ne q m Hq) as (? & ? & ? & ? & ? & ? & ? & ? & ? & ?). destruct Hq as (? & ? & ? & ? & _). unfold with_pipes.
  rewrite !(drop_fd_insert_ne (c0 q)) by done. rewrite drop_fd_insert by (try done; by rewrite lookup_insert_ne).
  rewrite drop_fd_insert_ne by done. by rewrite drop_fd_insert by (try done; by rewrite lookup_insert_ne).
Qed.

(** A child's stream in the descriptors [t], and the descriptors with its duplicate. *)
Definition stream_in (t t' : gmap Z file) (fd std : Z) (f : file) (c d : Z) : Prop :=
  d = -1 ∧ c = fd ∧ fd ≠ std ∧ t' = t ∨ 0 ≤ d ∧ c = d ∧ fd = std ∧ t !! d = None ∧ t' = <[d := f]> t.
Definition server_spawn (q : pipes) (m : gmap Z file) (s : spawn_t) : Prop :=
  sp_path s = path_php set ∧ sp_argv s = server_argv set ∧
  ∃ cin din cout dout t1, sp_actions s = server_actions (c0 q, c1 q) (p0 q, p1 q) cin cout din dout ∧
    stream_in (with_pipes q m) t1 (c0 q) Process.STDIN_FILENO (End (k1 q) false) cin din ∧
    stream_in t1 (sp_fds s) (p1 q) Process.STDOUT_FILENO (End (k2 q) true) cout dout.

(** What starting a server leaves: nothing, or the process and the parent's two ends. *)
Definition server_started (v v' : os) (r : option (Z * Z * Z)) : Prop :=
  r = None ∧ v' = v ∨
  ∃ q l, fresh_pipes q (fds v) ∧ (lowest_first → std_taken q (fds v)) ∧ Forall (server_spawn q (fds v)) l ∧
    (r = None ∧ v' = add_spawned l v ∨
     ∃ pid, r = Some (pid, p0 q, c1 q) ∧ v' = add_spawned l (set_fds (<[p0 q := End (k2 q) false]> (<[c1 q := End (k1 q) true]> (fds v))) v)).

Lemma open_pipe_number w : match Process.spine_open_pipe_cloexec w with
  | (Some (a, b), _) => lowest_first → a < b ∧ ∀ x, 0 ≤ x < b → x ≠ a → fds (view w) !! x ≠ None
  | _ => True
  end.
Proof.
  unfold Process.spine_open_pipe_cloexec, Process.pair_cloexec.
  assert (Hl : lowest_first → match pipe w with (Some (a, b), _) => a < b ∧ ∀ x, 0 ≤ x < b → x ≠ a → fds (view w) !! x ≠ None | _ => True end) by (intros Hl; apply Hl).
  destruct (pipe w) as [[[a b]|] w1]; [|done]. cbn [fst snd]. destruct (Process.spine_set_cloexec w1 a) as [r1 w2]. destruct (negb _); [done|].
  destruct (Process.spine_set_cloexec w2 b) as [r2 w3]. by destruct (negb _).
Qed.

Lemma two_pipes w : match Process.spine_open_pipe_cloexec w with
  | (None, w1) => view w1 = view w
  | (Some c, w1) =>
      0 ≤ fst c ∧ 0 ≤ snd c ∧ set_fds (drop_fd (snd c) (drop_fd (fst c) (fds (view w1)))) (view w1) = view w ∧
      match Process.spine_open_pipe_cloexec w1 with
      | (None, w2) => view w2 = view w1
      | (Some p, w2) => ∃ q, c = (c0 q, c1 q) ∧ p = (p0 q, p1 q) ∧ fresh_pipes q (fds (view w)) ∧ (lowest_first → std_taken q (fds (view w))) ∧ view w2 = set_fds (with_pipes q (fds (view w))) (view w)
      end
  end.
Proof.
  pose proof (open_pipe_opens w) as Ho. pose proof (open_pipe_number w) as Hnum1. destruct (Process.spine_open_pipe_cloexec w) as [[[a b]|] w1]; [|done].
  destruct Ho as (Ha0 & Hb0 & Hab & Ha & Hb & k & Hk & Ev). split; [done|]. split; [done|]. cbn [fst snd]. split.
  { rewrite Ev. cbn [fds set_fds]. rewrite drop_fd_insert by (try done; by rewrite lookup_insert_ne). rewrite drop_fd_insert by done.
    by rewrite set_fds_twice, set_fds_id. }
  pose proof (open_pipe_opens w1) as Ho2. pose proof (open_pipe_number w1) as Hnum2. destruct (Process.spine_open_pipe_cloexec w1) as [[[x y]|] w2]; [|done].
  destruct Ho2 as (Hx0 & Hy0 & Hxy & Hx & Hy & k' & Hk' & Ev2). rewrite Ev in Hx, Hy, Hk', Ev2. unfold fresh_channel in Hk'. cbn [fds set_fds] in *.
  exists {| c0 := a; c1 := b; p0 := x; p1 := y; k1 := k; k2 := k' |}. split; [done|]. split; [done|].
  assert (a ≠ x ∧ b ≠ x ∧ fds (view w) !! x = None) as (? & ? & ?) by (apply lookup_insert_None in Hx as [Hx ?]; apply lookup_insert_None in Hx as [? ?]; done).
  assert (a ≠ y ∧ b ≠ y ∧ fds (view w) !! y = None) as (? & ? & ?) by (apply lookup_insert_None in Hy as [Hy ?]; apply lookup_insert_None in Hy as [? ?]; done).
  split; [|split; [intros Hlow|by rewrite Ev2]].
  2: { specialize (Hnum1 Hlow) as [Hlt Htaken]. specialize (Hnum2 Hlow) as [Hlt2 _]. unfold std_taken, with_pipes, Process.STDIN_FILENO, Process.STDOUT_FILENO.
    cbn [c0 c1 p0 p1 k1 k2]. split; [lia|]. assert (Hin : ∀ z, 0 ≤ z ≤ b → <[x:=End k' false]> (<[y:=End k' true]> (<[a:=End k false]> (<[b:=End k true]> (fds (view w))))) !! z ≠ None).
    { intros z Hz Hno. apply lookup_insert_None in Hno as [Hno _]. apply lookup_insert_None in Hno as [Hno _]. apply lookup_insert_None in Hno as [Hno Hza].
      apply lookup_insert_None in Hno as [Hno Hzb]. apply (Htaken z); [lia|congruence|done]. }
    split; apply Hin; lia. }
  unfold fresh_pipes. cbn [c0 c1 p0 p1 k1 k2]. repeat split; try done.
  - rewrite !list.NoDup_cons, !not_elem_of_cons. repeat split; try done; try apply not_elem_of_nil; constructor.
  - intros z Hz. rewrite !elem_of_cons in Hz. by destruct Hz as [->|[->|[->|[->|[]%not_elem_of_nil]]]].
  - intros <-. apply (Hk' a false). by rewrite lookup_insert_eq.
  - intros E. apply (Hk' fd b0). rewrite !lookup_insert_ne; [done|congruence|congruence].
Qed.

Lemma stream_in_view w w1 fd std f c d : fds (view w) !! fd = Some f → duplicates view (view w) fd (d, w1) →
  (c = -1 ∨ d = -1 ∧ c = fd ∧ fd ≠ std ∨ 0 ≤ d ∧ c = d ∧ fd = std) → 0 ≤ c → stream_in (fds (view w)) (fds (view w1)) fd std f c d.
Proof.
  unfold duplicates, stream_in. cbn [fst snd]. intros Hf Hd Hc Hpos. destruct Hc as [?|[(-> & -> & Hs)|(Hd0 & -> & Hs)]]; [lia| |].
  - destruct Hd as [[_ ->]|(? & _)]; [by left|lia].
  - destruct Hd as [[? _]|(_ & Hn & g & Hg & ->)]; [lia|]. right. by replace f with g by congruence.
Qed.

Lemma dups_view w fd d w1 : duplicates view (view w) fd (d, w1) → view w1 = set_fds (fds (view w1)) (view w).
Proof.
  intros [[_ E]|(_ & _ & g & _ & E)]; cbn [snd] in E; rewrite E; [by rewrite set_fds_id|done].
Qed.

Lemma spawn_server_started w : let '(r, w') := spawn_server set w in server_started (view w) (view w') r.
Proof.
  unfold spawn_server. pose proof (two_pipes w) as Hp. destruct (Process.spine_open_pipe_cloexec w) as [[c|] w1].
  2: { left. split; [done|]. rewrite init_cleanup_view. cbn [fst snd]. rewrite !drop_fd_none, set_fds_id. done. }
  destruct Hp as (_ & _ & Hone & Hp). destruct (Process.spine_open_pipe_cloexec w1) as [[p|] w2].
  2: { left. split; [done|]. rewrite init_cleanup_view, Hp. cbn [fst snd]. rewrite !drop_fd_none. done. }
  destruct Hp as (q & -> & -> & Hq & Hstd & E2). cbn [fst snd].
  assert (Hleaf : ∀ l w', Forall (server_spawn q (fds (view w))) l → view w' = add_spawned l (view w) → server_started (view w) (view w') None).
  { intros l w' Hl E. right. exists q, l. split; [done|]. split; [done|]. split; [done|]. by left. }
  assert (Hclean : ∀ w' l, view w' = add_spawned l (view w2) → view (init_cleanup w' (-1) (-1) (c0 q, c1 q) (p0 q, p1 q)) = add_spawned l (view w)).
  { intros w' l E. rewrite init_cleanup_view, E, E2. cbn [fst snd fds add_spawned set_fds]. rewrite !drop_fd_none, undo_pipes by done. done. }
  assert (Hnone : ∀ w', view w' = view w2 → server_started (view w) (view (init_cleanup w' (-1) (-1) (c0 q, c1 q) (p0 q, p1 q))) None).
  { intros w' E. apply (Hleaf []); [done|]. apply Hclean. rewrite E. unfold add_spawned. rewrite app_nil_r. by destruct (view w2). }
  pose proof (actions_init_law w2) as E3. destruct (file_actions_init w2) as [rc w3]; cbn [snd] in E3. destruct (negb (rc =? 0)); [by apply Hnone|].
  pose proof (sigpipe_attr_view w3) as E4. destruct (Process.spine_spawnattr_sigpipe_default w3) as [[attr|] w4]; cbn [snd] in E4; [|apply Hnone; congruence].
  assert (E42 : view w4 = view w2) by congruence. clear E3 E4 Hnone.
  pose proof (stream_duplicates w4 (c0 q) Process.STDIN_FILENO ltac:(apply Hq)) as Hs1. destruct (child_stream_fd w4 (c0 q) _) as [[cin din] w5].
  destruct Hs1 as [Hd1 Hc1]. pose proof (stream_duplicates w5 (p1 q) Process.STDOUT_FILENO ltac:(apply Hq)) as Hs2.
  destruct (child_stream_fd w5 (p1 q) _) as [[cout dout] w6]. destruct Hs2 as [Hd2 Hc2].
  pose proof (undo_dups w4 w5 w6 _ _ din dout Hd1 Hd2 _ eq_refl) as Hundo.
  assert (E6 : view w6 = set_fds (fds (view w6)) (view w2)) by (rewrite (dups_view _ _ _ _ Hd2), (dups_view _ _ _ _ Hd1), E42; done).
  assert (Hdrop : ∀ w' l, view w' = add_spawned l (view w6) → view (php_close_fd (php_close_fd w' din) dout) = add_spawned l (view w2)).
  { intros w' l E. rewrite !php_close_fd_view, E. cbn [fds set_fds add_spawned]. rewrite Hundo, E42, E6. destruct (view w2). done. }
  assert (Hclean6 : ∀ w', view w' = view w6 → view (init_cleanup w' din dout (c0 q, c1 q) (p0 q, p1 q)) = add_spawned [] (view w)).
  { intros w' E. change (init_cleanup w' din dout (c0 q, c1 q) (p0 q, p1 q))
      with (init_cleanup (php_close_fd (php_close_fd w' din) dout) (-1) (-1) (c0 q, c1 q) (p0 q, p1 q)).
    apply Hclean, Hdrop. rewrite E. unfold add_spawned. rewrite app_nil_r. by destruct (view w6). }
  destruct ((cin <? 0) || (cout <? 0)) eqn:Eneg.
  { apply (Hleaf []); [done|]. by apply Hclean6. }
  apply orb_false_iff in Eneg as [Hcin%Z.ltb_ge Hcout%Z.ltb_ge].
  destruct (add_checked_view (server_actions (c0 q, c1 q) (p0 q, p1 q) cin cout din dout) w6 []) as [E7 Hfa].
  destruct (add_checked w6 [] _) as [[fa|] w7]; cbn [fst snd] in E7, Hfa.
  2: { apply (Hleaf []); [done|]. by apply Hclean6. }
  specialize (Hfa fa eq_refl). cbn [app] in Hfa. subst fa.
  pose proof (spawn_retry_view 3 w7 (path_php set) (server_actions (c0 q, c1 q) (p0 q, p1 q) cin cout din dout) attr (server_argv set)) as Hs.
  destruct (Process.spawn_retry 3 w7 _ _ attr _) as [[e pid] w8]. destruct Hs as (l & E8 & Hl & _). rewrite E7 in E8, Hl. specialize (Hdrop w8 l E8).
  assert (Hl' : Forall (server_spawn q (fds (view w))) l).
  { eapply Forall_impl; [|exact Hl]. intros s (P1 & P2 & _ & P4 & P5). split; [done|]. split; [done|]. exists cin, din, cout, dout, (fds (view w5)).
    assert (Hfds4 : fds (view w4) = with_pipes q (fds (view w))) by (by rewrite E42, E2).
    destruct (fresh_pipes_ne q _ Hq) as (N1 & N2 & N3 & N4 & N5 & N6 & _). split; [done|]. split.
    - rewrite <- Hfds4. apply stream_in_view; [|done..]. rewrite Hfds4. unfold with_pipes. rewrite !lookup_insert_ne by done. apply lookup_insert_eq.
    - rewrite P5. apply stream_in_view; [|done..].
      assert (Hl4 : fds (view w4) !! p1 q = Some (End (k2 q) true)) by (rewrite Hfds4; unfold with_pipes; rewrite lookup_insert_ne by done; apply lookup_insert_eq).
      destruct Hd1 as [[_ E]|(_ & Hn & g & _ & E)]; cbn [fst snd] in *; rewrite E; [done|]. cbn [fds set_fds]. rewrite lookup_insert_ne; [done|]. intros ->. congruence. }
  destruct (negb (e =? 0)).
  - apply (Hleaf l); [done|]. by apply Hclean.
  - right. exists q, l. split; [done|]. split; [done|]. split; [done|]. right. exists pid. split; [done|]. rewrite (php_close_fd_view _ (p1 q)), (php_close_fd_view _ (c0 q)), Hdrop, E2.
    cbn [fds add_spawned set_fds]. by rewrite keep_ends.
Qed.

Definition std_fd (x : Z) : bool := (x =? Process.STDIN_FILENO) || (x =? Process.STDOUT_FILENO).
Definition fd_list (fd : Z) : list Z := if fd =? -1 then [] else [fd].

(** [t] is [m] with the descriptors [new] opened. *)
Definition extends (new : list Z) (m t : gmap Z file) : Prop :=
  NoDup new ∧ (∀ x, x ∈ new → t !! x ≠ None ∧ m !! x = None) ∧ ∀ x, x ∉ new → t !! x = m !! x.

Lemma with_pipes_extends q m : fresh_pipes q m → extends [c0 q; c1 q; p0 q; p1 q] m (with_pipes q m).
Proof.
  intros Hq. split; [apply Hq|]. split.
  - intros x Hx. split; [|by apply Hq]. unfold with_pipes. intros Hno. rewrite !lookup_insert_None in Hno. destruct Hno as ((((_ & ?) & ?) & ?) & ?).
    rewrite !elem_of_cons in Hx. destruct Hx as [?|[?|[?|[?|[]%not_elem_of_nil]]]]; congruence.
  - intros x. rewrite !not_elem_of_cons. intros (? & ? & ? & ? & _). unfold with_pipes. by rewrite !lookup_insert_ne.
Qed.

Lemma stream_extends new m t t' fd std f c d : extends new m t → t !! fd = Some f →
  t !! Process.STDIN_FILENO ≠ None → t !! Process.STDOUT_FILENO ≠ None → stream_in t t' fd std f c d →
  extends (new ++ fd_list d) m t' ∧ t' !! c = Some f ∧ (∀ y g, t !! y = Some g → t' !! y = Some g) ∧ (c = fd ∨ std_fd c = false) ∧
  ∀ x, x ∈ fd_list d → std_fd x = false.
Proof.
  intros (Hnd & Hin & Hout) Hfd H0' H1' Hs. unfold fd_list. destruct Hs as [(-> & -> & _ & ->)|(Hd & -> & _ & Hn & ->)].
  - rewrite Z.eqb_refl, app_nil_r. split; [done|]. split; [done|]. split; [done|]. split; [by left|]. intros x []%not_elem_of_nil.
  - rewrite (proj2 (Z.eqb_neq d (-1))) by lia. assert (Hdn : d ∉ new) by (intros Hx; apply Hin in Hx as [? _]; done).
    assert (Hstd : std_fd d = false) by (unfold std_fd; apply orb_false_iff; split; apply Z.eqb_neq; intros ->; done).
    split; [split; [|split]|].
    + apply list.NoDup_app. split; [done|]. split; [by intros x Hx ->%list_elem_of_singleton|apply list.NoDup_singleton].
    + intros x [Hx|Hx%list_elem_of_singleton]%elem_of_app.
      * apply Hin in Hx as [? ?]. rewrite lookup_insert_ne; [done|]. intros ->. done.
      * subst x. rewrite lookup_insert_eq. split; [done|]. by rewrite <- (Hout d Hdn).
    + intros x [Hx Hxd]%not_elem_of_app. apply not_elem_of_cons in Hxd as [Hxd _]. rewrite lookup_insert_ne by done. by apply Hout.
    + split; [apply lookup_insert_eq|]. split; [intros y g Hy; rewrite lookup_insert_ne; [done|]; intros ->; congruence|].
      split; [by right|]. by intros x ->%list_elem_of_singleton.
Qed.

Lemma close_new new : map AddClose (filter (fun x => std_fd x = false) new) = concat (map addclose_unless_std new).
Proof.
  induction new as [|x new IH]; [done|]. rewrite filter_cons. cbn [map concat]. unfold addclose_unless_std at 1. fold (std_fd x).
  destruct (std_fd x); [by rewrite decide_False|]. rewrite decide_True by done. cbn. by rewrite IH.
Qed.

Lemma server_actions_closes q cin din cout dout : (∀ x, x ∈ fd_list din → std_fd x = false) → (∀ x, x ∈ fd_list dout → std_fd x = false) →
  server_actions (c0 q, c1 q) (p0 q, p1 q) cin cout din dout =
    [AddDup2 cin Process.STDIN_FILENO; AddDup2 cout Process.STDOUT_FILENO] ++
    map AddClose (filter (fun x => std_fd x = false) ([c0 q; c1 q; p0 q; p1 q] ++ fd_list din ++ fd_list dout)).
Proof.
  intros Hin Hout. rewrite close_new, !map_app, !concat_app. unfold server_actions. f_equal. cbn [map concat fst snd]. rewrite app_nil_r, <- !app_assoc. do 4 f_equal.
  assert (Hd : ∀ d, (∀ x, x ∈ fd_list d → std_fd x = false) → (if negb (d =? -1) then [AddClose d] else []) = concat (map addclose_unless_std (fd_list d))).
  { intros d Hx. unfold fd_list in *. destruct (d =? -1); [done|]. cbn. unfold addclose_unless_std. fold (std_fd d). by rewrite (Hx d) by left. }
  by rewrite (Hd din Hin), (Hd dout Hout).
Qed.

(** The child of a server: its input is the end to read of the first pipe, its output the
    end to write of the second, and it has no other copy of either. *)
Lemma server_runs q m s : fresh_pipes q m → std_taken q m → server_spawn q m s →
  ∃ t, run_actions (sp_actions s) (sp_fds s) = Some t ∧
    ∀ x, t !! x = if x =? Process.STDIN_FILENO then Some (End (k1 q) false)
                  else if x =? Process.STDOUT_FILENO then Some (End (k2 q) true) else m !! x.
Proof.
  intros Hq (Hp1 & Ht0 & Ht1) (_ & _ & cin & din & cout & dout & t1 & -> & Hin & Hout).
  destruct (fresh_pipes_ne q m Hq) as (N1 & N2 & N3 & N4 & N5 & N6 & _).
  assert (Hc0 : with_pipes q m !! c0 q = Some (End (k1 q) false)) by (unfold with_pipes; rewrite !lookup_insert_ne by done; apply lookup_insert_eq).
  assert (Hpw : with_pipes q m !! p1 q = Some (End (k2 q) true)) by (unfold with_pipes; rewrite lookup_insert_ne by done; apply lookup_insert_eq).
  destruct (stream_extends _ m _ _ _ _ _ _ _ (with_pipes_extends q m Hq) Hc0 Ht0 Ht1 Hin) as (X1 & C1 & K1 & _ & S1).
  assert (Hkeep : ∀ y, with_pipes q m !! y ≠ None → t1 !! y ≠ None).
  { intros y Hy. destruct (with_pipes q m !! y) as [g|] eqn:E; [|done]. by rewrite (K1 y g E). }
  destruct (stream_extends _ m _ _ _ _ _ _ _ X1 (K1 _ _ Hpw) (Hkeep _ Ht0) (Hkeep _ Ht1) Hout) as (X2 & C2 & K2 & Hco & S2).
  apply K2 in C1. rewrite <- app_assoc in X2. destruct X2 as (Hnd & Hnew & Hold). rewrite server_actions_closes by done.
  set (new := [c0 q; c1 q; p0 q; p1 q] ++ fd_list din ++ fd_list dout) in *.
  assert (Hcout : cout ≠ Process.STDIN_FILENO) by (destruct Hco as [-> |Hs]; [done|by intros ->]).
  rewrite run_actions_app. cbn [run_actions]. rewrite C1, lookup_insert_ne, C2 by done. cbn [mbind option_bind].
  set (u := <[Process.STDOUT_FILENO := _]> _).
  assert (Hu : ∀ x, std_fd x = false → u !! x = sp_fds s !! x).
  { intros x [?%Z.eqb_neq ?%Z.eqb_neq]%orb_false_iff. unfold u. by rewrite !lookup_insert_ne. }
  destruct (run_closes (filter (fun x => std_fd x = false) new) u) as (t & Et & Ht).
  { by apply list.NoDup_filter. }
  { intros x [Hs Hx]%list_elem_of_filter. rewrite Hu by done. by apply Hnew. }
  exists t. split; [done|]. intros x. rewrite Ht. unfold u.
  destruct (Z.eqb_spec x Process.STDIN_FILENO) as [->|H0'].
  { rewrite decide_False by (by intros [? _]%list_elem_of_filter). by rewrite lookup_insert_ne, lookup_insert_eq. }
  destruct (Z.eqb_spec x Process.STDOUT_FILENO) as [->|H1'].
  { rewrite decide_False by (by intros [? _]%list_elem_of_filter). by rewrite lookup_insert_eq. }
  assert (Hs : std_fd x = false) by (unfold std_fd; apply orb_false_iff; split; by apply Z.eqb_neq).
  rewrite !lookup_insert_ne by done. destruct (decide (x ∈ filter _ new)) as [Hx|Hx].
  - apply list_elem_of_filter in Hx as [_ Hx]. apply Hnew in Hx as [_ Hx]. done.
  - apply Hold. intros Hin'. apply Hx, list_elem_of_filter. done.
Qed.

(** ** The descriptors of a slot *)

(** The descriptors that are not the slot's. *)
Definition rest (v : os) (i : nat) : gmap Z file := delete (php_read_fd (servers v i)) (delete (php_write_fd (servers v i)) (fds v)).
(** Each of the slot's two numbers is negative or an open descriptor, and they differ; so it is
    also while the server is being closed, between its two ends. *)
Definition slot_sound (v : os) (i : nat) : Prop :=
  let s := servers v i in
  (∀ fd, fd < 0 → fds v !! fd = None) ∧ (0 ≤ php_read_fd s → fds v !! php_read_fd s ≠ None) ∧ (0 ≤ php_write_fd s → fds v !! php_write_fd s ≠ None) ∧
  (0 ≤ php_read_fd s → php_read_fd s ≠ php_write_fd s).
Definition paired (v : os) (i : nat) : Prop := 0 ≤ php_read_fd (servers v i) ↔ 0 ≤ php_write_fd (servers v i).
(** The slot names two different open descriptors, or none. *)
Definition slot_ok (v : os) (i : nat) : Prop := slot_sound v i ∧ paired v i.
Definition slot_closed (v : os) (i : nat) : Prop := php_read_fd (servers v i) < 0 ∧ php_write_fd (servers v i) < 0.

(** The slot stays sound, and nothing else is opened, closed or changed. *)
Definition touches (i : nat) (v v' : os) : Prop :=
  slot_sound v i → slot_sound v' i ∧ rest v' i = rest v i ∧ ∀ j, j ≠ i → servers v' j = servers v j.
#[local] Instance touches_preorder i : PreOrder (touches i).
Proof.
  split; [by intros v|]. intros v1 v2 v3 H12 H23 Hok. destruct (H12 Hok) as (Hok2 & E2 & F2). destruct (H23 Hok2) as (Hok3 & E3 & F3).
  split; [done|]. split; [congruence|]. intros j Hj. by rewrite F3, F2.
Qed.
(** And it keeps both of its descriptors, gets two new ones, or loses both. *)
Definition keeps (i : nat) (v v' : os) : Prop := touches i v v' ∧ (paired v i → paired v' i).
#[local] Instance keeps_preorder i : PreOrder (keeps i).
Proof.
  split; [by intros v|]. intros v1 v2 v3 [H12 P12] [H23 P23]. split; [by etrans|]. intros Hp. by apply P23, P12.
Qed.

Lemma keeps_same i v v' : fds v' = fds v → servers v' = servers v → keeps i v v'.
Proof. intros E1 E2. split; [intros Hok|]; unfold slot_sound, rest, paired in *; by rewrite ?E1, E2. Qed.

Lemma keeps_slot i v s : php_read_fd s = php_read_fd (servers v i) → php_write_fd s = php_write_fd (servers v i) → keeps i v (set_slot i s v).
Proof.
  intros E1 E2. split.
  - intros Hok. unfold slot_sound, rest in *. cbn [set_slot set_servers servers fds]. rewrite decide_True by done. rewrite E1, E2.
    split; [done|]. split; [done|]. intros j Hj. by rewrite decide_False.
  - unfold paired. cbn [set_slot set_servers servers]. by rewrite decide_True, E1, E2 by done.
Qed.

Lemma read_line_view fuel d : ∀ w fd buf text ok w', read_line fuel w fd d buf = Some (text, ok, w') → view w' = view w.
Proof.
  induction fuel as [|n IH]; intros w fd buf text ok w'; cbn [read_line]; [done|]. destruct (_ <=? slen buf); [by intros [= _ _ <-]|].
  assert (E1 : view (snd (if 0 <? slen buf then wait_readable w fd d else (1, w))) = view w) by (destruct (0 <? slen buf); [apply wait_law|done]).
  destruct (if 0 <? slen buf then wait_readable w fd d else (1, w)) as [ready w1]; cbn [snd] in E1. destruct (ready <=? 0); [by intros [= _ _ <-]|].
  pose proof (read_law w1 fd (RESULTS_BUFFER - 1 - slen buf)) as E2. destruct (read_fd w1 fd _) as [r w2]; cbn [snd] in E2.
  assert (E : view w2 = view w) by congruence. destruct r; [|intros Hr; by rewrite (IH _ _ _ _ _ _ Hr)|by intros [= _ _ <-]].
  destruct (has_substr _ LF); [by intros [= _ _ <-]|]. destruct (_ <=? slen (buf ++ bytes)); [by intros [= _ _ <-]|]. intros Hr. by rewrite (IH _ _ _ _ _ _ Hr).
Qed.

Lemma put_state_keeps w i st : keeps i (view w) (view (put_slot w i (set_php_state st (get_slot w i)))).
Proof. rewrite put_slot_law, get_slot_law. by apply keeps_slot. Qed.

Lemma keeps_view i (w w' : W) v : view w' = view w → keeps i (view w') v → keeps i (view w) v.
Proof. by intros ->. Qed.

Lemma select_loop_keeps restart i : (∀ w w', restart w i = Some w' → keeps i (view w) (view w')) →
  ∀ fuel w t b d tv text w', select_loop restart fuel w i t b d tv = Some (text, w') → keeps i (view w) (view w').
Proof.
  intros Hre. assert (Hfail : ∀ w w', php_fail_read restart w i = Some w' → keeps i (view w) (view w')).
  { intros w w' Hf. etrans; [apply put_state_keeps|]. by apply Hre. }
  assert (Hfail2 : ∀ w (text text' : cstr) w', (w1 ← php_fail_read restart w i; Some (text, w1)) = Some (text', w') → keeps i (view w) (view w')).
  { intros w text text' w' Hf. destruct (php_fail_read restart w i) as [w1|] eqn:E; [|done]. injection Hf as _ <-. by apply Hfail. }
  induction fuel as [|n IH]; intros w t b d tv text w'; cbn [select_loop]; [done|]. destruct (_ || _); [by apply Hfail2|].
  pose proof (select_law w (php_read_fd (get_slot w i)) tv) as E1. destruct (select_fd w _ tv) as [r w1]; cbn [snd] in E1. intros Hr.
  apply (keeps_view i w w1); [done|]. destruct r; try (by eapply Hfail2).
  - destruct (read_line (S n) w1 _ d []) as [[[tx ok] w2]|] eqn:E2; [|done]. apply read_line_view in E2. cbn [mbind option_bind] in Hr.
    apply (keeps_view i w1 w2); [done|]. destruct ok; [|by eapply Hfail2]. injection Hr as _ <-. apply put_state_keeps.
  - pose proof (clock_law (usleep w1 2000)) as E2. destruct (script_clock (usleep w1 2000)) as [now w2]; cbn [snd] in E2. rewrite usleep_law in E2.
    apply (keeps_view i w1 w2); [done|]. destruct (0 <? _); [by eapply IH|by eapply Hfail2].
Qed.

Lemma read_with_keeps restart allow i : (∀ w w', restart w i = Some w' → keeps i (view w) (view w')) →
  ∀ fuel w text w', php_read_with set restart allow fuel w i = Some (text, w') → keeps i (view w) (view w').
Proof.
  intros Hre fuel w text w'. unfold php_read_with. destruct (negb _); [by intros [= _ <-]|]. pose proof (clock_law w) as E1.
  destruct (script_clock w) as [t w1]; cbn [snd] in E1. pose proof (time_law w1) as E2. destruct (monotonic_time w1) as [now w2]; cbn [snd] in E2. intros Hr.
  apply (keeps_view i w w2); [congruence|]. by eapply select_loop_keeps.
Qed.

Lemma send_quit_view w fd : view (send_quit w fd) = set_fds (delete fd (fds (view w))) (view w).
Proof.
  unfold send_quit. pose proof (fcntl_law w fd F_GETFL) as E1. destruct (fcntl w fd F_GETFL) as [fl w1]; cbn [snd] in E1.
  set (w2 := if 0 <=? fl then _ else w1). assert (E2 : view w2 = view w1) by (unfold w2; destruct (0 <=? fl); [apply fcntl_law|done]).
  pose proof (write_law w2 fd ($"quit" ++ CRLF)) as E3. destruct (write_fd w2 fd _) as [n w3]; cbn [snd] in E3. rewrite close_law. congruence.
Qed.

Lemma terminate_view fuel : ∀ w pid gone w', php_terminate_and_reap fuel w pid = Some (gone, w') → fds (view w') = fds (view w) ∧ servers (view w') = servers (view w).
Proof.
  induction fuel as [|n IH]; intros w pid gone w'; cbn [php_terminate_and_reap]; [done|]. pose proof (waitpid_law w pid) as E.
  destruct (waitpid w pid) as [r w1]; cbn [snd] in E. destruct r as [st| |e].
  - intros [= _ <-]. by rewrite E.
  - intros [= _ <-]. by rewrite kill_law, E.
  - destruct (e =? Process.EINTR); [intros Hr; apply IH in Hr as [-> ->]; by rewrite E|]. intros [= _ <-]. by rewrite E.
Qed.

(** Closing one descriptor of a slot and marking it gone. *)
Lemma close_one_touches v i s m : slot_sound v i →
  (php_read_fd s = php_read_fd (servers v i) ∧ php_write_fd s < 0 ∧ m = delete (php_write_fd (servers v i)) (fds v) ∨
   php_write_fd s = php_write_fd (servers v i) ∧ php_write_fd s < 0 ∧ php_read_fd s < 0 ∧ m = delete (php_read_fd (servers v i)) (fds v)) →
  touches i v (set_slot i s (set_fds m v)).
Proof.
  intros Hok Hm _. destruct Hok as (Hneg & Hr & Hw & Hrw). unfold slot_sound, rest. cbn [set_slot set_servers set_fds servers fds]. rewrite decide_True by done.
  assert (Hdel : ∀ fd, fd < 0 → ∀ x, delete x (fds v) !! fd = None) by (intros fd Hfd x; rewrite lookup_delete_None; by right; apply Hneg).
  split; [|split].
  - destruct Hm as [(-> & Hw' & ->)|(-> & Hw' & Hr' & ->)]; (split; [intros fd Hfd; by apply Hdel|]); (split; [|split]); intros Hx; try lia.
    rewrite lookup_delete_ne; [by apply Hr|]. by intros E; apply Hrw.
  - destruct Hm as [(-> & Hw' & ->)|(-> & Hw' & Hr' & ->)].
    + by rewrite (delete_id (delete _ _) (php_write_fd s)) by (by apply Hdel).
    + rewrite (delete_id (delete (php_read_fd (servers v i)) (fds v))) by (by apply Hdel).
      rewrite (delete_id _ (php_read_fd s)) by (by apply Hdel). by rewrite (delete_id (fds v) (php_write_fd (servers v i))) by (apply Hneg; lia).
  - intros j Hj. by rewrite decide_False.
Qed.

Lemma close_slot_keeps fuel w i w' : close_slot fuel w i = Some w' → keeps i (view w) (view w') ∧ slot_closed (view w') i.
Proof.
  unfold close_slot. set (w1 := if 0 <=? php_write_fd (get_slot w i) then _ else w).
  assert (H1' : touches i (view w) (view w1) ∧ php_write_fd (servers (view w1) i) < 0).
  { unfold w1. rewrite get_slot_law. destruct (Z.leb_spec 0 (php_write_fd (servers (view w) i))) as [Hp|Hn]; [|split; [done|lia]].
    rewrite usleep_law, put_slot_law, send_quit_view. split; [|cbn; by rewrite decide_True].
    intros Hok. apply close_one_touches; [done| |done]. left. done. }
  destruct H1' as [K1 Hw1]. rewrite !(get_slot_law w1).
  set (m2 := if 1 <? php_pid (servers (view w1) i) then _ else Some w1). intros Hc.
  assert (H2' : ∀ w2, m2 = Some w2 → touches i (view w1) (view w2) ∧ php_write_fd (servers (view w2) i) < 0).
  { intros w2. unfold m2. destruct (1 <? _); [|intros [= <-]; done]. destruct (php_terminate_and_reap fuel w1 _) as [[gone w3]|] eqn:Et; cbn [mbind option_bind]; [|done].
    apply terminate_view in Et as [Ef Es]. intros [= <-]. rewrite put_slot_law. split.
    - match goal with |- touches i ?v ?v' => enough (K : keeps i v v') by apply K end. etrans; [apply (keeps_same i (view w1) (view (if gone then w3 else Process.nft_abandon_child w3 (php_pid (servers (view w1) i)))))|].
      + destruct gone; [done|]. destruct (abandon_view w3 (php_pid (servers (view w1) i))) as (l & -> & _). done.
      + destruct gone; [done|]. destruct (abandon_view w3 (php_pid (servers (view w1) i))) as (l & -> & _). done.
      + apply keeps_slot; destruct gone; cbn; [by rewrite Es| |by rewrite Es|].
        all: destruct (abandon_view w3 (php_pid (servers (view w1) i))) as (l & -> & _); cbn; by rewrite Es.
    - cbn. by rewrite decide_True. }
  destruct m2 as [w2|]; [|done]. destruct (H2' w2 eq_refl) as [K2 Hw2]. cbn [mbind option_bind] in Hc. injection Hc as <-. rewrite !get_slot_law, put_slot_law, close_law.
  match goal with |- keeps i _ ?v ∧ _ => assert (Hclosed : slot_closed v i) by (unfold slot_closed; cbn; rewrite decide_True by done; done) end.
  split; [split|exact Hclosed].
  - etrans; [exact K1|]. etrans; [exact K2|]. intros Hok. apply close_one_touches; [done| |done]. right. done.
  - intros _. destruct Hclosed. unfold paired. lia.
Qed.

(** A closed slot given two fresh descriptors, or none. *)
Lemma open_keeps v i s m : slot_closed v i →
  (php_read_fd s = -1 ∧ php_write_fd s = -1 ∧ m = fds v ∨
   ∃ f g, 0 ≤ php_read_fd s ∧ 0 ≤ php_write_fd s ∧ php_read_fd s ≠ php_write_fd s ∧ fds v !! php_read_fd s = None ∧ fds v !! php_write_fd s = None ∧
     m = <[php_read_fd s := f]> (<[php_write_fd s := g]> (fds v))) →
  keeps i v (set_slot i s (set_fds m v)).
Proof.
  intros [Cr Cw] Hm. split.
  2: { intros _. unfold paired. cbn [set_slot set_servers set_fds servers fds]. rewrite decide_True by done.
       destruct Hm as [(-> & -> & _)|(_ & _ & Hr & Hw & _)]; lia. }
  intros (Hneg & _). unfold slot_sound, rest. cbn [set_slot set_servers set_fds servers fds]. rewrite decide_True by done.
  assert (Hrest : delete (php_read_fd (servers v i)) (delete (php_write_fd (servers v i)) (fds v)) = fds v).
  { rewrite (delete_id (fds v)) by (by apply Hneg). by apply delete_id, Hneg. }
  rewrite Hrest. split; [|split; [|intros j Hj; by rewrite decide_False]].
  - destruct Hm as [(-> & -> & ->)|(f & g & Hr & Hw & Hrw & Nr & Nw & ->)]; [split; [done|]; repeat split; intros; lia|].
    split; [intros fd Hfd; rewrite !lookup_insert_ne by lia; by apply Hneg|]. split; [by rewrite lookup_insert_eq|].
    split; [by rewrite lookup_insert_ne, lookup_insert_eq|done].
  - destruct Hm as [(-> & -> & ->)|(f & g & Hr & Hw & Hrw & Nr & Nw & ->)].
    + rewrite (delete_id (fds v)) by (apply Hneg; lia). apply delete_id, Hneg. lia.
    + rewrite delete_insert_ne by done. rewrite (delete_insert_id _ (php_write_fd s)) by done. by apply delete_insert_id.
Qed.

Lemma add_spawned_keeps i v v' l : keeps i v v' → keeps i v (add_spawned l v').
Proof. intros Hk. etrans; [exact Hk|]. by apply keeps_same. Qed.

Lemma start_slot_keeps fuel w i ok w' : slot_closed (view w) i → start_slot set fuel w i = Some (ok, w') → keeps i (view w) (view w').
Proof.
  intros Hc. unfold start_slot. pose proof (spawn_server_started w) as Hs. destruct (spawn_server set w) as [[[[pid r] wr]|] w1].
  - destruct Hs as [[? _]|(q & l & Hq & _ & _ & [[? _]|(pid' & Er & Ev)])]; [done..|]. injection Er as -> -> ->.
    destruct (php_read_handshake set fuel _ i) as [[text w2]|] eqn:Eh; cbn [mbind option_bind]; [|done]. intros [= _ <-].
    etrans; [|apply put_state_keeps]. etrans; [|eapply (read_with_keeps (fun w _ => Some w)); [by intros ? ? [= <-]|exact Eh]].
    rewrite put_slot_law, Ev. destruct (fresh_pipes_ne q _ Hq) as (N1 & N2 & N3 & N4 & N5 & N6 & M1 & M2 & M3 & M4). destruct Hq as (? & ? & ? & ? & _).
    match goal with |- keeps i _ (set_slot i ?s (add_spawned l (set_fds ?m ?v))) =>
      change (set_slot i s (add_spawned l (set_fds m v))) with (add_spawned l (set_slot i s (set_fds m v))) end.
    apply add_spawned_keeps, open_keeps; [done|]. right. by exists (End (k2 q) false), (End (k1 q) true).
  - intros [= _ <-]. rewrite put_slot_law.
    assert (Hv : ∃ l, view w1 = add_spawned l (view w)).
    { destruct Hs as [[_ E]|(q & l & _ & _ & _ & [[_ E]|(pid & ? & _)])]; [exists []|by exists l|done]. rewrite E. unfold add_spawned. rewrite app_nil_r. by destruct (view w). }
    destruct Hv as [l ->]. rewrite <- (set_fds_id (view w)) at 2.
    match goal with |- keeps i _ (set_slot i ?s (add_spawned l (set_fds ?m ?v))) =>
      change (set_slot i s (add_spawned l (set_fds m v))) with (add_spawned l (set_slot i s (set_fds m v))) end.
    apply add_spawned_keeps, open_keeps; [done|]. by left.
Qed.

(** A slot of the pool is not the number that means all of them. *)
Lemma php_close_keeps fuel w i w' : slot_exists set (Z.of_nat i) = true → php_close set fuel w (Z.of_nat i) = Some w' →
  keeps i (view w) (view w') ∧ (valid_process set (Z.of_nat i) = true → slot_closed (view w') i).
Proof.
  unfold slot_exists, php_close, MAX_PHP_SERVERS. intros [[_ _]%andb_true_iff Hlt%Z.ltb_lt]%andb_true_iff. destruct (valid_process set (Z.of_nat i)); cbn [negb]; [|by intros [= <-]].
  rewrite (proj2 (Z.eqb_neq (Z.of_nat i) PHP_INIT)) by (unfold PHP_INIT; lia). rewrite Nat2Z.id. cbn [close_slots].
  destruct (close_slot fuel w i) as [w1|] eqn:E; cbn [mbind option_bind]; [|done]. intros [= <-]. apply close_slot_keeps in E as [? ?]. done.
Qed.

Lemma php_init_keeps fuel w i ok w' : slot_exists set (Z.of_nat i) = true → (valid_process set (Z.of_nat i) = true → slot_closed (view w) i) →
  php_init set fuel w (Z.of_nat i) = Some (ok, w') → keeps i (view w) (view w').
Proof.
  unfold slot_exists, php_init, MAX_PHP_SERVERS. intros [[_ _]%andb_true_iff Hlt%Z.ltb_lt]%andb_true_iff Hc.
  destruct (valid_process set (Z.of_nat i)); cbn [negb]; [|by intros [= _ <-]].
  rewrite (proj2 (Z.eqb_neq (Z.of_nat i) PHP_INIT)) by (unfold PHP_INIT; lia). rewrite Nat2Z.id. cbn [start_slots].
  destruct (start_slot set fuel w i) as [[o w1]|] eqn:E; cbn [mbind option_bind]; [|done]. intros Hr.
  assert (w1 = w') as <- by (destruct o; by injection Hr as _ <-). apply (start_slot_keeps fuel w i o w1); [by apply Hc|done].
Qed.

(** Closing, then starting: what a restart does. *)
Lemma restart_keeps fuel w i ok w1 w' : slot_exists set (Z.of_nat i) = true → php_close set fuel w (Z.of_nat i) = Some w1 →
  php_init set fuel w1 (Z.of_nat i) = Some (ok, w') → keeps i (view w) (view w').
Proof.
  intros Hx Hc Hi. apply php_close_keeps in Hc as [K Hcl]; [|done].
  apply (php_init_keeps fuel w1 i ok w') in Hi; [by etrans|done..].
Qed.

Lemma php_readpipe_keeps fuel w i text w' : slot_exists set (Z.of_nat i) = true → php_readpipe set fuel w i = Some (text, w') → keeps i (view w) (view w').
Proof.
  intros Hx. apply read_with_keeps. intros w0 w1. unfold php_restart. destruct (php_close set fuel w0 _) as [w2|] eqn:Ec; cbn [mbind option_bind]; [|done].
  destruct (php_init set fuel w2 _) as [[ok w3]|] eqn:Ei; cbn [mbind option_bind]; [|done]. intros [= <-]. by eapply restart_keeps.
Qed.

Lemma cmd_loop_keeps left fuel command i : slot_exists set (Z.of_nat i) = true → ∀ w text w',
  cmd_loop set left fuel w command i = Some (text, w') → keeps i (view w) (view w').
Proof.
  intros Hx. induction left as [|n IH]; intros w text w'; cbn [cmd_loop]; [by intros [= _ <-]|]. destruct (negb _); [by intros [= _ <-]|].
  pose proof (write_law w (php_write_fd (get_slot w i)) command) as E1. destruct (write_fd w _ command) as [b w1]; cbn [snd] in E1. intros Hr.
  apply (keeps_view i w w1); [done|]. destruct (b <=? 0).
  - destruct (php_close set fuel w1 _) as [w2|] eqn:Ec; cbn [mbind option_bind] in Hr; [|done].
    destruct n as [|n]; [injection Hr as _ <-; by apply php_close_keeps in Ec as [? _]|].
    destruct (php_init set fuel w2 _) as [[ok w3]|] eqn:Ei; cbn [mbind option_bind] in Hr; [|done].
    etrans; [by eapply restart_keeps|]. destruct (ok && _); [by eapply IH|by injection Hr as _ <-].
  - destruct (php_readpipe set fuel w1 i) as [[tx w2]|] eqn:Er; cbn [mbind option_bind] in Hr; [|done]. injection Hr as _ <-. by eapply php_readpipe_keeps.
Qed.

End Servers.
End ScriptFacts.
Import ProcessFacts Machine ScriptFacts.

(** * Properties *)

(** C36: a command is always answered: with U or with one whole line.  As long as no
    signal interrupts its reads, and whatever the server, its pipes and the other threads
    do, [php_cmd] returns - after at most three attempts, and with a restart that never
    restarts again - a text that is not empty, fits the result buffer, and is U or holds
    a line end: a partial answer is never taken for a value. *)
Theorem php_cmd_answers {W} `{Posix W} `{ScriptEnv W} (set : config_t) (fuel : nat) (w : W) (command : cstr) (slot : Z)
  (Hsignals : no_signals) (Hfuel : RESULTS_BUFFER ≤ Z.of_nat fuel) :
  ∃ text w', Script.php_cmd set fuel w command slot = Some (text, w') ∧ text ≠ [] ∧ slen text < RESULTS_BUFFER ∧
    (text = UNDEFINED ∨ byte_of 10 ∈ text).
Proof.
  assert (Hu : answer UNDEFINED) by (by left). unfold Script.php_cmd. destruct (negb _).
  - eexists _, _. split; [done|]. destruct (answer_nonempty _ Hu). auto.
  - destruct (cmd_loop_total set 3 fuel (Script.php_command_line command) (Z.to_nat slot) Hsignals Hfuel (slot_lock w (Z.to_nat slot)))
      as (text & w' & -> & Ha). cbn [mbind option_bind]. eexists _, _. split; [done|]. destruct (answer_nonempty _ Ha).
    destruct Ha as [->|[? ?]]; auto.
Qed.

(** A server that answers every command with "42" and a line end, in two reads. *)
Definition answering : ScriptEnv nat := {|
  get_slot _ _ := {| php_state := 0; php_pid := 100; php_write_fd := 5; php_read_fd := 6 |}; put_slot w _ _ := w;
  slot_trylock w _ := (true, w); slot_lock w _ := w; slot_unlock w _ := w; write_fd w _ s := (slen s, 0%nat);
  select_fd w _ _ := (SelReady, w); wait_readable w _ _ := (1, w);
  read_fd w _ n := if n <? 2 then (RdEnd, w) else (RdBytes (match w with O => $"42" | _ => [byte_of 10] end), S w);
  script_clock w := (of_int 1, w) |}.
(** No process can be started there. *)
Definition no_processes : Posix nat := {|
  pipe w := (None, w); socketpair w := (None, w); dup w _ := (-1, w); close w _ := w; fcntl w _ _ := (-1, w); attempt_malloc w := (false, w);
  file_actions_init w := (12, w); file_actions_add w _ := (12, w); spawnattr w _ := (12, w); posix_spawn w _ _ _ _ := (12, 0, w);
  waitpid w _ := (WaitError 10, w); kill w _ _ := w; usleep w _ := w; monotonic_time w := (of_int 1, w); list_lock w := w; list_unlock w := w;
  get_registry _ := {| pid_list := []; abandoned := [] |}; put_registry w _ := w |}.

Lemma php_cmd_answers_witness :
  ∃ text w', Script.php_cmd (H := no_processes) (H0 := answering) sample_config (Z.to_nat RESULTS_BUFFER) 0%nat ($"ss_host_cpu.php") 0 = Some (text, w') ∧
    text = $"42" ++ [byte_of 10] ∧ slen text < RESULTS_BUFFER.
Proof.
  destruct (php_cmd_answers (H := no_processes) (H0 := answering) sample_config (Z.to_nat RESULTS_BUFFER) 0%nat ($"ss_host_cpu.php") 0) as (text & w' & E & _ & Hl & _).
  - split; [|split; [done|by vm_compute]]. intros w fd n Hn. cbn [read_fd answering]. destruct (Z.ltb_spec n 2); [done|]. cbn [fst].
    destruct w; [change (1 ≤ 2 ≤ n)|change (1 ≤ 1 ≤ n)]; lia.
  - by vm_compute.
  - exists text, w'. split; [exact E|]. split; [vm_compute in E; by injection E as <- _|exact Hl].
Defined.

(** A long command is sent without its line end.  The line is cut at 1023 bytes: a
    command of at most 1021 bytes is sent whole with CR and LF, and a longer one, which
    the 1024-byte argument of an item can hold, is sent with no LF, so that the server
    keeps waiting for the rest until it is declared dead. *)
Theorem php_command_terminated (command : cstr) (Hcommand : byte_of 10 ∉ command) :
  (slen command ≤ 1021 → Script.php_command_line command = command ++ Script.CRLF) ∧
  (byte_of 10 ∈ Script.php_command_line command ↔ slen command ≤ 1021).
Proof.
  assert (Hshort : slen command ≤ 1021 → Script.php_command_line command = command ++ Script.CRLF).
  { intros Hl. unfold Script.php_command_line. apply snprintf_s_fits. rewrite slen_app. change (slen Script.CRLF) with 2. unfold BUFSIZE. lia. }
  split; [done|]. split.
  - intros Hin. destruct (decide (slen command ≤ 1021)) as [|Hl]; [done|]. exfalso. unfold Script.php_command_line, snprintf_s in Hin.
    change (Z.to_nat (BUFSIZE - 1)) with 1023%nat in Hin. unfold slen in Hl.
    assert (Hcut : take 1023 (command ++ Script.CRLF) = take 1023 (command ++ [byte_of 13])).
    { unfold Script.CRLF. rewrite !take_app. f_equal. destruct (1023 - length command)%nat as [|[|k]] eqn:Ek; [done|done|lia]. }
    rewrite Hcut in Hin. apply elem_of_take in Hin as (i & Hi & _). apply list_elem_of_lookup_2 in Hi.
    apply elem_of_app in Hi as [Hi|Hi]; [done|]. apply list_elem_of_singleton in Hi. by vm_compute in Hi.
  - intros Hl. rewrite (Hshort Hl). apply elem_of_app. right. unfold Script.CRLF. right. left.
Qed.

Lemma php_command_terminated_witness :
  Script.php_command_line (replicate 1022 "x"%char) = replicate 1022 "x"%char ++ [byte_of 13] ∧
  byte_of 10 ∉ Script.php_command_line (replicate 1022 "x"%char).
Proof.
  destruct (php_command_terminated (replicate 1022 "x"%char)) as [_ H].
  - intros Hin. apply elem_of_replicate in Hin as [Hin _]. by vm_compute in Hin.
  - split; [by vm_compute|]. intros Hin. apply H in Hin. vm_compute in Hin. by apply Hin.
Defined.

(** Servers are chosen in rotation, the first that is free and ready.  Whatever
    happens meanwhile, the slot returned is -1 or one of the servers, and the cursor moves
    on.  With locks and slots as they stand: if scanning from the cursor some slot is
    unlocked and usable, the first such slot is returned and no server is touched; if
    every slot is locked, the first one is returned, to wait for it. *)
Theorem php_get_process_choice {W} `{Posix W} `{ScriptEnv W} (set : config_t) (fuel : nat) (w : W) (cursor : Z) (Hservers : 0 < php_servers set)
  (Hcursor : 0 ≤ cursor) :
  let count := Z.min (php_servers set) Script.MAX_PHP_SERVERS in
  let start := if count <=? cursor then 0 else cursor in
  (∀ r cursor' w', Script.php_get_process set fuel w cursor = Some (r, cursor', w') → -1 ≤ r < count ∧ cursor' = start + 1 ∧ 1 ≤ cursor' ≤ count) ∧
  (∀ locked, (∀ i, slot_trylock w i = (negb (locked i), w)) → (∀ i, slot_unlock w i = w) →
   (∀ k, 0 ≤ k < count → available w locked (candidate start count k) = true →
      (∀ j, 0 ≤ j < k → available w locked (candidate start count j) = false) →
      Script.php_get_process set fuel w cursor = Some ((start + k) mod count, start + 1, w)) ∧
   ((∀ k, 0 ≤ k < count → locked (candidate start count k) = true) → Script.php_get_process set fuel w cursor = Some (start, start + 1, w))).
Proof.
  intros count start.
  assert (Hcount : (if Script.MAX_PHP_SERVERS <? php_servers set then Script.MAX_PHP_SERVERS else php_servers set) = count ∧ 0 < count).
  { unfold count, Script.MAX_PHP_SERVERS. destruct (Z.ltb_spec 15 (php_servers set)); lia. } destruct Hcount as [Hc Hpos].
  assert (Hstart : 0 ≤ start < count) by (unfold start; destruct (Z.leb_spec count cursor); lia).
  unfold Script.php_get_process. rewrite (proj2 (Z.leb_gt _ _) Hservers), Hc. fold start. split.
  - intros r cursor' w' E. pose proof (scan_range w start count (Z.to_nat count) Hpos 0 None None ltac:(done) ltac:(done)) as Hscan.
    destruct (Script.scan_slots _ _ _ _ _ _ _) as [[[ready contended] recovery] w1].
    assert (Hfb : -1 ≤ default (-1) contended < count) by (destruct contended as [c|]; cbn; [specialize (Hscan c); lia||(assert (0 ≤ c < count) by auto; lia)|lia]).
    assert (Hr : -1 ≤ r < count ∧ cursor' = start + 1); [|lia].
    destruct ready as [c|]; [assert (0 ≤ c < count) by auto; injection E as <- <- _; lia|].
    destruct recovery as [c|]; [|injection E as <- <- _; lia]. assert (0 ≤ c < count) by auto.
    destruct (slot_trylock w1 _) as [[] w2]; cbn [negb] in E; [|injection E as <- <- _; lia].
    destruct (Script.slot_usable _); [injection E as <- <- _; lia|].
    match type of E with ?m ≫= _ = _ => destruct m as [w2'|]; cbn [mbind option_bind] in E; [|done] end.
    destruct (Script.php_init _ _ _ _) as [[started w3]|]; cbn [mbind option_bind] in E; [|done]. injection E as <- <- _.
    destruct (started && _); lia.
  - intros locked Htry Hun. split.
    + intros k Hk Hav Hbefore. destruct (scan_first w locked Htry Hun start count k (Z.to_nat count) 0 None None ltac:(lia) Hav Hbefore) as (c & r & ->).
      done.
    + intros Hall. rewrite (scan_locked w locked Htry start count (Z.to_nat count) 0 None); [|intros j Hj; apply Hall; lia|lia].
      cbn [default]. rewrite Z.add_0_r, Z.mod_small by done. done.
Qed.

Lemma php_get_process_choice_witness :
  Script.php_get_process (H := no_processes) (H0 := answering) sample_config 1 0%nat 7 = Some (0, 1, 0%nat).
Proof.
  refine (proj1 (proj2 (php_get_process_choice (H := no_processes) (H0 := answering) sample_config 1 0%nat 7 ltac:(done) ltac:(done)) (fun _ => false) _ _) 0 _ _ _).
  - done.
  - done.
  - by vm_compute.
  - reflexivity.
  - intros j Hj. lia.
Defined.

(** C25: a command to a script server never leaks or loses a descriptor.  As long as no signal
    interrupts its reads, and however often the write fails, the answer does not come and the
    server is closed and started again, [php_cmd] returns; and if the slot named two different
    open descriptors or none before, it does so then, all descriptors that were not the slot's are as before - none opened, none
    closed - and the other slots are untouched. *)
Theorem php_cmd_keeps_descriptors {W} `{ScriptLaws W} (set : config_t) (fuel : nat) (w : W) (command : cstr) (slot : Z)
  (Hsignals : no_signals) (Hfuel : RESULTS_BUFFER ≤ Z.of_nat fuel) (Hslot : slot_ok (view w) (Z.to_nat slot)) :
  ∃ text w', Script.php_cmd set fuel w command slot = Some (text, w') ∧ slot_ok (view w') (Z.to_nat slot) ∧
    rest (view w') (Z.to_nat slot) = rest (view w) (Z.to_nat slot) ∧ ∀ j, j ≠ Z.to_nat slot → servers (view w') j = servers (view w) j.
Proof.
  unfold Script.php_cmd. destruct (Script.slot_exists set slot) eqn:Ex; cbn [negb]; [|by eexists _, _].
  assert (Hs : Z.of_nat (Z.to_nat slot) = slot).
  { unfold Script.slot_exists in Ex. apply andb_true_iff in Ex as [[? _]%andb_true_iff _]. lia. }
  set (i := Z.to_nat slot) in *.
  destruct (cmd_loop_total set 3 fuel (Script.php_command_line command) i Hsignals Hfuel (slot_lock w i)) as (text & w1 & E & _).
  rewrite E. cbn [mbind option_bind]. eexists text, _. split; [done|]. rewrite slot_unlock_law. rewrite <- Hs in Ex.
  apply (cmd_loop_keeps set 3 fuel _ i Ex) in E. rewrite slot_lock_law in E. destruct Hslot as [Hsound Hpair], E as [K P].
  destruct (K Hsound) as (? & ? & ?). split; [split; [done|by apply P]|done].
Qed.

(** The script servers on the machine of ProcessFacts.v: every write fails, a new server
    says that it started. *)
Definition deaf_servers : ScriptEnv os := {|
  get_slot v i := servers v i; put_slot v i s := set_slot i s v; slot_trylock v _ := (true, v); slot_lock v _ := v; slot_unlock v _ := v;
  write_fd v _ _ := (-1, v); select_fd v _ _ := (SelReady, v); wait_readable v _ _ := (1, v);
  read_fd v _ n := if n <? 8 then (RdEnd, v) else (RdBytes ($"Started" ++ [byte_of 10]), v); script_clock v := (of_int 1, v) |}.
#[export] Instance deaf_laws : ScriptLaws os (H1 := deaf_servers).
Proof. constructor; try reflexivity. intros v fd n. cbn. by destruct (n <? 8). Qed.

Definition one_server : os := {|
  fds := <[0 := OtherFile 0]> (<[1 := OtherFile 1]> (<[5 := End 3 true]> (<[6 := End 4 false]> ∅))); children := {| pid_list := []; abandoned := [] |};
  servers := fun i => if decide (i = 0%nat) then {| php_state := 0; php_pid := 50; php_write_fd := 5; php_read_fd := 6 |}
                      else {| php_state := 1; php_pid := -1; php_write_fd := -1; php_read_fd := -1 |};
  scripts_held := 0; locked := 0; spawned := []; killed := [] |}.

Lemma php_cmd_keeps_descriptors_witness : ∃ text v, Script.php_cmd (H0 := deaf_servers) sample_config (Z.to_nat RESULTS_BUFFER) one_server ($"x") 0 = Some (text, v) ∧
  length (spawned v) = 2%nat ∧ rest v 0 = <[0 := OtherFile 0]> (<[1 := OtherFile 1]> ∅).
Proof.
  destruct (php_cmd_keeps_descriptors (H2 := deaf_laws) sample_config (Z.to_nat RESULTS_BUFFER) one_server ($"x") 0) as (text & v & E & _ & Hr & _).
  - split; [|split; [done|]].
    + intros w fd n Hn. cbn [read_fd deaf_servers]. destruct (Z.ltb_spec n 8); [done|]. change (1 ≤ 8 ≤ n). lia.
    + intros w pid. cbn. by destruct (Z.even pid).
  - by vm_compute.
  - split; [|by vm_compute]. split; [|by vm_compute]. intros fd Hfd. change (view one_server) with one_server. unfold one_server. cbn [fds]. by rewrite !lookup_insert_ne by lia.
  - exists text, v. split; [exact E|]. split; [vm_compute in E; by injection E as _ <-|]. change (view v) with v in Hr. change (view one_server) with one_server in Hr.
    change (Z.to_nat 0) with 0%nat in Hr. rewrite Hr. by vm_compute.
Defined.

(** C26: a script server talks over its two pipes.  With descriptors given lowest first, and
    also when the poller itself runs with its standard streams closed: every
    [posix_spawn] of a server runs php with the documented arguments, its file actions
    all succeed, and leave the child with the first pipe's read end as input, the second
    pipe's write end as output, and every other descriptor as before the pipes were
    opened; the parent keeps exactly the two opposite ends. *)
Theorem php_server_child {W} `{PosixLaws W} (set : config_t) (w : W) (Hlow : lowest_first) :
  let '(r, w') := Script.spawn_server set w in
  ∃ l k1 k2, spawned (view w') = spawned (view w) ++ l ∧
    (∀ s, s ∈ l → sp_path s = path_php set ∧ sp_argv s = Script.server_argv set ∧
       ∃ t, run_actions (sp_actions s) (sp_fds s) = Some t ∧
         ∀ x, t !! x = if x =? 0 then Some (End k1 false) else if x =? 1 then Some (End k2 true) else fds (view w) !! x) ∧
    match r with
    | None => fds (view w') = fds (view w)
    | Some (_, rd, wr) => fds (view w') = <[rd := End k2 false]> (<[wr := End k1 true]> (fds (view w))) ∧ rd ≠ wr ∧
                          fds (view w) !! rd = None ∧ fds (view w) !! wr = None
    end.
Proof.
  pose proof (spawn_server_started set w) as Hs. destruct (Script.spawn_server set w) as [r w'].
  destruct Hs as [[-> ->]|(q & l & Hq & Hstd & Hl & Hend)].
  { exists [], 0%nat, 0%nat. rewrite app_nil_r. split; [done|]. split; [intros s []%not_elem_of_nil|done]. }
  exists l, (k1 q), (k2 q). split; [by destruct Hend as [[-> ->]|(pid & -> & ->)]|]. split.
  - intros s Hin. rewrite list.Forall_forall in Hl. pose proof (Hl s Hin) as Hsp.
    destruct (server_runs set q (fds (view w)) s Hq (Hstd Hlow) Hsp) as (t & Et & Ht). destruct Hsp as (? & ? & _). split; [done|]. split; [done|]. by exists t.
  - destruct (fresh_pipes_ne q _ Hq) as (_ & _ & _ & ? & _ & _ & _ & ? & ? & _). destruct Hend as [[-> ->]|(pid & -> & ->)]; [done|]. done.
Qed.

Lemma machine_lowest_first : lowest_first (W := os).
Proof. intros v. change (pipe v) with (open_pair v). destruct (open_pair v) as [[[a b]|] w] eqn:E; [|done]. by apply open_pair_lowest in E. Qed.

(** A poller started with its standard input and output closed. *)
Definition no_streams : os := {|
  fds := <[2 := OtherFile 2]> ∅; children := {| pid_list := []; abandoned := [] |};
  servers := fun _ => {| php_state := 1; php_pid := -1; php_write_fd := -1; php_read_fd := -1 |}; scripts_held := 0; locked := 0; spawned := []; killed := [] |}.

Lemma php_server_child_witness : ∃ s v, Script.spawn_server sample_config no_streams = (Some (100, 3, 1), v) ∧ spawned v = [s] ∧
  ∃ t k1 k2, run_actions (sp_actions s) (sp_fds s) = Some t ∧ t !! 0 = Some (End k1 false) ∧ t !! 1 = Some (End k2 true) ∧ t !! 2 = Some (OtherFile 2).
Proof.
  pose proof (php_server_child sample_config no_streams machine_lowest_first) as Hc.
  destruct (Script.spawn_server sample_config no_streams) as [r v] eqn:E. assert (Er : r = Some (100, 3, 1)) by (vm_compute in E; by injection E as <- _).
  assert (Ev : length (spawned v) = 1%nat) by (vm_compute in E; by injection E as _ <-). subst r.
  destruct Hc as (l & k1 & k2 & El & Hl & _). cbn [view machine_laws id no_streams spawned app] in El.
  destruct (spawned v) as [|s [|]] eqn:Es; [done| |done]. exists s, v. split; [done|]. split; [done|].
  destruct (Hl s) as (_ & _ & t & Et & Ht); [change (s ∈ l); rewrite <- El; left|]. exists t, k1, k2. split; [done|]. by rewrite !Ht.
Defined.
