(* ===== verification/External.v ===== *)
(** Running a script: src/src/script/external.c.

    A script runs under one of [MAX_SIMULTANEOUS_SCRIPTS] permits; one read of its output
    is the answer.  Permits and reads are an interface ([Class ExternalEnv]); processes are
    those of Process.v. *)

From stdpp Require Import gmap.
From Stdlib Require Import SpecFloat.
From S2P Require Import Prelude CLib Buffer Text Result Settings Sql Queries Process ProcessFacts.

(** The permits are [available_scripts] (src/src/platform/thread.c), [wait_script] is
    [spine_wait_readable]. *)
Class ExternalEnv (W : Type) := {
  script_try_acquire : W → Z * W;
  script_release : W → W;
  access_executable : W → cstr → bool;
  wait_script : W → Z → double → Z * W;
  read_script : W → Z → Z → option (list ascii) * W }.   (* [None] for an error *)

Module External.

Definition EINVAL : Z := 22.
Definition EAGAIN : Z := 11.

Section Run.
Context {W : Type} `{Posix W} `{ExternalEnv W} (set : config_t).

(** [for (retry = 1; retry < attempts; retry++)]: the last error, 0 with a permit. *)
Fixpoint permit_loop (attempts : nat) (w : W) (error : Z) : Z * W :=
  match attempts with
  | O => (error, w)
  | S n =>
      let '(error, w) := script_try_acquire w in
      if error =? 0 then (0, w) else permit_loop n (usleep w 10000) error
  end.
Definition acquire_script_permit (w : W) : Z * W :=
  if script_timeout set <=? 0 then (EINVAL, w)
  else permit_loop (Z.to_nat (script_timeout set * 15 - 1)) w EAGAIN.

(** The text of the answer. *)
Definition read_script_result (w : W) (fd : Z) (deadline : double) : cstr * W :=
  let '(ready, w) := wait_script w fd deadline in
  if ready <? 0 then (UNDEFINED, w)
  else if ready =? 0 then
    let '(pid, w) := Process.nft_pchild w fd in (UNDEFINED, if 1 <? pid then kill w (- pid) Process.SIGKILL else w)
  else
    let '(r, w) := read_script w fd (RESULTS_BUFFER - 1) in
    match r with
    | Some bytes => if (0 <? slen bytes) && (slen bytes <? RESULTS_BUFFER) then (c_str bytes, w) else (UNDEFINED, w)
    | None => (UNDEFINED, w)
    end.

(** The first token: [strtok_r(executable, " ")] on a copy of the command, with
    "/usr/bin/" in front of it when it names no directory.  [strtok_r] skips leading
    blanks only for the token it returns; the copy still starts with them. *)
Fixpoint first_token (s : cstr) (started : bool) : cstr :=
  match s with
  | [] => []
  | c :: s' => if bool_decide (c = " "%char) then (if started : bool then [] else c :: first_token s' false) else c :: first_token s' true
  end.
Definition executable (command : cstr) : outcome cstr :=
  let* copy := spine_snprintf BUFSIZE command in
  let token := first_token copy false in
  if has_substr token ($"/") then Ok token
  else let* copy := spine_snprintf BUFSIZE ($"/usr/bin/" ++ command) in Ok (first_token copy false).

Definition exec_poll (w : W) (command : cstr) : outcome (cstr * W) :=
  let '(sem_err, w) := acquire_script_permit w in
  if negb (sem_err =? 0) then Ok (UNDEFINED, w) else
  let '(now, w) := monotonic_time w in
  let deadline := SFadd prec emax now (of_int (script_timeout set)) in
  let* file := executable command in
  let '(text, w) :=
    if access_executable w file then
      let '(fd, w) := Process.nft_popen w command ($"r") in
      if 0 <=? fd then let '(text, w) := read_script_result w fd deadline in (text, snd (Process.nft_pclose w fd)) else (UNDEFINED, w)
    else (UNDEFINED, w) in
  Ok (text, script_release w).

End Run.
End External.

(** * Facts *)

(** Permits are counted; the rest opens or closes nothing. *)
Class ExternalLaws (W : Type) `{PosixLaws W} `{ExternalEnv W} := {
  acquire_law w : view (snd (script_try_acquire w)) = if fst (script_try_acquire w) =? 0 then add_held 1 (view w) else view w;
  release_law w : view (script_release w) = add_held (-1) (view w);
  wait_script_law w fd d : view (snd (wait_script w fd d)) = view w;
  read_script_law w fd n : view (snd (read_script w fd n)) = view w }.

Module ExternalFacts.
Import External ProcessFacts.

Section Balance.
Context {W : Type} `{ExternalLaws W} (set : config_t).

Lemma permit_loop_view n : ∀ w error, error ≠ 0 →
  let '(e, w') := permit_loop n w error in view w' = if e =? 0 then add_held 1 (view w) else view w.
Proof.
  induction n as [|n IH]; intros w error He; cbn [permit_loop]; [by rewrite (proj2 (Z.eqb_neq _ _) He)|].
  pose proof (acquire_law w) as Ha. destruct (script_try_acquire w) as [e w1]. cbn [fst snd] in Ha. destruct (Z.eqb_spec e 0) as [->|Hne]; [done|].
  specialize (IH (usleep w1 10000) e Hne). by rewrite usleep_law, Ha in IH.
Qed.

Lemma acquire_view w : let '(e, w') := acquire_script_permit set w in view w' = if e =? 0 then add_held 1 (view w) else view w.
Proof. unfold acquire_script_permit. destruct (_ <=? 0); [done|]. by apply permit_loop_view. Qed.

Lemma pchild_view w fd : view (snd (Process.nft_pchild w fd)) = view w.
Proof.
  unfold Process.nft_pchild. cbn [snd]. rewrite unlock_law, lock_law. destruct (view w). unfold add_locked. cbn. f_equal. lia.
Qed.

(** Reading a result may send a signal, and changes nothing else. *)
Lemma read_result_view w fd d : ∃ text w' k, read_script_result w fd d = (text, w') ∧ slen text < RESULTS_BUFFER ∧
  fds (view w') = fds (view w) ∧ children (view w') = children (view w) ∧ scripts_held (view w') = scripts_held (view w) ∧
  locked (view w') = locked (view w) ∧ killed (view w') = killed (view w) ++ k.
Proof.
  assert (Hsame : ∀ text (w' : W), view w' = view w → slen text < RESULTS_BUFFER →
    ∃ text' w'' k, (text, w') = (text', w'') ∧ slen text' < RESULTS_BUFFER ∧ fds (view w'') = fds (view w) ∧ children (view w'') = children (view w) ∧
    scripts_held (view w'') = scripts_held (view w) ∧ locked (view w'') = locked (view w) ∧ killed (view w'') = killed (view w) ++ k).
  { intros text w' E Hl. exists text, w', []. rewrite E, app_nil_r. done. }
  unfold read_script_result. pose proof (wait_script_law w fd d) as E1. destruct (wait_script w fd d) as [r w1]; cbn [snd] in E1.
  destruct (r <? 0); [by apply Hsame|]. destruct (r =? 0).
  - pose proof (pchild_view w1 fd) as E2. destruct (Process.nft_pchild w1 fd) as [pid w2]; cbn [snd] in E2. destruct (1 <? pid); [|apply Hsame; [congruence|done]].
    eexists _, _, _. split; [done|]. split; [done|]. rewrite kill_law, E2, E1. done.
  - pose proof (read_script_law w1 fd (RESULTS_BUFFER - 1)) as E2. destruct (read_script w1 fd _) as [[b|] w2]; cbn [snd] in E2; [|apply Hsame; [congruence|done]].
    destruct (_ && _) eqn:Eb; [|apply Hsame; [congruence|done]]. apply Hsame; [congruence|]. apply andb_true_iff in Eb as [_ Hb%Z.ltb_lt].
    pose proof (c_str_length b). unfold slen in *. lia.
Qed.

Lemma executable_total command : slen command ≤ 1014 → ∃ file, executable command = Ok file.
Proof.
  intros Hc. unfold executable. rewrite QueriesFacts.spine_snprintf_ok by (unfold BUFSIZE; lia). cbn [obind]. destruct (has_substr _ _); [by eexists|].
  rewrite QueriesFacts.spine_snprintf_ok; [by eexists|]. rewrite slen_app. change (slen ($"/usr/bin/")) with 9. unfold BUFSIZE. lia.
Qed.

(** What a script leaves: the descriptors, registered scripts, permits and locks as they
    were. *)
Definition left_as_found (v v' : os) : Prop :=
  fds v' = fds v ∧ pid_list (children v') = pid_list (children v) ∧ scripts_held v' = scripts_held v ∧ locked v' = locked v.

Lemma popen_read_pclose w command d : let '(fd, w1) := Process.nft_popen w command ($"r") in
  ∃ text w', (if 0 <=? fd then let '(text, w) := read_script_result w1 fd d in (text, snd (Process.nft_pclose w fd)) else (UNDEFINED, w1)) = (text, w') ∧
    slen text < RESULTS_BUFFER ∧ left_as_found (view w) (view w').
Proof.
  pose proof (popen_registers w command ($"r")) as Hp. pose proof (popen_held w command ($"r")) as Hh.
  pose proof (popen_started w command ($"r") true false eq_refl) as Hs. destruct (Process.nft_popen w command ($"r")) as [fd w1]. cbn [snd] in Hh.
  destruct Hs as (Hlk & [_ Hs0] & Hs). destruct (Z.leb_spec 0 fd) as [Hfd|Hfd].
  - destruct (Hp Hfd) as (Hn & f & pid & Ef & Ep). destruct (read_result_view w1 fd d) as (text & w2 & k & -> & Hl & F1 & F2 & F3 & F4 & _).
    eexists _, _. split; [done|]. split; [done|].
    assert (Ht : Process.take_entry fd (pid_list (children (view w2))) = Some (pid, pid_list (children (view w)))) by (rewrite F2, Ep; cbn; by rewrite Z.eqb_refl).
    pose proof (pclose_view w2 fd pid _ Ht) as Hc. pose proof (pclose_held w2 fd) as Hh2. destruct (Process.nft_pclose w2 fd) as [r w3]. cbn [snd] in *.
    destruct Hc as (C1 & C2 & C3 & _). split; [|split; [done|split; congruence]]. rewrite C1, F1, Ef. by rewrite delete_insert_id.
  - eexists _, _. split; [done|]. split; [done|]. unfold left_as_found.
    destruct Hs as [(_ & ? & ? & _)|(a & b & kk & l & ? & _ & _ & _ & _ & _ & _ & _ & [(_ & ? & ?)|(-> & _ & _)])]; [done|done|].
    exfalso. cbn [parent_end] in *. lia.
Qed.

End Balance.
End ExternalFacts.
Import ExternalFacts.

(** * Properties *)

(** C40: running a script leaves nothing behind.  Whatever the system does, for a command
    that fits its buffer with "/usr/bin/" in front, [exec_poll] returns a text that fits
    the result buffer; every permit it took is given back, every descriptor it opened is
    closed and none other, its entry is gone from the registry of children and no other
    is, and the list is unlocked. *)
Theorem exec_poll_balanced {W} `{ExternalLaws W} (set : config_t) (w : W) (command : cstr) (Hcommand : slen command ≤ 1014) :
  ∃ text w', External.exec_poll set w command = Ok (text, w') ∧ slen text < RESULTS_BUFFER ∧ left_as_found (view w) (view w').
Proof.
  unfold External.exec_poll. pose proof (acquire_view set w) as Ha. destruct (External.acquire_script_permit set w) as [e w1].
  destruct (e =? 0); cbn [negb]; [|eexists _, _; split; [done|]; rewrite Ha; done].
  pose proof (time_law w1) as Et. destruct (monotonic_time w1) as [now w2]; cbn [snd] in Et.
  match goal with |- context [SFadd ?p ?m now ?d] => generalize (SFadd p m now d); intros deadline end.
  destruct (executable_total command Hcommand) as [file ->]. cbn [obind].
  assert (Hdone : ∀ w', left_as_found (view w2) (view w') → left_as_found (view w) (view (script_release w'))).
  { intros w' (F1 & F2 & F3 & F4). unfold left_as_found. rewrite release_law. rewrite Et, Ha in F1, F2, F3, F4. cbn in *. repeat split; [done..|lia|done]. }
  destruct (access_executable w2 file); [|eexists _, _; split; [done|]; split; [done|]; by apply Hdone].
  pose proof (popen_read_pclose w2 command deadline) as Hp. destruct (Process.nft_popen w2 command ($"r")) as [fd w3]. destruct Hp as (text & w4 & -> & Hl & Hf).
  eexists _, _. split; [done|]. split; [done|]. by apply Hdone.
Qed.

(** A machine where the script "uptime" exists and prints 42; permits run out at two. *)
Definition one_script : ExternalEnv os := {|
  script_try_acquire v := if scripts_held v <? 2 then (0, add_held 1 v) else (External.EAGAIN, v); script_release v := add_held (-1) v;
  access_executable _ f := bool_decide (f = $"/usr/bin/uptime"); wait_script v _ _ := (1, v); read_script v _ _ := (Some ($"42"), v) |}.
#[export] Instance one_script_laws : ExternalLaws os (H := Machine.machine) (H0 := Machine.machine_laws) (H1 := one_script).
Proof. constructor; try reflexivity. intros v. cbn. by destruct (scripts_held v <? 2). Qed.

Lemma exec_poll_balanced_witness : ∃ text v, External.exec_poll (H := Machine.machine) (H0 := one_script) sample_config no_stdout ($"uptime -p") = Ok (text, v) ∧
  text = $"42" ∧ fds v = fds no_stdout ∧ scripts_held v = 0 ∧ length (spawned v) = 1%nat.
Proof.
  destruct (exec_poll_balanced (H2 := one_script_laws) sample_config no_stdout ($"uptime -p") ltac:(by vm_compute)) as (text & v & E & _ & Hf & _ & Hh & _).
  exists text, v. split; [exact E|]. split; [vm_compute in E; by injection E as <- _|]. split; [exact Hf|]. split; [exact Hh|].
  vm_compute in E. by injection E as _ <-.
Defined.

(** The bound on the command is needed: a command of 1015 bytes or more whose first word
    names no directory, which the 1024-byte argument of an item can hold, ends the whole
    process once its permit is granted. *)
Lemma long_command_ends_process {W} `{Posix W} `{ExternalEnv W} (set : config_t) (w w' : W) (command : cstr)
  (Hpermit : External.acquire_script_permit set w = (0, w')) (Hlen : 1015 ≤ slen command)
  (Hbare : has_substr (External.first_token command false) ($"/") = false) :
  External.exec_poll set w command = Died EXIT_FAILURE.
Proof.
  unfold External.exec_poll. rewrite Hpermit. cbn [Z.eqb negb]. destruct (monotonic_time w') as [now w1]. unfold External.executable, spine_snprintf.
  destruct (BUFSIZE <=? slen command); [done|]. cbn [obind]. rewrite Hbare. cbv iota. rewrite slen_app. change (slen ($"/usr/bin/")) with 9.
  by rewrite (proj2 (Z.leb_le _ _)) by (unfold BUFSIZE; lia).
Qed.
