(* ===== verification/Config.v ===== *)
(** Configuration: src/src/config/file.c (spine.conf), src/src/config/settings.c (the
    settings table and its overrides) and src/src/config/options.c (the run-time options),
    with the log date format of src/src/log/log.c and the debug list of
    src/src/log/debug.c.

    The MySQL client is the interface of Sql.v; reading a file is a list of bytes. *)

From S2P Require Import Prelude CLib Buffer Text Result Settings Sql Queries.

Module SettingsStore.

Definition OPTTABLE_SIZE : nat := 256.
(** [opttable] up to [nopts], and the settings cache ([None] is NULL). *)
Record store := { opttable : list (cstr * cstr); cache : option (list (cstr * cstr)) }.

Definition set_option (option_ value : cstr) (s : store) : outcome store :=
  if (OPTTABLE_SIZE <=? length (opttable s))%nat then Died EXIT_FAILURE
  else Ok {| opttable := opttable s ++ [(option_, value)]; cache := cache s |}.

(** The first entry whose name matches in any case. *)
Fixpoint find_setting (name : cstr) (l : list (cstr * cstr)) : option cstr :=
  match l with
  | [] => None
  | (n, v) :: l' => if STRIMATCH name n then Some v else find_setting name l'
  end.

Section Reading.
Context {W : Type} `{MySQL W} (ssl : list mysql_feature) (mysql_errno : W → conn → Z).

(** An error ends the process; an empty or missing result is not an error. *)
Definition config_query (set : config_t) (w : W) (psql : conn) (md : Z) (query : cstr) : outcome (option mysql_res * W) :=
  let* (result, w) := Sql.db_query set ssl w psql md query in
  match result with
  | None => if negb (mysql_errno w psql =? 0) then Died EXIT_FAILURE else Ok (None, w)
  | Some r => Ok (Some r, w)
  end.

Definition cache_entry (row : row_t) : option (cstr * cstr) :=
  match column row 0 with None => None | Some name => Some (name, default [] (column row 1)) end.
Definition settings_cache_load (set : config_t) (w : W) (psql : conn) (md : Z) (s : store) : outcome (store * W) :=
  let* (result, w) := config_query set w psql md ($"SELECT SQL_NO_CACHE name, value FROM settings") in
  Ok ({| opttable := opttable s;
         cache := match result with
                  | None => None
                  | Some r => let rows := Z.of_nat (length (res_rows r)) in
                              if (rows =? 0) || (INT_MAX <? rows) then None else Some (omap cache_entry (res_rows r))
                  end |}, w).
Definition settings_cache_free (s : store) : store := {| opttable := opttable s; cache := None |}.

(** The column of the first row. *)
Definition first_value (result : mysql_res) (i : nat) : option cstr :=
  match res_rows result with [] => None | row :: _ => column row i end.

(** A C string pointer: [None] is NULL. *)
Definition getsetting (set : config_t) (s : store) (w : W) (psql : conn) (md : Z) (setting : cstr) : outcome (option cstr * W) :=
  match find_setting setting (opttable s) with
  | Some v => Ok (Some v, w)
  | None =>
      match cache s with
      | Some l => Ok (Some (default [] (find_setting setting l)), w)
      | None =>
          let* qstring := spine_snprintf BUFSIZE ($"SELECT SQL_NO_CACHE value FROM settings WHERE name = '" ++ setting ++ $"'") in
          let* (result, w) := config_query set w psql md qstring in
          match result with
          | None => Ok (Some [], w)
          | Some r => Ok (Some (default [] (first_value r 0)), w)
          end
      end
  end.

Definition putsetting (set : config_t) (w : W) (psql : conn) (md : Z) (mysetting myvalue : cstr) : outcome (bool * W) :=
  let* qstring := spine_snprintf BUFSIZE (if negb (da_onupdate (c_database set)) then
      $"INSERT INTO settings (name, value) VALUES ('" ++ mysetting ++ $"', '" ++ myvalue ++ $"') ON DUPLICATE KEY UPDATE value = VALUES(value)"
    else
      $"INSERT INTO settings (name, value) VALUES ('" ++ mysetting ++ $"', '" ++ myvalue ++ $"') AS rs ON DUPLICATE KEY UPDATE value = rs.value") in
  Sql.db_insert set ssl w psql md qstring.

Definition getpsetting (set : config_t) (s : store) (w : W) (psql : conn) (md : Z) (setting : cstr) : outcome (option cstr * W) :=
  match find_setting setting (opttable s) with
  | Some v => Ok (Some v, w)
  | None =>
      let* qstring := spine_snprintf BUFSIZE ($"SELECT SQL_NO_CACHE " ++ setting ++ $" FROM poller WHERE id = '" ++ sdec (poller_id set) ++ $"'") in
      let* (result, w) := config_query set w psql md qstring in
      Ok (result ≫= fun r => first_value r 0, w)
  end.

Definition bool_word (rc : cstr) (dflt : bool) : bool :=
  if STRIMATCH rc ($"on") || STRIMATCH rc ($"yes") || STRIMATCH rc ($"true") || STRIMATCH rc ($"1") then true
  else if STRIMATCH rc ($"off") || STRIMATCH rc ($"no") || STRIMATCH rc ($"false") || STRIMATCH rc ($"0") then false
  else dflt.
Definition getboolsetting (set : config_t) (s : store) (w : W) (psql : conn) (md : Z) (setting : cstr) (dflt : bool) : outcome (bool * W) :=
  let* (rc, w) := getsetting set s w psql md setting in
  Ok (match rc with None => dflt | Some rc => bool_word rc dflt end, w).

Definition getglobalvariable (set : config_t) (s : store) (w : W) (psql : conn) (md : Z) (setting : cstr) : outcome (option cstr * W) :=
  match find_setting setting (opttable s) with
  | Some v => Ok (Some v, w)
  | None =>
      let* qstring := spine_snprintf BUFSIZE ($"SHOW GLOBAL VARIABLES LIKE '" ++ setting ++ $"'") in
      let* (result, w) := config_query set w psql md qstring in
      Ok (result ≫= fun r => first_value r 1, w)
  end.

(** [weights] left; 0 for anything that is not three numbers that fit. *)
Fixpoint version_loop (weights : list Z) (value : cstr) (version : Z) : Z :=
  match weights with
  | [] => version
  | weight :: weights' =>
      if negb (isdigit (at_ value 0)) then 0 else
      let r := strtoull value in
      if sr_range r || ((INT_MAX - version) / weight <? sr_value r) then 0 else
      let version := version + sr_value r * weight in
      match weights' with
      | [] => version
      | _ => if negb (bool_decide (at_ (sr_rest r) 0 = "."%char)) then 0 else version_loop weights' (drop 1 (sr_rest r)) version
      end
  end.
Definition parse_cacti_version (value : cstr) : Z := version_loop [1000; 100; 1] value 0.
Definition get_cacti_version (set : config_t) (w : W) (psql : conn) (md : Z) : outcome (Z * W) :=
  let* (result, w) := config_query set w psql md ($"SELECT cacti FROM version LIMIT 1") in
  Ok (match result ≫= fun r => first_value r 0 with Some v => parse_cacti_version v | None => 0 end, w).

End Reading.
End SettingsStore.

(** * The log date format *)

Module DateFormat.
Definition GDC_MIN : Z := 0.
Definition GDC_MAX : Z := 2.
Definition GDC_DEFAULT : Z := 1.
Definition GD_MIN : Z := 0.
Definition GD_MAX : Z := 5.
Definition GD_DEFAULT : Z := 5.
Definition GD_FMT_SIZE : Z := 21.

Definition separators : list ascii := ["-"; "/"; "."]%char.
Definition formats : list (cstr * cstr * cstr) :=
  [($"%m", $"%d", $"%Y"); ($"%b", $"%d", $"%Y"); ($"%d", $"%m", $"%Y"); ($"%d", $"%b", $"%Y"); ($"%Y", $"%m", $"%d"); ($"%Y", $"%b", $"%d")].

Definition set_datetime (separator format : Z) (l : spine_logging_config_t) : spine_logging_config_t :=
  {| path_logfile := path_logfile l; logfile_processed := logfile_processed l; log_level := log_level l; log_destination := log_destination l;
     log_perror := log_perror l; log_pwarn := log_pwarn l; log_pstats := log_pstats l; selective_device_debug := selective_device_debug l;
     spine_log_level := spine_log_level l; log_datetime_separator := separator; log_datetime_format := format |}.

Definition separator_index (l : spine_logging_config_t) : Z :=
  if (log_datetime_separator l <? GDC_MIN) || (GDC_MAX <? log_datetime_separator l) then GDC_DEFAULT else log_datetime_separator l.
Definition format_index (l : spine_logging_config_t) : Z :=
  if (log_datetime_format l <? GD_MIN) || (GD_MAX <? log_datetime_format l) then GD_DEFAULT else log_datetime_format l.

(** The cached format and the settings; both indices are inside their tables. *)
Definition set_date_format (l : spine_logging_config_t) : outcome (cstr * spine_logging_config_t) :=
  let c := default NUL (separators !! Z.to_nat (separator_index l)) in
  let '(p0, p1, p2) := default ([], [], []) (formats !! Z.to_nat (format_index l)) in
  let* text := spine_snprintf GD_FMT_SIZE (p0 ++ [c] ++ p1 ++ [c] ++ p2 ++ $" %H:%M:%S - ") in
  Ok (text, set_datetime (separator_index l) (format_index l) l).
End DateFormat.

(** * The run-time options *)

Module Options.
Import SettingsStore DateFormat.

Definition MAX_THREADS : Z := 100.
Definition MAX_PHP_SERVERS : Z := 15.
Definition DBL_BUFSIZE : Z := 2048.
Definition CAPABILITY_PROTOCOL_LIST_MAX : nat := 480.

Definition db_row_alias_upsert_supported (version : cstr) (version_number : Z) : bool :=
  if has_substr (map tolower version) ($"mariadb") then false else (80020 <=? version_number) && (version_number <? 100000).

(** The text, or [None] when it does not fit. *)
Definition format_spine_capabilities (output_size : Z) (auth_protocols priv_protocols : cstr) : option cstr :=
  let quote := [byte_of 34] in
  let text := $"{ authProtocols: " ++ quote ++ take CAPABILITY_PROTOCOL_LIST_MAX auth_protocols ++ quote ++
              $", privProtocols: " ++ quote ++ take CAPABILITY_PROTOCOL_LIST_MAX priv_protocols ++ quote ++ $" }" in
  if slen text <? output_size then Some text else None.

Section Options.
Context {W : Type} `{MySQL W} (ssl : list mysql_feature) (mysql_errno : W → conn → Z) (mysql_get_server_version : W → conn → Z).
(** The protocols the Net-SNMP library was built with. *)
Context (spine_auth spine_priv : cstr).

Definition setting (c : config_t) (s : store) (w : W) (mysql : conn) (name : cstr) : outcome (option cstr * W) :=
  getsetting ssl mysql_errno c s w mysql LOCAL name.

Definition set_paths (logfile : cstr) (l : spine_logging_config_t) : spine_logging_config_t :=
  {| path_logfile := logfile; logfile_processed := logfile_processed l; log_level := log_level l; log_destination := log_destination l;
     log_perror := log_perror l; log_pwarn := log_pwarn l; log_pstats := log_pstats l; selective_device_debug := selective_device_debug l;
     spine_log_level := spine_log_level l; log_datetime_separator := log_datetime_separator l; log_datetime_format := log_datetime_format l |}.
Definition set_levels (level destination : Z) (processed : bool) (l : spine_logging_config_t) : spine_logging_config_t :=
  {| path_logfile := path_logfile l; logfile_processed := processed; log_level := level; log_destination := destination;
     log_perror := log_perror l; log_pwarn := log_pwarn l; log_pstats := log_pstats l; selective_device_debug := selective_device_debug l;
     spine_log_level := spine_log_level l; log_datetime_separator := log_datetime_separator l; log_datetime_format := log_datetime_format l |}.
Definition set_debug (debug : cstr) (level : Z) (l : spine_logging_config_t) : spine_logging_config_t :=
  {| path_logfile := path_logfile l; logfile_processed := logfile_processed l; log_level := log_level l; log_destination := log_destination l;
     log_perror := log_perror l; log_pwarn := log_pwarn l; log_pstats := log_pstats l; selective_device_debug := debug;
     spine_log_level := level; log_datetime_separator := log_datetime_separator l; log_datetime_format := log_datetime_format l |}.
Definition set_flags (perror pwarn pstats : bool) (l : spine_logging_config_t) : spine_logging_config_t :=
  {| path_logfile := path_logfile l; logfile_processed := logfile_processed l; log_level := log_level l; log_destination := log_destination l;
     log_perror := perror; log_pwarn := pwarn; log_pstats := pstats; selective_device_debug := selective_device_debug l;
     spine_log_level := spine_log_level l; log_datetime_separator := log_datetime_separator l; log_datetime_format := log_datetime_format l |}.
Definition set_php_server_path (path : cstr) (p : spine_php_config_t) : spine_php_config_t :=
  {| pp_path_php := pp_path_php p; pp_path_php_server := path; pp_script_timeout := pp_script_timeout p; pp_php_required := pp_php_required p;
     pp_php_initialized := pp_php_initialized p; pp_php_servers := pp_php_servers p; pp_php_current_server := pp_php_current_server p |}.

(** [atoi] of a setting, with the value for NULL. *)
Definition int_setting (c : config_t) (s : store) (w : W) (mysql : conn) (name : cstr) (missing : Z) : outcome (Z * W) :=
  let* (res, w) := setting c s w mysql name in
  Ok (match res with Some res => atoi res | None => missing end, w).

(** The log date format, the settings and the world. *)
Definition read_logging_options (c : config_t) (s : store) (w : W) (mysql : conn) : outcome (cstr * config_t * W) :=
  let l := c_logging c in
  let* (n, w) := int_setting c s w mysql ($"log_verbosity") 0 in
  let l := set_levels (if negb (n =? 0) then n else log_level l) (log_destination l) (logfile_processed l) l in
  let* (res, w) := setting c s w mysql ($"path_webroot") in
  let '(server, web_root) := match res with
    | Some res => (snprintf_s BUFSIZE (res ++ $"/script_server.php"), snprintf_s BUFSIZE res)
    | None => (pp_path_php_server (c_php c), [])
    end in
  let c := with_php (set_php_server_path server (c_php c)) c in
  let* (res, w) := setting c s w mysql ($"path_cactilog") in
  let l := set_paths (match res with
    | Some res => if negb (slen res =? 0) then snprintf_s DBL_BUFSIZE res
                  else if negb (slen web_root =? 0) then snprintf_s DBL_BUFSIZE (web_root ++ $"/log/cacti.log") else []
    | None => snprintf_s DBL_BUFSIZE (web_root ++ $"/log/cacti.log")
    end) l in
  let* (res, w) := setting c s w mysql ($"default_datechar") in
  let separator := match res with
    | Some res => let n := atoi res in if (n <? GDC_MIN) || (GDC_MAX <? n) then GDC_DEFAULT else n
    | None => log_datetime_separator l
    end in
  let* (res, w) := setting c s w mysql ($"default_date_format") in
  let format := match res with
    | Some res => let n := atoi res in if (n <? GD_MIN) || (GD_MAX <? n) then GD_DEFAULT else n
    | None => log_datetime_format l
    end in
  let* (date_format, l) := set_date_format (set_datetime separator format l) in
  let* (res, w) := setting c s w mysql ($"log_destination") in
  let destination := match res with Some res => Keywords.parse_logdest res Keywords.LOGDEST_FILE | None => Keywords.LOGDEST_FILE end in
  Ok (date_format, with_logging (set_levels (log_level l) destination true l) c, w).

Definition read_ping_options (c : config_t) (s : store) (w : W) (mysql : conn) : outcome (config_t * W) :=
  let a := c_availability c in
  let* (method, w) := int_setting c s w mysql ($"availability_method") (ax_availability_method a) in
  let* (recovery, w) := int_setting c s w mysql ($"ping_recovery_count") (ax_ping_recovery_count a) in
  let* (failure, w) := int_setting c s w mysql ($"ping_failure_count") (ax_ping_failure_count a) in
  let* (ping, w) := int_setting c s w mysql ($"ping_method") (ax_ping_method a) in
  let* (retries, w) := int_setting c s w mysql ($"ping_retries") (ax_ping_retries a) in
  let* (timeout, w) := int_setting c s w mysql ($"ping_timeout") 400 in
  let* (snmp_retries_, w) := int_setting c s w mysql ($"snmp_retries") 3 in
  let n := c_snmp c in
  Ok (with_availability {| ax_icmp_avail := ax_icmp_avail a; ax_icmp_uses_caps := ax_icmp_uses_caps a; ax_availability_method := method;
        ax_ping_method := ping; ax_ping_retries := retries; ax_ping_timeout := timeout; ax_ping_failure_count := failure;
        ax_ping_recovery_count := recovery; ax_ping_only := ax_ping_only a |}
      (with_snmp {| sx_total_snmp_ports := sx_total_snmp_ports n; sx_snmp_max_get_size := sx_snmp_max_get_size n; sx_snmp_retries := snmp_retries_;
        sx_snmp_clientaddr := sx_snmp_clientaddr n; sx_mibs := sx_mibs n |} c), w).

Definition set_php_timeout (timeout : Z) (p : spine_php_config_t) : spine_php_config_t :=
  {| pp_path_php := pp_path_php p; pp_path_php_server := pp_path_php_server p; pp_script_timeout := timeout; pp_php_required := pp_php_required p;
     pp_php_initialized := pp_php_initialized p; pp_php_servers := pp_php_servers p; pp_php_current_server := pp_php_current_server p |}.

(** [psql] is the database of the poller table. *)
Definition read_process_options (c : config_t) (s : store) (w : W) (mysql : conn) (md : Z) : outcome (config_t * W) :=
  let p := c_poller c in
  let* (res, w) := (if negb (po_threads_set p) then getpsetting ssl mysql_errno c s w mysql md ($"threads") else Ok (None, w)) in
  let threads_ := match res with
    | Some res => let n := atoi res in if MAX_THREADS <? n then MAX_THREADS else n
    | None => po_threads p
    end in
  let* (interval, w) := int_setting c s w mysql ($"poller_interval") 0 in
  let* (processes, w) := int_setting c s w mysql ($"concurrent_processes") 1 in
  let* (res, w) := setting c s w mysql ($"script_timeout") in
  let timeout := match res with Some res => let n := atoi res in if n <? 5 then 5 else n | None => 25 end in
  Ok (with_poller {| po_poller_id := po_poller_id p; po_poller_interval := interval; po_num_parent_processes := processes;
        po_active_profiles := po_active_profiles p; po_threads := threads_; po_threads_set := po_threads_set p;
        po_SQL_readonly := po_SQL_readonly p; po_mode := po_mode p |}
      (with_php (set_php_timeout timeout (c_php c)) c), w).

Definition set_php_count (servers : Z) (p : spine_php_config_t) : spine_php_config_t :=
  {| pp_path_php := pp_path_php p; pp_path_php_server := pp_path_php_server p; pp_script_timeout := pp_script_timeout p;
     pp_php_required := pp_php_required p; pp_php_initialized := pp_php_initialized p; pp_php_servers := servers; pp_php_current_server := pp_php_current_server p |}.
Definition not_negative (res : option cstr) : Z := match res with Some res => let n := atoi res in if n <=? 0 then 0 else n | None => 0 end.

Definition read_script_options (c : config_t) (s : store) (w : W) (mysql : conn) : outcome (config_t * W) :=
  let l := c_logging c in
  let* (res, w) := setting c s w mysql ($"selective_device_debug") in
  let debug := match res with Some res => strncopy_s LRG_BUFSIZE res | None => selective_device_debug l end in
  let* (level, w) := int_setting c s w mysql ($"spine_log_level") (spine_log_level l) in
  let* (res, w) := setting c s w mysql ($"php_servers") in
  let servers := match res with
    | Some res => let n := atoi res in let n := if MAX_PHP_SERVERS <? n then MAX_PHP_SERVERS else n in if n <=? 0 then 1 else n
    | None => 2
    end in
  let* (res, w) := setting c s w mysql ($"active_profiles") in
  let profiles := not_negative res in
  let* (res, w) := setting c s w mysql ($"total_snmp_ports") in
  let ports := not_negative res in
  let p := c_poller c in let n := c_snmp c in
  Ok (with_logging (set_debug debug level l) (with_php (set_php_count servers (c_php c))
      (with_poller {| po_poller_id := po_poller_id p; po_poller_interval := po_poller_interval p; po_num_parent_processes := po_num_parent_processes p;
         po_active_profiles := profiles; po_threads := po_threads p; po_threads_set := po_threads_set p; po_SQL_readonly := po_SQL_readonly p; po_mode := po_mode p |}
      (with_snmp {| sx_total_snmp_ports := ports; sx_snmp_max_get_size := sx_snmp_max_get_size n; sx_snmp_retries := sx_snmp_retries n;
         sx_snmp_clientaddr := sx_snmp_clientaddr n; sx_mibs := sx_mibs n |} c))), w).

Definition set_php_required (required : bool) (p : spine_php_config_t) : spine_php_config_t :=
  {| pp_path_php := pp_path_php p; pp_path_php_server := pp_path_php_server p; pp_script_timeout := pp_script_timeout p; pp_php_required := required;
     pp_php_initialized := pp_php_initialized p; pp_php_servers := pp_php_servers p; pp_php_current_server := pp_php_current_server p |}.
Definition php_requirement_query (c : config_t) : outcome cstr :=
  let sqlp := $"SELECT SQL_NO_CACHE action FROM poller_item" ++ $" WHERE action=" ++ sdec Keywords.POLLER_ACTION_PHP_SCRIPT_SERVER in
  let* sqlp := spine_snprintf HUGE_BUFSIZE sqlp in
  let* range := (if slen (host_id_list c) =? 0 then Sql.append_hostrange c (HUGE_BUFSIZE - slen sqlp) ($"host_id")
                 else spine_snprintf (HUGE_BUFSIZE - slen sqlp) ($" AND host_id IN(" ++ host_id_list c ++ $")")) in
  spine_snprintf HUGE_BUFSIZE (sqlp ++ range ++ $" AND poller_id=" ++ sdec (poller_id c) ++ $" LIMIT 1").
Definition read_php_requirement (c : config_t) (w : W) (mysql : conn) : outcome (config_t * W) :=
  let* sqlbuf := php_requirement_query c in
  let* (result, w) := config_query ssl mysql_errno c w mysql LOCAL sqlbuf in
  let* num_rows := (match result with Some r => spine_count_to_int (Z.of_nat (length (res_rows r))) | None => Ok 0 end) in
  Ok (with_php (set_php_required (0 <? num_rows) (c_php c)) c, w).

Definition read_snmp_batch_size (c : config_t) (s : store) (w : W) (mysql : conn) : outcome (config_t * W) :=
  let* (res, w) := setting c s w mysql ($"max_get_size") in
  let size := match res with Some res => let n := atoi res in if 128 <? n then 128 else n | None => 25 end in
  let n := c_snmp c in
  Ok (with_snmp {| sx_total_snmp_ports := sx_total_snmp_ports n; sx_snmp_max_get_size := size; sx_snmp_retries := sx_snmp_retries n;
         sx_snmp_clientaddr := sx_snmp_clientaddr n; sx_mibs := sx_mibs n |} c, w).

Definition publish_snmp_capabilities (c : config_t) (w : W) (mysql : conn) : outcome W :=
  let text := default [] (format_spine_capabilities BUFSIZE spine_auth spine_priv) in
  if (poller_id c =? 1) && negb (slen text =? 0) then
    let* (_, w) := putsetting ssl c w mysql LOCAL ($"spine_capabilities") text in Ok w
  else Ok w.

Definition set_version (version : cstr) (onupdate : bool) (d : spine_database_config_t) : spine_database_config_t :=
  {| da_host := da_host d; da_database := da_database d; da_user := da_user d; da_password := da_password d; da_ssl := da_ssl d;
     da_ssl_key := da_ssl_key d; da_ssl_cert := da_ssl_cert d; da_ssl_ca := da_ssl_ca d; da_port := da_port d; da_version := version; da_onupdate := onupdate |}.
Definition set_php_path (path : cstr) (p : spine_php_config_t) : spine_php_config_t :=
  {| pp_path_php := path; pp_path_php_server := pp_path_php_server p; pp_script_timeout := pp_script_timeout p; pp_php_required := pp_php_required p;
     pp_php_initialized := pp_php_initialized p; pp_php_servers := pp_php_servers p; pp_php_current_server := pp_php_current_server p |}.

(** The five flags, in the order of the code: errors, warnings, boost twice, statistics. *)
Definition read_flags (c : config_t) (s : store) (w : W) (mysql : conn) : outcome (config_t * W) :=
  let flag w name := getboolsetting ssl mysql_errno c s w mysql LOCAL name false in
  let* (perror, w) := flag w ($"log_perror") in
  let* (pwarn, w) := flag w ($"log_pwarn") in
  let* (redirect, w) := flag w ($"boost_redirect") in
  let* (enabled, w) := flag w ($"boost_rrd_update_enable") in
  let* (pstats, w) := flag w ($"log_pstats") in
  Ok (with_logging (set_flags perror pwarn pstats (c_logging c)) (with_boost {| bx_boost_enabled := enabled; bx_boost_redirect := redirect |} c), w).

(** The log date format, the settings and the world; [mysql] and [mysqlr] are the two
    connection objects. *)
Definition read_config_options (c : config_t) (s : store) (w : W) (mysql mysqlr : conn) : outcome (cstr * config_t * W) :=
  let* (ok, w) := Connection.db_connect c ssl w LOCAL mysql in
  if negb ok then Died EXIT_FAILURE else
  let* (s, w) := settings_cache_load ssl mysql_errno c w mysql LOCAL s in
  let remote := (1 <? poller_id c) && (mode c =? REMOTE_ONLINE) in
  let* (ok, w) := (if remote then Connection.db_connect c ssl w REMOTE mysqlr else Ok (true, w)) in
  if negb ok then Died EXIT_FAILURE else
  let md := if remote then REMOTE else LOCAL in
  let* (res, w) := getglobalvariable ssl mysql_errno c s w mysql LOCAL ($"version") in
  let version := match res with Some res => snprintf_s BUFSIZE res | None => da_version (c_database c) end in
  let c := with_database (set_version version (db_row_alias_upsert_supported version (mysql_get_server_version w mysql)) (c_database c)) c in
  let* (v, w) := get_cacti_version ssl mysql_errno c w mysql LOCAL in
  let c := with_cacti_version v c in
  let* (date_format, c, w) := read_logging_options c s w mysql in
  let* (res, w) := setting c s w mysql ($"path_php_binary") in
  let c := with_php (set_php_path (match res with Some res => strncopy_s BUFSIZE res | None => pp_path_php (c_php c) end) (c_php c)) c in
  let* (c, w) := read_ping_options c s w mysql in
  let* (c, w) := read_flags c s w mysql in
  let* (c, w) := read_process_options c s w mysql md in
  let* (c, w) := read_script_options c s w mysql in
  let* (c, w) := read_php_requirement c w mysql in
  let* (c, w) := read_snmp_batch_size c s w mysql in
  let* w := publish_snmp_capabilities c w mysql in
  let w := mysql_close w mysql in
  let w := if remote then mysql_close w mysqlr else w in
  Ok (date_format, c, w).

End Options.
End Options.

(** * spine.conf *)

Module ConfFile.
Import Options.

Definition LF_byte : ascii := byte_of 10.

(** ** One directive *)

Definition set_db_string (i : nat) (v : cstr) (d : spine_database_config_t) : spine_database_config_t :=
  let pick k old := if bool_decide (i = k) then strncopy_s BUFSIZE v else old in
  {| da_host := pick 0%nat (da_host d); da_database := pick 1%nat (da_database d); da_user := pick 2%nat (da_user d); da_password := pick 3%nat (da_password d);
     da_ssl := da_ssl d; da_ssl_key := pick 4%nat (da_ssl_key d); da_ssl_cert := pick 5%nat (da_ssl_cert d); da_ssl_ca := pick 6%nat (da_ssl_ca d);
     da_port := da_port d; da_version := da_version d; da_onupdate := da_onupdate d |}.
Definition set_db_port (p : Z) (d : spine_database_config_t) : spine_database_config_t :=
  {| da_host := da_host d; da_database := da_database d; da_user := da_user d; da_password := da_password d; da_ssl := da_ssl d;
     da_ssl_key := da_ssl_key d; da_ssl_cert := da_ssl_cert d; da_ssl_ca := da_ssl_ca d; da_port := p; da_version := da_version d; da_onupdate := da_onupdate d |}.
Definition set_db_ssl (p : Z) (d : spine_database_config_t) : spine_database_config_t :=
  {| da_host := da_host d; da_database := da_database d; da_user := da_user d; da_password := da_password d; da_ssl := p;
     da_ssl_key := da_ssl_key d; da_ssl_cert := da_ssl_cert d; da_ssl_ca := da_ssl_ca d; da_port := da_port d; da_version := da_version d; da_onupdate := da_onupdate d |}.
Definition set_clientaddr (v : cstr) (n : spine_snmp_config_t) : spine_snmp_config_t :=
  {| sx_total_snmp_ports := sx_total_snmp_ports n; sx_snmp_max_get_size := sx_snmp_max_get_size n; sx_snmp_retries := sx_snmp_retries n;
     sx_snmp_clientaddr := v; sx_mibs := sx_mibs n |}.
Definition set_poller_id (id : Z) (p : spine_poller_config_t) : spine_poller_config_t :=
  {| po_poller_id := id; po_poller_interval := po_poller_interval p; po_num_parent_processes := po_num_parent_processes p;
     po_active_profiles := po_active_profiles p; po_threads := po_threads p; po_threads_set := po_threads_set p; po_SQL_readonly := po_SQL_readonly p; po_mode := po_mode p |}.

(** The table of string fields: names, and the assignment. *)
Definition strings : list (cstr * (cstr → config_t → config_t)) :=
  let remote i := fun v c => with_remote_database (set_db_string i v (c_remote_database c)) c in
  let local i := fun v c => with_database (set_db_string i v (c_database c)) c in
  [($"RDB_Host", remote 0%nat); ($"RDB_Database", remote 1%nat); ($"RDB_User", remote 2%nat); ($"RDB_Pass", remote 3%nat);
   ($"RDB_SSL_Key", remote 4%nat); ($"RDB_SSL_Cert", remote 5%nat); ($"RDB_SSL_CA", remote 6%nat);
   ($"DB_Host", local 0%nat); ($"DB_Database", local 1%nat); ($"DB_User", local 2%nat); ($"DB_Pass", local 3%nat);
   ($"DB_SSL_Key", local 4%nat); ($"DB_SSL_Cert", local 5%nat); ($"DB_SSL_CA", local 6%nat);
   ($"SNMP_Clientaddr", fun v c => with_snmp (set_clientaddr (strncopy_s BUFSIZE v) (c_snmp c)) c)].

Fixpoint find_string (name : cstr) (l : list (cstr * (cstr → config_t → config_t))) : option (cstr → config_t → config_t) :=
  match l with [] => None | (n, f) :: l' => if STRIMATCH name n then Some f else find_string name l' end.

(** [None] for an unknown name. *)
Definition apply_config_directive (name value : cstr) (c : config_t) : option config_t :=
  match find_string name strings with
  | Some f => Some (f value c)
  | None =>
      if STRIMATCH name ($"RDB_Port") then Some (with_remote_database (set_db_port (wrap_u 32 (atoi value)) (c_remote_database c)) c)
      else if STRIMATCH name ($"RDB_UseSSL") then Some (with_remote_database (set_db_ssl (atoi value) (c_remote_database c)) c)
      else if STRIMATCH name ($"DB_Port") then Some (with_database (set_db_port (wrap_u 32 (atoi value)) (c_database c)) c)
      else if STRIMATCH name ($"DB_UseSSL") then Some (with_database (set_db_ssl (atoi value) (c_database c)) c)
      else if STRIMATCH name ($"Poller") then Some (with_poller (set_poller_id (atoi value) (c_poller c)) c)
      else if STRIMATCH name ($"DB_PreG") then Some c
      else if STRIMATCH name ($"Cacti_Log") then
        let l := c_logging c in
        Some (with_logging (set_levels (log_level l) Keywords.LOGDEST_BOTH true (set_paths (strncopy_s DBL_BUFSIZE value) l)) c)
      else None
  end.

(** ** The lines *)

Inductive conf_warning := LongLine (line : Z) | NoValue (line : Z) | Unrecognized (line : Z).

(** [fgets(buff, n + 1, fp)]: at most [n] bytes, up to and with a line feed. *)
Fixpoint fgets (n : nat) (file : list ascii) : list ascii * list ascii :=
  match n, file with
  | S n', b :: file' => if bool_decide (b = LF_byte) then ([b], file') else let '(l, r) := fgets n' file' in (b :: l, r)
  | _, _ => ([], file)
  end.

(** The rest of the line. *)
Fixpoint skip_line (file : list ascii) : list ascii :=
  match file with [] => [] | b :: file' => if bool_decide (b = LF_byte) then file' else skip_line file' end.

(** Whether the line was whole, and what is left of the file. *)
Definition config_line_complete (buff file : list ascii) (capacity : nat) : bool * list ascii :=
  if negb (length buff =? capacity - 1)%nat || bool_decide (buff !! (capacity - 2)%nat = Some LF_byte) then (true, file)
  else match file with
       | [] => (true, [])
       | next :: file' => if bool_decide (next = LF_byte) then (true, file') else (false, skip_line file')
       end.

(** [sscanf(buff, "%1023s %1023s", name, value)]: the tokens read. *)
Definition scan_token (s : cstr) : cstr * cstr :=
  let '(tok, rest) := span (fun c => negb (isspace c)) (skip_space s) in (take 1023 tok, drop 1023 tok ++ rest).
Definition sscanf_two (s : cstr) : list cstr :=
  let '(name, rest) := scan_token s in
  match name with
  | [] => []
  | _ => let '(value, _) := scan_token rest in match value with [] => [name] | _ => [name; value] end
  end.

(** A whole line of the buffer. *)
Definition config_line (line : Z) (buff : list ascii) (c : config_t) : config_t * list conf_warning :=
  let warn x := if negb (stderr_notty (c_console c)) then [x] else [] in
  let first := default NUL (buff !! 0%nat) in
  if bool_decide (first = "#"%char) || bool_decide (first = " "%char) || bool_decide (first = LF_byte) then (c, [])
  else match sscanf_two (c_str buff) with
       | [] => (c, [])
       | [_] => (c, warn (NoValue line))
       | name :: value :: _ =>
           match apply_config_directive name value c with Some c' => (c', []) | None => (c, warn (Unrecognized line)) end
       end.

(** [for (;;)]: every turn reads at least one byte, so the length is enough turns. *)
Fixpoint config_lines (turns : nat) (file : list ascii) (line : Z) (c : config_t) : config_t * list conf_warning :=
  match turns with
  | O => (c, [])
  | S t =>
      let '(buff, file) := fgets 1023 file in
      match buff with
      | [] => (c, [])
      | _ =>
          let line := line + 1 in
          let '(whole, file) := config_line_complete buff file 1024 in
          let '(c, ws) := if whole : bool then config_line line buff c
                          else (c, if negb (stderr_notty (c_console c)) then [LongLine line] else []) in
          let '(c, ws') := config_lines t file line c in (c, ws ++ ws')
      end
  end.

(** [None] when the file cannot be opened; [failed] is an error of reading or closing. *)
Definition read_spine_config (file : option (list ascii)) (failed : bool) (c : config_t) : Z * config_t * list conf_warning :=
  match file with
  | None => (-1, c, [])
  | Some bytes => let '(c, ws) := config_lines (length bytes) bytes 0 c in (if failed then -1 else 0, c, ws)
  end.

Definition DEFAULT_THREADS : Z := 5.
Definition DEFAULT_DB_PORT : Z := 3306.
Definition default_database (d : spine_database_config_t) : spine_database_config_t :=
  {| da_host := $"localhost"; da_database := $"cacti"; da_user := $"cactiuser"; da_password := $"cactiuser"; da_ssl := da_ssl d;
     da_ssl_key := da_ssl_key d; da_ssl_cert := da_ssl_cert d; da_ssl_ca := da_ssl_ca d; da_port := DEFAULT_DB_PORT; da_version := da_version d; da_onupdate := da_onupdate d |}.
Definition config_paths : list cstr := [[]; $"/etc/"; $"/etc/cacti/"; $"../etc/"].
Definition config_defaults (c : config_t) : config_t :=
  let p := c_poller c in let l := c_logging c in
  with_poller {| po_poller_id := po_poller_id p; po_poller_interval := po_poller_interval p; po_num_parent_processes := po_num_parent_processes p;
     po_active_profiles := po_active_profiles p; po_threads := DEFAULT_THREADS; po_threads_set := po_threads_set p; po_SQL_readonly := po_SQL_readonly p; po_mode := po_mode p |}
  (with_database (default_database (c_database c)) (with_remote_database (default_database (c_remote_database c))
  (with_logging (set_levels (log_level l) Keywords.LOGDEST_FILE (logfile_processed l) l) c))).

End ConfFile.

(** * The debug list *)

Module DebugList.

(** [strtok_r(list, ",", &saveptr)]: the non-empty pieces. *)
Fixpoint pieces (s cur : cstr) : list cstr :=
  match s with
  | [] => match cur with [] => [] | _ => [cur] end
  | c :: s' => if bool_decide (c = ","%char) then (match cur with [] => pieces s' [] | _ => cur :: pieces s' [] end) else pieces s' (cur ++ [c])
  end.

(** The array after the call: its first [capacity] entries, and the old ones behind the
    terminating zero. *)
Definition parse_debug_devices (device_list : cstr) (devices : list Z) (capacity : nat) : list Z :=
  match capacity with
  | O => devices
  | S n => let new := map atoi (take n (pieces device_list [])) ++ [0] in new ++ drop (length new) devices
  end.

End DebugList.
