(* ===== verification/ConfigFacts.v ===== *)
(** The configuration of Config.v: reading spine.conf is reading its lines one by one,
    the settings cache answers as single queries do, and the options that
    [read_config_options] leaves are in range. *)

From S2P Require Import Prelude CLib Buffer Text Result Settings Sql Queries Config.

(** * The lines of spine.conf *)

Module ConfFileFacts.
Import ConfFile.

(** The lines of a file, without their line feeds; a file that ends in a line feed has
    no further line. *)
Fixpoint lines_of (file cur : list ascii) : list (list ascii) :=
  match file with
  | [] => match cur with [] => [] | _ => [cur] end
  | b :: file' => if bool_decide (b = LF_byte) then cur :: lines_of file' [] else lines_of file' (cur ++ [b])
  end.

(** A line that does not fit the buffer has no effect. *)
Definition apply_line (n : Z) (l : list ascii) (c : config_t) : config_t * list conf_warning :=
  if (length l <=? 1023)%nat then config_line n l c else (c, if negb (stderr_notty (c_console c)) then [LongLine n] else []).
Fixpoint apply_lines (n : Z) (ls : list (list ascii)) (c : config_t) : config_t * list conf_warning :=
  match ls with
  | [] => (c, [])
  | l :: ls' => let '(c, ws) := apply_line n l c in let '(c, ws') := apply_lines (n + 1) ls' c in (c, ws ++ ws')
  end.

(** ** Splitting *)

(** A file is one last line, or a line, its line feed and the rest. *)
Lemma first_line file : LF_byte ∉ file ∨ ∃ l rest, file = l ++ LF_byte :: rest ∧ LF_byte ∉ l.
Proof.
  induction file as [|b file IH]; [left; apply not_elem_of_nil|].
  destruct (decide (b = LF_byte)) as [->|Hb]; [right; exists [], file; split; [done|apply not_elem_of_nil]|].
  destruct IH as [H|(l & rest & -> & H)]; [left; apply not_elem_of_cons; naive_solver|].
  right. exists (b :: l), rest. split; [done|]. apply not_elem_of_cons; naive_solver.
Qed.

Lemma lines_of_line l rest cur : LF_byte ∉ l → lines_of (l ++ LF_byte :: rest) cur = (cur ++ l) :: lines_of rest [].
Proof.
  revert cur. induction l as [|b l IH]; intros cur H; cbn.
  - rewrite app_nil_r. done.
  - apply not_elem_of_cons in H as [Hb Hl]. rewrite bool_decide_eq_false_2 by done. rewrite IH by done. by rewrite <- app_assoc.
Qed.
Lemma lines_of_last l cur : LF_byte ∉ l → lines_of l cur = match cur ++ l with [] => [] | x => [x] end.
Proof.
  revert cur. induction l as [|b l IH]; intros cur H; cbn; [by rewrite app_nil_r; destruct cur|].
  apply not_elem_of_cons in H as [Hb Hl]. rewrite bool_decide_eq_false_2, IH by done. by rewrite <- app_assoc.
Qed.

Lemma fgets_line n l rest : LF_byte ∉ l →
  fgets n (l ++ LF_byte :: rest) = if (n <=? length l)%nat then (take n l, drop n l ++ LF_byte :: rest) else (l ++ [LF_byte], rest).
Proof.
  revert n. induction l as [|b l IH]; intros n H.
  - destruct n as [|n]; cbn; done.
  - apply not_elem_of_cons in H as [Hb Hl]. destruct n as [|n]; [done|]. cbn [fgets app length Nat.leb take drop].
    rewrite bool_decide_eq_false_2, IH by done. by destruct (n <=? length l)%nat.
Qed.
Lemma fgets_last n l : LF_byte ∉ l → fgets n l = (take n l, drop n l).
Proof.
  revert n. induction l as [|b l IH]; intros n H; [by destruct n|].
  apply not_elem_of_cons in H as [Hb Hl]. destruct n as [|n]; [done|]. cbn. by rewrite bool_decide_eq_false_2, IH.
Qed.
Lemma skip_line_line l rest : LF_byte ∉ l → skip_line (l ++ LF_byte :: rest) = rest.
Proof.
  induction l as [|b l IH]; intros H; cbn; [done|]. apply not_elem_of_cons in H as [Hb Hl].
  rewrite bool_decide_eq_false_2 by done. auto.
Qed.
Lemma skip_line_last l : LF_byte ∉ l → skip_line l = [].
Proof.
  induction l as [|b l IH]; intros H; cbn; [done|]. apply not_elem_of_cons in H as [Hb Hl].
  rewrite bool_decide_eq_false_2 by done. auto.
Qed.

Lemma last_not_lf (l : list ascii) : LF_byte ∉ l → ∀ i : nat, l !! i ≠ Some LF_byte.
Proof. intros H i E. apply H. by eapply list_elem_of_lookup_2. Qed.

(** What one turn sees of a line: whole, or cut and skipped. *)
Lemma turn_line l rest : LF_byte ∉ l →
  ∃ buff file, fgets 1023 (l ++ LF_byte :: rest) = (buff, file) ∧ buff ≠ [] ∧
    if (length l <=? 1023)%nat then config_line_complete buff file 1024 = (true, rest) ∧ (buff = l ∨ buff = l ++ [LF_byte])
    else config_line_complete buff file 1024 = (false, rest).
Proof.
  intros H. rewrite fgets_line by done. destruct (Nat.leb_spec 1023 (length l)) as [Hn|Hn].
  - do 2 eexists. split; [done|]. split; [intros E; apply (f_equal length) in E; rewrite length_take in E; cbn [length] in E; lia|].
    unfold config_line_complete. rewrite length_take, Nat.min_l by lia. cbn [Nat.sub]. rewrite Nat.eqb_refl. cbn [negb orb].
    rewrite bool_decide_eq_false_2.
    2: { rewrite lookup_take. case_decide; [by apply last_not_lf|done]. }
    destruct (Nat.leb_spec (length l) 1023) as [Hm|Hm].
    + rewrite take_ge, drop_ge by lia. cbn. auto.
    + destruct (drop 1023 l) as [|b l'] eqn:E; [apply (f_equal length) in E; rewrite length_drop in E; cbn [length] in E; lia|].
      assert (Hd : LF_byte ∉ b :: l'). { rewrite <- E. intros Hin. apply H. rewrite <- (take_drop 1023 l). apply elem_of_app. by right. }
      apply not_elem_of_cons in Hd as [Hb Hd]. cbn. rewrite bool_decide_eq_false_2 by done. by rewrite skip_line_line.
  - do 2 eexists. split; [done|]. split; [by destruct l|]. rewrite (proj2 (Nat.leb_le _ _)) by lia. split; [|by right].
    unfold config_line_complete. rewrite length_app. cbn [length Nat.sub].
    destruct (Nat.eqb_spec (length l + 1) 1023) as [E|E]; cbn [negb orb]; [|done].
    rewrite bool_decide_eq_true_2; [done|]. rewrite lookup_app_r by lia. by replace (1022 - length l)%nat with 0%nat by lia.
Qed.

Lemma turn_last l : LF_byte ∉ l → l ≠ [] →
  ∃ buff file, fgets 1023 l = (buff, file) ∧ buff ≠ [] ∧
    if (length l <=? 1023)%nat then config_line_complete buff file 1024 = (true, []) ∧ buff = l
    else config_line_complete buff file 1024 = (false, []).
Proof.
  intros H Hne. rewrite fgets_last by done. do 2 eexists. split; [done|].
  split; [destruct l; [done|]; by cbn [take]|].
  unfold config_line_complete. cbn [Nat.sub]. rewrite length_take. destruct (Nat.leb_spec (length l) 1023) as [Hn|Hn].
  - rewrite take_ge, drop_ge by lia. split; [|done]. by destruct (_ || _).
  - rewrite Nat.min_l by lia. rewrite Nat.eqb_refl. cbn [negb orb].
    rewrite bool_decide_eq_false_2 by (rewrite lookup_take; case_decide; [by apply last_not_lf|done]).
    destruct (drop 1023 l) as [|b l'] eqn:E; [apply (f_equal length) in E; rewrite length_drop in E; cbn [length] in E; lia|].
    assert (Hd : LF_byte ∉ b :: l'). { rewrite <- E. intros Hin. apply H. rewrite <- (take_drop 1023 l). apply elem_of_app. by right. }
    apply not_elem_of_cons in Hd as [Hb Hd]. rewrite bool_decide_eq_false_2 by done. by rewrite skip_line_last.
Qed.

(** ** The line feed of a line is not part of its directive *)

Lemma span_snoc p s b : p b = false →
  span p (s ++ [b]) = (fst (span p s), snd (span p s) ++ [b]).
Proof.
  intros Hb. induction s as [|c s IH]; cbn; [by rewrite Hb|]. destruct (p c); [|done]. rewrite IH. by destruct (span p s).
Qed.
Lemma skip_space_snoc s b : isspace b = true →
  skip_space (s ++ [b]) = match skip_space s with [] => [] | u => u ++ [b] end.
Proof.
  intros Hb. unfold skip_space. induction s as [|c s IH]; cbn; [by rewrite Hb|]. destruct (isspace c) eqn:E; [|done].
  destruct (span isspace (s ++ [b])), (span isspace s). cbn in *. done.
Qed.
Lemma scan_token_snoc s b t r : isspace b = true → scan_token s = (t, r) →
  scan_token (s ++ [b]) = (t, r ++ [b]) ∨ (t = [] ∧ r = [] ∧ scan_token (s ++ [b]) = ([], [])).
Proof.
  intros Hb. unfold scan_token. rewrite skip_space_snoc by done. destruct (skip_space s) as [|c u].
  - intros [= <- <-]. right. done.
  - change ((c :: u) ++ [b]) with (c :: (u ++ [b])). intros E. left.
    change (c :: (u ++ [b])) with ((c :: u) ++ [b]). rewrite span_snoc by (by rewrite Hb).
    destruct (span _ (c :: u)) as [tok rest] eqn:Es. cbn [fst snd].
    injection E as <- <-. by rewrite <- app_assoc.
Qed.
Lemma sscanf_two_snoc s b : isspace b = true → sscanf_two (s ++ [b]) = sscanf_two s.
Proof.
  intros Hb. unfold sscanf_two. destruct (scan_token s) as [name rest] eqn:E1.
  destruct (scan_token_snoc s b name rest Hb E1) as [->|(-> & -> & ->)]; [|done].
  destruct name as [|x name]; [done|]. destruct (scan_token rest) as [value r2] eqn:E2.
  by destruct (scan_token_snoc rest b value r2 Hb E2) as [->|(-> & -> & ->)].
Qed.
Lemma c_str_snoc l b : c_str (l ++ [b]) = c_str l ∨ c_str (l ++ [b]) = c_str l ++ c_str [b].
Proof.
  induction l as [|x l IH]; [by right|]. cbn [app c_str]. case_decide; [by left|].
  destruct IH as [->| ->]; [by left|by right].
Qed.

Lemma config_line_lf n l c : config_line n (l ++ [LF_byte]) c = config_line n l c.
Proof.
  unfold config_line. destruct l as [|x l]; [done|]. cbn [app lookup list_lookup default]. 
  change (x :: l ++ [LF_byte]) with ((x :: l) ++ [LF_byte]).
  destruct (c_str_snoc (x :: l) LF_byte) as [->| ->]; [done|].
  change (c_str [LF_byte]) with [LF_byte]. by rewrite sscanf_two_snoc.
Qed.

Lemma apply_line_lines (turns : nat) : ∀ file line c, (length file ≤ turns)%nat →
  config_lines turns file line c = apply_lines (line + 1) (lines_of file []) c.
Proof.
  induction turns as [|t IH]; intros file line c Ht; [by destruct file; [|cbn in Ht; lia]|]. cbn [config_lines].
  destruct (first_line file) as [H|(l & rest & -> & H)].
  - rewrite lines_of_last by done. cbn [app]. destruct file as [|b file]; [done|].
    destruct (turn_last (b :: file) H) as (buff & file' & -> & Hne & Hc); [done|]. destruct buff as [|x buff]; [done|].
    cbn [apply_lines]. unfold apply_line. destruct (_ <=? 1023)%nat.
    + destruct Hc as [-> ->]. destruct (config_line _ _ _) as [c1 ws]. by rewrite IH by (cbn; lia).
    + rewrite Hc. cbv beta iota. by rewrite IH by (cbn; lia).
  - rewrite lines_of_line by done. rewrite length_app in Ht. cbn [length] in Ht.
    destruct (turn_line l rest H) as (buff & file' & -> & Hne & Hc). destruct buff as [|x buff]; [done|].
    cbn [apply_lines app]. unfold apply_line. destruct (_ <=? 1023)%nat.
    + destruct Hc as [-> Hb]. assert (Hl : config_line (line + 1) (x :: buff) c = config_line (line + 1) l c).
      { destruct Hb as [->| ->]; [done|apply config_line_lf]. }
      rewrite Hl. clear Hl. destruct (config_line _ _ _) as [c1 ws]. by rewrite IH by lia.
    + rewrite Hc. cbv beta iota. by rewrite IH by lia.
Qed.

(** ** Printing directives *)

(** A word that [%s] reads whole: not empty, no white space and no NUL. *)
Definition word (s : cstr) : Prop := s ≠ [] ∧ Forall (fun b => isspace b = false ∧ b ≠ NUL) s.
Definition line_of (d : cstr * cstr) : cstr := d.1 ++ $" " ++ d.2.
Definition file_of (ds : list (cstr * cstr)) : list ascii := concat (map (fun d => line_of d ++ [LF_byte]) ds).
Definition directive_ok (d : cstr * cstr) : Prop :=
  word d.1 ∧ word d.2 ∧ d.1 !! 0%nat ≠ Some "#"%char ∧ (length (line_of d) ≤ 1023)%nat.

(** The settings after the directives, and one warning for each unknown name. *)
Fixpoint apply_directives (n : Z) (ds : list (cstr * cstr)) (c : config_t) : config_t * list conf_warning :=
  match ds with
  | [] => (c, [])
  | d :: ds' =>
      let '(c, ws) := match apply_config_directive d.1 d.2 c with
                      | Some c' => (c', [])
                      | None => (c, if negb (stderr_notty (c_console c)) then [Unrecognized n] else [])
                      end in
      let '(c, ws') := apply_directives (n + 1) ds' c in (c, ws ++ ws')
  end.

Lemma word_token s t : word s → (length s ≤ 1023)%nat → match t with b :: _ => isspace b = true | [] => True end →
  scan_token (s ++ t) = (s, t).
Proof.
  intros [Hne Hs] Hl Ht. unfold scan_token, skip_space.
  assert (Hsp : span isspace (s ++ t) = ([], s ++ t)). { destruct Hs as [|b s [Hb _] _]; [done|]. cbn. by rewrite Hb. }
  rewrite Hsp. cbn [snd]. rewrite span_stop.
  - by rewrite take_ge, drop_ge by lia.
  - eapply list.Forall_impl; [exact Hs|]. cbn. intros b [-> _]. done.
  - destruct t; [done|]. by rewrite Ht.
Qed.
Lemma word_nul_free s : word s → nul_free s.
Proof. intros [_ H]. intros Hin. rewrite list.Forall_forall in H. by destruct (H _ Hin). Qed.
Lemma word_lf s : word s → LF_byte ∉ s.
Proof. intros [_ H] Hin. rewrite list.Forall_forall in H. by destruct (H _ Hin). Qed.

Lemma config_line_directive n d c : directive_ok d →
  config_line n (line_of d) c = match apply_config_directive d.1 d.2 c with
    | Some c' => (c', [])
    | None => (c, if negb (stderr_notty (c_console c)) then [Unrecognized n] else [])
    end.
Proof.
  destruct d as [name value]. intros (Hn & Hv & Hh & Hl). cbn [fst snd] in *. unfold line_of in *. cbn [fst snd] in *.
  rewrite !length_app in Hl. cbn [length lit] in Hl.
  assert (Hs : sscanf_two (c_str (name ++ $" " ++ value)) = [name; value]).
  { rewrite c_str_id by (apply nul_free_app; split; [by apply word_nul_free|apply nul_free_app; split; [by apply (bool_decide_unpack _); vm_compute|by apply word_nul_free]]).
    unfold sscanf_two. rewrite word_token; [|done|cbn in Hl; lia|done]. destruct name as [|x name]; [by destruct Hn|].
    assert (Hr : scan_token ($" " ++ value) = scan_token value).
    { unfold scan_token, skip_space. cbn [lit String.list_ascii_of_string app span]. change (isspace " ") with true. by destruct (span isspace value). }
    rewrite Hr.
    rewrite <- (app_nil_r value), word_token; [|done|cbn in Hl; lia|done]. destruct value; [by destruct Hv|]. by rewrite app_nil_r. }
  unfold config_line. rewrite Hs. destruct Hn as [Hne Hn]. destruct Hn as [|x name [Hx Hx0] Hn]; [done|].
  assert (H1 : x ≠ "#"%char) by (intros ->; by apply Hh).
  assert (H2 : x ≠ " "%char) by (by intros ->).
  assert (H3 : x ≠ LF_byte) by (by intros ->).
  change (default NUL (((x :: name) ++ $" " ++ value) !! 0%nat)) with x. by rewrite !bool_decide_eq_false_2.
Qed.

Lemma file_of_lines ds : Forall directive_ok ds → lines_of (file_of ds) [] = map line_of ds.
Proof.
  induction 1 as [|d ds (Hn & Hv & _ & _) _ IH]; [done|]. unfold file_of. cbn [map concat]. rewrite <- app_assoc. cbn [app].
  rewrite lines_of_line; [cbn [app]; f_equal; exact IH|]. unfold line_of.
  rewrite !not_elem_of_app. split_and!; [by apply word_lf|by apply (bool_decide_unpack _); vm_compute|by apply word_lf].
Qed.
Lemma apply_directive_lines ds : Forall directive_ok ds → ∀ n c, apply_lines n (map line_of ds) c = apply_directives n ds c.
Proof.
  induction 1 as [|d ds Hd _ IH]; intros n c; [done|]. cbn [map apply_lines apply_directives].
  unfold apply_line. rewrite (proj2 (Nat.leb_le _ _)) by apply Hd. rewrite config_line_directive by done.
  destruct (apply_config_directive d.1 d.2 c); by rewrite IH.
Qed.

End ConfFileFacts.

(** C29: reading spine.conf through a 1024 byte buffer is reading its lines.  For every
    file, whatever its bytes: the loop ends within one turn per byte, and the settings
    and the warnings are those of taking the lines one by one, where a line of more than
    1023 bytes is reported and ignored as a whole (none of its pieces is read as a
    directive) and the line number of every warning is right. *)
Theorem read_spine_config_by_lines (bytes : list ascii) (failed : bool) (c : config_t) :
  ConfFile.read_spine_config (Some bytes) failed c =
  let '(c', ws) := ConfFileFacts.apply_lines 1 (ConfFileFacts.lines_of bytes []) c in (if failed then -1 else 0, c', ws).
Proof. unfold ConfFile.read_spine_config. by rewrite ConfFileFacts.apply_line_lines. Qed.

(** A spine.conf that is printed is read back.  For every list of directives whose
    names and values are words and whose lines fit the buffer, reading the printed file
    applies exactly these directives in their order, and reports each unknown name with
    the number of its line. *)
Theorem spine_conf_roundtrip (ds : list (cstr * cstr)) (c : config_t) (Hds : Forall ConfFileFacts.directive_ok ds) :
  ConfFile.read_spine_config (Some (ConfFileFacts.file_of ds)) false c =
  let '(c', ws) := ConfFileFacts.apply_directives 1 ds c in (0, c', ws).
Proof.
  unfold ConfFile.read_spine_config. rewrite ConfFileFacts.apply_line_lines by done.
  by rewrite ConfFileFacts.file_of_lines, ConfFileFacts.apply_directive_lines.
Qed.

Lemma spine_conf_roundtrip_witness :
  let '(rc, c', ws) := ConfFile.read_spine_config
    (Some (ConfFileFacts.file_of [($"DB_Host", $"db.example.org"); ($"Bogus", $"1"); ($"poller", $"7")])) false zero_config in
  rc = 0 ∧ db_host c' = $"db.example.org" ∧ poller_id c' = 7 ∧ ws = [ConfFile.Unrecognized 2].
Proof.
  rewrite spine_conf_roundtrip; [by vm_compute|].
  repeat constructor; try done; try (by vm_compute); cbn; repeat constructor; done.
Defined.

(** * The settings table *)

Module SettingsFacts.
Import SettingsStore.

(** Whether a row of the settings table is the one a name selects. *)
Definition row_named (name : cstr) (r : row_t) : bool := match column r 0 with Some n => STRIMATCH name n | None => false end.
Definition named_rows (name : cstr) (table : list row_t) : list row_t := map (fun r => [column r 1]) (filter (fun r => row_named name r = true) table).
Definition select_all : cstr := $"SELECT SQL_NO_CACHE name, value FROM settings".
Definition select_one (name : cstr) : cstr := $"SELECT SQL_NO_CACHE value FROM settings WHERE name = '" ++ name ++ $"'".

(** The cached value is the one of the first row with the name. *)
Lemma find_cached name table : find_setting name (omap cache_entry table) =
  match named_rows name table with [] => None | r :: _ => Some (default [] (column r 0)) end.
Proof.
  unfold named_rows. induction table as [|r table IH]; [done|]. cbn [omap list_omap]. unfold cache_entry at 1.
  destruct (column r 0) as [n|] eqn:E.
  - cbn [find_setting]. destruct (STRIMATCH name n) eqn:Em.
    + rewrite filter_cons_True by (by unfold row_named; rewrite E). done.
    + rewrite filter_cons_False by (by unfold row_named; rewrite E, Em). done.
  - rewrite filter_cons_False by (by unfold row_named; rewrite E). done.
Qed.

(** ** The version *)

Lemma version_loop_range weights value version : Forall (fun w => 0 < w) weights → 0 ≤ version ≤ INT_MAX →
  0 ≤ version_loop weights value version ≤ INT_MAX.
Proof.
  intros Hw. revert value version. induction Hw as [|w ws Hw _ IH]; intros value version Hv; cbn [version_loop]; [done|].
  destruct (negb _); [unfold INT_MAX; lia|]. destruct (sr_range _ || _) eqn:E; [unfold INT_MAX; lia|].
  apply orb_false_iff in E as [_ E]. apply Z.ltb_ge in E.
  set (v := sr_value (strtoull value)) in *.
  assert (Hv0 : 0 ≤ v).
  { unfold v, strtoull. destruct (take_sign _) as [neg body]. destruct (span isdigit body) as [[|d ds] rest]; cbn [sr_value]; [done|].
    case_match; cbn [sr_value]; [done|]. case_match; [apply Z.mod_pos_bound; done|apply digits_val_nonneg; done]. }
  assert (v * w ≤ INT_MAX - version). { pose proof (Z.mul_div_le (INT_MAX - version) w Hw). nia. }
  destruct ws; [nia|]. destruct (negb _); [unfold INT_MAX; lia|]. apply IH. nia.
Qed.
Lemma parse_cacti_version_range value : 0 ≤ parse_cacti_version value ≤ INT_MAX.
Proof. apply version_loop_range; [repeat constructor|done]. Qed.

Lemma strtoull_udec n t : 0 ≤ n ≤ UINT64_MAX → match t with b :: _ => isdigit b = false | [] => True end →
  strtoull (udec n ++ t) = {| sr_value := n; sr_rest := t; sr_range := false |}.
Proof.
  intros Hn Ht. pose proof (udec_digits n ltac:(lia)) as Hd. pose proof (udec_nonempty n). unfold strtoull, skip_space.
  destruct (udec n) as [|d ds] eqn:E; [done|]. assert (Hd1 : isdigit d = true) by (by inversion Hd).
  assert (Hsp : snd (span isspace ((d :: ds) ++ t)) = (d :: ds) ++ t) by (cbn; by rewrite isdigit_not_space).
  rewrite Hsp. assert (Hsg : take_sign ((d :: ds) ++ t) = (false, (d :: ds) ++ t)).
  { cbn. rewrite !decide_False; [done|intros ->; by vm_compute in Hd1 ..]. }
  rewrite Hsg. rewrite span_stop by done. rewrite <- E, udec_val by lia. by rewrite (proj2 (Z.ltb_ge _ _)) by lia.
Qed.

(** One number of a version. *)
Lemma version_step w ws n t version : 0 ≤ n → 0 < w → 0 ≤ version → version + n * w ≤ INT_MAX →
  match t with b :: _ => isdigit b = false | [] => True end →
  version_loop (w :: ws) (udec n ++ t) version =
  match ws with
  | [] => version + n * w
  | _ => if negb (bool_decide (at_ t 0 = "."%char)) then 0 else version_loop ws (drop 1 t) (version + n * w)
  end.
Proof.
  intros Hn Hw Hv Hsum Ht. cbn [version_loop].
  assert (Hd : isdigit (at_ (udec n ++ t) 0) = true).
  { pose proof (udec_digits n Hn) as Hd. pose proof (udec_nonempty n). destruct (udec n) as [|d ds]; [done|].
    change (isdigit d = true). by inversion Hd. }
  rewrite Hd, strtoull_udec by (unfold INT_MAX, UINT64_MAX in *; try done; nia). cbn [negb sr_range sr_value sr_rest orb].
  by rewrite (proj2 (Z.ltb_ge _ _)) by (apply Z.div_le_lower_bound; lia).
Qed.
Lemma version_dot w w' ws n t version : 0 ≤ n → 0 < w → 0 ≤ version → version + n * w ≤ INT_MAX →
  version_loop (w :: w' :: ws) (udec n ++ $"." ++ t) version = version_loop (w' :: ws) t (version + n * w).
Proof. intros. by rewrite version_step. Qed.

End SettingsFacts.

Module SettingsProperties.
Import SettingsStore SettingsFacts.

(** C30: the settings cache answers as the database does.  When the table has rows and
    the server answers both statements from the same table (names are compared without
    case), loading the cache and looking a name up gives the very value that the single
    query gives, for every name and every set of command-line overrides, and the cached
    lookup asks the server nothing. *)
Theorem settings_cache_answers {W} `{MySQL W} (ssl : list mysql_feature) (mysql_errno : W → conn → Z) (set : config_t) (s : store)
  (w w1 w2 : W) (psql : conn) (md fields fields' : Z) (table : list row_t) (name : cstr)
  (Hsize : (0 < Z.of_nat (length table) ≤ INT_MAX)) (Hname : slen name < 900) (Hcold : cache s = None)
  (Hall : config_query ssl mysql_errno set w psql md select_all = Ok (Some {| res_fields := fields; res_rows := table |}, w1))
  (Hone : config_query ssl mysql_errno set w psql md (select_one name) = Ok (Some {| res_fields := fields'; res_rows := named_rows name table |}, w2)) :
  ∃ s1 v w3, settings_cache_load ssl mysql_errno set w psql md s = Ok (s1, w1) ∧
    getsetting ssl mysql_errno set s1 w1 psql md name = Ok (Some v, w1) ∧
    getsetting ssl mysql_errno set s w psql md name = Ok (Some v, w3).
Proof.
  unfold settings_cache_load. fold select_all. rewrite Hall. cbn [obind res_rows].
  rewrite (proj2 (Z.eqb_neq _ _)), (proj2 (Z.ltb_ge _ _)) by lia. cbn [orb].
  exists {| opttable := opttable s; cache := Some (omap cache_entry table) |}. unfold getsetting. cbn [opttable cache]. rewrite Hcold.
  destruct (find_setting name (opttable s)) as [v|]; [by exists v, w|]. rewrite find_cached.
  rewrite QueriesFacts.spine_snprintf_ok by (unfold BUFSIZE; QueriesFacts.slen_lits; lia).
  fold (select_one name). cbn [obind]. rewrite Hone. cbn [obind first_value res_rows].
  destruct (named_rows name table) as [|r rs]; do 2 eexists; done.
Qed.

(** An override of the command line decides.  After [set_option], the setting reads
    as the given value wherever it is read (settings, poller or global variable), the
    case of the name does not matter, the first of several overrides counts, and the
    database is not asked; the 257th override ends the program instead of being
    dropped. *)
Theorem override_decides {W} `{MySQL W} (ssl : list mysql_feature) (mysql_errno : W → conn → Z) (set : config_t) (s : store) (w : W)
  (psql : conn) (md : Z) (option_ value name : cstr) (Hname : STRIMATCH name option_ = true) :
  match set_option option_ value s with
  | Died st => st = EXIT_FAILURE ∧ (256 ≤ length (opttable s))%nat
  | Ok s' =>
      let v := default value (find_setting name (opttable s)) in
      (length (opttable s') ≤ 256)%nat ∧ getsetting ssl mysql_errno set s' w psql md name = Ok (Some v, w) ∧
      getpsetting ssl mysql_errno set s' w psql md name = Ok (Some v, w) ∧
      getglobalvariable ssl mysql_errno set s' w psql md name = Ok (Some v, w)
  end.
Proof.
  unfold set_option, OPTTABLE_SIZE. destruct (Nat.leb_spec 256 (length (opttable s))) as [Hl|Hl]; [done|]. cbv zeta.
  assert (Hf : find_setting name (opttable s ++ [(option_, value)]) = Some (default value (find_setting name (opttable s)))).
  { clear Hl. induction (opttable s) as [|[n v] l IH]; cbn; [by rewrite Hname|]. by destruct (STRIMATCH name n). }
  unfold getsetting, getpsetting, getglobalvariable. cbn [opttable]. rewrite Hf, length_app. cbn. split_and!; [lia|done..].
Qed.

(** The version of Cacti is read as printed.  For every version whose weighted sum
    fits an int, with any suffix that does not extend the last number, the parser returns
    1000 * major + 100 * minor + point; for every other text it still returns a
    non-negative int. *)
Theorem cacti_version_roundtrip (major minor point : Z) (suffix : cstr) :
  0 ≤ major → 0 ≤ minor → 0 ≤ point → 1000 * major + 100 * minor + point ≤ INT_MAX →
  match suffix with b :: _ => isdigit b = false | [] => True end →
  parse_cacti_version (udec major ++ $"." ++ udec minor ++ $"." ++ udec point ++ suffix) = 1000 * major + 100 * minor + point ∧
  ∀ value, 0 ≤ parse_cacti_version value ≤ INT_MAX.
Proof.
  intros Ha Hb Hc Hsum Hs. split; [|apply parse_cacti_version_range]. unfold parse_cacti_version.
  rewrite !version_dot by lia. rewrite version_step by (done || lia). lia.
Qed.

End SettingsProperties.

(** * The options *)

Module OptionsFacts.
Import SettingsStore DateFormat Options.

(** Two database records that differ in nothing but the version found, which fits its array. *)
Definition credentials_kept (d d' : spine_database_config_t) : Prop :=
  da_host d' = da_host d ∧ da_database d' = da_database d ∧ da_user d' = da_user d ∧ da_password d' = da_password d ∧
  da_ssl d' = da_ssl d ∧ da_ssl_key d' = da_ssl_key d ∧ da_ssl_cert d' = da_ssl_cert d ∧ da_ssl_ca d' = da_ssl_ca d ∧
  da_port d' = da_port d ∧ (da_version d' = da_version d ∨ slen (da_version d') < BUFSIZE).

(** What no option changes: the console, the devices, the remote database, the local one but
    for its version, and in the other records every field that is not an option. *)
Definition kept (c c' : config_t) : Prop :=
  c_console c' = c_console c ∧ c_hosts c' = c_hosts c ∧ c_remote_database c' = c_remote_database c ∧
  credentials_kept (c_database c) (c_database c') ∧
  poller_id c' = poller_id c ∧ mode c' = mode c ∧ SQL_readonly c' = SQL_readonly c ∧ po_threads_set (c_poller c') = po_threads_set (c_poller c) ∧
  ping_only c' = ping_only c ∧ icmp_avail c' = icmp_avail c ∧ ax_icmp_uses_caps (c_availability c') = ax_icmp_uses_caps (c_availability c) ∧
  mibs c' = mibs c ∧ sx_snmp_clientaddr (c_snmp c') = sx_snmp_clientaddr (c_snmp c) ∧
  pp_php_initialized (c_php c') = pp_php_initialized (c_php c) ∧ pp_php_current_server (c_php c') = pp_php_current_server (c_php c).

(** The ranges the poller relies on. *)
Definition in_range (c : config_t) : Prop :=
  1 ≤ php_servers c ≤ MAX_PHP_SERVERS ∧ 5 ≤ script_timeout c ≤ INT_MAX ∧
  0 ≤ active_profiles c ≤ INT_MAX ∧ 0 ≤ total_snmp_ports c ≤ INT_MAX ∧ INT_MIN ≤ sx_snmp_max_get_size (c_snmp c) ≤ 128 ∧
  0 ≤ cacti_version c ≤ INT_MAX ∧ 0 ≤ log_datetime_separator (c_logging c) ≤ 2 ∧ 0 ≤ log_datetime_format (c_logging c) ≤ 5 ∧
  INT_MIN ≤ poller_interval c ≤ INT_MAX.
(** Strings that leave room for the NUL in their arrays. *)
Definition strings_fit (c : config_t) : Prop :=
  slen (path_logfile (c_logging c)) < DBL_BUFSIZE ∧ slen (path_php c) < BUFSIZE ∧ slen (path_php_server c) < BUFSIZE ∧
  slen (selective_device_debug (c_logging c)) < LRG_BUFSIZE.

Lemma separator_index_range l : 0 ≤ separator_index l ≤ 2.
Proof. unfold separator_index, GDC_MIN, GDC_MAX, GDC_DEFAULT. destruct (_ || _) eqn:E; [lia|]. blia. Qed.
Lemma format_index_range l : 0 ≤ format_index l ≤ 5.
Proof. unfold format_index, GD_MIN, GD_MAX, GD_DEFAULT. destruct (_ || _) eqn:E; [lia|]. blia. Qed.

(** [set_date_format] has room for every format: its 21 byte buffer is never too short. *)
Lemma set_date_format_ok l : ∃ text, set_date_format l = Ok (text, set_datetime (separator_index l) (format_index l) l) ∧ slen text = 20.
Proof.
  unfold set_date_format. destruct (separators !! Z.to_nat (separator_index l)) as [c|] eqn:Es.
  2: { apply lookup_ge_None in Es. pose proof (separator_index_range l). cbn [length separators] in Es. lia. }
  destruct (formats !! Z.to_nat (format_index l)) as [[[p0 p1] p2]|] eqn:Ef.
  2: { apply lookup_ge_None in Ef. pose proof (format_index_range l). cbn [length formats] in Ef. lia. }
  assert (Hp : slen p0 = 2 ∧ slen p1 = 2 ∧ slen p2 = 2).
  { apply list_elem_of_lookup_2 in Ef. unfold formats in Ef. rewrite !elem_of_cons, elem_of_nil in Ef.
    destruct_or! Ef; try done; injection Ef as -> -> ->; done. }
  cbn [default]. assert (Hl : slen (p0 ++ [c] ++ p1 ++ [c] ++ p2 ++ $" %H:%M:%S - ") = 20).
  { QueriesFacts.slen_lits. lia. }
  unfold default, id. rewrite QueriesFacts.spine_snprintf_ok by (rewrite Hl; done). cbn [obind]. by eexists.
Qed.

Section Reading.
Context {W : Type} `{MySQL W} (ssl : list mysql_feature) (mysql_errno mysql_get_server_version : W → conn → Z).

(** A setting always has a value. *)
Lemma getsetting_Some set s w psql md name res w' :
  getsetting ssl mysql_errno set s w psql md name = Ok (res, w') → ∃ v, res = Some v.
Proof.
  unfold getsetting. destruct (find_setting name (opttable s)); [intros [= <- <-]; eauto|].
  destruct (cache s); [intros [= <- <-]; eauto|]. intros E. ostep E. ostep E.
  destruct o; injection E as <- <-; eauto.
Qed.

Lemma setting_Some c s w mysql name res w' : setting ssl mysql_errno c s w mysql name = Ok (res, w') → ∃ v, res = Some v.
Proof. apply getsetting_Some. Qed.

Lemma logging_options c s w mysql fmt c' w' : read_logging_options ssl mysql_errno c s w mysql = Ok (fmt, c', w') →
  ∃ l path, c' = with_logging l (with_php (set_php_server_path path (c_php c)) c) ∧ slen fmt = 20 ∧
    0 ≤ log_datetime_separator l ≤ 2 ∧ 0 ≤ log_datetime_format l ≤ 5 ∧ slen (path_logfile l) < DBL_BUFSIZE ∧ slen path < BUFSIZE ∧
    selective_device_debug l = selective_device_debug (c_logging c).
Proof.
  intros E. unfold read_logging_options in E. do 2 ostep E.
  destruct (setting_Some _ _ _ _ _ _ _ E1) as [webroot ->]. do 4 ostep E. destruct (setting_Some _ _ _ _ _ _ _ E2) as [cactilog ->].
  match goal with Hd : set_date_format ?L = Ok _ |- _ => destruct (set_date_format_ok L) as (text & Ht & Hlen); rewrite Ht in Hd; injection Hd as <- <- end.
  ostep E. injection E as <- <- <-. do 2 eexists. split; [done|]. split; [done|]. cbn.
  split; [apply separator_index_range|]. split; [apply format_index_range|]. split; [|split; [by apply snprintf_s_bound|done]].
  repeat case_match; first [by apply snprintf_s_bound|done].
Qed.

Lemma cacti_version_range c w mysql md v w' : get_cacti_version ssl mysql_errno c w mysql md = Ok (v, w') → 0 ≤ v ≤ INT_MAX.
Proof.
  unfold get_cacti_version. intros E. ostep E. injection E as <- <-. destruct (_ ≫= _); [apply SettingsFacts.parse_cacti_version_range|done].
Qed.

Lemma ping_options c s w mysql c' w' : read_ping_options ssl mysql_errno c s w mysql = Ok (c', w') →
  ∃ a n, c' = with_availability a (with_snmp n c) ∧ ax_ping_only a = ping_only c ∧ ax_icmp_avail a = icmp_avail c ∧
    ax_icmp_uses_caps a = ax_icmp_uses_caps (c_availability c) ∧ sx_mibs n = mibs c ∧ sx_snmp_clientaddr n = sx_snmp_clientaddr (c_snmp c).
Proof. intros E. unfold read_ping_options in E. do 7 ostep E. injection E as <- <-. do 2 eexists. done. Qed.

Lemma flag_options c s w mysql c' w' : read_flags ssl mysql_errno c s w mysql = Ok (c', w') →
  ∃ perror pwarn pstats b, c' = with_logging (set_flags perror pwarn pstats (c_logging c)) (with_boost b c).
Proof. intros E. unfold read_flags in E. do 5 ostep E. injection E as <- <-. do 4 eexists. done. Qed.

Lemma int_setting_range c s w mysql name default z w' : INT_MIN ≤ default ≤ INT_MAX →
  int_setting ssl mysql_errno c s w mysql name default = Ok (z, w') → INT_MIN ≤ z ≤ INT_MAX.
Proof. intros Hd E. unfold int_setting in E. ostep E. injection E as <- _. destruct o; [apply atoi_range|done]. Qed.

Lemma process_options c s w mysql md c' w' : read_process_options ssl mysql_errno c s w mysql md = Ok (c', w') →
  ∃ p timeout, c' = with_poller p (with_php (set_php_timeout timeout (c_php c)) c) ∧ 5 ≤ timeout ≤ INT_MAX ∧
    po_poller_id p = poller_id c ∧ po_mode p = mode c ∧ po_SQL_readonly p = SQL_readonly c ∧ po_threads_set p = po_threads_set (c_poller c) ∧ INT_MIN ≤ po_poller_interval p ≤ INT_MAX ∧
    (po_threads p = threads c ∨ po_threads_set (c_poller c) = false ∧ po_threads p ≤ MAX_THREADS).
Proof.
  intros E. unfold read_process_options in E. do 4 ostep E. injection E as <- <-. do 2 eexists. split; [done|].
  assert (Hi : INT_MIN ≤ z ≤ INT_MAX) by (eapply int_setting_range; [|exact E1]; unfold INT_MIN, INT_MAX; lia).
  split; [|cbn; split_and!; try done; try lia]; destruct (setting_Some _ _ _ _ _ _ _ E3) as [v ->].
  - pose proof (atoi_range v). cbv zeta. destruct (Z.ltb_spec (atoi v) 5); unfold INT_MAX in *; lia.
  - destruct (po_threads_set (c_poller c)) eqn:Et; cbn [negb] in E0.
    + injection E0 as <- <-. by left.
    + destruct o as [t|]; [right; split; [done|]|by left]. case_match; blia.
Qed.

Lemma not_negative_range res : 0 ≤ not_negative res ≤ INT_MAX.
Proof.
  unfold not_negative. destruct res as [v|]; [|done]. pose proof (atoi_range v). cbv zeta. destruct (Z.leb_spec (atoi v) 0); unfold INT_MAX in *; lia.
Qed.

Lemma script_options c s w mysql c' w' : read_script_options ssl mysql_errno c s w mysql = Ok (c', w') →
  ∃ debug level servers p n, c' = with_logging (set_debug debug level (c_logging c)) (with_php (set_php_count servers (c_php c)) (with_poller p (with_snmp n c))) ∧
    slen debug < LRG_BUFSIZE ∧ 1 ≤ servers ≤ MAX_PHP_SERVERS ∧ 0 ≤ po_active_profiles p ≤ INT_MAX ∧ 0 ≤ sx_total_snmp_ports n ≤ INT_MAX ∧
    po_poller_id p = poller_id c ∧ po_mode p = mode c ∧ po_SQL_readonly p = SQL_readonly c ∧ po_threads p = threads c ∧ po_threads_set p = po_threads_set (c_poller c) ∧
    sx_mibs n = mibs c ∧ sx_snmp_clientaddr n = sx_snmp_clientaddr (c_snmp c) ∧ po_poller_interval p = poller_interval c.
Proof.
  intros E. unfold read_script_options in E. do 5 ostep E. injection E as <- <-. do 5 eexists. split; [done|].
  destruct (setting_Some _ _ _ _ _ _ _ E0) as [debug ->]. destruct (setting_Some _ _ _ _ _ _ _ E2) as [servers ->].
  split; [by apply BufferFacts.strncopy_s_length|]. split; [|cbn; split_and!; try done; apply not_negative_range].
  cbv zeta. unfold MAX_PHP_SERVERS. destruct (Z.ltb_spec 15 (atoi servers)); case_match; blia.
Qed.

Lemma requirement_options c w mysql c' w' : read_php_requirement ssl mysql_errno c w mysql = Ok (c', w') →
  ∃ required, c' = with_php (set_php_required required (c_php c)) c.
Proof. intros E. unfold read_php_requirement in E. do 3 ostep E. injection E as <- <-. by eexists. Qed.

Lemma batch_options c s w mysql c' w' : read_snmp_batch_size ssl mysql_errno c s w mysql = Ok (c', w') →
  ∃ n, c' = with_snmp n c ∧ INT_MIN ≤ sx_snmp_max_get_size n ≤ 128 ∧ sx_mibs n = mibs c ∧
    sx_snmp_clientaddr n = sx_snmp_clientaddr (c_snmp c) ∧ sx_total_snmp_ports n = total_snmp_ports c.
Proof.
  intros E. unfold read_snmp_batch_size in E. ostep E. injection E as <- <-. eexists. split; [done|]. cbn. split; [|done].
  destruct o as [v|]; [|unfold INT_MIN; lia]. pose proof (atoi_range v). cbv zeta. destruct (Z.ltb_spec 128 (atoi v)); unfold INT_MIN in *; lia.
Qed.

End Reading.
End OptionsFacts.

Module OptionsProperties.
Import SettingsStore DateFormat Options OptionsFacts.

(** Name the configuration that a reader starts from, so that a chain of updates is not
    duplicated; and forget the last update of a chain. *)
Ltac name_config E Hc :=
  match type of E with
  | read_logging_options _ _ ?c1 _ _ _ = _ => let d := fresh "c" in remember c1 as d eqn:Hc
  | read_ping_options _ _ ?c1 _ _ _ = _ => let d := fresh "c" in remember c1 as d eqn:Hc
  end.
Ltac config_step Hc :=
  rewrite ?Hc in *; clear Hc;
  cbn [c_console c_poller c_hosts c_database c_remote_database c_php c_logging c_availability c_snmp c_boost cacti_version
       with_poller with_hosts with_database with_remote_database with_php with_logging with_availability with_snmp with_boost with_cacti_version
       set_php_required set_debug set_php_count set_php_timeout set_flags set_php_path set_php_server_path
       pp_path_php pp_path_php_server pp_script_timeout pp_php_initialized pp_php_servers
       path_logfile selective_device_debug log_datetime_separator log_datetime_format] in *.

(** The chain of the readers. *)
Lemma read_config_options_ranges {W} `{MySQL W} (ssl : list mysql_feature) (mysql_errno mysql_get_server_version : W → conn → Z)
  (spine_auth spine_priv : cstr) (c c' : config_t) (s : store) (w w' : W) (mysql mysqlr : conn) (fmt : cstr)
  (Hrun : read_config_options ssl mysql_errno mysql_get_server_version spine_auth spine_priv c s w mysql mysqlr = Ok (fmt, c', w')) :
  in_range c' ∧ strings_fit c' ∧ kept c c' ∧ slen fmt = 20 ∧
  (threads c' = threads c ∨ po_threads_set (c_poller c) = false ∧ threads c' ≤ MAX_THREADS).
Proof.
  unfold read_config_options in Hrun. apply obind_Ok in Hrun as ([b w0] & _ & Hrun). apply guard_Ok in Hrun as [_ Hrun].
  apply obind_Ok in Hrun as ([s0 w1] & _ & Hrun). apply obind_Ok in Hrun as ([b1 w2] & _ & Hrun). apply guard_Ok in Hrun as [_ Hrun].
  apply obind_Ok in Hrun as ([o w3] & _ & Hrun). apply obind_Ok in Hrun as ([z w4] & E3 & Hrun). apply cacti_version_range in E3.
  apply obind_Ok in Hrun as ([[f c2] w5] & E4 & Hrun). name_config E4 Hc1.
  destruct (logging_options _ _ _ _ _ _ _ _ _ E4) as (lg & path & Hc2 & Hfmt & Hsep & Hform & Hlog & Hpath & Hdebug). clear E4.
  apply obind_Ok in Hrun as ([res w6] & E5 & Hrun). destruct (setting_Some _ _ _ _ _ _ _ _ _ E5) as [php ->]. clear E5.
  apply obind_Ok in Hrun as ([c4 w7] & E6 & Hrun). name_config E6 Hc3.
  destruct (ping_options _ _ _ _ _ _ _ _ E6) as (a & n & Hc4 & Hpo & Hia & Hcaps & Hm & Hca). clear E6.
  apply obind_Ok in Hrun as ([c5 w8] & E7 & Hrun). destruct (flag_options _ _ _ _ _ _ _ _ E7) as (pe & pw & ps & bo & Hc5). clear E7.
  apply obind_Ok in Hrun as ([c6 w9] & E8 & Hrun).
  destruct (process_options _ _ _ _ _ _ _ _ _ E8) as (p & timeout & Hc6 & Ht & Hid & Hmode & Hro & Hset & Hint & Hthreads). clear E8.
  apply obind_Ok in Hrun as ([c7 w10] & E9 & Hrun).
  destruct (script_options _ _ _ _ _ _ _ _ E9) as (dbg & lev & servers & p2 & n2 & Hc7 & Hdbg & Hsrv & Hprof & Hports & Hid2 & Hmode2 & Hro2 & Hth2 & Hset2 & Hm2 & Hca2 & Hint2). clear E9.
  apply obind_Ok in Hrun as ([c8 w11] & E10 & Hrun). destruct (requirement_options _ _ _ _ _ _ _ E10) as (required & Hc8). clear E10.
  apply obind_Ok in Hrun as ([c9 w12] & E11 & Hrun). destruct (batch_options _ _ _ _ _ _ _ _ E11) as (n3 & Hc9 & Hb & Hm3 & Hca3 & Hp3). clear E11.
  apply obind_Ok in Hrun as (w13 & _ & Hrun). injection Hrun as <- <- <-.
  assert (Hphp : slen (strncopy_s BUFSIZE php) < BUFSIZE) by (apply BufferFacts.strncopy_s_length; done).
  generalize dependent (strncopy_s BUFSIZE php). intros php_path Hc3 Hphp.
  unfold in_range, strings_fit, kept, php_servers, script_timeout, active_profiles, total_snmp_ports, path_php, path_php_server,
    poller_id, mode, SQL_readonly, ping_only, icmp_avail, mibs, threads, poller_interval in *.
  config_step Hc9. config_step Hc8. config_step Hc7. config_step Hc6. config_step Hc5. config_step Hc4. config_step Hc3. config_step Hc2. config_step Hc1.
  rewrite Hp3. unfold credentials_kept. split_and!; try done; try congruence; try lia.
  destruct o as [v|]; [right; by apply snprintf_s_bound|by left].
Qed.

(** C21: whatever the database holds, the options are in range.  When
    [read_config_options] returns, there are 1 to 15 script servers, scripts have at
    least five seconds, no more than 128 OIDs go into a request, the profile and port
    counts and the Cacti version are not negative, the interval fits an int, the date format indices are inside
    their tables and the format fits its buffer, every path fits its array, the thread
    count is the configured one or (only when the command line did not give it) at most
    100; it may be 0 or less.  No reader touches the console, the devices, the remote
    database, the credentials of the local one (only its version is noted), the poller's
    number, mode and read-only flag, the ICMP permissions, the client address or the MIBs. *)
Theorem config_options_in_range {W} `{MySQL W} (ssl : list mysql_feature) (mysql_errno mysql_get_server_version : W → conn → Z)
  (spine_auth spine_priv : cstr) (c c' : config_t) (s : store) (w w' : W) (mysql mysqlr : conn) (fmt : cstr)
  (Hrun : read_config_options ssl mysql_errno mysql_get_server_version spine_auth spine_priv c s w mysql mysqlr = Ok (fmt, c', w')) :
  in_range c' ∧ strings_fit c' ∧ kept c c' ∧ slen fmt = 20 ∧
  (threads c' = threads c ∨ po_threads_set (c_poller c) = false ∧ threads c' ≤ MAX_THREADS).
Proof. exact (read_config_options_ranges _ _ _ _ _ _ _ _ _ _ _ _ _ Hrun). Qed.

(** The names these readers ask for. *)
Definition option_names : list cstr :=
  [$"availability_method"; $"ping_recovery_count"; $"ping_failure_count"; $"ping_method"; $"ping_retries"; $"ping_timeout"; $"snmp_retries";
   $"max_get_size"; $"selective_device_debug"; $"spine_log_level"; $"php_servers"; $"active_profiles"; $"total_snmp_ports";
   $"poller_interval"; $"concurrent_processes"; $"script_timeout"].

(** The default values for settings that are missing are never used.  When the
    settings table lacks the names (and no override gives them), the readers return 0
    milliseconds for the ping timeout, 0 SNMP retries, 0 OIDs for a request, one script
    server and a script timeout of 5 seconds: [getsetting] answers the empty string, not
    NULL, so that the branches with 400, 3, 25, 2 and 25 are dead. *)
Theorem missing_settings_are_zero {W} `{MySQL W} (ssl : list mysql_feature) (mysql_errno : W → conn → Z) (c : config_t) (s : store)
  (w : W) (mysql : conn) (table : list (cstr * cstr)) (Hcache : cache s = Some table)
  (Hmissing : ∀ name, name ∈ option_names → find_setting name (opttable s) = None ∧ find_setting name table = None) :
  (∃ c', read_ping_options ssl mysql_errno c s w mysql = Ok (c', w) ∧ ax_ping_timeout (c_availability c') = 0 ∧ snmp_retries c' = 0) ∧
  (∃ c', read_snmp_batch_size ssl mysql_errno c s w mysql = Ok (c', w) ∧ sx_snmp_max_get_size (c_snmp c') = 0) ∧
  (∃ c', read_script_options ssl mysql_errno c s w mysql = Ok (c', w) ∧ php_servers c' = 1) ∧
  (po_threads_set (c_poller c) = true → ∃ c', read_process_options ssl mysql_errno c s w mysql LOCAL = Ok (c', w) ∧ script_timeout c' = 5).
Proof.
  assert (Hs : ∀ c name, bool_decide (name ∈ option_names) = true → setting ssl mysql_errno c s w mysql name = Ok (Some [], w)).
  { intros d name Hn%bool_decide_eq_true_1. unfold setting, getsetting. destruct (Hmissing name Hn) as [-> E]. by rewrite Hcache, E. }
  unfold read_ping_options, read_snmp_batch_size, read_script_options, read_process_options, int_setting.
  split_and!; [| | |intros ->; cbn [negb obind]]; repeat (rewrite Hs by (vm_compute; reflexivity); cbn [obind negb]); (eexists; split; [reflexivity|]); try split; reflexivity.
Qed.

(** A server whose tables are empty: it answers every statement with no rows, and
    version queries with 1.2.30; the world is the statement that was executed last. *)
Definition empty_tables : MySQL cstr := {|
  mysql_query _ _ q := (0, q);
  mysql_store_result w _ := (Some {| res_fields := 1; res_rows := if STRMATCH w ($"SELECT cacti FROM version LIMIT 1") then [[Some ($"1.2.30")]]
                                                                  else if STRMATCH w SettingsFacts.select_all then [[Some ($"php_servers"); Some ($"99")]]
                                                                  else if STRMATCH w (SettingsFacts.select_one ($"PHP_servers")) then [[Some ($"99")]] else [] |}, w);
  mysql_thread_id _ _ := 1; mysql_ping w _ := (0, w); mysql_close w _ := w; mysql_init w _ := (true, w);
  mysql_options w _ _ := (0, w); mysql_real_connect w _ _ := (0, w); mysql_real_escape_string _ _ s := s;
  errno_is_EINTR _ := false; stat_socket _ _ := None; sleep_usec w _ := w |}.
Definition no_error : cstr → conn → Z := fun _ _ => 0.
Definition cold : store := {| opttable := []; cache := None |}.

Lemma config_options_in_range_witness :
  ∃ fmt c' w', read_config_options (H := empty_tables) [] no_error (fun _ _ => 80030) ($"MD5,SHA") ($"DES") (example_config 0 false) cold [] 0%nat 1%nat = Ok (fmt, c', w') ∧
    in_range c' ∧ php_servers c' = 15 ∧ cacti_version c' = 1230.
Proof.
  do 3 eexists. match goal with |- ?A ∧ _ => assert (Hrun : A) by (vm_compute; reflexivity) end. split; [exact Hrun|].
  pose proof (config_options_in_range [] no_error (fun _ _ => 80030) ($"MD5,SHA") ($"DES") _ _ _ _ _ _ _ _ Hrun) as (Hr & _).
  split; [exact Hr|]. split; vm_compute; reflexivity.
Defined.

Lemma missing_settings_are_zero_witness :
  ∃ c', read_ping_options (H := empty_tables) [] no_error zero_config {| opttable := []; cache := Some [] |} [] 0%nat = Ok (c', []) ∧
    ax_ping_timeout (c_availability c') = 0 ∧ snmp_retries c' = 0.
Proof.
  exact (proj1 (@missing_settings_are_zero cstr empty_tables [] no_error zero_config {| opttable := []; cache := Some [] |} [] 0%nat [] eq_refl
    (fun _ _ => conj eq_refl eq_refl))).
Defined.

Lemma settings_cache_answers_witness :
  ∃ s1 v w3, settings_cache_load (H := empty_tables) [] no_error zero_config [] 0%nat LOCAL cold = Ok (s1, SettingsFacts.select_all) ∧
    getsetting (H := empty_tables) [] no_error zero_config s1 SettingsFacts.select_all 0%nat LOCAL ($"PHP_servers") = Ok (Some v, SettingsFacts.select_all) ∧
    getsetting (H := empty_tables) [] no_error zero_config cold [] 0%nat LOCAL ($"PHP_servers") = Ok (Some v, w3).
Proof.
  eapply (@SettingsProperties.settings_cache_answers cstr empty_tables [] no_error zero_config cold [] SettingsFacts.select_all _ 0%nat LOCAL 1 1
    [[Some ($"php_servers"); Some ($"99")]] ($"PHP_servers")); [done|done|done|vm_compute; reflexivity..].
Defined.

Lemma override_decides_witness :
  ∃ s', set_option ($"php_servers") ($"3") cold = Ok s' ∧
    getsetting (H := empty_tables) [] no_error zero_config s' [] 0%nat LOCAL ($"PHP_SERVERS") = Ok (Some ($"3"), []).
Proof.
  pose proof (@SettingsProperties.override_decides cstr empty_tables [] no_error zero_config cold [] 0%nat LOCAL ($"php_servers") ($"3") ($"PHP_SERVERS") eq_refl) as Ho.
  eexists. split; [reflexivity|]. exact (proj1 (proj2 Ho)).
Defined.

Lemma cacti_version_roundtrip_witness : parse_cacti_version ($"1.2.30-beta") = 1230.
Proof. exact (proj1 (SettingsProperties.cacti_version_roundtrip 1 2 30 ($"-beta") ltac:(lia) ltac:(lia) ltac:(lia) ltac:(done) eq_refl)). Defined.

End OptionsProperties.
