(* ===== verification/Cli.v ===== *)
(** The command line and the start of the program: src/src/app/cli.c,
    src/src/app/startup.c and the first part of [spine_run] in src/src/app/runtime.c.

    The files of the system are a function from paths to their bytes.  What is printed on
    the terminal is not modelled; [Spine] puts the start in its place, after the privileges
    are dropped and the signal handlers installed. *)

From S2P Require Import Prelude CLib Buffer Text Result Settings Sql Pool Queries Process Script Config.

Definition EXIT_SUCCESS : Z := 0.
Definition REMOTE_OFFLINE : Z := 1.
Definition REMOTE_RECOVERY : Z := 2.

(** * The command line *)

Module Cli.
Import SettingsStore Options.

Inductive cli_option_t :=
| CLI_FIRST | CLI_LAST | CLI_POLLER | CLI_THREADS | CLI_PINGONLY | CLI_MODE | CLI_HOSTLIST | CLI_MIBS | CLI_HELP
| CLI_VERSION | CLI_OPTION | CLI_READONLY | CLI_CONF | CLI_STDOUT | CLI_LOG | CLI_VERBOSITY | CLI_UNKNOWN.
#[global] Instance cli_option_eq : EqDecision cli_option_t.
Proof. solve_decision. Defined.

(** Name, option and whether the case is ignored. *)
Definition aliases : list (cstr * cli_option_t * bool) :=
  [($"-f", CLI_FIRST, true); ($"--first", CLI_FIRST, false); ($"-l", CLI_LAST, true); ($"--last", CLI_LAST, true);
   ($"-p", CLI_POLLER, false); ($"--poller", CLI_POLLER, true); ($"-t", CLI_THREADS, false); ($"--threads", CLI_THREADS, true);
   ($"-P", CLI_PINGONLY, false); ($"--pingonly", CLI_PINGONLY, true); ($"-N", CLI_MODE, false); ($"--mode", CLI_MODE, true);
   ($"-H", CLI_HOSTLIST, false); ($"--hostlist", CLI_HOSTLIST, true); ($"-M", CLI_MIBS, true); ($"--mibs", CLI_MIBS, false);
   ($"-h", CLI_HELP, true); ($"--help", CLI_HELP, false); ($"-v", CLI_VERSION, false); ($"--version", CLI_VERSION, false);
   ($"-O", CLI_OPTION, true); ($"--option", CLI_OPTION, true); ($"-R", CLI_READONLY, true); ($"--readonly", CLI_READONLY, false);
   ($"--read-only", CLI_READONLY, false); ($"-C", CLI_CONF, true); ($"--conf", CLI_CONF, false); ($"-S", CLI_STDOUT, true);
   ($"--stdout", CLI_STDOUT, false); ($"-D", CLI_LOG, true); ($"--log", CLI_LOG, false); ($"-V", CLI_VERBOSITY, false);
   ($"--verbosity", CLI_VERBOSITY, false)].
Fixpoint lookup_alias (arg : cstr) (l : list (cstr * cli_option_t * bool)) : cli_option_t :=
  match l with
  | [] => CLI_UNKNOWN
  | (name, option_, ignore_case) :: l' =>
      if (if ignore_case : bool then STRIMATCH arg name else STRMATCH arg name) then option_ else lookup_alias arg l'
  end.
Definition lookup_cli_option (arg : cstr) : cli_option_t := lookup_alias arg aliases.

Definition parse_polling_mode (requested_mode : cstr) : outcome Z :=
  if STRIMATCH requested_mode ($"online") then Ok REMOTE_ONLINE
  else if STRIMATCH requested_mode ($"offline") then Ok REMOTE_OFFLINE
  else if STRIMATCH requested_mode ($"recovery") then Ok REMOTE_RECOVERY
  else Died EXIT_FAILURE.

(** [for (;;)] over the rest of the input with the list written so far; [None] when the
    fuel runs out. *)
Fixpoint host_list_loop (fuel : nat) (cursor list_ : cstr) : option (outcome cstr) :=
  match fuel with
  | O => None
  | S f =>
      let cursor := skip_space cursor in
      if negb (isdigit (at_ cursor 0)) then Some (Died EXIT_FAILURE) else
      let r := strtoull cursor in
      if sr_range r || (INT_MAX <? sr_value r) then Some (Died EXIT_FAILURE) else
      let end_ := skip_space (sr_rest r) in
      if negb (bool_decide (at_ end_ 0 = NUL)) && negb (bool_decide (at_ end_ 0 = ","%char)) then Some (Died EXIT_FAILURE) else
      match spine_snprintf (BIG_BUFSIZE - slen list_) ((if slen list_ =? 0 then [] else $",") ++ udec (sr_value r)) with
      | Died s => Some (Died s)
      | Ok text =>
          if bool_decide (at_ end_ 0 = NUL) then Some (Ok (list_ ++ text)) else host_list_loop f (drop 1 end_) (list_ ++ text)
      end
  end.
(** Every turn but the last passes a comma, so the length is enough turns. *)
Definition parse_host_list (input : cstr) : option (outcome cstr) :=
  if BIG_BUFSIZE <=? slen input then Some (Died EXIT_FAILURE) else host_list_loop (S (length input)) input [].

(** The value, or [None] for FALSE. *)
Definition parse_cli_int (text : cstr) (minimum maximum : Z) : option Z :=
  if negb (isdigit (at_ text 0)) then None else
  let r := strtol text in
  if sr_range r || negb (bool_decide (sr_rest r = [])) || (sr_value r <? minimum) || (maximum <? sr_value r) then None
  else Some (to_int (sr_value r)).

(** The settings, the overrides and the name of the configuration file. *)
Record cli := { cl_set : config_t; cl_store : store; cl_conf : option cstr }.
Definition set_cli (c : config_t) (s : cli) : cli := {| cl_set := c; cl_store := cl_store s; cl_conf := cl_conf s |}.

(** The parameter of an option and the arguments left. *)
Definition getarg (opt : option cstr) (rest : list cstr) : outcome (cstr * list cstr) :=
  match opt with
  | Some v => Ok (v, rest)
  | None => match rest with v :: rest' => Ok (v, rest') | [] => Died EXIT_FAILURE end
  end.

Definition set_host_ids (first last : Z) (h : spine_hosts_config_t) : spine_hosts_config_t :=
  {| ho_start_host_id := first; ho_end_host_id := last; ho_host_id_list := ho_host_id_list h; ho_has_device_0 := ho_has_device_0 h;
     ho_has_output_regex := ho_has_output_regex h |}.
Definition set_host_list (l : cstr) (h : spine_hosts_config_t) : spine_hosts_config_t :=
  {| ho_start_host_id := ho_start_host_id h; ho_end_host_id := ho_end_host_id h; ho_host_id_list := l; ho_has_device_0 := ho_has_device_0 h;
     ho_has_output_regex := ho_has_output_regex h |}.
Definition set_poller_threads (n : Z) (set_ : bool) (p : spine_poller_config_t) : spine_poller_config_t :=
  {| po_poller_id := po_poller_id p; po_poller_interval := po_poller_interval p; po_num_parent_processes := po_num_parent_processes p;
     po_active_profiles := po_active_profiles p; po_threads := n; po_threads_set := set_; po_SQL_readonly := po_SQL_readonly p; po_mode := po_mode p |}.
Definition set_poller_mode (m : Z) (p : spine_poller_config_t) : spine_poller_config_t :=
  {| po_poller_id := po_poller_id p; po_poller_interval := po_poller_interval p; po_num_parent_processes := po_num_parent_processes p;
     po_active_profiles := po_active_profiles p; po_threads := po_threads p; po_threads_set := po_threads_set p; po_SQL_readonly := po_SQL_readonly p; po_mode := m |}.
Definition set_poller_readonly (b : bool) (p : spine_poller_config_t) : spine_poller_config_t :=
  {| po_poller_id := po_poller_id p; po_poller_interval := po_poller_interval p; po_num_parent_processes := po_num_parent_processes p;
     po_active_profiles := po_active_profiles p; po_threads := po_threads p; po_threads_set := po_threads_set p; po_SQL_readonly := b; po_mode := po_mode p |}.
Definition set_ping_only (b : bool) (a : spine_availability_config_t) : spine_availability_config_t :=
  {| ax_icmp_avail := ax_icmp_avail a; ax_icmp_uses_caps := ax_icmp_uses_caps a; ax_availability_method := ax_availability_method a;
     ax_ping_method := ax_ping_method a; ax_ping_retries := ax_ping_retries a; ax_ping_timeout := ax_ping_timeout a;
     ax_ping_failure_count := ax_ping_failure_count a; ax_ping_recovery_count := ax_ping_recovery_count a; ax_ping_only := b |}.
Definition set_mibs (b : bool) (n : spine_snmp_config_t) : spine_snmp_config_t :=
  {| sx_total_snmp_ports := sx_total_snmp_ports n; sx_snmp_max_get_size := sx_snmp_max_get_size n; sx_snmp_retries := sx_snmp_retries n;
     sx_snmp_clientaddr := sx_snmp_clientaddr n; sx_mibs := b |}.

Definition HOSTID_DEFINED (x : Z) : bool := 0 <=? x.
Definition set_first (n : Z) (c : config_t) : config_t := with_hosts (set_host_ids n (end_host_id c) (c_hosts c)) c.
Definition set_last (n : Z) (c : config_t) : config_t := with_hosts (set_host_ids (start_host_id c) n (c_hosts c)) c.

Definition add_override (option_ value : cstr) (s : cli) : outcome cli :=
  let* st := set_option option_ value (cl_store s) in Ok {| cl_set := cl_set s; cl_store := st; cl_conf := cl_conf s |}.

(** [argv] is past [arg]; the state after the argument and the arguments left, [None]
    when a loop ran out of fuel. *)
Definition parse_cli_argument (arg : cstr) (opt : option cstr) (argv : list cstr) (s : cli) : option (outcome (cli * list cstr)) :=
  let c := cl_set s in
  let die := Some (Died EXIT_FAILURE) in
  let once (m : outcome (cli * list cstr)) := Some m in
  match lookup_cli_option arg with
  | CLI_FIRST =>
      if HOSTID_DEFINED (start_host_id c) then die else
      once (let* (opt, argv) := getarg opt argv in
            match parse_cli_int opt 0 INT_MAX with None => Died EXIT_FAILURE | Some n => Ok (set_cli (set_first n c) s, argv) end)
  | CLI_LAST =>
      if HOSTID_DEFINED (end_host_id c) then die else
      once (let* (opt, argv) := getarg opt argv in
            match parse_cli_int opt 0 INT_MAX with None => Died EXIT_FAILURE | Some n => Ok (set_cli (set_last n c) s, argv) end)
  | CLI_POLLER =>
      once (let* (opt, argv) := getarg opt argv in Ok (set_cli (with_poller (ConfFile.set_poller_id (atoi opt) (c_poller c)) c) s, argv))
  | CLI_THREADS =>
      once (let* (opt, argv) := getarg opt argv in
            match parse_cli_int opt 1 INT_MAX with
            | None => Died EXIT_FAILURE
            | Some n => Ok (set_cli (with_poller (set_poller_threads (if MAX_THREADS <? n then MAX_THREADS else n) true (c_poller c)) c) s, argv)
            end)
  | CLI_PINGONLY => once (Ok (set_cli (with_availability (set_ping_only true (c_availability c)) c) s, argv))
  | CLI_MODE =>
      once (let* (opt, argv) := getarg opt argv in
            let* m := parse_polling_mode opt in Ok (set_cli (with_poller (set_poller_mode m (c_poller c)) c) s, argv))
  | CLI_HOSTLIST =>
      match getarg opt argv with
      | Died st => Some (Died st)
      | Ok (opt, argv) =>
          match parse_host_list opt with
          | None => None
          | Some r => once (let* l := r in Ok (set_cli (with_hosts (set_host_list l (c_hosts c)) c) s, argv))
          end
      end
  | CLI_MIBS => once (Ok (set_cli (with_snmp (set_mibs true (c_snmp c)) c) s, argv))
  | CLI_HELP => Some (Died EXIT_SUCCESS)
  | CLI_VERSION => Some (Died EXIT_SUCCESS)
  | CLI_OPTION =>
      once (let* (setting, argv) := getarg opt argv in
            match strchr setting ":"%char with
            | Some (S n) => let* s := add_override (take (S n) setting) (drop (S (S n)) setting) s in Ok (s, argv)
            | _ => Died EXIT_FAILURE
            end)
  | CLI_READONLY => once (Ok (set_cli (with_poller (set_poller_readonly true (c_poller c)) c) s, argv))
  | CLI_CONF =>
      once (let* (opt, argv) := getarg opt argv in Ok ({| cl_set := c; cl_store := cl_store s; cl_conf := Some opt |}, argv))
  | CLI_STDOUT => once (let* s := add_override ($"log_destination") ($"STDOUT") s in Ok (s, argv))
  | CLI_LOG => once (let* (opt, argv) := getarg opt argv in let* s := add_override ($"log_destination") opt s in Ok (s, argv))
  | CLI_VERBOSITY => once (let* (opt, argv) := getarg opt argv in let* s := add_override ($"log_verbosity") opt s in Ok (s, argv))
  | CLI_UNKNOWN =>
      if negb (HOSTID_DEFINED (start_host_id c)) && Validate.all_digits arg then
        once (match parse_cli_int arg 0 INT_MAX with None => Died EXIT_FAILURE | Some n => Ok (set_cli (set_first n c) s, argv) end)
      else if negb (HOSTID_DEFINED (end_host_id c)) && Validate.all_digits arg then
        once (match parse_cli_int arg 0 INT_MAX with None => Died EXIT_FAILURE | Some n => Ok (set_cli (set_last n c) s, argv) end)
      else die
  end.

(** An argument, cut at its first equal sign. *)
Definition split_argument (a : cstr) : cstr * option cstr :=
  match strchr a "="%char with Some n => (take n a, Some (drop (S n) a)) | None => (a, None) end.

(** The [while] over the arguments: an argument takes itself and at most one more. *)
Fixpoint parse_arguments (turns : nat) (argv : list cstr) (s : cli) : option (outcome cli) :=
  match argv with
  | [] => Some (Ok s)
  | a :: argv =>
      match turns with
      | O => None
      | S t =>
          let '(arg, opt) := split_argument a in
          match parse_cli_argument arg opt argv s with
          | None => None
          | Some (Died st) => Some (Died st)
          | Some (Ok (s, argv)) => parse_arguments t argv s
          end
      end
  end.
(** [argv] is past the name of the program. *)
Definition parse_command_line (argv : list cstr) (s : cli) : option (outcome cli) := parse_arguments (length argv) argv s.

End Cli.

(** * The start of the program *)

Module Startup.
Import SettingsStore DateFormat Options ConfFile Cli.

Definition MAX_DEBUG_DEVICES : nat := 100.
Definition DEFAULT_CONF_FILE : cstr := $"spine.conf".

Definition set_capabilities (avail caps : bool) (a : spine_availability_config_t) : spine_availability_config_t :=
  {| ax_icmp_avail := avail; ax_icmp_uses_caps := caps; ax_availability_method := ax_availability_method a;
     ax_ping_method := ax_ping_method a; ax_ping_retries := ax_ping_retries a; ax_ping_timeout := ax_ping_timeout a;
     ax_ping_failure_count := ax_ping_failure_count a; ax_ping_recovery_count := ax_ping_recovery_count a; ax_ping_only := ax_ping_only a |}.
Definition with_console (k : spine_console_config_t) (c : config_t) : config_t :=
  {| c_console := k; c_poller := c_poller c; c_hosts := c_hosts c; c_database := c_database c; c_remote_database := c_remote_database c;
     c_php := c_php c; c_logging := c_logging c; c_availability := c_availability c; c_snmp := c_snmp c; c_boost := c_boost c; cacti_version := cacti_version c |}.
Definition set_poller_interval (n : Z) (p : spine_poller_config_t) : spine_poller_config_t :=
  {| po_poller_id := po_poller_id p; po_poller_interval := n; po_num_parent_processes := po_num_parent_processes p;
     po_active_profiles := po_active_profiles p; po_threads := po_threads p; po_threads_set := po_threads_set p; po_SQL_readonly := po_SQL_readonly p; po_mode := po_mode p |}.
Definition set_php_initialized (b : bool) (current : Z) (p : spine_php_config_t) : spine_php_config_t :=
  {| pp_path_php := pp_path_php p; pp_path_php_server := pp_path_php_server p; pp_script_timeout := pp_script_timeout p; pp_php_required := pp_php_required p;
     pp_php_initialized := b; pp_php_servers := pp_php_servers p; pp_php_current_server := current |}.

(** The two arguments say whether the streams are terminals. *)
Definition initialize_process_defaults (stdout_tty stderr_tty : bool) (c : config_t) : config_t :=
  let l := c_logging c in
  config_defaults
    (with_logging (set_datetime GDC_DEFAULT GD_DEFAULT (set_levels Keywords.POLLER_VERBOSITY_LOW (log_destination l) (logfile_processed l) l))
    (with_console {| stdout_notty := negb stdout_tty; stderr_notty := negb stderr_tty |}
    (with_poller (set_poller_threads 1 false (c_poller c))
    (with_availability (set_capabilities true false (c_availability c)) c)))).

(** "initialize some global variables". *)
Definition initialize_globals (c : config_t) : config_t :=
  let l := c_logging c in
  with_poller (set_poller_mode REMOTE_ONLINE (set_poller_id 1 (c_poller c)))
    (with_hosts {| ho_start_host_id := -1; ho_end_host_id := -1; ho_host_id_list := []; ho_has_device_0 := false; ho_has_output_regex := false |}
    (with_php (set_php_initialized false (pp_php_current_server (c_php c)) (c_php c))
    (with_logging (set_levels (log_level l) (log_destination l) false l) c))).

(** Which devices to poll: the two checks. *)
Definition check_hosts (c : config_t) : outcome unit :=
  if negb (Bool.eqb (HOSTID_DEFINED (start_host_id c)) (HOSTID_DEFINED (end_host_id c))) && (slen (host_id_list c) =? 0) then Died EXIT_FAILURE
  else if end_host_id c <? start_host_id c then Died EXIT_FAILURE
  else Ok tt.

Section Configuration.
(** The bytes of a file that can be opened, and whether reading it reports an error. *)
Context (files : cstr → option (list ascii)) (failed : cstr → bool).
Context {W : Type} `{MySQL W} (ssl : list mysql_feature) (mysql_errno mysql_get_server_version : W → conn → Z) (spine_auth spine_priv : cstr).

Definition read_file (name : cstr) (c : config_t) : Z * config_t * list conf_warning := read_spine_config (files name) (failed name) c.

(** The settings and whether a file was read. *)
Fixpoint try_paths (paths : list cstr) (c : config_t) : bool * config_t :=
  match paths with
  | [] => (false, c)
  | path :: paths' =>
      let '(rc, c, _) := read_file (snprintf_s DBL_BUFSIZE (take 1023 path ++ DEFAULT_CONF_FILE)) c in
      if 0 <=? rc then (true, c) else try_paths paths' c
  end.
Definition load_startup_configuration (conf_file : option cstr) (c : config_t) (s : store) (w : W) (mysql mysqlr : conn) : outcome (cstr * config_t * W) :=
  let* c := (match conf_file with
             | Some name => let '(rc, c, _) := read_file name c in if rc <? 0 then Died EXIT_FAILURE else Ok c
             | None => let '(valid, c) := try_paths config_paths c in if valid : bool then Ok c else Died EXIT_FAILURE
             end) in
  read_config_options ssl mysql_errno mysql_get_server_version spine_auth spine_priv c s w mysql mysqlr.

(** What [strtok_r] leaves of the list: it ends the first token with a NUL. *)
Definition tokenized (s : cstr) : cstr :=
  let '(commas, rest) := span (fun b => bool_decide (b = ","%char)) s in commas ++ fst (span (fun b => negb (bool_decide (b = ","%char))) rest).

(** [spine_run] up to the debug devices: the log date format, the settings, the
    overrides, the debug devices and the world. *)
Definition spine_start (stdout_tty stderr_tty : bool) (argv : list cstr) (w : W) (mysql mysqlr : conn) :
    option (outcome (cstr * config_t * store * list Z * W)) :=
  let c := initialize_globals (initialize_process_defaults stdout_tty stderr_tty zero_config) in
  match parse_command_line argv {| cl_set := c; cl_store := {| opttable := []; cache := None |}; cl_conf := None |} with
  | None => None
  | Some (Died st) => Some (Died st)
  | Some (Ok s) =>
      let c := cl_set s in
      let c := if ping_only c then with_snmp (set_mibs false (c_snmp c)) c else c in
      Some (let* _ := check_hosts c in
            let* (date_format, c, w) := load_startup_configuration (cl_conf s) c (cl_store s) w mysql mysqlr in
            let c := if poller_interval c =? 0 then with_poller (set_poller_interval 300 (c_poller c)) c else c in
            let zeros := replicate MAX_DEBUG_DEVICES 0 in
            let debug := selective_device_debug (c_logging c) in
            let devices := if negb (slen debug =? 0) then DebugList.parse_debug_devices debug zeros MAX_DEBUG_DEVICES else <[0%nat := 0]> zeros in
            let c := with_logging (set_debug (tokenized debug) (spine_log_level (c_logging c)) (c_logging c)) c in
            Ok (date_format, c, cl_store s, devices, w))
  end.

Definition device_0_query : cstr :=
  $"SELECT * FROM (SELECT COUNT(*) AS items FROM poller_item WHERE host_id = 0 AND poller_id = 1) AS rs WHERE rs.items > 0".
Definition set_device_0 (device_0 regex : bool) (h : spine_hosts_config_t) : spine_hosts_config_t :=
  {| ho_start_host_id := ho_start_host_id h; ho_end_host_id := ho_end_host_id h; ho_host_id_list := ho_host_id_list h; ho_has_device_0 := device_0;
     ho_has_output_regex := regex |}.

(** [calloc] of a negative count fails.  The database the results go to, the settings,
    the pools and the world. *)
Definition initialize_main_database (c : config_t) (w : W) (p : Pool.pools) (mysql mysqlr : conn) (local_base remote_base : nat) :
    outcome (Z * config_t * Pool.pools * W) :=
  let* (ok, w) := Connection.db_connect c ssl w LOCAL mysql in
  if negb ok then Died EXIT_FAILURE else
  if threads c <? 0 then Died EXIT_FAILURE else
  let* (p, w) := Pool.db_create_connection_pool c ssl w p LOCAL local_base in
  let remote := (1 <? poller_id c) && (mode c =? REMOTE_ONLINE) in
  let* (p, w) := (if remote then
      let* (ok, w) := Connection.db_connect c ssl w REMOTE mysqlr in
      if negb ok then Died EXIT_FAILURE else Pool.db_create_connection_pool c ssl w p REMOTE remote_base
    else Ok (p, w)) in
  let* (result, w) := Sql.db_query c ssl w mysql LOCAL device_0_query in
  match result with
  | None => Died EXIT_FAILURE
  | Some r =>
      let device_0 := match res_rows r with [] => has_device_0 c | _ => true end in
      let* (regex, w) := Sql.db_column_exists c ssl w mysql LOCAL ($"poller_item") ($"output_regex") in
      if regex <? 0 then Died EXIT_FAILURE else
      let '(ok, w) := Sql.db_set_session_mode w mysql in
      if negb ok then Died EXIT_FAILURE else
      Ok (if remote then REMOTE else LOCAL,
          with_hosts (set_device_0 device_0 (if negb (regex =? 0) then true else has_output_regex c) (c_hosts c)) c, p, w)
  end.

End Configuration.

Section Php.
Context {W : Type} `{Posix W} `{ScriptEnv W}.

(** The servers that answered. *)
Fixpoint count_ready (w : W) (slot n : nat) : Z :=
  match n with
  | O => 0
  | S n' => (if php_state (get_slot w slot) =? Script.PHP_READY then 1 else 0) + count_ready w (S slot) n'
  end.
Definition php_wanted (c : config_t) : bool := pp_php_required (c_php c) && negb (ping_only c).
Definition initialize_main_php (fuel : nat) (c : config_t) (w : W) : option (outcome (config_t * W)) :=
  if php_wanted c then
    '(started, w) ← Script.php_init c fuel w Script.PHP_INIT;
    let ready := if started : bool then count_ready w 0 (Z.to_nat (php_servers c)) else 0 in
    if negb started || (ready =? 0) then Some (Died EXIT_FAILURE)
    else Some (Ok (with_php (set_php_initialized true 0 (c_php c)) c, w))
  else Some (Ok (c, w)).
Definition close_main_php (fuel : nat) (c : config_t) (w : W) : option W :=
  if php_wanted c then Script.php_close c fuel w Script.PHP_INIT else Some w.
End Php.

End Startup.
