(* ===== verification/CliFacts.v ===== *)
(** The command line and the start of Cli.v: the device list and the numbers are parsed
    exactly, both spellings of an option mean the same, and what starts polling is a
    consistent selection of devices. *)

From S2P Require Import Prelude CLib Buffer Text Result Settings Sql Pool Queries Process ProcessFacts Script ScriptFacts Config ConfigFacts Cli.

Module CliFacts.
Import SettingsStore Options Cli.

(** * The device list *)

(** The fields between commas. *)
Fixpoint fields (s cur : cstr) : list cstr :=
  match s with
  | [] => [cur]
  | b :: s' => if bool_decide (b = ","%char) then cur :: fields s' [] else fields s' (cur ++ [b])
  end.
(** One field: a decimal number that fits an int, with white space around it. *)
Definition parse_field (s : cstr) : option Z :=
  let '(ds, rest) := span isdigit (skip_space s) in
  if bool_decide (ds = []) || (INT_MAX <? digits_val 0 ds) || negb (forallb isspace rest) then None else Some (digits_val 0 ds).
Fixpoint join_ids (ids : list Z) : cstr :=
  match ids with
  | [] => []
  | id :: ids' => udec id ++ match ids' with [] => [] | _ => $"," ++ join_ids ids' end
  end.

Lemma fields_comma item rest cur : ","%char ∉ item → fields (item ++ ","%char :: rest) cur = (cur ++ item) :: fields rest [].
Proof.
  revert cur. induction item as [|b item IH]; intros cur H; cbn; [by rewrite app_nil_r|].
  apply not_elem_of_cons in H as [Hb Hl]. rewrite bool_decide_eq_false_2, IH by done. by rewrite <- app_assoc.
Qed.
Lemma fields_last item cur : ","%char ∉ item → fields item cur = [cur ++ item].
Proof.
  revert cur. induction item as [|b item IH]; intros cur H; cbn; [by rewrite app_nil_r|].
  apply not_elem_of_cons in H as [Hb Hl]. rewrite bool_decide_eq_false_2, IH by done. by rewrite <- app_assoc.
Qed.
Lemma first_field (s : cstr) : ","%char ∉ s ∨ ∃ item rest, s = item ++ ","%char :: rest ∧ ","%char ∉ item.
Proof.
  induction s as [|b s IH]; [left; apply not_elem_of_nil|].
  destruct (decide (b = ","%char)) as [->|Hb]; [right; exists [], s; split; [done|apply not_elem_of_nil]|].
  destruct IH as [H|(l & rest & -> & H)]; [left; apply not_elem_of_cons; naive_solver|].
  right. exists (b :: l), rest. split; [done|]. apply not_elem_of_cons; naive_solver.
Qed.

(** The end of a field: the end of the text or a comma. *)
Definition field_end (t : cstr) : Prop := t = [] ∨ ∃ t', t = ","%char :: t'.

Lemma span_field p s t : field_end t → p ","%char = false → span p (s ++ t) = (fst (span p s), snd (span p s) ++ t).
Proof.
  intros Ht Hc. induction s as [|b s IH]; cbn; [|destruct (p b); [rewrite IH; by destruct (span p s)|done]].
  destruct Ht as [->|[t' ->]]; cbn; [done|by rewrite Hc].
Qed.
Lemma skip_space_field s t : field_end t → skip_space (s ++ t) = skip_space s ++ t.
Proof. intros Ht. unfold skip_space. by rewrite span_field. Qed.
Lemma skip_space_all s : forallb isspace s = true → skip_space s = [].
Proof.
  intros H. unfold skip_space. rewrite span_full; [done|]. rewrite forallb_forall in H. apply list.Forall_forall. intros x Hx.
  apply H. by apply list_elem_of_In.
Qed.
Lemma skip_space_some s : forallb isspace s = false → ∃ x s', skip_space s = x :: s' ∧ isspace x = false ∧ x ∈ s.
Proof.
  unfold skip_space. induction s as [|b s IH]; cbn; [done|]. destruct (isspace b) eqn:E; cbn.
  - intros H. destruct (IH H) as (x & s' & E' & ? & ?). exists x, s'. destruct (span isspace s). split_and!; [done|done|by right].
  - intros _. exists b, s. split_and!; [done|done|by left].
Qed.
Lemma skip_space_head s : match skip_space s with x :: _ => isspace x = false | [] => True end.
Proof.
  unfold skip_space. induction s as [|b s IH]; cbn; [done|]. destruct (isspace b) eqn:E; cbn; [|done]. by destruct (span isspace s).
Qed.

Lemma strtoull_unsigned d s : isdigit d = true →
  let '(ds, rest) := span isdigit (d :: s) in
  strtoull (d :: s) = if UINT64_MAX <? digits_val 0 ds then {| sr_value := UINT64_MAX; sr_rest := rest; sr_range := true |}
                      else {| sr_value := digits_val 0 ds; sr_rest := rest; sr_range := false |}.
Proof.
  intros Hd. assert (Hsp : skip_space (d :: s) = d :: s) by (unfold skip_space; cbn; by rewrite isdigit_not_space).
  assert (Hsg : take_sign (d :: s) = (false, d :: s)) by (cbn; rewrite !decide_False; [done|intros ->; by vm_compute in Hd ..]).
  unfold strtoull. rewrite Hsp, Hsg. cbn [span]. rewrite Hd. by destruct (span isdigit s).
Qed.

(** A number is printed with no more digits than it was written with. *)
Lemma digits_val_bound ds : ∀ acc, Forall (fun c => isdigit c = true) ds → 0 ≤ acc →
  digits_val acc ds < (acc + 1) * 10 ^ Z.of_nat (length ds).
Proof.
  induction ds as [|d ds IH]; intros acc Hd Hacc; [cbn; lia|].
  inversion Hd as [|? ? H1 H2]; subst. cbn [digits_val length]. rewrite H1.
  apply isdigit_spec in H1. unfold digit_val. rewrite Nat2Z.inj_succ, Z.pow_succ_r by lia.
  specialize (IH (acc * 10 + (code d - 48)) H2 ltac:(lia)). eapply Z.lt_le_trans; [exact IH|].
  assert (0 < 10 ^ Z.of_nat (length ds)) by (apply Z.pow_pos_nonneg; lia).
  rewrite Z.mul_assoc. apply Z.mul_le_mono_nonneg_r; lia.
Qed.
Lemma udec_digits_length ds : ds ≠ [] → Forall (fun c => isdigit c = true) ds → (length (udec (digits_val 0 ds)) ≤ length ds)%nat.
Proof.
  intros Hne Hd. destruct ds as [|d ds]; [done|]. apply udec_length. split; [by apply digits_val_nonneg|].
  pose proof (digits_val_bound (d :: ds) 0 Hd ltac:(lia)) as Hb. by rewrite Z.add_0_l, Z.mul_1_l in Hb.
Qed.

(** One turn of the loop reads one field. *)
Lemma host_list_turn f item t l : ","%char ∉ item → nul_free item → field_end t →
  slen l + (if slen l =? 0 then 0 else 1) + slen item < BIG_BUFSIZE →
  host_list_loop (S f) (item ++ t) l =
  match parse_field item with
  | None => Some (Died EXIT_FAILURE)
  | Some id => let l' := l ++ (if slen l =? 0 then [] else $",") ++ udec id in
               match t with [] => Some (Ok l') | _ :: t' => host_list_loop f t' l' end
  end.
Proof.
  intros Hc Hn Ht Hfit. cbn [host_list_loop]. rewrite skip_space_field by done. unfold parse_field.
  pose proof (span_app isspace item) as Happ. unfold skip_space in *. destruct (span isspace item) as [sp body] eqn:Esp. cbn [snd] in *.
  specialize (Happ sp body eq_refl). subst item.
  assert (Hcb : ","%char ∉ body) by (intros H; apply Hc, elem_of_app; by right).
  apply nul_free_app in Hn as [_ Hnb]. rewrite slen_app in Hfit. pose proof (slen_nonneg sp).
  destruct body as [|d body]; cbn [app span].
  { by destruct Ht as [->|[t' ->]]. }
  change (at_ (d :: body ++ t) 0) with d. destruct (isdigit d) eqn:Ed; cbn [negb].
  2: { done. }
  change (d :: body ++ t) with ((d :: body) ++ t). pose proof (strtoull_unsigned d (body ++ t) Ed) as Hstr.
  change (d :: body ++ t) with ((d :: body) ++ t) in Hstr. rewrite span_field in Hstr by done. cbn [span] in Hstr. rewrite Ed in Hstr.
  destruct (span isdigit body) as [ds rest] eqn:Eds. cbn [fst snd] in Hstr.
  rewrite (bool_decide_eq_false_2 (d :: ds = [])) by done. cbn [orb].
  assert (Hds : Forall (fun c => isdigit c = true) (d :: ds)) by (constructor; [done|by eapply span_all]).
  pose proof (span_app _ _ _ _ Eds) as ->. set (m := digits_val 0 (d :: ds)) in *.
  destruct (Z.ltb_spec INT_MAX m) as [Hm|Hm]; cbn [orb].
  { rewrite Hstr. destruct (UINT64_MAX <? m); cbn [sr_range sr_value orb]; [done|]. by rewrite (proj2 (Z.ltb_lt _ _)). }
  assert (Hu : m ≤ UINT64_MAX) by (unfold INT_MAX, UINT64_MAX in *; lia).
  rewrite (proj2 (Z.ltb_ge _ _)) in Hstr by done. rewrite Hstr. cbn [sr_range sr_value sr_rest orb].
  rewrite (proj2 (Z.ltb_ge INT_MAX m)) by done. fold (skip_space (rest ++ t)). rewrite skip_space_field by done.
  destruct (forallb isspace rest) eqn:Er; cbn [negb].
  - rewrite skip_space_all by done. cbn [app].
    assert (Hend : negb (bool_decide (at_ t 0 = NUL)) && negb (bool_decide (at_ t 0 = ","%char)) = false) by (by destruct Ht as [->|[t' ->]]).
    rewrite Hend. pose proof (udec_digits_length (d :: ds) ltac:(done) Hds) as Hlen. fold m in Hlen.
    rewrite QueriesFacts.spine_snprintf_ok.
    2: { destruct (slen l =? 0); autorewrite with spine in *; unfold slen in *; cbn [length] in *; rewrite ?length_app in *; cbn in *; lia. }
    by destruct Ht as [->|[t' ->]].
  - destruct (skip_space_some rest Er) as (x & s' & -> & Hx & Hin). cbn [app]. change (at_ (x :: s' ++ t) 0) with x.
    rewrite !bool_decide_eq_false_2; [done|..].
    + intros ->. apply Hcb. apply elem_of_cons. right. apply elem_of_app. by right.
    + intros ->. apply Hnb. apply elem_of_cons. right. apply elem_of_app. by right.
Qed.

(** The text of a list under construction. *)
Lemma join_empty id ids : (slen (join_ids (id :: ids)) =? 0) = false.
Proof.
  apply Z.eqb_neq. cbn [join_ids]. rewrite slen_app. pose proof (udec_nonempty id) as Hne. destruct (udec id) as [|b u]; [done|].
  rewrite slen_cons. pose proof (slen_nonneg u). match goal with |- context [_ + slen ?t] => pose proof (slen_nonneg t) end. lia.
Qed.
Lemma fields_join_snoc ids id : join_ids (ids ++ [id]) = join_ids ids ++ (if slen (join_ids ids) =? 0 then [] else $",") ++ udec id.
Proof.
  induction ids as [|x ids IH]; [cbn; by rewrite app_nil_r|]. rewrite join_empty. cbn [join_ids app].
  destruct ids as [|y ids]; [cbn [app join_ids]; by rewrite !app_nil_r|].
  cbn [app] in *. rewrite IH, join_empty. by rewrite <- !app_assoc.
Qed.

Lemma parse_field_length item id : parse_field item = Some id → (length (udec id) ≤ length item)%nat.
Proof.
  unfold parse_field. destruct (span isdigit (skip_space item)) as [ds r] eqn:Es.
  destruct (bool_decide (ds = []) || _ || _) eqn:Eo; [done|]. intros [= <-]. apply orb_false_iff in Eo as [[Eo _]%orb_false_iff _].
  apply bool_decide_eq_false in Eo. pose proof (span_all _ _ _ _ Es) as Hd. apply span_app in Es. pose proof (udec_digits_length ds Eo Hd).
  assert (length ds ≤ length (skip_space item))%nat by (rewrite Es, length_app; lia).
  unfold skip_space in *. destruct (span isspace item) as [a b] eqn:E2. apply span_app in E2. subst item. cbn [snd] in *. rewrite length_app. lia.
Qed.

(** The loop on the rest of a list that is written for [ids]. *)
Lemma host_list_fields f : ∀ s ids, nul_free s → (length s < f)%nat →
  slen (join_ids ids) + (if slen (join_ids ids) =? 0 then 0 else 1) + slen s < BIG_BUFSIZE →
  host_list_loop f s (join_ids ids) =
  match mapM parse_field (fields s []) with None => Some (Died EXIT_FAILURE) | Some more => Some (Ok (join_ids (ids ++ more))) end.
Proof.
  induction f as [|f IH]; intros s ids Hn Hf Hfit; [lia|]. destruct (first_field s) as [H|(item & rest & -> & H)].
  - rewrite <- (app_nil_r s) at 1. rewrite host_list_turn; [|done|done|by left|done]. rewrite fields_last by done. cbn [app mapM].
    destruct (parse_field s) as [id|]; [|done]. cbn. by rewrite fields_join_snoc.
  - apply nul_free_app in Hn as [Hi Hr]. apply nul_free_cons in Hr as [_ Hr]. rewrite length_app in Hf. cbn [length] in Hf.
    rewrite slen_app, slen_cons in Hfit. pose proof (slen_nonneg rest).
    rewrite host_list_turn; [|done|done|right; eauto|lia]. rewrite fields_comma by done. cbn [app mapM].
    destruct (parse_field item) as [id|] eqn:Ep; [|done]. cbv zeta. rewrite <- fields_join_snoc. rewrite IH; [|done|lia|].
    + cbn. destruct (mapM parse_field (fields rest [])) as [more|]; cbn; [|done]. by rewrite <- app_assoc.
    + pose proof (parse_field_length _ _ Ep) as Hid.
      destruct (ids ++ [id]) as [|z zs] eqn:Ez; [by apply app_eq_nil in Ez as [_ ?]|]. rewrite join_empty, <- Ez, fields_join_snoc, !slen_app.
      unfold slen in *. destruct (Z.of_nat (length (join_ids ids)) =? 0); cbn [length lit String.list_ascii_of_string] in *; lia.
Qed.

Lemma parse_field_udec id : 0 ≤ id ≤ INT_MAX → parse_field (udec id) = Some id.
Proof.
  intros H. pose proof (udec_digits id ltac:(lia)) as Hd. unfold parse_field. rewrite skip_space_digits, span_full by done.
  rewrite udec_val by lia. rewrite bool_decide_eq_false_2 by apply udec_nonempty. by rewrite (proj2 (Z.ltb_ge _ _)) by lia.
Qed.
Lemma udec_no_comma id : 0 ≤ id → ","%char ∉ udec id.
Proof. intros H Hin. pose proof (udec_digits id H) as Hd. rewrite list.Forall_forall in Hd. by specialize (Hd _ Hin). Qed.
Lemma fields_join ids : ids ≠ [] → Forall (fun id => 0 ≤ id ≤ INT_MAX) ids → mapM parse_field (fields (join_ids ids) []) = Some ids.
Proof.
  intros Hne H. induction H as [|id ids Hid H IH]; [done|]. cbn [join_ids]. destruct ids as [|y ids].
  - rewrite app_nil_r, fields_last by (apply udec_no_comma; lia). cbn [app mapM]. by rewrite parse_field_udec.
  - change ($"," ++ join_ids (y :: ids)) with (","%char :: join_ids (y :: ids)).
    rewrite fields_comma by (apply udec_no_comma; lia). cbn [app mapM]. rewrite parse_field_udec by done.
    rewrite IH by done. done.
Qed.
Lemma join_nul_free ids : Forall (fun id => 0 ≤ id ≤ INT_MAX) ids → nul_free (join_ids ids).
Proof.
  induction 1 as [|id ids Hid _ IH]; [apply nul_free_nil|]. cbn [join_ids]. apply nul_free_app. split; [apply udec_nul_free; lia|].
  destruct ids; [apply nul_free_nil|]. apply nul_free_app. split; [|done]. by apply (bool_decide_unpack _); vm_compute.
Qed.
Lemma join_chars ids : Forall (fun id => 0 ≤ id ≤ INT_MAX) ids → Forall (fun b => isdigit b = true ∨ b = ","%char) (join_ids ids).
Proof.
  induction 1 as [|id ids Hid _ IH]; [constructor|]. cbn [join_ids]. apply Forall_app. split.
  - eapply list.Forall_impl; [apply udec_digits; lia|]. by left.
  - destruct ids; [constructor|]. constructor; [by right|done].
Qed.
Lemma parsed_ids l ids : mapM parse_field l = Some ids → Forall (fun id => 0 ≤ id ≤ INT_MAX) ids ∧ length ids = length l.
Proof.
  revert ids. induction l as [|s l IH]; intros ids; cbn; [intros [= <-]; done|].
  destruct (parse_field s) as [id|] eqn:E; cbn; [|done]. destruct (mapM parse_field l) as [ids'|]; cbn; [|done]. intros [= <-].
  destruct (IH ids' eq_refl) as [? ?]. split; [|cbn; lia]. constructor; [|done].
  unfold parse_field in E. destruct (span isdigit (skip_space s)) as [ds r]. destruct (_ || _ || _) eqn:Eo; [done|]. injection E as <-.
  apply orb_false_iff in Eo as [[_ Eo]%orb_false_iff _]. apply Z.ltb_ge in Eo. split; [by apply digits_val_nonneg|done].
Qed.
Lemma parsed_length n : ∀ s ids, (length s ≤ n)%nat → mapM parse_field (fields s []) = Some ids → (length (join_ids ids) ≤ length s)%nat.
Proof.
  assert (Hlast : ∀ s ids, ","%char ∉ s → mapM parse_field (fields s []) = Some ids → (length (join_ids ids) ≤ length s)%nat).
  { intros s ids H. rewrite fields_last by done. cbn [app mapM]. destruct (parse_field s) as [id|] eqn:E; [|done]. intros [= <-].
    cbn [join_ids]. rewrite app_nil_r. by apply parse_field_length. }
  induction n as [|n IH]; intros s ids Hn.
  { destruct s; [|cbn in Hn; lia]. apply Hlast, not_elem_of_nil. }
  destruct (first_field s) as [H|(item & rest & -> & H)]; [by apply Hlast|]. rewrite fields_comma by done. cbn [app mapM].
  rewrite length_app in *. cbn [length] in *. destruct (parse_field item) as [id|] eqn:E; [|done]. pose proof (parse_field_length _ _ E).
  destruct (mapM parse_field (fields rest [])) as [more|] eqn:Em; [|done]. intros [= <-].
  assert (Hr : (length (join_ids more) ≤ length rest)%nat) by (apply (IH rest more); [lia|done]).
  cbn [join_ids]. rewrite length_app. destruct more; [cbn [length]; lia|]. rewrite length_app. cbn [length lit String.list_ascii_of_string]. lia.
Qed.
Lemma fields_nonempty s cur : fields s cur ≠ [].
Proof. revert cur. induction s as [|b s IH]; intros cur; cbn; [done|]. case_bool_decide; [done|apply IH]. Qed.

Lemma parse_host_list_eq input : nul_free input →
  parse_host_list input =
    Some (if BIG_BUFSIZE <=? slen input then Died EXIT_FAILURE
          else match mapM parse_field (fields input []) with Some ids => Ok (join_ids ids) | None => Died EXIT_FAILURE end).
Proof.
  intros Hinput. unfold parse_host_list. destruct (Z.leb_spec BIG_BUFSIZE (slen input)); [done|].
  change [] with (join_ids []) at 1. rewrite host_list_fields; [|done|lia|done]. by destruct (mapM _ _).
Qed.
(** What is stored is not empty, not longer than the input, and digits and commas. *)
Lemma parse_host_list_stored input l : nul_free input → parse_host_list input = Some (Ok l) →
  l ≠ [] ∧ slen l ≤ slen input ∧ slen input < BIG_BUFSIZE ∧ Forall (fun b => isdigit b = true ∨ b = ","%char) l.
Proof.
  intros Hinput Hl. rewrite parse_host_list_eq in Hl by done. destruct (Z.leb_spec BIG_BUFSIZE (slen input)); [done|].
  destruct (mapM parse_field (fields input [])) as [ids|] eqn:Em; [|done]. injection Hl as <-.
  destruct (parsed_ids _ _ Em) as [Hids Hlen]. pose proof (fields_nonempty input []).
  destruct ids as [|id ids]; [by destruct (fields input [])|].
  split_and!; [|unfold slen; apply inj_le; by apply (parsed_length (length input))|done|by apply join_chars].
  intros Hn. pose proof (join_empty id ids) as He. by rewrite Hn in He.
Qed.

(** ** Numbers *)

Lemma strtoll_unsigned d s : isdigit d = true →
  let '(ds, rest) := span isdigit (d :: s) in
  strtol (d :: s) = if INT64_MAX <? digits_val 0 ds then {| sr_value := INT64_MAX; sr_rest := rest; sr_range := true |}
                    else {| sr_value := digits_val 0 ds; sr_rest := rest; sr_range := false |}.
Proof.
  intros Hd. assert (Hsp : skip_space (d :: s) = d :: s) by (unfold skip_space; cbn; by rewrite isdigit_not_space).
  assert (Hsg : take_sign (d :: s) = (false, d :: s)) by (cbn; rewrite !decide_False; [done|intros ->; by vm_compute in Hd ..]).
  unfold strtol, strtoll. rewrite Hsp, Hsg. cbn [span]. rewrite Hd. destruct (span isdigit s) as [ds rest].
  destruct (_ <? digits_val 0 (d :: ds)); [done|]. rewrite (proj2 (Z.ltb_ge _ _)); [done|].
  pose proof (digits_val_nonneg 0 (d :: ds) ltac:(lia)). unfold INT64_MIN. lia.
Qed.
Lemma parse_cli_int_iff (text : cstr) (minimum maximum v : Z) (Hmin : 0 ≤ minimum) (Hmax : maximum ≤ INT_MAX) :
  parse_cli_int text minimum maximum = Some v ↔
  Validate.all_digits text = true ∧ digits_val 0 text = v ∧ minimum ≤ v ≤ maximum.
Proof.
  rewrite TextFacts.all_digits_spec. unfold parse_cli_int. destruct text as [|d text].
  { split; [done|]. by intros ([? _] & _). }
  change (at_ (d :: text) 0) with d. destruct (isdigit d) eqn:Ed; cbn [negb].
  2: { split; [done|]. intros ([_ H] & _). inversion H. congruence. }
  pose proof (strtoll_unsigned d text Ed) as Hs. destruct (span isdigit (d :: text)) as [ds rest] eqn:Es.
  pose proof (span_app _ _ _ _ Es) as Happ. pose proof (span_all _ _ _ _ Es) as Hall.
  assert (Hrest : Forall (fun c => isdigit c = true) (d :: text) ↔ rest = []).
  { split; [intros H; rewrite span_full in Es by done; by injection Es|]. intros ->. rewrite Happ. by rewrite app_nil_r. }
  pose proof (digits_val_nonneg 0 ds ltac:(lia)) as Hnn. rewrite Hrest, Hs.
  destruct (Z.ltb_spec INT64_MAX (digits_val 0 ds)) as [Hbig|Hbig]; cbn [sr_range sr_rest sr_value orb].
  { split; [done|]. intros ([_ ->] & <- & Hv). rewrite app_nil_r in Happ. rewrite Happ in Hv. unfold INT64_MAX, INT_MAX in *. lia. }
  destruct (decide (rest = [])) as [->|Hr].
  - rewrite bool_decide_eq_true_2 by done. cbn [negb orb]. rewrite app_nil_r in Happ. rewrite <- Happ.
    destruct (Z.ltb_spec (digits_val 0 (d :: text)) minimum); cbn [orb]; [split; [done|intros (_ & <- & ?); lia]|].
    destruct (Z.ltb_spec maximum (digits_val 0 (d :: text))); [split; [done|intros (_ & <- & ?); lia]|].
    rewrite to_int_id by (rewrite Happ in *; unfold INT_MIN; lia). split; [intros [= <-]; split_and!; done|]. by intros (_ & -> & _).
  - rewrite bool_decide_eq_false_2 by done. cbn [negb orb]. split; [done|]. by intros ([_ ?] & _).
Qed.

(** ** Arguments *)

(** What holds of the state while the arguments are read, from a state [s0]. *)
Record cli_ok (s : cli) : Prop := {
  ok_first : -1 ≤ start_host_id (cl_set s) ≤ INT_MAX;
  ok_last : -1 ≤ end_host_id (cl_set s) ≤ INT_MAX;
  ok_list : Forall (fun b => isdigit b = true ∨ b = ","%char) (host_id_list (cl_set s)) ∧ slen (host_id_list (cl_set s)) < BIG_BUFSIZE;
  ok_threads : 1 ≤ threads (cl_set s) ≤ MAX_THREADS;
  ok_mode : 0 ≤ mode (cl_set s) ≤ 2;
  ok_store : (length (opttable (cl_store s)) ≤ OPTTABLE_SIZE)%nat ∧ cache (cl_store s) = None }.

Lemma getarg_Ok opt argv v argv' : getarg opt argv = Ok (v, argv') → (opt = Some v ∧ argv' = argv) ∨ (opt = None ∧ argv = v :: argv').
Proof. unfold getarg. destruct opt; [intros [= <- <-]; by left|]. destruct argv; [done|]. intros [= <- <-]. by right. Qed.
Lemma add_override_Ok o v s s' : cli_ok s → add_override o v s = Ok s' → cli_ok s'.
Proof.
  intros [] E. unfold add_override, set_option in E. destruct (Nat.leb_spec OPTTABLE_SIZE (length (opttable (cl_store s)))); [done|].
  injection E as <-. constructor; try done. destruct ok_store0. split; [|done]. cbn [opttable cl_store]. rewrite length_app. cbn [length]. lia.
Qed.
Lemma parse_polling_mode_range t m : parse_polling_mode t = Ok m → 0 ≤ m ≤ 2.
Proof. unfold parse_polling_mode. repeat (case_match; [intros [= <-]; done|]). done. Qed.

(** The parameter of an option, and the end of a case. *)
Ltac with_argument E :=
  let v := fresh "v" in let l := fresh "l" in let Eg := fresh "Eg" in
  apply obind_Ok in E as ([v l] & Eg & E);
  match goal with Hget : ∀ v l, getarg _ _ = Ok (v, l) → _ |- _ => destruct (Hget _ _ Eg) as (? & ? & ?) end.
Ltac cli_done := split_and!; try done; constructor; try done; cbn; try done; try (unfold MAX_THREADS; lia).

(** One argument keeps [cli_ok], and takes at most one further argument. *)
Lemma parse_cli_argument_ok arg opt argv s s' argv' : cli_ok s → Forall nul_free argv → (∀ v, opt = Some v → nul_free v) →
  parse_cli_argument arg opt argv s = Some (Ok (s', argv')) → cli_ok s' ∧ Forall nul_free argv' ∧ (length argv' ≤ length argv)%nat.
Proof.
  intros Hs Hargv Hopt.
  assert (Hget : ∀ v l, getarg opt argv = Ok (v, l) → nul_free v ∧ Forall nul_free l ∧ (length l ≤ length argv)%nat).
  { intros v l [(-> & ->)|(-> & ->)]%getarg_Ok; [split; [by apply Hopt|done]|]. inversion Hargv; subst. split_and!; try done. cbn; lia. }
  assert (Hint : ∀ t lo n, 0 ≤ lo → parse_cli_int t lo INT_MAX = Some n → lo ≤ n ≤ INT_MAX).
  { intros t lo n Hlo E%parse_cli_int_iff; [apply E|done|done]. }
  pose proof Hs as [Hf Hl Hh Ht Hm Hst]. unfold parse_cli_argument. destruct (lookup_cli_option arg); intros E; try done.
  - destruct (HOSTID_DEFINED _); [done|]. injection E as E. with_argument E. destruct (parse_cli_int v _ _) as [n|] eqn:En; [|done].
    injection E as <- <-. pose proof (Hint _ 0 _ ltac:(lia) En). cli_done.
  - destruct (HOSTID_DEFINED _); [done|]. injection E as E. with_argument E. destruct (parse_cli_int v _ _) as [n|] eqn:En; [|done].
    injection E as <- <-. pose proof (Hint _ 0 _ ltac:(lia) En). cli_done.
  - injection E as E. with_argument E. injection E as <- <-. cli_done.
  - injection E as E. with_argument E. destruct (parse_cli_int v _ _) as [n|] eqn:En; [|done]. injection E as <- <-.
    pose proof (Hint _ 1 _ ltac:(lia) En). unfold MAX_THREADS. destruct (Z.ltb_spec 100 n); cli_done.
  - injection E as <- <-. cli_done.
  - injection E as E. with_argument E. apply obind_Ok in E as (m & Em & E). injection E as <- <-. apply parse_polling_mode_range in Em. cli_done.
  - destruct (getarg opt argv) as [[v l]|] eqn:Eg; [|done]. destruct (Hget _ _ eq_refl) as (Hv & Hl1 & Hl2).
    destruct (parse_host_list v) as [r|] eqn:Er; [|done]. injection E as E. apply obind_Ok in E as (t & -> & E). injection E as <- <-.
    destruct (parse_host_list_stored v t Hv Er) as (_ & ? & ? & ?). cli_done. split; [done|]. change (slen t < BIG_BUFSIZE). lia.
  - injection E as <- <-. cli_done.
  - injection E as E. with_argument E. destruct (strchr v ":"%char) as [[|n]|]; [done| |done]. apply obind_Ok in E as (s1 & Ea & E).
    injection E as <- <-. split_and!; try done. by eapply add_override_Ok.
  - injection E as <- <-. cli_done.
  - injection E as E. with_argument E. injection E as <- <-. cli_done.
  - injection E as E. apply obind_Ok in E as (s1 & Ea & E). injection E as <- <-. split_and!; try done. by eapply add_override_Ok.
  - injection E as E. with_argument E. apply obind_Ok in E as (s1 & Ea & E). injection E as <- <-. split_and!; try done. by eapply add_override_Ok.
  - injection E as E. with_argument E. apply obind_Ok in E as (s1 & Ea & E). injection E as <- <-. split_and!; try done. by eapply add_override_Ok.
  - destruct (_ && _); [|destruct (_ && _); [|done]]; injection E as E; (destruct (parse_cli_int arg _ _) as [n|] eqn:En; [|done]);
      injection E as <- <-; pose proof (Hint _ 0 _ ltac:(lia) En); cli_done.
Qed.
Lemma parse_cli_argument_shrinks arg opt argv s s' argv' :
  parse_cli_argument arg opt argv s = Some (Ok (s', argv')) → (length argv' ≤ length argv)%nat.
Proof.
  assert (Hget : ∀ v l, getarg opt argv = Ok (v, l) → True ∧ True ∧ (length l ≤ length argv)%nat).
  { intros v l [(-> & ->)|(-> & ->)]%getarg_Ok; split_and!; cbn; try done; lia. }
  unfold parse_cli_argument. destruct (lookup_cli_option arg); intros E; try done;
    repeat match type of E with context [if ?b then _ else _] => destruct b; try done end;
    try (by injection E as <- <-); try (injection E as E; try with_argument E; repeat (case_match; try done); try (apply obind_Ok in E as (x & _ & E)); by injection E as <- <-).
  - destruct (getarg opt argv) as [[v l]|] eqn:Eg; [|done]. destruct (Hget _ _ eq_refl) as (_ & _ & Hl). destruct (parse_host_list v); [|done].
    injection E as E. apply obind_Ok in E as (t & -> & E). by injection E as <- <-.
Qed.
Lemma parse_cli_argument_some arg opt argv s : Forall nul_free argv → (∀ v, opt = Some v → nul_free v) → parse_cli_argument arg opt argv s ≠ None.
Proof.
  intros Hargv Hopt. unfold parse_cli_argument. destruct (lookup_cli_option arg); try done; repeat (case_match; try done).
  match goal with E : getarg _ _ = _, E' : parse_host_list ?v = None |- _ => assert (Hv : nul_free v); [|by rewrite parse_host_list_eq in E'] end.
  destruct (getarg_Ok _ _ _ _ H) as [[-> _]|[-> ->]]; [by apply Hopt|by inversion Hargv].
Qed.
Lemma split_argument_nul_free a arg opt : nul_free a → split_argument a = (arg, opt) → ∀ v, opt = Some v → nul_free v.
Proof. intros Ha. unfold split_argument. destruct (strchr a _) as [n|]; intros [= <- <-] v; [intros [= <-]; by apply nul_free_drop|done]. Qed.

(** The loop ends in one turn per argument, further turns change nothing, and it keeps
    [cli_ok]. *)
Lemma parse_arguments_turns t : ∀ t' argv s, (length argv ≤ t)%nat → (length argv ≤ t')%nat → parse_arguments t argv s = parse_arguments t' argv s.
Proof.
  induction t as [|t IH]; intros t' [|a argv] s Ht Ht'; cbn [length] in *; [by destruct t'|lia|by destruct t'|]. destruct t' as [|t']; [lia|].
  cbn [parse_arguments]. destruct (split_argument a) as [arg opt].
  destruct (parse_cli_argument arg opt argv s) as [[[s' argv']|]|] eqn:E; try done. apply parse_cli_argument_shrinks in E. apply IH; lia.
Qed.
Lemma parse_arguments_ok t : ∀ argv s, (length argv ≤ t)%nat → cli_ok s → Forall nul_free argv →
  ∃ r, parse_arguments t argv s = Some r ∧ ∀ s', r = Ok s' → cli_ok s'.
Proof.
  induction t as [|t IH]; intros [|a argv] s Ht Hs Hn; cbn [length] in *; try lia; try (eexists; split; [done|by intros s' [= <-]]).
  cbn [parse_arguments]. inversion Hn as [|? ? Ha Hn']; subst. destruct (split_argument a) as [arg opt] eqn:Ea.
  pose proof (split_argument_nul_free _ _ _ Ha Ea) as Ho.
  destruct (parse_cli_argument arg opt argv s) as [[[s' argv']|st]|] eqn:E; [|by eexists|by apply parse_cli_argument_some in E].
  destruct (parse_cli_argument_ok _ _ _ _ _ _ Hs Hn' Ho E) as (? & ? & ?). apply IH; [lia|done|done].
Qed.
(** A number is no option. *)
Lemma lookup_number d arg : isdigit d = true → lookup_cli_option (d :: arg) = CLI_UNKNOWN.
Proof.
  intros Hd. unfold lookup_cli_option.
  assert (Ha : Forall (fun a => ∃ t, a.1.1 = "-"%char :: t) aliases) by (unfold aliases; repeat (constructor; [by eexists|]); constructor).
  induction Ha as [|[[name o] b] l [t Ht] _ IH]; [done|]. cbn [fst] in Ht. subst name. cbn [lookup_alias].
  assert (Hne : tolower d ≠ tolower "-"%char).
  { change (tolower "-"%char) with "-"%char. unfold tolower. pose proof (proj1 (isdigit_spec d) Hd). rewrite (proj2 (Z.leb_gt 65 (code d))) by lia.
    cbn [andb]. intros ->. by vm_compute in Hd. }
  assert (E1 : STRIMATCH (d :: arg) ("-"%char :: t) = false) by (apply bool_decide_eq_false; cbn [map]; congruence).
  assert (E2 : STRMATCH (d :: arg) ("-"%char :: t) = false) by (apply bool_decide_eq_false; intros [= -> _]; done).
  rewrite E1, E2. by destruct b.
Qed.
Lemma lookup_udec n : 0 ≤ n → lookup_cli_option (udec n) = CLI_UNKNOWN.
Proof.
  intros Hn. pose proof (udec_digits n Hn) as Hd. pose proof (udec_nonempty n). destruct (udec n) as [|d u]; [done|].
  apply lookup_number. by inversion Hd.
Qed.
Lemma split_number n : 0 ≤ n → split_argument (udec n) = (udec n, None).
Proof.
  intros Hn. unfold split_argument. assert (E : strchr (udec n) "="%char = None); [|by rewrite E]. pose proof (udec_digits n Hn) as Hd.
  induction Hd as [|d u Hd _ IH]; [done|]. cbn [strchr]. rewrite decide_False by (intros ->; by vm_compute in Hd). by rewrite IH.
Qed.
Lemma all_digits_udec n : 0 ≤ n → Validate.all_digits (udec n) = true.
Proof. intros Hn. apply TextFacts.all_digits_spec. split; [apply udec_nonempty|by apply udec_digits]. Qed.

(** ** What spine.conf leaves alone *)

Definition conf_kept (c c' : config_t) : Prop :=
  c_hosts c' = c_hosts c ∧ c_console c' = c_console c ∧ c_availability c' = c_availability c ∧ threads c' = threads c ∧
  po_threads_set (c_poller c') = po_threads_set (c_poller c) ∧ mode c' = mode c ∧ SQL_readonly c' = SQL_readonly c ∧ mibs c' = mibs c.
#[global] Instance conf_kept_refl : Reflexive conf_kept.
Proof. intros c. done. Qed.
#[global] Instance conf_kept_trans : Transitive conf_kept.
Proof. unfold conf_kept. intros a b c H1 H2. destruct_and! H1. destruct_and! H2. split_and!; congruence. Qed.

Lemma strings_kept : Forall (fun nf => ∀ v c, conf_kept c (nf.2 v c)) ConfFile.strings.
Proof. unfold ConfFile.strings. repeat (constructor; [done|]). constructor. Qed.
Lemma find_string_kept name l f : Forall (fun nf => ∀ v c, conf_kept c (nf.2 v c)) l → ConfFile.find_string name l = Some f → ∀ v c, conf_kept c (f v c).
Proof.
  induction 1 as [|[n g] l Hg _ IH]; [done|]. cbn [ConfFile.find_string]. destruct (STRIMATCH name n); [intros [= <-]; exact Hg|exact IH].
Qed.
Lemma directive_kept name value c c' : ConfFile.apply_config_directive name value c = Some c' → conf_kept c c'.
Proof.
  unfold ConfFile.apply_config_directive. destruct (ConfFile.find_string name ConfFile.strings) as [f|] eqn:E.
  - intros [= <-]. by eapply find_string_kept; [apply strings_kept|].
  - repeat (case_match; [by intros [= <-]|]). done.
Qed.
Lemma config_lines_kept turns : ∀ file line c c' ws, ConfFile.config_lines turns file line c = (c', ws) → conf_kept c c'.
Proof.
  induction turns as [|t IH]; intros file line c c' ws; cbn [ConfFile.config_lines]; [by intros [= <- <-]|].
  destruct (ConfFile.fgets 1023 file) as [[|b buff] file1]; [by intros [= <- <-]|].
  destruct (ConfFile.config_line_complete (b :: buff) file1 1024) as [whole file2].
  assert (Hline : ∀ c1 ws1, (if whole : bool then ConfFile.config_line (line + 1) (b :: buff) c
    else (c, if negb (stderr_notty (c_console c)) then [ConfFile.LongLine (line + 1)] else [])) = (c1, ws1) → conf_kept c c1).
  { intros c1 ws1. destruct whole; [|by intros [= <- <-]]. unfold ConfFile.config_line. destruct (_ || _ || _); [by intros [= <- <-]|].
    destruct (ConfFile.sscanf_two _) as [|name [|value ?]]; [by intros [= <- <-]..|].
    destruct (ConfFile.apply_config_directive name value c) eqn:Ed; [|by intros [= <- <-]]. intros [= <- <-]. by eapply directive_kept. }
  cbv zeta. destruct (if whole : bool then _ else _) as [c1 ws1] eqn:E1. specialize (Hline _ _ eq_refl).
  destruct (ConfFile.config_lines t file2 (line + 1) c1) as [c2 ws2] eqn:E2. intros [= <- <-]. etransitivity; [exact Hline|by eapply IH].
Qed.
Lemma read_file_kept files failed name c rc c' ws : Startup.read_file files failed name c = (rc, c', ws) → conf_kept c c'.
Proof.
  unfold Startup.read_file, ConfFile.read_spine_config. destruct (files name) as [bytes|]; [|by intros [= <- <- <-]].
  destruct (ConfFile.config_lines _ _ _ _) as [c1 ws1] eqn:E. intros [= <- <- <-]. by eapply config_lines_kept.
Qed.
Lemma try_paths_kept files failed paths : ∀ c valid c', Startup.try_paths files failed paths c = (valid, c') → conf_kept c c'.
Proof.
  induction paths as [|path paths IH]; intros c valid c'; cbn [Startup.try_paths]; [by intros [= <- <-]|].
  destruct (Startup.read_file _ _ _ c) as [[rc c1] ws] eqn:E. apply read_file_kept in E. destruct (0 <=? rc); [by intros [= <- <-]|].
  intros H. etransitivity; [exact E|by eapply IH].
Qed.

End CliFacts.

Module CliProperties.
Import SettingsStore Options Cli CliFacts.

(** C28: the device list that reaches the SQL statements is a list of numbers.  For every
    argument: [parse_host_list] terminates, accepts exactly the texts of less than 65535
    bytes whose comma separated fields are decimal numbers up to INT_MAX with white space
    around them, and then stores these numbers in canonical form (only digits and commas,
    no sign, blank or leading zero); the bounded writes never overrun the array. *)
Theorem parse_host_list_exact (input : cstr) (Hinput : nul_free input) :
  parse_host_list input =
    Some (if BIG_BUFSIZE <=? slen input then Died EXIT_FAILURE
          else match mapM parse_field (fields input []) with Some ids => Ok (join_ids ids) | None => Died EXIT_FAILURE end) ∧
  ∀ l, parse_host_list input = Some (Ok l) → l ≠ [] ∧ slen l ≤ slen input ∧ Forall (fun b => isdigit b = true ∨ b = ","%char) l.
Proof.
  split; [by apply parse_host_list_eq|]. intros l Hl. destruct (parse_host_list_stored _ _ Hinput Hl) as (? & ? & _ & ?). done.
Qed.
Lemma parse_host_list_exact_witness : parse_host_list ($" 007,12 , 3") = Some (Ok ($"7,12,3")).
Proof. rewrite (proj1 (parse_host_list_exact ($" 007,12 , 3") ltac:(by apply (bool_decide_unpack _); vm_compute))). vm_compute. reflexivity. Defined.

(** A device list that was stored is accepted again unchanged.  For every non-empty
    list of device ids whose text fits the array, parsing the printed list gives the
    printed list. *)
Theorem parse_host_list_roundtrip (ids : list Z) (Hne : ids ≠ []) (Hids : Forall (fun id => 0 ≤ id ≤ INT_MAX) ids)
  (Hfit : slen (join_ids ids) < BIG_BUFSIZE) : parse_host_list (join_ids ids) = Some (Ok (join_ids ids)).
Proof.
  unfold parse_host_list. rewrite (proj2 (Z.leb_gt _ _)) by done. change [] with (join_ids []) at 1.
  rewrite host_list_fields; [|by apply join_nul_free|lia|done]. by rewrite fields_join.
Qed.
Lemma parse_host_list_roundtrip_witness : parse_host_list ($"1,20,300") = Some (Ok ($"1,20,300")).
Proof. apply (parse_host_list_roundtrip [1; 20; 300]); [done| |done]. repeat constructor; unfold INT_MAX; lia. Defined.

(** Numbers of the command line are exact.  [parse_cli_int] accepts a text exactly
    when it is made of digits only (so no sign, blank, suffix or empty text) and its value
    is within the limits, and returns that value; a number too large for any integer type
    is refused, not truncated. *)
Theorem parse_cli_int_exact (text : cstr) (minimum maximum v : Z) (Hmin : 0 ≤ minimum) (Hmax : maximum ≤ INT_MAX) :
  parse_cli_int text minimum maximum = Some v ↔
  Validate.all_digits text = true ∧ digits_val 0 text = v ∧ minimum ≤ v ≤ maximum.
Proof. by apply parse_cli_int_iff. Qed.
Lemma parse_cli_int_exact_witness : parse_cli_int ($"0042") 1 INT_MAX = Some 42.
Proof. apply (parse_cli_int_exact ($"0042") 1 INT_MAX 42); [lia|done|]. split_and!; by vm_compute. Defined.

(** The options that take a parameter. *)
Definition takes_parameter (o : cli_option_t) : bool :=
  match o with
  | CLI_FIRST | CLI_LAST | CLI_POLLER | CLI_THREADS | CLI_MODE | CLI_HOSTLIST | CLI_OPTION | CLI_CONF | CLI_LOG | CLI_VERBOSITY => true
  | _ => false
  end.

(** Both spellings of a parameter mean the same.  For every option that takes a
    parameter, every value (which may itself hold equal signs) and whatever follows,
    "name=value" in one argument and "name" "value" in two lead to the same settings,
    overrides and file name, or to the same exit. *)
Theorem option_spellings (name value : cstr) (argv : list cstr) (s : cli) (Hname : "="%char ∉ name)
  (Hparameter : takes_parameter (lookup_cli_option name) = true) :
  parse_command_line ((name ++ $"=" ++ value) :: argv) s = parse_command_line (name :: value :: argv) s.
Proof.
  unfold parse_command_line. cbn [length]. rewrite (parse_arguments_turns (S (length argv)) (S (S (length argv)))) by (cbn; lia).
  cbn [parse_arguments].
  assert (E1 : split_argument (name ++ $"=" ++ value) = (name, Some value)).
  { unfold split_argument. assert (E : strchr (name ++ $"=" ++ value) "="%char = Some (length name)).
    { clear Hparameter. induction name as [|b name IH]; [done|]. apply not_elem_of_cons in Hname as [Hb Hname]. cbn [app strchr length]. rewrite decide_False by done.
      by rewrite IH. }
    rewrite E, take_app_length. f_equal. f_equal. rewrite drop_app_ge by lia. by replace (S (length name) - length name)%nat with 1%nat by lia. }
  assert (E2 : split_argument name = (name, None)).
  { unfold split_argument. clear Hparameter E1. assert (E : strchr name "="%char = None); [|by rewrite E].
    induction name as [|b name IH]; [done|]. apply not_elem_of_cons in Hname as [Hb Hname]. cbn. rewrite decide_False by done. by rewrite IH. }
  rewrite E1, E2. unfold parse_cli_argument, getarg. cbn [obind]. by destruct (lookup_cli_option name).
Qed.
Definition no_arguments : cli := {| cl_set := zero_config; cl_store := {| opttable := []; cache := None |}; cl_conf := None |}.
Lemma option_spellings_witness :
  parse_command_line [$"--option=log_destination:a=b"] no_arguments = parse_command_line [$"--option"; $"log_destination:a=b"] no_arguments.
Proof.
  apply (option_spellings ($"--option") ($"log_destination:a=b") [] no_arguments); [by apply (bool_decide_unpack _); vm_compute|by vm_compute].
Defined.

(** Two numbers are a range of devices.  "spine first last", which is how the poller
    of Cacti calls it, is "spine -f first -l last", for all numbers and whatever follows. *)
Theorem positional_devices (first last_ : Z) (argv : list cstr) (s : cli) (Hfirst : 0 ≤ first) (Hlast : 0 ≤ last_)
  (Hnone : start_host_id (cl_set s) < 0 ∧ end_host_id (cl_set s) < 0) :
  parse_command_line (udec first :: udec last_ :: argv) s = parse_command_line ($"-f" :: udec first :: $"-l" :: udec last_ :: argv) s.
Proof.
  unfold parse_command_line. cbn [length]. rewrite (parse_arguments_turns (S (S (length argv))) (S (S (S (S (length argv)))))) by (cbn [length]; lia).
  cbn [parse_arguments]. rewrite !split_number by done. change (split_argument ($"-f")) with ($"-f", @None cstr).
  unfold parse_cli_argument. rewrite !lookup_udec by done. change (lookup_cli_option ($"-f")) with CLI_FIRST. change (lookup_cli_option ($"-l")) with CLI_LAST.
  destruct Hnone as [Hs He]. unfold HOSTID_DEFINED. rewrite (proj2 (Z.leb_gt _ _) Hs). cbn [negb andb]. rewrite !all_digits_udec by done.
  cbn [getarg obind]. destruct (parse_cli_int (udec first) 0 INT_MAX) as [n|] eqn:En; [|done].
  apply parse_cli_int_iff in En as (_ & _ & Hn); [|done|done]. rewrite !split_number by done. change (split_argument ($"-l")) with ($"-l", @None cstr).
  rewrite !lookup_udec by done. change (lookup_cli_option ($"-l")) with CLI_LAST. cbn [cl_set set_cli].
  assert (E1 : start_host_id (set_first n (cl_set s)) = n) by done. assert (E2 : end_host_id (set_first n (cl_set s)) = end_host_id (cl_set s)) by done.
  rewrite E1, E2, (proj2 (Z.leb_le _ _)) by lia. rewrite (proj2 (Z.leb_gt _ _) He), !all_digits_udec by done. cbn [negb andb getarg obind].
  destruct (parse_cli_int (udec last_) 0 INT_MAX) as [m|]; reflexivity.
Qed.
Lemma positional_devices_witness :
  let s := {| cl_set := Startup.initialize_globals zero_config; cl_store := {| opttable := []; cache := None |}; cl_conf := None |} in
  parse_command_line [$"1"; $"250"] s = parse_command_line [$"-f"; $"1"; $"-l"; $"250"] s.
Proof. apply (positional_devices 1 250 [] _); [lia|lia|by split]. Defined.

End CliProperties.

(** * The start *)

Module StartProperties.
Import SettingsStore Options OptionsFacts Cli Startup CliFacts.

(** A selection of devices that the statements can use. *)
Record selection_ok (c : config_t) : Prop := {
  sel_order : start_host_id c ≤ end_host_id c;
  sel_range : host_id_list c = [] → (start_host_id c = -1 ∧ end_host_id c = -1) ∨ 0 ≤ start_host_id c ≤ end_host_id c;
  sel_bound : end_host_id c ≤ INT_MAX;
  sel_list : Forall (fun b => isdigit b = true ∨ b = ","%char) (host_id_list c) ∧ slen (host_id_list c) < BIG_BUFSIZE }.

Lemma check_hosts_ok c u : -1 ≤ start_host_id c → -1 ≤ end_host_id c ≤ INT_MAX →
  Forall (fun b => isdigit b = true ∨ b = ","%char) (host_id_list c) ∧ slen (host_id_list c) < BIG_BUFSIZE →
  check_hosts c = Ok u → selection_ok c.
Proof.
  intros Hs He Hl. unfold check_hosts, HOSTID_DEFINED. destruct (negb _ && _) eqn:E1; [done|].
  destruct (Z.ltb_spec (end_host_id c) (start_host_id c)); [done|]. intros _. constructor; [lia| |lia|done].
  intros Hn. rewrite Hn in E1. change (slen [] =? 0) with true in E1. rewrite andb_true_r in E1. apply negb_false_iff, eqb_prop in E1.
  destruct (Z.leb_spec 0 (start_host_id c)), (Z.leb_spec 0 (end_host_id c)); try done; lia.
Qed.

Lemma start_cli_ok out err : cli_ok {| cl_set := initialize_globals (initialize_process_defaults out err zero_config);
  cl_store := {| opttable := []; cache := None |}; cl_conf := None |}.
Proof. constructor; cbn; try done; unfold INT_MAX, MAX_THREADS, OPTTABLE_SIZE; repeat split; try lia. Qed.

(** The debug list ends with a zero inside the array. *)
Lemma debug_devices_end s : 
  length (DebugList.parse_debug_devices s (replicate MAX_DEBUG_DEVICES 0) MAX_DEBUG_DEVICES) = MAX_DEBUG_DEVICES ∧
  DebugList.parse_debug_devices s (replicate MAX_DEBUG_DEVICES 0) MAX_DEBUG_DEVICES !! 99%nat = Some 0.
Proof.
  unfold DebugList.parse_debug_devices, MAX_DEBUG_DEVICES. set (l := map atoi (take 99 (DebugList.pieces s []))).
  assert (Hl : (length l ≤ 99)%nat) by (unfold l; rewrite length_map, length_take; lia).
  rewrite length_app, length_drop, length_replicate, length_app. cbn [length]. split; [lia|].
  destruct (decide (length l = 99)%nat) as [E|E].
  - rewrite <- app_assoc. rewrite lookup_app_r by lia. by rewrite E.
  - rewrite lookup_app_r by (rewrite length_app; cbn; lia). rewrite lookup_drop, length_app. cbn [length].
    apply lookup_replicate. split; [done|lia].
Qed.

Lemma selection_hosts c c' : c_hosts c' = c_hosts c → selection_ok c → selection_ok c'.
Proof. intros E []. unfold start_host_id, end_host_id, host_id_list in *. constructor; unfold start_host_id, end_host_id, host_id_list; by rewrite E. Qed.
Section Start.
Context (files : cstr → option (list ascii)) (failed : cstr → bool).
Context {W : Type} `{MySQL W} (ssl : list mysql_feature) (mysql_errno mysql_get_server_version : W → conn → Z) (spine_auth spine_priv : cstr).
Abbreviation start := (spine_start files failed ssl mysql_errno mysql_get_server_version spine_auth spine_priv).

(** The configuration keeps what the command line decided. *)
Lemma load_configuration_kept conf c s w mysql mysqlr fmt c' w' :
  load_startup_configuration files failed ssl mysql_errno mysql_get_server_version spine_auth spine_priv conf c s w mysql mysqlr = Ok (fmt, c', w') →
  in_range c' ∧ strings_fit c' ∧ slen fmt = 20 ∧ c_hosts c' = c_hosts c ∧ mode c' = mode c ∧ SQL_readonly c' = SQL_readonly c ∧
  ping_only c' = ping_only c ∧ mibs c' = mibs c ∧ (threads c' = threads c ∨ po_threads_set (c_poller c) = false ∧ threads c' ≤ MAX_THREADS).
Proof.
  unfold load_startup_configuration. intros E. apply obind_Ok in E as (c1 & E1 & E).
  assert (Hk : conf_kept c c1).
  { destruct conf as [name|].
    - destruct (read_file files failed name c) as [[rc c2] ws] eqn:Er. destruct (rc <? 0); [done|]. injection E1 as <-. by eapply read_file_kept.
    - destruct (try_paths files failed ConfFile.config_paths c) as [[] c2] eqn:Er; [|done]. injection E1 as <-. by eapply try_paths_kept. }
  destruct Hk as (H1 & H2 & H3 & H4 & H5 & H6 & H7 & H8).
  destruct (OptionsProperties.read_config_options_ranges _ _ _ _ _ _ _ _ _ _ _ _ _ E) as (Hr & Hs & Hk & Hf & Ht).
  destruct Hk as (K1 & K2 & K3 & _ & K5 & K6 & K7 & K8 & K9 & K10 & K11 & K12 & _).
  rewrite H4, H5 in Ht. split_and!; try done; try congruence. rewrite K9. unfold ping_only. by rewrite H3.
Qed.

(** The start ends, with an interval that fits an int. *)
Lemma start_ends (out err : bool) (argv : list cstr) (w : W) (mysql mysqlr : conn) (Hargv : Forall nul_free argv) :
  ∃ r, start out err argv w mysql mysqlr = Some r ∧
  ∀ fmt c st devices w', r = Ok (fmt, c, st, devices, w') → INT_MIN ≤ poller_interval c ≤ INT_MAX.
Proof.
  unfold spine_start, parse_command_line. cbv zeta.
  destruct (parse_arguments_ok (length argv) argv _ (le_n _) (start_cli_ok out err) Hargv) as (r & Er & _). rewrite Er.
  destruct r as [s|x]; [|eexists; split; [done|by intros ? ? ? ? ?]].
  eexists. split; [done|]. intros fmt c st devices w' E. apply obind_Ok in E as (u & _ & E).
  apply obind_Ok in E as ([[f c1] w1] & El & E). injection E as <- <- <- <- <-.
  destruct (load_configuration_kept _ _ _ _ _ _ _ _ _ El) as [Hr _]. unfold in_range in Hr.
  destruct (Z.eqb_spec (poller_interval c1) 0); [unfold INT_MIN, INT_MAX; cbn; lia|]. apply Hr.
Qed.

(** C20: polling starts only on a consistent configuration.  For every list of arguments,
    every spine.conf and every content of the database: the start-up code terminates; and
    when it does not exit, there is either an explicit list of device numbers or a whole
    range 0 <= first <= last or all devices, the SQL text of the list is digits and commas
    within its array, the options are in their ranges, the interval is not zero, the mode
    is one of the three, system information is not refreshed in a ping-only run, at most
    100 threads run, and the debug list is terminated inside its array of 100. *)
Theorem spine_start_consistent (out err : bool) (argv : list cstr) (w : W) (mysql mysqlr : conn) (Hargv : Forall nul_free argv) :
  ∃ r, start out err argv w mysql mysqlr = Some r ∧
  ∀ fmt c st devices w', r = Ok (fmt, c, st, devices, w') →
    selection_ok c ∧ in_range c ∧ poller_interval c ≠ 0 ∧ 0 ≤ mode c ≤ 2 ∧ (ping_only c = true → mibs c = false) ∧ threads c ≤ MAX_THREADS ∧
    (length (opttable st) ≤ OPTTABLE_SIZE)%nat ∧ length devices = MAX_DEBUG_DEVICES ∧ devices !! 99%nat = Some 0.
Proof.
  unfold spine_start, parse_command_line. cbv zeta.
  destruct (parse_arguments_ok (length argv) argv _ (le_n _) (start_cli_ok out err) Hargv) as (r & Er & Hr). rewrite Er.
  destruct r as [s|x]; [|eexists; split; [done|by intros ? ? ? ? ?]]. specialize (Hr s eq_refl). clear Er.
  eexists. split; [done|]. intros fmt c st devices w' E. apply obind_Ok in E as (u & Ec & E).
  apply obind_Ok in E as ([[f c1] w1] & El & E). injection E as <- <- <- <- <-. destruct Hr as [Hf Hl Hh Ht Hm [Hst _]].
  set (c0 := if ping_only (cl_set s) then _ else _) in *.
  assert (H0 : c_hosts c0 = c_hosts (cl_set s) ∧ mode c0 = mode (cl_set s) ∧ threads c0 = threads (cl_set s) ∧ (ping_only c0 = true → mibs c0 = false)).
  { unfold c0. destruct (ping_only (cl_set s)) eqn:Ep; [done|]. split_and!; [done..|congruence]. }
  clearbody c0. destruct H0 as (H1 & H2 & H3 & H4).
  destruct (load_configuration_kept _ _ _ _ _ _ _ _ _ El) as (Hr & _ & _ & K1 & K2 & _ & K3 & K4 & K5).
  assert (Hsel : selection_ok c0) by (eapply check_hosts_ok; [..|exact Ec]; unfold start_host_id, end_host_id, host_id_list in *; rewrite H1; done || lia).
  assert (Hd : ∀ d : cstr, let l := if negb (slen d =? 0) then DebugList.parse_debug_devices d (replicate MAX_DEBUG_DEVICES 0) MAX_DEBUG_DEVICES
    else <[0%nat:=0]> (replicate MAX_DEBUG_DEVICES 0) in length l = MAX_DEBUG_DEVICES ∧ l !! 99%nat = Some 0).
  { intros d. cbv zeta. destruct (negb _); [apply debug_devices_end|done]. }
  assert (Hth : threads c1 ≤ MAX_THREADS) by (destruct K5 as [->|[_ ?]]; [rewrite H3; lia|done]).
  assert (Hmibs : ping_only c1 = true → mibs c1 = false) by (rewrite K3, K4; exact H4). rewrite <- H2, <- K2 in Hm.
  assert (Hdefault : in_range (with_poller (set_poller_interval 300 (c_poller c1)) c1)).
  { destruct Hr as (? & ? & ? & ? & ? & ? & ? & ? & _). repeat (split; [done|]). done. }
  destruct (Z.eqb_spec (poller_interval c1) 0) as [Hi|Hi]; split_and!; try done; try (by eapply selection_hosts); try apply Hm; apply Hd.
Qed.

Lemma create_loop_free set type base n : ∀ w id l w', Pool.create_loop set ssl w type base id n = Ok (l, w') → l = replicate n true.
Proof.
  induction n as [|n IH]; intros w id l w'; cbn [Pool.create_loop]; [by intros [= <- <-]|]. intros E.
  apply obind_Ok in E as ([ok w1] & _ & E). apply guard_Ok in E as [_ E]. destruct (Sql.db_set_session_mode w1 _) as [ok2 w2].
  apply guard_Ok in E as [_ E]. apply obind_Ok in E as ([l1 w3] & E1 & E). injection E as <- <-. cbn [replicate]. f_equal. by eapply IH.
Qed.
Lemma create_pool_free set w p type base p' w' : Pool.db_create_connection_pool set ssl w p type base = Ok (p', w') →
  p' = Pool.set_pool type (replicate (Z.to_nat (threads set)) true) p.
Proof.
  unfold Pool.db_create_connection_pool. intros E. apply obind_Ok in E as ([l w1] & E1 & E). injection E as <- <-. by rewrite (create_loop_free _ _ _ _ _ _ _ _ E1).
Qed.

(** The workers start on full pools.  When [initialize_main_database] returns, the
    thread count is not negative, the local pool holds one free connection for each
    thread, the remote pool as well exactly for an online remote collector (otherwise it
    is left as it was), the returned mode says which of the two databases takes the
    results, and of the settings only the two flags of the devices changed. *)
Theorem main_database_ready (c c' : config_t) (w w' : W) (p p' : Pool.pools) (mysql mysqlr : conn) (lb rb : nat) (md : Z)
  (Hrun : initialize_main_database ssl c w p mysql mysqlr lb rb = Ok (md, c', p', w')) :
  let full := replicate (Z.to_nat (threads c)) true in
  0 ≤ threads c ∧ Pool.db_pool_local p' = full ∧
  Pool.db_pool_remote p' = (if (1 <? poller_id c) && (mode c =? REMOTE_ONLINE) then full else Pool.db_pool_remote p) ∧
  md = (if (1 <? poller_id c) && (mode c =? REMOTE_ONLINE) then REMOTE else LOCAL) ∧
  c' = with_hosts (set_device_0 (has_device_0 c') (has_output_regex c') (c_hosts c)) c.
Proof.
  cbv zeta. unfold initialize_main_database in Hrun. apply obind_Ok in Hrun as ([ok w1] & _ & Hrun). apply guard_Ok in Hrun as [_ Hrun].
  destruct (Z.ltb_spec (threads c) 0) as [|Ht]; [done|]. apply obind_Ok in Hrun as ([p1 w2] & E1 & Hrun). apply create_pool_free in E1.
  cbv zeta in Hrun. set (remote := (1 <? poller_id c) && _) in *.
  apply obind_Ok in Hrun as ([p2 w3] & E2 & Hrun).
  assert (Hp2 : p2 = if remote then Pool.set_pool REMOTE (replicate (Z.to_nat (threads c)) true) p1 else p1).
  { destruct remote; [|by injection E2 as <- <-]. apply obind_Ok in E2 as ([ok2 w4] & _ & E2). apply guard_Ok in E2 as [_ E2]. by eapply create_pool_free. }
  clear E2. apply obind_Ok in Hrun as ([result w5] & _ & Hrun). destruct result as [r|]; [|done].
  apply obind_Ok in Hrun as ([regex w6] & _ & Hrun). destruct (regex <? 0); [done|]. destruct (Sql.db_set_session_mode w6 mysql) as [ok3 w7].
  apply guard_Ok in Hrun as [_ Hrun]. injection Hrun as <- <- <- <-. subst p1 p2. split_and!; [done| | |done|done]; by destruct remote.
Qed.

End Start.

(** ** The script servers *)

Section Php.
Context {W : Type} `{Posix W} `{ScriptEnv W}.

Lemma count_ready_some (w : W) n : ∀ slot, count_ready w slot n ≠ 0 → ∃ i, (slot ≤ i < slot + n)%nat ∧ php_state (get_slot w i) = Script.PHP_READY.
Proof.
  induction n as [|n IH]; intros slot Hc; cbn [count_ready] in Hc; [done|]. destruct (Z.eqb_spec (php_state (get_slot w slot)) Script.PHP_READY) as [E|E].
  - exists slot. split; [lia|done].
  - destruct (IH (S slot)) as (i & ? & ?); [lia|]. exists i. split; [lia|done].
Qed.

(** Polling with scripts starts only when a script server answers.  When
    [initialize_main_php] returns and the script server is wanted, one of the configured
    servers is ready and the settings say so; when it is not wanted nothing is started;
    otherwise the program exits. *)
Theorem main_php_ready (fuel : nat) (c c' : config_t) (w w' : W) (Hrun : initialize_main_php fuel c w = Some (Ok (c', w'))) :
  if php_wanted c then
    pp_php_initialized (c_php c') = true ∧ ∃ i, (Z.of_nat i < php_servers c) ∧ php_state (get_slot w' i) = Script.PHP_READY
  else c' = c ∧ w' = w.
Proof.
  unfold initialize_main_php in Hrun. destruct (php_wanted c); [|by injection Hrun as <- <-].
  destruct (Script.php_init c fuel w Script.PHP_INIT) as [[[] w1]|]; cbn [mbind option_bind negb orb] in Hrun; [|done|done].
  destruct (Z.eqb_spec (count_ready w1 0 (Z.to_nat (php_servers c))) 0) as [|Hc]; [done|]. injection Hrun as <- <-.
  split; [done|]. destruct (count_ready_some _ _ _ Hc) as (i & Hi & Hr). exists i. split; [lia|done].
Qed.
End Php.

(** ** Examples *)

(** One spine.conf in the current directory. *)
Definition one_file (name : cstr) : option (list ascii) := if STRMATCH name ($"spine.conf") then Some (ConfFileFacts.file_of [($"DB_Host", $"db"); ($"Poller", $"4")]) else None.

Lemma spine_start_consistent_witness :
  ∃ fmt c st devices w', spine_start one_file (fun _ => false) (H := OptionsProperties.empty_tables) [] OptionsProperties.no_error (fun _ _ => 80030) [] []
      true true [$"-p"; $"2"; $"10"; $"20"; $"--option=script_timeout:40"] [] 0%nat 1%nat = Some (Ok (fmt, c, st, devices, w')) ∧
    selection_ok c ∧ start_host_id c = 10 ∧ end_host_id c = 20 ∧ script_timeout c = 40 ∧ poller_id c = 4.
Proof.
  destruct (spine_start_consistent one_file (fun _ => false) (H := OptionsProperties.empty_tables) [] OptionsProperties.no_error (fun _ _ => 80030) [] []
    true true [$"-p"; $"2"; $"10"; $"20"; $"--option=script_timeout:40"] [] 0%nat 1%nat) as (r & Hr & Hok).
  { apply (bool_decide_unpack _). vm_compute. exact I. }
  match type of Hr with ?t = _ => let v := eval vm_compute in t in assert (Hv : t = v) by (vm_compute; reflexivity) end.
  rewrite Hv in Hr. injection Hr as <-. do 5 eexists. split; [exact Hv|].
  split; [exact (proj1 (Hok _ _ _ _ _ eq_refl))|]. vm_compute. auto.
Defined.

Lemma main_database_ready_witness :
  ∃ c' p' w', initialize_main_database (H := OptionsProperties.empty_tables) [] (example_config 1 false) [] {| Pool.db_pool_local := []; Pool.db_pool_remote := [] |} 0%nat 1%nat 2%nat 9%nat
      = Ok (LOCAL, c', p', w') ∧ Pool.db_pool_local p' = [true; true].
Proof.
  do 3 eexists. match goal with |- ?A ∧ _ => assert (Hrun : A) by (vm_compute; reflexivity) end. split; [exact Hrun|].
  exact (proj1 (proj2 (main_database_ready _ _ _ _ _ _ _ _ _ _ _ _ Hrun))).
Defined.

(** A machine whose script servers start. *)
Definition php_config : config_t := with_php (set_php_required true (c_php (example_config 1 false))) (example_config 1 false).
Lemma main_php_ready_witness :
  ∃ c' v, initialize_main_php (H := Machine.machine) (H0 := deaf_servers) (Z.to_nat RESULTS_BUFFER) php_config one_server = Some (Ok (c', v)) ∧
    pp_php_initialized (c_php c') = true ∧ ∃ i, Z.of_nat i < php_servers php_config ∧ php_state (servers v i) = Script.PHP_READY.
Proof.
  destruct (initialize_main_php (H := Machine.machine) (H0 := deaf_servers) (Z.to_nat RESULTS_BUFFER) php_config one_server) as [[[c' v]|]|] eqn:E;
    [|vm_compute in E; discriminate..].
  exists c', v. split; [done|]. exact (main_php_ready (H := Machine.machine) (H0 := deaf_servers) _ _ _ _ _ E).
Defined.
End StartProperties.
