(* ===== verification/Help.v ===== *)
(** The help text: [display_help] of src/src/app/cli.c, and that it tells the truth about the
    command line ([Cli]) and the search for spine.conf ([Startup]). *)

From S2P Require Import Prelude CLib Buffer Text Settings Sql Config Cli CliFacts.

Module Help.

Definition helptext : list cstr :=
  [$"Usage: spine [options] [[firstid lastid] || [-H/--hostlist='hostid1,hostid2,...,hostidn']]";
   [];
   $"Options:";
   $"  -h/--help          Show this brief help listing";
   $"  -f/--first=X       Start polling with host id X";
   $"  -l/--last=X        End polling with host id X";
   $"  -H/--hostlist=X    Poll the list of host ids, separated by comma's";
   $"  -p/--poller=X      Set the poller id to X";
   $"  -t/--threads=X     Override the database threads setting.";
   $"  -C/--conf=F        Read spine configuration from file F";
   $"  -O/--option=S:V    Override DB settings 'set' with value 'V'";
   $"  -M/--mibs          Refresh the device System Mib data";
   $"  -N/--mode=online   For remote pollers, the operating mode.";
   $"                     Options include: online, offline, recovery.";
   $"                     The default is 'online'.";
   $"  -R/--readonly      Spine will not write output to the DB";
   $"  -S/--stdout        Logging is performed to standard output";
   $"  -P/--pingonly      Ping device and update device status only";
   $"  -V/--verbosity=V   Set logging verbosity to <V>";
   [];
   $"Either both of --first/--last must be provided, a valid hostlist must be provided.";
   $"In their absence, all hosts are processed.";
   [];
   $"Without the --conf parameter, spine searches in order:";
   $"  current directory, /etc/, /etc/cacti/, ../etc/ for spine.conf.";
   [];
   $"Verbosity is one of NONE/LOW/MEDIUM/HIGH/DEBUG or 1..5";
   [];
   $"Runtime options are read from the 'settings' table in the Cacti";
   $"database, but they can be overridden with the --option=S:V";
   $"parameter.";
   [];
   $"Spine is distributed under the Terms of the GNU Lesser";
   $"General Public License Version 2.1. (http://www.gnu.org/licenses/lgpl.txt)";
   $"For more information, see http://www.cacti.net"].

(** The lines on standard output. *)
Definition display_help (VERSION : cstr) (only_version : bool) : list cstr :=
  ($"SPINE " ++ VERSION ++ $"  Copyright 2004-2026 by The Cacti Group") :: (if only_version then [] else [] :: helptext).

End Help.

(** * Facts *)

Module HelpFacts.
Import Cli CliFacts CliProperties Help.

(** A line such as "  -f/--first=X ...": the two spellings, and whether a parameter follows. *)
Definition option_line (line : cstr) : option (cstr * cstr * bool) :=
  if STRMATCH (take 3 line) ($"  -") then
    let word := drop 2 line in
    let word := match strchr word " "%char with Some n => take n word | None => word end in
    n ← strchr word "/"%char;
    let '(long, parameter) := split_argument (drop (S n) word) in
    Some (take n word, long, bool_decide (is_Some parameter))
  else None.
Definition documented : list (cstr * cstr * bool) := omap option_line helptext.

(** The option a line is about. *)
Definition option_of (x : cstr * cstr * bool) : cli_option_t := lookup_cli_option x.1.2.

(** Without a parameter an option that takes one ends the program. *)
Lemma missing_parameter arg s : takes_parameter (lookup_cli_option arg) = true → parse_cli_argument arg None [] s = Some (Died EXIT_FAILURE).
Proof. unfold parse_cli_argument. destruct (lookup_cli_option arg); try done; intros _; by case_match. Qed.
(** Any other option leaves the arguments that follow alone. *)
Definition stands_alone (arg : cstr) (s : cli) : Prop :=
  (∀ argv, parse_cli_argument arg None argv s = Some (Died EXIT_SUCCESS)) ∨
  ∃ r : outcome cli, ∀ argv, parse_cli_argument arg None argv s = Some (let* s' := r in Ok (s', argv)).
Lemma no_parameter arg s : takes_parameter (lookup_cli_option arg) = false → lookup_cli_option arg ≠ CLI_UNKNOWN → stands_alone arg s.
Proof.
  unfold stands_alone, parse_cli_argument. destruct (lookup_cli_option arg); try done; intros _ _; try (by left); right.
  1,2,3: eexists (Ok _); intros argv; reflexivity.
  eexists. intros argv. reflexivity.
Qed.

Definition accurate (x : cstr * cstr * bool) : bool :=
  bool_decide (lookup_cli_option x.1.1 = option_of x) && negb (bool_decide (option_of x = CLI_UNKNOWN)) &&
  Bool.eqb x.2 (takes_parameter (option_of x)).
Lemma documented_accurate x : x ∈ documented → accurate x = true.
Proof. intros Hx. assert (H : forallb accurate documented = true) by (by vm_compute). rewrite forallb_forall in H. by apply H, list_elem_of_In. Qed.
Lemma documented_options o : o ∈ map option_of documented ↔ o ∉ [CLI_VERSION; CLI_LOG; CLI_UNKNOWN].
Proof.
  assert (E : bool_decide (o ∈ map option_of documented) = negb (bool_decide (o ∈ [CLI_VERSION; CLI_LOG; CLI_UNKNOWN]))) by (destruct o; by vm_compute).
  rewrite <- (bool_decide_eq_true (o ∈ map option_of documented)), E, negb_true_iff. by rewrite bool_decide_eq_false.
Qed.
End HelpFacts.
Import Cli CliFacts CliProperties Help HelpFacts.

(** * Properties *)

(** The help tells the truth about the command line.  Every option line names two spellings
    of the same option, which the program knows; where the line shows a parameter the option
    without one ends the program with EXIT_FAILURE, and where it shows none the option leaves
    the arguments that follow to be read as arguments.  No option has two lines, and the
    options without a line are exactly -v/--version and -D/--log.  The directories named for
    spine.conf are the ones tried, in that order. *)
Theorem help_truthful :
  (∀ short long parameter s, (short, long, parameter) ∈ documented →
     lookup_cli_option short = lookup_cli_option long ∧ lookup_cli_option long ≠ CLI_UNKNOWN ∧
     if parameter : bool then parse_cli_argument long None [] s = Some (Died EXIT_FAILURE) else stands_alone long s) ∧
  NoDup (map option_of documented) ∧
  (∀ o, o ∈ map option_of documented ↔ o ∉ [CLI_VERSION; CLI_LOG; CLI_UNKNOWN]) ∧
  ∃ l1 l2 first others, helptext = l1 ++ [$"Without the --conf parameter, spine searches in order:";
                               $"  current directory" ++ concat (map (fun d => $", " ++ d) others) ++ $" for " ++ Startup.DEFAULT_CONF_FILE ++ $"."] ++ l2 ∧
    ConfFile.config_paths = first :: others ∧ first = [].
Proof.
  split_and!.
  - intros short long parameter s Hx%documented_accurate. unfold accurate in Hx. cbn [fst snd option_of] in Hx.
    apply andb_true_iff in Hx as [[H1%bool_decide_eq_true H2%negb_true_iff%bool_decide_eq_false]%andb_true_iff H3%Bool.eqb_prop].
    split_and!; [done|done|]. destruct parameter; [by apply missing_parameter|by apply no_parameter].
  - apply (bool_decide_unpack _). by vm_compute.
  - intros o. apply documented_options.
  - exists (take 23 helptext), (drop 25 helptext), [], [$"/etc/"; $"/etc/cacti/"; $"../etc/"]. by vm_compute.
Qed.
