(* ===== verification/Session.v ===== *)
(** SNMP sessions: src/src/snmp/session.c.  The security level of a device, the
    combinations of credentials that are refused, and what is handed to Net-SNMP to open a
    session.

    Net-SNMP is an interface ([Class NetSnmp]).  The flags of the library ([snmp_spine_init])
    are in [Spine]; log output is not modelled; [SNMP_LOCALNAME] is 1. *)

From S2P Require Import Prelude CLib Buffer Result Settings.

Abbreviation oid := (list Z).
Abbreviation key := (list ascii).

(** [snmp_connection_t]; [None] is NULL. *)
Record snmp_connection_t := {
  cn_host_id : Z; cn_hostname : cstr; snmp_version : Z; snmp_community : cstr; snmp_username : cstr; snmp_password : cstr;
  snmp_auth_protocol : cstr; snmp_priv_passphrase : cstr; snmp_priv_protocol : cstr; snmp_context : option cstr; snmp_engine_id : option cstr;
  snmp_port : Z; snmp_timeout : Z }.

(** The members of [struct snmp_session] that the code sets; a key is its first
    [KeyLen] bytes. *)
Record snmp_session := {
  ss_version : Z; securityModel : Z; peername : cstr; ss_retries : Z; ss_timeout : Z; ss_community : cstr; securityName : option cstr;
  contextName : option cstr; contextEngineID : option cstr; securityLevel : Z; localname : option cstr;
  securityAuthProto : option oid; securityAuthKey : key; securityPrivProto : option oid; securityPrivKey : key }.

(** What the code uses of Net-SNMP.  The lookups return the number of a protocol, [None]
    for a NULL object identifier; [duplicate_objid] is a copy that may fail for lack of
    memory; [generate_Ku] derives a key, [None] for an error. *)
Class NetSnmp (W : Type) := {
  usm_lookup_auth_type : cstr → Z;
  usm_lookup_priv_type : cstr → Z;
  sc_get_auth_oid : Z → option oid;
  sc_get_priv_oid : Z → option oid;
  default_authtype : option oid;
  default_privtype : option oid;
  SNMP_DEFAULT_AUTH_PROTO : oid;
  SNMP_DEFAULT_PRIV_PROTO : oid;
  usmNoPrivProtocol : oid;
  generate_Ku : oid → cstr → option key;
  duplicate_objid : W → oid → option oid * W;
  snmp_sess_open : W → snmp_session → option nat * W;
  snmp_sess_close : W → nat → W;
  snmp_lock : W → W;
  snmp_unlock : W → W }.

Module Session.

Definition SNMP_SEC_LEVEL_NOAUTH : Z := 1.
Definition SNMP_SEC_LEVEL_AUTHNOPRIV : Z := 2.
Definition SNMP_SEC_LEVEL_AUTHPRIV : Z := 3.
Definition SNMP_VERSION_1 : Z := 0.
Definition SNMP_VERSION_2c : Z := 1.
Definition SNMP_VERSION_3 : Z := 3.
Definition SNMP_SEC_MODEL_SNMPv1 : Z := 1.
Definition SNMP_SEC_MODEL_SNMPv2c : Z := 2.
Definition USM_SEC_MODEL_NUMBER : Z := 3.

Definition spine_snmpv3_protocol_is_set (value : cstr) : bool := negb (bool_decide (value = [])) && negb (STRMATCH value ($"[None]")).
Definition spine_snmpv3_passphrase_is_set (value : cstr) : bool := negb (bool_decide (value = [])).
Definition spine_snmpv3_security_level (auth_protocol auth_password priv_protocol priv_passphrase : cstr) : Z :=
  let authenticates := spine_snmpv3_protocol_is_set auth_protocol && spine_snmpv3_passphrase_is_set auth_password in
  let encrypts := authenticates && spine_snmpv3_protocol_is_set priv_protocol && spine_snmpv3_passphrase_is_set priv_passphrase in
  if encrypts then SNMP_SEC_LEVEL_AUTHPRIV else if authenticates then SNMP_SEC_LEVEL_AUTHNOPRIV else SNMP_SEC_LEVEL_NOAUTH.

(** [snmp_sess_init]: the session is cleared. *)
Definition snmp_sess_init : snmp_session := {|
  ss_version := 0; securityModel := 0; peername := []; ss_retries := 0; ss_timeout := 0; ss_community := []; securityName := None; contextName := None;
  contextEngineID := None; securityLevel := 0; localname := None; securityAuthProto := None; securityAuthKey := []; securityPrivProto := None; securityPrivKey := [] |}.

Definition set_keys (auth_proto priv_proto : option oid) (auth_key priv_key : key) (s : snmp_session) : snmp_session := {|
  ss_version := ss_version s; securityModel := securityModel s; peername := peername s; ss_retries := ss_retries s; ss_timeout := ss_timeout s;
  ss_community := ss_community s; securityName := securityName s; contextName := contextName s; contextEngineID := contextEngineID s;
  securityLevel := securityLevel s; localname := localname s; securityAuthProto := auth_proto; securityAuthKey := auth_key;
  securityPrivProto := priv_proto; securityPrivKey := priv_key |}.
Definition set_level (level : Z) (s : snmp_session) : snmp_session := {|
  ss_version := ss_version s; securityModel := securityModel s; peername := peername s; ss_retries := ss_retries s; ss_timeout := ss_timeout s;
  ss_community := ss_community s; securityName := securityName s; contextName := contextName s; contextEngineID := contextEngineID s;
  securityLevel := level; localname := localname s; securityAuthProto := securityAuthProto s; securityAuthKey := securityAuthKey s;
  securityPrivProto := securityPrivProto s; securityPrivKey := securityPrivKey s |}.

Section Open.
Context {W : Type} `{NetSnmp W} (set : config_t).

(** A protocol that is not set yet: the default of the library, then the built-in one. *)
Definition protocol_or_default (w : W) (proto dflt : option oid) (built_in : oid) : option oid * W :=
  match proto with
  | Some p => (Some p, w)
  | None =>
      let '(r, w) := match dflt with Some d => duplicate_objid w d | None => (None, w) end in
      match r with Some p => (Some p, w) | None => duplicate_objid w built_in end
  end.
(** [generate_Ku] of a NULL protocol is an error. *)
Definition derive (proto : option oid) (passphrase : cstr) : option key := match proto with Some p => generate_Ku p passphrase | None => None end.

Definition snmp_set_security_keys (w : W) (s : snmp_session) (auth_password priv_password : cstr) : bool * snmp_session * W :=
  let '(auth, w) := protocol_or_default w (securityAuthProto s) default_authtype SNMP_DEFAULT_AUTH_PROTO in
  match derive auth auth_password with
  | None => (false, set_keys auth (securityPrivProto s) (securityAuthKey s) (securityPrivKey s) s, w)
  | Some k =>
      let s := set_keys auth (securityPrivProto s) k (securityPrivKey s) s in
      if securityLevel s =? SNMP_SEC_LEVEL_AUTHNOPRIV then (true, s, w) else
      let '(priv, w) := protocol_or_default w (securityPrivProto s) default_privtype SNMP_DEFAULT_PRIV_PROTO in
      match derive auth priv_password with
      | None => (false, set_keys auth priv k (securityPrivKey s) s, w)
      | Some k' => (true, set_keys auth priv k k' s, w)
      end
  end.

(** The copies of the passphrases and the keys are overwritten, and what the session
    borrowed is freed: the session that is left. *)
Definition snmp_host_init_release (s : snmp_session) : snmp_session :=
  set_keys None None (replicate (length (securityAuthKey s)) NUL) (replicate (length (securityPrivKey s)) NUL) s.

Definition snmp_install_auth_protocol (w : W) (s : snmp_session) (options : snmp_connection_t) : bool * snmp_session * W :=
  let auth_type := usm_lookup_auth_type (snmp_auth_protocol options) in
  if auth_type <=? 0 then (false, s, w) else
  let '(r, w) := match sc_get_auth_oid auth_type with Some p => duplicate_objid w p | None => (None, w) end in
  let s := set_keys r (securityPrivProto s) (securityAuthKey s) (securityPrivKey s) s in
  (match r with Some _ => true | None => false end, s, w).

(** The refusals, before any protocol is installed. *)
Definition refused (options : snmp_connection_t) (level : Z) : bool :=
  spine_snmpv3_passphrase_is_set (snmp_password options) && bool_decide (snmp_auth_protocol options = []) ||
  spine_snmpv3_passphrase_is_set (snmp_priv_passphrase options) && bool_decide (snmp_priv_protocol options = []) ||
  (level =? SNMP_SEC_LEVEL_NOAUTH) && spine_snmpv3_protocol_is_set (snmp_priv_protocol options) && spine_snmpv3_passphrase_is_set (snmp_priv_passphrase options).

Definition snmp_set_security_protocols (w : W) (s : snmp_session) (options : snmp_connection_t) : bool * snmp_session * W :=
  let level := spine_snmpv3_security_level (snmp_auth_protocol options) (snmp_password options) (snmp_priv_protocol options) (snmp_priv_passphrase options) in
  if refused options level then (false, s, w) else
  let '(ok, s, w) := if spine_snmpv3_protocol_is_set (snmp_auth_protocol options) then snmp_install_auth_protocol w s options else (true, s, w) in
  if negb ok then (false, s, w) else
  let s := set_level level s in
  if negb (level =? SNMP_SEC_LEVEL_AUTHPRIV) then
    let '(r, w) := duplicate_objid w usmNoPrivProtocol in
    let s := set_keys (securityAuthProto s) r (securityAuthKey s) [] s in
    match r with
    | None => (false, s, w)
    | Some _ => if level =? SNMP_SEC_LEVEL_AUTHNOPRIV then snmp_set_security_keys w s (snmp_password options) (snmp_priv_passphrase options) else (true, s, w)
    end
  else
    let priv_type := usm_lookup_priv_type (snmp_priv_protocol options) in
    if priv_type <? 0 then (false, s, w) else
    let '(r, w) := match sc_get_priv_oid priv_type with Some p => duplicate_objid w p | None => (None, w) end in
    let s := set_keys (securityAuthProto s) r (securityAuthKey s) (securityPrivKey s) s in
    match r with
    | None => (false, s, w)
    | Some _ => snmp_set_security_keys w s (snmp_password options) (snmp_priv_passphrase options)
    end.

(** Version and security model of the protocol version of a device. *)
Definition session_version (v : Z) : option (Z * Z) :=
  if v =? 2 then Some (SNMP_VERSION_2c, SNMP_SEC_MODEL_SNMPv2c)
  else if v =? 1 then Some (SNMP_VERSION_1, SNMP_SEC_MODEL_SNMPv1)
  else if v =? 3 then Some (SNMP_VERSION_3, USM_SEC_MODEL_NUMBER) else None.
Definition non_empty (s : option cstr) : option cstr := match s with Some [] | None => None | Some t => Some t end.

(** The session before its security: address, retries and community or names. *)
Definition session_of (options : snmp_connection_t) (v : Z * Z) : snmp_session :=
  let community_based := (snmp_version options =? 2) || (snmp_version options =? 1) in
  let len := slen (sx_snmp_clientaddr (c_snmp set)) in
  {| ss_version := fst v; securityModel := snd v;
     peername := snprintf_s BUFSIZE (cn_hostname options ++ $":" ++ sdec (snmp_port options));
     ss_retries := snmp_retries set; ss_timeout := snmp_timeout options * 1000;
     ss_community := if community_based then snmp_community options else [];
     securityName := if community_based then None else Some (snmp_username options);
     contextName := if community_based then None else non_empty (snmp_context options);
     contextEngineID := if community_based then None else non_empty (snmp_engine_id options);
     securityLevel := 0; localname := if (0 <? len) && (len <=? SMALL_BUFSIZE) then Some (sx_snmp_clientaddr (c_snmp set)) else None;
     securityAuthProto := None; securityAuthKey := []; securityPrivProto := None; securityPrivKey := [] |}.

(** The session opened, [None] for NULL; and the local structure at the end, [None] when
    it was never initialized. *)
Definition snmp_host_init (w : W) (options : snmp_connection_t) : option nat * option snmp_session * W :=
  if snmp_timeout options <=? 0 then (None, None, w) else
  match session_version (snmp_version options) with
  | None => (None, Some (snmp_host_init_release snmp_sess_init), w)
  | Some v =>
      let s := session_of options v in
      let '(ok, s, w) := if (snmp_version options =? 2) || (snmp_version options =? 1) then (true, s, w) else snmp_set_security_protocols w s options in
      if negb ok then (None, Some (snmp_host_init_release s), w) else
      let '(sessp, w) := snmp_sess_open (snmp_lock w) s in
      (sessp, Some (snmp_host_init_release s), snmp_unlock w)
  end.

Definition snmp_host_cleanup (w : W) (session : option nat) : W :=
  match session with Some h => snmp_unlock (snmp_sess_close (snmp_lock w) h) | None => w end.

End Open.
End Session.

(** * Facts *)

Module SessionFacts.
Import Session.

Section Security.
Context {W : Type} `{NetSnmp W} (set : config_t).

(** What the settings mean, without the code's own tests: a protocol field is blank, says
    that none is selected, or names a protocol; a passphrase is given or empty. *)
Inductive protocol_field := Blank | Unselected | Named.
Definition field_of (v : cstr) : protocol_field :=
  match v with [] => Blank | _ => if STRMATCH v ($"[None]") then Unselected else Named end.
Definition named (v : cstr) : bool := match field_of v with Named => true | _ => false end.
Definition given (v : cstr) : bool := match v with [] => false | _ => true end.
(** Which combinations a device may have: a passphrase never goes with a blank protocol, and
    complete privacy credentials need complete authentication.  Everything else is polled,
    with what is complete. *)
Definition combination_allowed (auth : protocol_field) (password : bool) (priv : protocol_field) (passphrase : bool) : bool :=
  match auth, password, priv, passphrase with
  | Blank, true, _, _ => false
  | _, _, Blank, true => false
  | Named, true, _, _ => true
  | _, _, Named, true => false
  | _, _, _, _ => true
  end.
Definition allowed (o : snmp_connection_t) : bool :=
  combination_allowed (field_of (snmp_auth_protocol o)) (given (snmp_password o)) (field_of (snmp_priv_protocol o)) (given (snmp_priv_passphrase o)).
(** Both halves of a pair are configured. *)
Definition auth_complete (o : snmp_connection_t) : bool := named (snmp_auth_protocol o) && given (snmp_password o).
Definition priv_complete (o : snmp_connection_t) : bool := named (snmp_priv_protocol o) && given (snmp_priv_passphrase o).
Definition configured_level (o : snmp_connection_t) : Z :=
  if auth_complete o then (if priv_complete o then SNMP_SEC_LEVEL_AUTHPRIV else SNMP_SEC_LEVEL_AUTHNOPRIV) else SNMP_SEC_LEVEL_NOAUTH.

(** The configured protocols as the library knows them. *)
Definition auth_oid (o : snmp_connection_t) : option oid :=
  let t := usm_lookup_auth_type (snmp_auth_protocol o) in if t <=? 0 then None else sc_get_auth_oid t.
Definition priv_oid (o : snmp_connection_t) : option oid :=
  let t := usm_lookup_priv_type (snmp_priv_protocol o) in if t <? 0 then None else sc_get_priv_oid t.

(** The security of a version 3 session is the configured one. *)
Record secure (o : snmp_connection_t) (s : snmp_session) : Prop := {
  sec_level : securityLevel s = configured_level o;
  sec_auth : auth_complete o = true → SNMP_SEC_LEVEL_AUTHNOPRIV ≤ securityLevel s ∧
    ∃ p, auth_oid o = Some p ∧ securityAuthProto s = Some p ∧ generate_Ku p (snmp_password o) = Some (securityAuthKey s);
  sec_priv : priv_complete o = true → securityLevel s = SNMP_SEC_LEVEL_AUTHPRIV ∧
    ∃ p q, auth_oid o = Some p ∧ priv_oid o = Some q ∧ securityPrivProto s = Some q ∧ generate_Ku p (snmp_priv_passphrase o) = Some (securityPrivKey s);
  sec_none : securityLevel s ≠ SNMP_SEC_LEVEL_AUTHPRIV → securityPrivProto s = Some usmNoPrivProtocol ∧ securityPrivKey s = [] }.

(** Whether the library can serve the configuration. *)
Definition keys_ok (o : snmp_connection_t) : bool :=
  match (if named (snmp_auth_protocol o) then auth_oid o else Some []) with
  | None => false
  | Some p =>
      (if auth_complete o then bool_decide (is_Some (generate_Ku p (snmp_password o))) else true) &&
      (if priv_complete o then bool_decide (is_Some (priv_oid o)) && bool_decide (is_Some (generate_Ku p (snmp_priv_passphrase o))) else true)
  end.

Lemma protocol_is_named v : spine_snmpv3_protocol_is_set v = named v.
Proof. unfold spine_snmpv3_protocol_is_set, named, field_of. destruct v; [done|]. by destruct (STRMATCH _ _). Qed.
Lemma passphrase_is_given v : spine_snmpv3_passphrase_is_set v = given v.
Proof. by destruct v. Qed.

(** The level the code picks. *)
Definition level_of (o : snmp_connection_t) : Z :=
  spine_snmpv3_security_level (snmp_auth_protocol o) (snmp_password o) (snmp_priv_protocol o) (snmp_priv_passphrase o).
Lemma level_cases o : level_of o = configured_level o.
Proof.
  unfold level_of, spine_snmpv3_security_level, configured_level, auth_complete, priv_complete. rewrite !protocol_is_named, !passphrase_is_given.
  by destruct (named (snmp_auth_protocol o)), (given (snmp_password o)), (named (snmp_priv_protocol o)), (given (snmp_priv_passphrase o)).
Qed.
Lemma field_blank v : bool_decide (v = []) = match field_of v with Blank => true | _ => false end.
Proof. unfold field_of. destruct v; [done|]. by destruct (STRMATCH _ _). Qed.
(** The code refuses exactly the other combinations. *)
Lemma refused_allowed o : refused o (level_of o) = negb (allowed o).
Proof.
  unfold refused, allowed. rewrite level_cases, !field_blank, !passphrase_is_given, protocol_is_named. unfold configured_level, auth_complete, priv_complete, named.
  by destruct (field_of (snmp_auth_protocol o)), (given (snmp_password o)), (field_of (snmp_priv_protocol o)), (given (snmp_priv_passphrase o)).
Qed.
(** Complete privacy without authentication is refused. *)
Lemma allowed_needs_auth o : allowed o = true → priv_complete o = true → auth_complete o = true.
Proof.
  unfold allowed, auth_complete, priv_complete, named.
  by destruct (field_of (snmp_auth_protocol o)), (given (snmp_password o)), (field_of (snmp_priv_protocol o)), (given (snmp_priv_passphrase o)).
Qed.

Context (memory : ∀ (w : W) p, fst (duplicate_objid w p) = Some p).

Lemma dup_Some w p : ∃ w', duplicate_objid w p = (Some p, w').
Proof. specialize (memory w p). destruct (duplicate_objid w p) as [r w']. cbn in memory. subst. by eexists. Qed.

(** The keys of a session whose authentication protocol is installed. *)
Lemma security_keys w s p o : securityAuthProto s = Some p →
  securityLevel s = SNMP_SEC_LEVEL_AUTHNOPRIV ∨ is_Some (securityPrivProto s) →
  match snmp_set_security_keys w s (snmp_password o) (snmp_priv_passphrase o) with
  | (ok, s', w') =>
      ok = bool_decide (is_Some (generate_Ku p (snmp_password o))) &&
           ((securityLevel s =? SNMP_SEC_LEVEL_AUTHNOPRIV) || bool_decide (is_Some (generate_Ku p (snmp_priv_passphrase o)))) ∧
      (ok = true → securityLevel s' = securityLevel s ∧ securityAuthProto s' = Some p ∧ securityPrivProto s' = securityPrivProto s ∧
         generate_Ku p (snmp_password o) = Some (securityAuthKey s') ∧
         if securityLevel s =? SNMP_SEC_LEVEL_AUTHNOPRIV then securityPrivKey s' = securityPrivKey s
         else generate_Ku p (snmp_priv_passphrase o) = Some (securityPrivKey s'))
  end.
Proof.
  intros Hp Hl. unfold snmp_set_security_keys. rewrite Hp. cbn [protocol_or_default derive].
  destruct (generate_Ku p (snmp_password o)) as [k|] eqn:Ek; [|by split]. rewrite bool_decide_eq_true_2 by done. cbn [andb].
  change (securityLevel (set_keys _ _ _ _ s)) with (securityLevel s).
  destruct (securityLevel s =? SNMP_SEC_LEVEL_AUTHNOPRIV) eqn:E; [by split|]. apply Z.eqb_neq in E. destruct Hl as [|[q Hq]]; [done|].
  change (securityPrivProto (set_keys _ _ _ _ s)) with (securityPrivProto s). rewrite Hq. cbn [protocol_or_default orb].
  destruct (generate_Ku p (snmp_priv_passphrase o)) as [k'|] eqn:Ek'; [|by split]. by split.
Qed.

(** The outcome of the security set-up is exactly [allowed] and [keys_ok]. *)
Lemma security_protocols w s o : 
  match snmp_set_security_protocols w s o with
  | (ok, s', w') => ok = allowed o && keys_ok o ∧ (ok = true → secure o s')
  end.
Proof.
  unfold snmp_set_security_protocols. fold (level_of o). rewrite refused_allowed. destruct (allowed o) eqn:Er; cbn [negb]; [|by split]. cbn [andb].
  pose proof (allowed_needs_auth o Er) as Hpa. unfold keys_ok. rewrite protocol_is_named.
  destruct (named (snmp_auth_protocol o)) eqn:Ea.
  2: { assert (E : auth_complete o = false) by (unfold auth_complete; by rewrite Ea). rewrite E in *. destruct (priv_complete o) eqn:Ep; [by discriminate Hpa|].
       cbn [negb]. rewrite level_cases. unfold configured_level. rewrite E. cbn [Z.eqb negb]. destruct (dup_Some w usmNoPrivProtocol) as [w1 ->].
       change (SNMP_SEC_LEVEL_NOAUTH =? SNMP_SEC_LEVEL_AUTHPRIV) with false. change (SNMP_SEC_LEVEL_NOAUTH =? SNMP_SEC_LEVEL_AUTHNOPRIV) with false. cbn [negb andb].
       split; [done|]. intros _. constructor; [by unfold configured_level; rewrite E|congruence|congruence|done]. }
  unfold snmp_install_auth_protocol, auth_oid. destruct (usm_lookup_auth_type (snmp_auth_protocol o) <=? 0) eqn:Et; [by split|].
  destruct (sc_get_auth_oid (usm_lookup_auth_type (snmp_auth_protocol o))) as [p|] eqn:Eo; [|by split].
  destruct (dup_Some w p) as [w1 ->]. cbn [negb]. rewrite level_cases. unfold configured_level.
  assert (Hoid : auth_oid o = Some p) by (unfold auth_oid; by rewrite Et).
  destruct (auth_complete o) eqn:Eac.
  2: { destruct (priv_complete o) eqn:Ep; [by discriminate Hpa|]. change (SNMP_SEC_LEVEL_NOAUTH =? SNMP_SEC_LEVEL_AUTHPRIV) with false.
       change (SNMP_SEC_LEVEL_NOAUTH =? SNMP_SEC_LEVEL_AUTHNOPRIV) with false. cbn [negb]. destruct (dup_Some w1 usmNoPrivProtocol) as [w2 ->].
       split; [done|]. intros _. constructor; [by unfold configured_level; rewrite Eac|congruence|congruence|done]. }
  destruct (priv_complete o) eqn:Epc.
  - change (SNMP_SEC_LEVEL_AUTHPRIV =? SNMP_SEC_LEVEL_AUTHPRIV) with true. cbn [negb]. unfold priv_oid.
    destruct (usm_lookup_priv_type (snmp_priv_protocol o) <? 0) eqn:Ept; [rewrite (bool_decide_eq_false_2 (is_Some None)) by (by intros []); by rewrite andb_false_r|].
    destruct (sc_get_priv_oid (usm_lookup_priv_type (snmp_priv_protocol o))) as [q|] eqn:Eq;
      [|rewrite (bool_decide_eq_false_2 (is_Some None)) by (by intros []); by rewrite andb_false_r].
    assert (Hq : priv_oid o = Some q) by (unfold priv_oid; by rewrite Ept).
    destruct (dup_Some w1 q) as [w2 ->]. rewrite (bool_decide_eq_true_2 (is_Some (Some q))) by done. cbn [andb].
    match goal with |- context [snmp_set_security_keys ?w ?s0 _ _] => pose proof (security_keys w s0 p o eq_refl (or_intror (mk_is_Some _ q eq_refl))) as Hk;
      destruct (snmp_set_security_keys w s0 _ _) as [[ok s'] w3] end.
    destruct Hk as [-> Hk]. split; [done|]. intros Hok. destruct (Hk Hok) as (H1 & H2 & H3 & H4 & H5).
    constructor; [by unfold configured_level; rewrite H1, Eac, Epc|intros _; rewrite H1; split; [done|by exists p]|intros _; rewrite H1; split; [done|by exists p, q]|].
    rewrite H1. by intros [].
  - change (SNMP_SEC_LEVEL_AUTHNOPRIV =? SNMP_SEC_LEVEL_AUTHPRIV) with false. change (SNMP_SEC_LEVEL_AUTHNOPRIV =? SNMP_SEC_LEVEL_AUTHNOPRIV) with true. cbn [negb].
    destruct (dup_Some w1 usmNoPrivProtocol) as [w2 ->].
    match goal with |- context [snmp_set_security_keys ?w ?s0 _ _] => pose proof (security_keys w s0 p o eq_refl (or_introl eq_refl)) as Hk;
      destruct (snmp_set_security_keys w s0 _ _) as [[ok s'] w3] end.
    destruct Hk as [-> Hk]. split; [done|]. intros Hok. destruct (Hk Hok) as (H1 & H2 & H3 & H4 & H5).
    constructor; [by unfold configured_level; rewrite H1, Eac, Epc|intros _; rewrite H1; split; [done|by exists p]|congruence|]. intros _. by rewrite H3.
Qed.
End Security.
End SessionFacts.

(** * Properties *)

Section Properties.
Import Session SessionFacts.
Context {W : Type} `{NetSnmp W} (set : config_t).

(** Whether a session can be opened at all. *)
Definition acceptable (o : snmp_connection_t) : bool :=
  (0 <? snmp_timeout o) && ((snmp_version o =? 1) || (snmp_version o =? 2) || (snmp_version o =? 3) && allowed o && keys_ok o).
(** No byte of a key is left. *)
Definition wiped (s : snmp_session) : Prop :=
  securityAuthProto s = None ∧ securityPrivProto s = None ∧ Forall (fun b => b = NUL) (securityAuthKey s ++ securityPrivKey s).

Lemma release_wiped s : wiped (snmp_host_init_release s).
Proof. split_and!; [done|done|]. cbn. apply Forall_app. split; apply Forall_replicate; done. Qed.

(** C27: a device is never polled with weaker security than it is configured for.  As long
    as memory lasts, [snmp_host_init] asks Net-SNMP for a session exactly when the timeout
    is positive, the version is 1, 2 or 3 and, for version 3, no passphrase goes with a blank
    protocol field, complete privacy credentials come with complete authentication
    ([combination_allowed]), and the library knows the protocols and derives the keys.  The session it asks
    for then has the level of the configuration: complete authentication is used with the
    configured protocol and the key of the configured password, never with a default of
    the library; complete privacy is used on top of it with the configured protocol and
    passphrase or the device is refused; anything less carries the no-privacy protocol and
    no privacy key; versions 1 and 2 carry the community.  On every path the keys in the local session are overwritten. *)
Theorem session_as_configured (memory : ∀ (w : W) p, fst (duplicate_objid w p) = Some p) (w : W) (o : snmp_connection_t) :
  if acceptable o then
    ∃ s w1, (snmp_version o = 3 → secure o s) ∧ (snmp_version o ≠ 3 → ss_community s = snmp_community o ∧ securityName s = None) ∧
      ∃ local, wiped local ∧ snmp_host_init set w o = let '(h, w2) := snmp_sess_open (snmp_lock w1) s in (h, Some local, snmp_unlock w2)
  else ∃ local w1, snmp_host_init set w o = (None, local, w1) ∧ ∀ s, local = Some s → wiped s.
Proof.
  unfold acceptable, snmp_host_init. rewrite Z.ltb_antisym. destruct (snmp_timeout o <=? 0); cbn [negb andb].
  { exists None, w. by split. }
  unfold session_version. destruct (Z.eqb_spec (snmp_version o) 2) as [E2|E2].
  { cbn [orb]. rewrite orb_true_r. cbn [orb negb]. eexists _, w. split_and!; [intros; lia| |].
    2: { exists (snmp_host_init_release (session_of set o (SNMP_VERSION_2c, SNMP_SEC_MODEL_SNMPv2c))). split; [apply release_wiped|]. reflexivity. }
    intros _. unfold session_of. cbn [ss_community securityName]. by rewrite E2. }
  destruct (Z.eqb_spec (snmp_version o) 1) as [E1|E1].
  { cbn [orb negb]. eexists _, w. split_and!; [intros; lia| |].
    2: { exists (snmp_host_init_release (session_of set o (SNMP_VERSION_1, SNMP_SEC_MODEL_SNMPv1))). split; [apply release_wiped|]. reflexivity. }
    intros _. unfold session_of. cbn [ss_community securityName]. by rewrite E1. }
  destruct (Z.eqb_spec (snmp_version o) 3) as [E3|E3]; cbn [orb andb].
  - pose proof (security_protocols memory w (session_of set o (SNMP_VERSION_3, USM_SEC_MODEL_NUMBER)) o) as Hs.
    destruct (snmp_set_security_protocols w _ o) as [[ok s] w1]. destruct Hs as [Hok Hsec].
    rewrite <- Hok.
    destruct ok; cbn [negb].
    + exists s, w1. split; [intros _; by apply Hsec|]. split; [done|]. exists (snmp_host_init_release s). split; [apply release_wiped|done].
    + eexists _, w1. split; [done|]. intros s' [= <-]. apply release_wiped.
  - eexists _, w. split; [done|]. intros s' [= <-]. apply release_wiped.
Qed.
End Properties.

(** A library that knows SHA and AES and derives the passphrase itself; the world counts
    the sessions opened. *)
Definition small_library : NetSnmp nat := {|
  usm_lookup_auth_type s := if STRMATCH s ($"SHA") then 2 else -1; usm_lookup_priv_type s := if STRMATCH s ($"AES") then 2 else -1;
  sc_get_auth_oid t := Some [1; t]; sc_get_priv_oid t := Some [2; t]; default_authtype := Some [1; 1]; default_privtype := Some [2; 1];
  SNMP_DEFAULT_AUTH_PROTO := [1; 1]; SNMP_DEFAULT_PRIV_PROTO := [2; 1]; usmNoPrivProtocol := [2; 0];
  generate_Ku _ s := if slen s <? 8 then None else Some s;
  duplicate_objid w p := (Some p, w); snmp_sess_open w _ := (Some w, S w); snmp_sess_close w _ := w; snmp_lock w := w; snmp_unlock w := w |}.
Definition v3_device : snmp_connection_t := {|
  cn_host_id := 1; cn_hostname := $"router"; snmp_version := 3; snmp_community := []; snmp_username := $"poller"; snmp_password := $"auth-secret";
  snmp_auth_protocol := $"SHA"; snmp_priv_passphrase := $"priv-secret"; snmp_priv_protocol := $"AES"; snmp_context := None; snmp_engine_id := None;
  snmp_port := 161; snmp_timeout := 500 |}.

Lemma session_as_configured_witness :
  ∃ s w1, SessionFacts.secure (H := small_library) v3_device s ∧ ∃ local, wiped local ∧
    Session.snmp_host_init (H := small_library) zero_config 7%nat v3_device = (Some w1, Some local, S w1).
Proof.
  destruct (session_as_configured (H := small_library) zero_config (fun _ _ => eq_refl) 7%nat v3_device) as (s & w1 & Hs & _ & local & Hl & E).
  exists s, w1. split; [by apply Hs|]. exists local. split; [done|]. exact E.
Defined.
