(* ===== verification/Spine.v ===== *)
(** The program: [spine_run] of src/src/app/runtime.c from its first line to [exit], composed
    of the components of the other files, with the parts of src/src/poller/workers.c,
    src/src/app/startup.c and src/src/snmp/session.c that only it uses.

    The main thread is a function over the world; the workers run in the world, between the
    calls.  What they leave is read off it where the program reads it: [shared_details] are
    the records they updated, [workers_failed] says whether one of them has set the exit code
    ([exit_code_truthful] says when that is). *)

From Stdlib Require Import SpecFloat.
From S2P Require Import Prelude CLib Buffer Text Result Address Settings Ping Privileges Sql Pool Queries Persist.
From S2P Require Import Transfer Workers WorkersFacts Lifecycle Process Script ScriptFacts Config ConfigFacts Cli CliFacts Signals Threads.

Module Spine.
Import Workers.

(** ** snmp_spine_init *)

Inductive ds_flag :=
| PRINT_NUMERIC_ENUM | DONT_PERSIST_STATE | DISABLE_PERSISTENT_LOAD | DONT_PRINT_UNITS | QUICK_PRINT | QUICKE_PRINT | PRINT_BARE_VALUE
| NUMERIC_TIMETICKS | DONT_CHECK_RANGE.
#[global] Instance ds_flag_eq_dec : EqDecision ds_flag.
Proof. solve_decision. Defined.
Definition ds_set (f : ds_flag) (b : bool) (ds : ds_flag → bool) : ds_flag → bool := fun x => if decide (x = f) then b else ds x.

(** The library's flags, the variable MIBS, and whether [init_snmp] was called. *)
Record snmp_library := { ds_flags : ds_flag → bool; env_mibs : option cstr; initialized : bool }.

(** [header] is the version the program was compiled with, if it checks it. *)
Definition snmp_spine_init (header : option cstr) (library : cstr) (s : snmp_library) : outcome snmp_library :=
  let ds := ds_flags s in
  let ds := ds_set DONT_PRINT_UNITS true (ds_set DISABLE_PERSISTENT_LOAD true (ds_set DONT_PERSIST_STATE true (ds_set PRINT_NUMERIC_ENUM true ds))) in
  let ds := ds_set NUMERIC_TIMETICKS true (ds_set PRINT_BARE_VALUE true (ds_set QUICKE_PRINT true (ds_set QUICK_PRINT true ds))) in
  let ds := ds_set DONT_CHECK_RANGE (negb (ds DONT_CHECK_RANGE)) ds in
  match header with
  | Some version => if STRMATCH version library then Ok {| ds_flags := ds; env_mibs := Some []; initialized := true |} else Died EXIT_FAILURE
  | None => Ok {| ds_flags := ds; env_mibs := Some []; initialized := true |}
  end.

(** ** What the run reports *)

(** The errors, and the first device without an entry. *)
Fixpoint report_loop (threads_count : Z) (l : list (option poller_thread_t)) : list cstr * option Z :=
  match l with
  | [] => ([], None)
  | None :: l' => let '(lines, _) := report_loop (threads_count + 1) l' in (lines, Some threads_count)
  | Some det :: l' =>
      let '(lines, missing) := report_loop (threads_count + 1) l' in
      ((if pt_output_failed det
        then [$"ERROR: Device[" ++ sdec (pt_host_id det) ++ $"] output persistence failed; due items remain scheduled for retry"] else []) ++
       (if pt_poll_failed det
        then [$"ERROR: Device[" ++ sdec (pt_host_id det) ++ $"] polling failed on a database error; due items remain scheduled for retry"] else []) ++
       lines, missing)
  end.
Definition report_worker_completion (set : config_t) (num_rows : Z) (details : list (option poller_thread_t)) : list cstr :=
  if ping_only set then [] else
  let '(lines, threads_missing) := report_loop 0 (take (Z.to_nat num_rows) details) in
  lines ++ match threads_missing with
           | Some m => [$"WARNING: There were " ++ sdec (num_rows - m) ++ $" threads which did not run"]
           | None => []
           end.

(** A log record, or a line of the console if there is one. *)
Inductive message := Logged (text : cstr) | Printed (text : cstr) | Omitted.

(** [VERSION] is the version of the program. *)
Definition report_startup_version (VERSION : cstr) (set : config_t) (md : Z) : list message :=
  let line := if md =? REMOTE then $"Sending entries to remote database in 'online' mode"
              else $"Sending entries to local database in 'offline', or 'recovery' mode" in
  if log_level (c_logging set) =? Keywords.POLLER_VERBOSITY_DEBUG then
    Logged ($"DEBUG: Version " ++ VERSION ++ $" starting") :: (if 1 <? poller_id set then [Logged ($"DEBUG: " ++ line)] else [])
  else if stdout_notty (c_console set) then []
  else Printed ($"Version " ++ VERSION ++ $" starting" ++ [byte_of 10]) :: (if poller_id set <=? 1 then [] else [Printed (line ++ [byte_of 10])]).
Definition report_startup (VERSION : cstr) (thread_safe : bool) (set : config_t) (md : Z) : list message :=
  report_startup_version VERSION set md ++
  (if Keywords.POLLER_VERBOSITY_MEDIUM <=? log_level (c_logging set)
   then [Logged (if has_device_0 set then $"Device 0 Poller Items found.  Ensure that these entries are accurate" else $"No Device 0 Poller Items found.")]
   else []) ++
  (if thread_safe then (if log_level (c_logging set) =? Keywords.POLLER_VERBOSITY_DEBUG then [Logged ($"DEBUG: MySQL is Thread Safe!")] else [])
   else [Logged ($"WARNING: MySQL is NOT Thread Safe!")]).

Definition report_poll_statistics (set : config_t) (begin_time end_time : double) (num_rows : Z) : message :=
  let text := $"Time: " ++ print_fixed 4 (dsub end_time begin_time) ++ $" s, Threads: " ++ sdec (threads set) ++ $", Devices: " ++ sdec num_rows in
  if Keywords.POLLER_VERBOSITY_MEDIUM <=? log_level (c_logging set) then Logged text
  else if negb (stdout_notty (c_console set)) then Printed (text ++ [byte_of 10]) else Omitted.

(** ** The slots of the script servers *)

Fixpoint php_processes_initialize {W} `{ScriptEnv W} (w : W) (slot count : nat) : W :=
  match count with
  | O => w
  | S n => php_processes_initialize (put_slot w slot {| php_state := Script.PHP_BUSY; php_pid := -1; php_write_fd := -1; php_read_fd := -1 |}) (S slot) n
  end.

(** ** The end *)

(** The array of [BUFSIZE] bytes a password is kept in: the password, its terminator and
    whatever stood there before. *)
Definition password_array (behind : list ascii) (password : cstr) : list ascii :=
  take (Z.to_nat BUFSIZE) (password ++ NUL :: behind ++ replicate (Z.to_nat BUFSIZE) NUL).
(** The array after the call with its size. *)
Definition clear_password (behind : list ascii) (password : cstr) : option (list ascii) :=
  spine_clear_sensitive (password_array behind password) 0 (Z.to_nat BUFSIZE).
Definition with_password (p : cstr) (d : spine_database_config_t) : spine_database_config_t :=
  {| da_host := da_host d; da_database := da_database d; da_user := da_user d; da_password := p; da_ssl := da_ssl d; da_ssl_key := da_ssl_key d;
     da_ssl_cert := da_ssl_cert d; da_ssl_ca := da_ssl_ca d; da_port := da_port d; da_version := da_version d; da_onupdate := da_onupdate d |}.

Definition with_icmp (avail caps : bool) (c : config_t) : config_t :=
  let a := c_availability c in
  with_availability {| ax_icmp_avail := avail; ax_icmp_uses_caps := caps; ax_availability_method := ax_availability_method a;
    ax_ping_method := ax_ping_method a; ax_ping_retries := ax_ping_retries a; ax_ping_timeout := ax_ping_timeout a;
    ax_ping_failure_count := ax_ping_failure_count a; ax_ping_recovery_count := ax_ping_recovery_count a; ax_ping_only := ax_ping_only a |} c.

Definition start_time_query (set : config_t) (pid : Z) : cstr :=
  snprintf_s BIG_BUFSIZE ($"INSERT INTO poller_time (poller_id, pid, start_time, end_time) VALUES (" ++ sdec (poller_id set) ++ $", " ++ sdec pid ++
                          $", NOW(), '0000-00-00 00:00:00')").

(** What is left when the process calls [exit]; the two passwords as the whole arrays. *)
Record summary {W : Type} := {
  x_status : Z; x_config : config_t; x_password : list ascii; x_remote_password : list ascii; x_signals : Signals.sigstate; x_mutexes : Locks.mutexes; x_startup : list message; x_report : list cstr; x_statistics : message; x_world : W }.
Arguments summary : clear implicits.

Section Spine.
Context (files : cstr → option (list ascii)) (read_failed : cstr → bool).
Context {W : Type} `{MySQL W} `{Posix W} `{ScriptEnv W} `{Sockets W} `{Credentials W} `{WorkerEnv W}.
Context (ssl : list mysql_feature) (mysql_errno mysql_get_server_version : W → conn → Z) (spine_auth spine_priv : cstr).
Context (have_lcap : bool) (VERSION : cstr) (thread_safe : bool) (snmp_header : option cstr) (snmp_version : cstr) (mibs_variable : option cstr) (attributes : ThreadAttributes.attr_calls) (detachstate pid : Z).
(** Chosen when the program is configured. *)
Context (MAX_SIMULTANEOUS_SCRIPTS : Z).
(** What stands behind the terminators of the two passwords. *)
Context (behind remote_behind : list ascii).
(** The connections of the main thread, of the pools and of the transfer. *)
Context (mysql mysqlr local_base remote_base source destination : conn).
Context (available : W → Z * W) (shared_details : W → list (option poller_thread_t) → list (option poller_thread_t)) (workers_failed : W → bool).

(** From the selection of the devices on, which knows the settings. *)
Definition poll_and_exit (turns fuel : nat) (begin_time start_time : double) (set : config_t) (md : Z) (startup : list message) (signals : Signals.sigstate)
    (mutexes : Locks.mutexes) (rows : list row_t) (w : W) : option (outcome (summary W)) :=
  match worker_rows set rows with
  | Died st => Some (Died st)
  | Ok num_rows =>
      match (if ping_only set then Ok (true, w)
             else if md =? REMOTE then Sql.db_insert set ssl w mysqlr REMOTE (start_time_query set pid)
             else Sql.db_insert set ssl w mysql LOCAL (start_time_query set pid)) with
      | Died st => Some (Died st)
      | Ok (_, w) =>
          if negb (fst (ThreadAttributes.spine_thread_attr_init attributes) =? 0) || negb (detachstate =? 0) then Some (Died EXIT_FAILURE) else
          mutexes ← Locks.init_mutexes mutexes;
          if negb (fst (Permits.spine_permits_init (threads set)) =? 0) || negb (fst (Permits.spine_permits_init MAX_SIMULTANEOUS_SCRIPTS) =? 0) ||
             negb (fst (Permits.spine_permits_init 1) =? 0) then Some (Died EXIT_FAILURE) else
          match launch_with_database set ssl mysql start_time turns fuel w rows with
          | Died st => Some (Died st)
          | Ok None => None
          | Ok (Some (st, w)) =>
              waited ← Lifecycle.wait_for_workers available set fuel w begin_time;
              match waited with
              | Died st => Some (Died st)
              | Ok (_, w) =>
                  let report := report_worker_completion set num_rows (shared_details w (ls_details st)) in
                  match Transfer.persist_poll_completion set ssl mysql_errno w mysql mysqlr source destination (Some local_base)
                          (if md =? REMOTE then Some remote_base else None) pid md with
                  | Died st => Some (Died st)
                  | Ok (sync_failed, w) =>
                      w ← Startup.close_main_php fuel set w;
                      let w := mysql_close w mysql in
                      let w := if (1 <? poller_id set) && (mode set =? REMOTE_ONLINE) then mysql_close w mysqlr else w in
                      let '(end_time, w) := clock w in
                      local ← clear_password behind (da_password (c_database set));
                      remote ← clear_password remote_behind (da_password (c_remote_database set));
                      Some (Ok {| x_status := if ls_exit_failure st || workers_failed w || sync_failed then EXIT_FAILURE else 0;
                                  x_config := with_remote_database (with_password (c_str remote) (c_remote_database set))
                                                (with_database (with_password (c_str local) (c_database set)) set);
                                  x_password := local; x_remote_password := remote;
                                  x_signals := Signals.uninstall_spine_signal_handler signals; x_mutexes := mutexes;
                                  x_startup := startup; x_report := report; x_statistics := report_poll_statistics set begin_time end_time num_rows; x_world := w |})
                  end
              end
          end
      end
  end.

(** [None]: the fuel ran out. *)
Definition spine_run (turns fuel : nat) (stdout_tty stderr_tty : bool) (argv : list cstr) (signals : Signals.sigstate) (w : W) :
    option (outcome (summary W)) :=
  let '(start_time, w) := clock w in
  match Privileges.drop_privileges have_lcap w with
  | Died st => Some (Died st)
  | Ok (_, w) =>
      let signals := Signals.install_spine_signal_handler signals in
      let w := php_processes_initialize w 0 (Z.to_nat Script.MAX_PHP_SERVERS) in
      let '(begin_time, w) := clock w in
      started ← Startup.spine_start files read_failed ssl mysql_errno mysql_get_server_version spine_auth spine_priv stdout_tty stderr_tty argv w mysql mysqlr;
      match started with
      | Died st => Some (Died st)
      | Ok (_, set, _, _, w) =>
          match Startup.initialize_main_database ssl set w {| Pool.db_pool_local := []; Pool.db_pool_remote := [] |} mysql mysqlr local_base remote_base with
          | Died st => Some (Died st)
          | Ok (md, set, _, w) =>
              let startup := report_startup VERSION thread_safe set md in
              let '(icmp_avail, icmp_uses_caps, w) := Privileges.checkAsRoot have_lcap w in
              let set := with_icmp icmp_avail icmp_uses_caps set in
              match snmp_spine_init snmp_header snmp_version {| ds_flags _ := false; env_mibs := mibs_variable; initialized := false |} with
              | Died st => Some (Died st)
              | Ok _ =>
                  php ← Startup.initialize_main_php fuel set w;
                  match php with
                  | Died st => Some (Died st)
                  | Ok (set, w) =>
                      match Queries.select_poll_hosts set ssl w mysql with
                      | Died st => Some (Died st)
                      | Ok (None, w) => Some (Died EXIT_FAILURE)
                      | Ok (Some result, w) =>
                          poll_and_exit turns fuel begin_time start_time set md startup signals Locks.uninitialized (res_rows result) w
                      end
                  end
              end
          end
      end
  end.

End Spine.
End Spine.

(** * Lemmas *)

Module SpineFacts.
Import Workers Spine ScriptFacts.

(** ** Time *)

Lemma dlt_asym a b : dlt a b = true → dlt b a = false.
Proof.
  unfold dlt, SFltb. destruct a as [[]|[]| |[] m e], b as [[]|[]| |[] m' e']; cbn; try done.
  all: rewrite (Z.compare_antisym e e'); destruct (e ?= e') eqn:E; cbn; try done.
  all: change (Pos.compare_cont Eq m m') with (Pos.compare m m'); change (Pos.compare_cont Eq m' m) with (Pos.compare m' m);
    rewrite (Pos.compare_antisym m m'); by destruct (Pos.compare m m').
Qed.

(** ** Integers as doubles *)

Lemma size_shift p d : digits2_pos (Pos.iter xO p d) = (digits2_pos p + d)%positive.
Proof. induction d as [|d IH] using Pos.peano_ind; [cbn; lia|]. rewrite Pos.iter_succ. cbn [digits2_pos]. rewrite IH. lia. Qed.
Lemma size_bound p k : Z.pos p < 2 ^ k → Z.pos (digits2_pos p) ≤ k.
Proof.
  change (digits2_pos p) with (Pos.size p). intros Hp. pose proof (Pos.size_le p) as Hs.
  assert (H2 : 2 ^ Z.pos (Pos.size p) ≤ 2 * Z.pos p) by lia.
  destruct (Z.le_gt_cases (Z.pos (Pos.size p)) k) as [|Hk]; [done|].
  assert (0 ≤ k) by (destruct (Z.le_gt_cases 0 k); [done|]; rewrite Z.pow_neg_r in Hp by lia; lia).
  assert (2 ^ (k + 1) ≤ 2 ^ Z.pos (Pos.size p)) by (apply Z.pow_le_mono_r; lia). rewrite Z.pow_add_r in * by lia. lia.
Qed.
Lemma round_small s p : Z.pos (digits2_pos p) < prec → ∃ m, binary_round prec emax s p 0 = S754_finite s m (Z.pos (digits2_pos p) - prec).
Proof.
  intros Hp. set (n := digits2_pos p) in *.
  assert (Hf : ∀ x, x = Z.pos n → fexp prec emax x = Z.pos n - prec) by (intros x ->; unfold fexp, SpecFloat.emin, prec, emax; lia).
  unfold binary_round. fold n. rewrite Hf by lia. unfold shl_align.
  destruct (Z.pos n - prec - 0) as [|d|d] eqn:Ed; try (unfold prec in *; lia).
  assert (Hz : Zdigits2 (Z.pos (Pos.iter xO p d)) + (Z.pos n - prec) = Z.pos n) by (cbn [Zdigits2]; rewrite size_shift; fold n; unfold prec in *; lia).
  assert (Hs : ∀ l, shr_fexp prec emax (Z.pos (Pos.iter xO p d)) (Z.pos n - prec) l = (shr_record_of_loc (Z.pos (Pos.iter xO p d)) l, Z.pos n - prec)).
  { intros l. unfold shr_fexp. rewrite Hz, (Hf _ eq_refl), Z.sub_diag. done. }
  unfold binary_round_aux. rewrite Hs. cbn [shr_m shr_record_of_loc loc_of_shr_record round_nearest_even]. rewrite Hs.
  cbn [shr_m shr_record_of_loc]. rewrite (proj2 (Z.leb_le _ _)) by (unfold prec, emax in *; lia). by eexists.
Qed.
Lemma int_below z m e : INT_MIN ≤ z ≤ INT_MAX → -21 ≤ e → dlt (of_int z) (S754_finite false m e) = true.
Proof.
  intros Hz He. unfold of_int, binary_normalize. destruct z as [|p|p]; [done|..].
  - pose proof (size_bound p 31 ltac:(unfold INT_MAX in Hz; lia)). destruct (round_small false p) as [m' ->]; [unfold prec; lia|].
    unfold dlt, SFltb, SFcompare, prec. by rewrite (proj2 (Z.compare_lt_iff _ _)) by lia.
  - pose proof (size_bound p 32 ltac:(unfold INT_MIN in Hz; lia)). by destruct (round_small true p) as [m' ->]; [unfold prec; lia|].
Qed.

(** [left] bounds the readings of the clock that are still before the deadline; the calls
    between two readings do not turn the clock back. *)
Record time_passes {W} `{WorkerEnv W} (available : W → Z * W) (interval : Z) (start : double) (left : W → nat) : Prop := {
  acquire_left w p : (left (permits_try_acquire w p).2 ≤ left w)%nat;
  create_left w d : (left (pthread_create w d).2 ≤ left w)%nat;
  available_left w : (left (available w).2 ≤ left w)%nat;
  pause_left w n : (left (pause w n) ≤ left w)%nat;
  clock_left w : (left (clock w).2 ≤ left w)%nat;
  clock_passes w : dlt (of_int interval) (dsub (clock w).1 start) = true ∨ (left (clock w).2 < left w)%nat }.

Section Waits.
Context {W} `{WorkerEnv W} (available : W → Z * W) (set : config_t) (start : double) (left : W → nat).
Hypothesis time : time_passes available (poller_interval set) start left.

Lemma permit_wait_ends fuel p : ∀ w r, (left w < fuel)%nat → wait_for_worker_permit set start fuel w p r ≠ None.
Proof.
  induction fuel as [|f IH]; intros w r Hf; [lia|]. cbn [wait_for_worker_permit].
  pose proof (acquire_left _ _ _ _ time w p) as Ha. destruct (permits_try_acquire w p) as [e w1]. cbn [snd] in Ha.
  destruct (e =? 0); [done|].
  assert (Hturn : ∀ w2 r', (left w2 ≤ left w)%nat →
    (let '(total, w3) := clock (pause w2 10000) in
     if dlt (of_int (poller_interval set)) (dsub total start) then Some (false, w3) else wait_for_worker_permit set start f w3 p r') ≠ None).
  { intros w2 r' H2. pose proof (pause_left _ _ _ _ time w2 10000). pose proof (clock_passes _ _ _ _ time (pause w2 10000)) as Hc.
    destruct (clock (pause w2 10000)) as [now w3]. cbn [fst snd] in Hc. destruct (dlt _ _); [done|]. destruct Hc; [done|]. apply IH. lia. }
  destruct (r + 1 =? 10); [|by apply Hturn]. pose proof (clock_left _ _ _ _ time w1) as Hc. destruct (clock w1) as [now w2]. cbn [snd] in Hc.
  destruct (dlt _ _); [done|]. apply Hturn. lia.
Qed.

Lemma create_ends fuel d : ∀ w, (left w < fuel)%nat → create_worker set start fuel w d ≠ None.
Proof.
  induction fuel as [|f IH]; intros w Hf; [lia|]. cbn [create_worker].
  pose proof (create_left _ _ _ _ time w d) as Ha. destruct (pthread_create w d) as [e w1]. cbn [snd] in Ha. destruct (e =? Permits.EAGAIN); [|done].
  pose proof (pause_left _ _ _ _ time w1 10000). pose proof (clock_passes _ _ _ _ time (pause w1 10000)) as Hc.
  destruct (clock (pause w1 10000)) as [now w2]. cbn [fst snd] in Hc. destruct Hc as [Hc%dlt_asym|Hc]; [by rewrite Hc|].
  destruct (dlt _ _); [|done]. apply IH. lia.
Qed.

Lemma start_ends_in_time fuel w d k : (∀ w, (left w < fuel)%nat) → start_poll_worker set start fuel w d k ≠ None.
Proof.
  intros Hf. unfold start_poll_worker, acquire_worker_permits.
  destruct (wait_for_worker_permit set start fuel w _ 0) as [[[] w1]|] eqn:E1; cbn [mbind option_bind negb]; [|done|by apply permit_wait_ends in E1].
  destruct (wait_for_worker_permit set start fuel w1 _ 0) as [[[] w2]|] eqn:E2; cbn [mbind option_bind negb]; [|done|by apply permit_wait_ends in E2].
  destruct (create_worker set start fuel w2 _) as [[st w3]|] eqn:E3; cbn [mbind option_bind]; [|by apply create_ends in E3]. by destruct (_ =? 0).
Qed.

(** ** The launch loop *)

Variable count_items : W → Z → Z → bool → outcome (Z * W).

Definition row_partitions (row : row_t) : nat := match column row 1 with Some n => Z.to_nat (Z.max 1 (atoi n)) | None => 1%nat end.
(** The partitions that are still to be started, at most. *)
Definition partitions_left (st : launch_state) : nat :=
  (if ls_change st then 0 else Z.to_nat (p_threads (ls_partition st) - ls_thread st)) + sum_list_with row_partitions (ls_rows st).
Definition launching (st : launch_state) : Prop := ls_change st = false → 0 ≤ ls_thread st < p_threads (ls_partition st).

Lemma update_time_threads w p p' w' : update_partition_time w p = Ok (p', w') → p_threads p' = p_threads p.
Proof.
  unfold update_partition_time. destruct (time_now w) as [t w1]. intros (ts & _ & E)%obind_Ok. destruct (clock w1) as [now w2]. by injection E as <- <-.
Qed.

Lemma prepare_threads w host k p p' w' : prepare_device_partition set count_items w host k p = Ok (p', w') →
  p_threads p' ≤ Z.max 1 (p_threads p).
Proof.
  unfold prepare_device_partition. intros ([p1 w1] & E1 & E)%obind_Ok.
  assert (H1 : p_threads p1 ≤ Z.max 1 (p_threads p)).
  { destruct (ping_only set); [injection E1 as <- <-; cbn; lia|]. apply obind_Ok in E1 as ([n w2] & _ & E1). injection E1 as <- <-.
    destruct (Z.eqb_spec n 0), (Z.ltb_spec n (p_threads p)); cbn; lia. }
  assert (H2 : p_threads p' = p_threads p1); [|lia]. destruct (1 <? p_threads p1).
  - destruct (k =? 1); [apply obind_Ok in E as ([n w2] & _ & E); by apply update_time_threads in E|].
    destruct (deq _ _); [by apply update_time_threads in E|by injection E as <- <-].
  - apply obind_Ok in E as ([n w2] & _ & E). by apply update_time_threads in E.
Qed.

Lemma next_left st p k host rows : launching st → next_partition st = Some (p, k, host, rows) →
  1 ≤ k ≤ p_threads p ∧ (Z.to_nat (p_threads p - k) + sum_list_with row_partitions rows < partitions_left st)%nat.
Proof.
  unfold next_partition, partitions_left, launching. intros Hl. destruct (ls_change st).
  - destruct (ls_rows st) as [|row rs]; [done|]. destruct (column row 0); [|done]. destruct (column row 1) as [n|] eqn:En; [|done].
    intros [= <- <- <- <-]. cbn [set_threads p_threads sum_list_with]. unfold row_partitions at 2. rewrite En. lia.
  - intros [= <- <- <- <-]. specialize (Hl eq_refl). lia.
Qed.

Lemma launch_loop_ends fuel num_rows : (∀ w, (left w < fuel)%nat) → ∀ turns w st, launching st → (partitions_left st < turns)%nat →
  launch_loop set start count_items turns fuel w num_rows st ≠ Ok None.
Proof.
  intros Hf. induction turns as [|n IH]; intros w st Hl Ht; [lia|]. cbn [launch_loop]. destruct (num_rows <=? ls_device st)%nat; [done|].
  unfold launch_step. destruct (next_partition st) as [[[[p k] host] rows]|] eqn:En; [|done]. apply next_left in En as [Hk Hlt]; [|done].
  destruct (prepare_device_partition set count_items w host k p) as [[p1 w1]|] eqn:Ep; cbn [obind]; [|done]. apply prepare_threads in Ep.
  destruct (_ !! ls_device st) as [[d|]|]; [|done..].
  destruct (start_poll_worker set start fuel w1 d k) as [[started w2]|] eqn:Es; [|by apply start_ends_in_time in Es]. cbn [obind].
  destruct started; cbn [negb]; [|done]. apply IH; unfold launching, partitions_left; cbn [ls_change ls_thread ls_partition ls_rows].
  - intros E. blia.
  - destruct (Z.leb_spec (p_threads p1) k); lia.
Qed.

End Waits.

(** ** The end *)

(** An array of a password in which no byte is left. *)
Definition wiped : list ascii := replicate (Z.to_nat BUFSIZE) NUL.
Lemma clear_password_wipes behind password : clear_password behind password = Some wiped.
Proof.
  assert (El : length (password_array behind password) = Z.to_nat BUFSIZE).
  { unfold password_array. rewrite length_take, length_app. cbn [length]. rewrite length_app, length_replicate. lia. }
  unfold clear_password. rewrite BufferFacts.clear_sensitive_from by (rewrite El; lia). by rewrite take_0, drop_ge, app_nil_r by (rewrite El; lia).
Qed.
Lemma c_str_wiped : c_str wiped = [].
Proof. unfold wiped, BUFSIZE. change (Z.to_nat 1024) with 1024%nat. by rewrite (replicate_S 1023). Qed.

Section Ends.
Context (files : cstr → option (list ascii)) (read_failed : cstr → bool).
Context {W : Type} `{MySQL W} `{Posix W} `{ScriptEnv W} `{Sockets W} `{Credentials W} `{WorkerEnv W}.
Context (ssl : list mysql_feature) (mysql_errno mysql_get_server_version : W → conn → Z) (spine_auth spine_priv : cstr).
Context (have_lcap : bool) (VERSION : cstr) (thread_safe : bool) (snmp_header : option cstr) (snmp_version : cstr) (mibs_variable : option cstr) (attributes : ThreadAttributes.attr_calls) (detachstate pid : Z).
Context (MAX_SIMULTANEOUS_SCRIPTS : Z) (behind remote_behind : list ascii) (mysql mysqlr local_base remote_base source destination : conn).
Context (available : W → Z * W) (shared_details : W → list (option poller_thread_t) → list (option poller_thread_t)) (workers_failed : W → bool).
Abbreviation finish := (poll_and_exit ssl mysql_errno attributes detachstate pid MAX_SIMULTANEOUS_SCRIPTS behind remote_behind mysql mysqlr local_base remote_base
  source destination available shared_details workers_failed).
Abbreviation run := (spine_run files read_failed ssl mysql_errno mysql_get_server_version spine_auth spine_priv have_lcap VERSION thread_safe snmp_header snmp_version
  mibs_variable attributes detachstate pid MAX_SIMULTANEOUS_SCRIPTS behind remote_behind mysql mysqlr local_base remote_base source destination available shared_details workers_failed).

(** What a run that reaches its last line leaves. *)
Definition tidy (signals : Signals.sigstate) (x : summary W) : Prop :=
  (x_status x = 0 ∨ x_status x = EXIT_FAILURE) ∧
  x_password x = wiped ∧ x_remote_password x = wiped ∧
  da_password (c_database (x_config x)) = [] ∧ da_password (c_remote_database (x_config x)) = [] ∧
  x_signals x = Signals.uninstall_spine_signal_handler signals ∧
  ∀ l, Locks.once_ran (x_mutexes x) l = true ∧ Locks.inits (x_mutexes x) l = 1%nat.

Lemma launch_ends set start left fuel rows : time_passes available (poller_interval set) start left → (∀ w, (left w < fuel)%nat) →
  ∃ turns, ∀ w, launch_with_database set ssl mysql start turns fuel w rows ≠ Ok None.
Proof.
  intros Ht Hf. exists (S (S (sum_list_with row_partitions rows))). intros w. unfold launch_with_database, launch_poll_workers.
  destruct (worker_rows set rows) as [n|]; cbn [obind]; [|done]. eapply launch_loop_ends; [done|done|..].
  - unfold launching. cbn. lia.
  - unfold partitions_left. cbn. destruct (negb _); lia.
Qed.

Lemma wait_ends set start left fuel w : time_passes available (poller_interval set) start left → (∀ w, (left w < fuel)%nat) →
  ∃ r, Lifecycle.wait_for_workers available set fuel w start = Some r.
Proof.
  intros Ht Hf. destruct (LifecycleFacts.wait_for_workers_returns available set start left (available_left _ _ _ _ Ht) (pause_left _ _ _ _ Ht)
    (clock_passes _ _ _ _ Ht) fuel w (Hf w)) as [->|(n & w' & -> & _)]; by eexists.
Qed.

Lemma poll_and_exit_ends fuel begin_time start_time set md startup signals rows w :
  no_signals (W := W) → RESULTS_BUFFER ≤ Z.of_nat fuel →
  (∀ t, t = start_time ∨ t = begin_time → ∃ left, time_passes available (poller_interval set) t left ∧ ∀ w', (left w' < fuel)%nat) →
  ∃ turns r, finish turns fuel begin_time start_time set md startup signals Locks.uninitialized rows w = Some r ∧ ∀ x, r = Ok x → tidy signals x.
Proof.
  intros Hn Hf Ht. destruct (Ht start_time (or_introl eq_refl)) as (left & Hs & Hl). destruct (Ht begin_time (or_intror eq_refl)) as (left' & Hb & Hl').
  destruct (launch_ends set start_time left fuel rows Hs Hl) as (turns & Hlaunch). exists turns. unfold poll_and_exit.
  destruct (worker_rows set rows) as [num_rows|]; [|by eexists].
  match goal with |- context [match ?insert with Ok _ => _ | Died _ => _ end] => destruct insert as [[b w1]|]; [|by eexists] end.
  destruct (_ || negb (detachstate =? 0)); [by eexists|].
  destruct (ThreadsFacts.init_mutexes_once Locks.uninitialized (fun _ => eq_refl)) as (mutexes & -> & Hm & _). cbn [mbind option_bind].
  destruct (_ || _); [by eexists|]. specialize (Hlaunch w1).
  destruct (launch_with_database set ssl mysql start_time turns fuel w1 rows) as [[[st w2]|]|]; [|done|by eexists].
  destruct (wait_ends set begin_time left' fuel w2 Hb Hl') as [waited ->]. cbn [mbind option_bind].
  destruct waited as [[n w3]|]; [|by eexists].
  destruct (Transfer.persist_poll_completion _ _ _ _ _ _ _ _ _ _ _ _) as [[sync w4]|]; [|by eexists].
  assert (Hphp : ∃ w5, Startup.close_main_php fuel set w4 = Some w5).
  { unfold Startup.close_main_php. destruct (Startup.php_wanted set); [apply php_close_total; [done|by eapply fuel_positive]|by eexists]. }
  destruct Hphp as [w5 ->]. cbn [mbind option_bind]. destruct (clock _) as [end_time w6]. rewrite !clear_password_wipes. cbn [mbind option_bind].
  eexists. split; [done|]. intros x [= <-]. unfold tidy. cbn [x_status x_config x_password x_remote_password x_signals x_mutexes].
  split; [by destruct (_ || _); [right|left]|]. do 2 (split; [done|]). split; [apply c_str_wiped|]. by split; [apply c_str_wiped|].
Qed.

(** The readings the deadlines are counted from. *)
Definition start_reading (w : W) (t : double) : Prop :=
  t = (clock w).1 ∨ ∃ u w1, Privileges.drop_privileges have_lcap (clock w).2 = Ok (u, w1) ∧
    t = (clock (php_processes_initialize w1 0 (Z.to_nat Script.MAX_PHP_SERVERS))).1.

Lemma main_database_interval set w p md set' p' w' :
  Startup.initialize_main_database ssl set w p mysql mysqlr local_base remote_base = Ok (md, set', p', w') →
  poller_interval set' = poller_interval set.
Proof. intros (_ & _ & _ & _ & ->)%StartProperties.main_database_ready. done. Qed.

Lemma main_php_interval fuel set w set' w' : Startup.initialize_main_php fuel set w = Some (Ok (set', w')) →
  poller_interval set' = poller_interval set.
Proof.
  unfold Startup.initialize_main_php. destruct (Startup.php_wanted set); [|by intros [= <- <-]].
  destruct (Script.php_init _ _ _ _) as [[ok w1]|]; cbn [mbind option_bind]; [|done]. destruct (_ || _); [done|]. by intros [= <- <-].
Qed.
Lemma main_php_ends fuel set w : no_signals (W := W) → RESULTS_BUFFER ≤ Z.of_nat fuel → ∃ r, Startup.initialize_main_php fuel set w = Some r.
Proof.
  intros Hn Hf. unfold Startup.initialize_main_php. destruct (Startup.php_wanted set); [|by eexists].
  destruct (php_init_total set fuel w Script.PHP_INIT Hn Hf) as (ok & w1 & ->). cbn [mbind option_bind]. destruct (_ || _); by eexists.
Qed.

(** C6: the program ends and cleans up.  For all arguments without NUL bytes, all files
    and all contents of the database; with system calls that no signal interrupts, a fuel
    that covers a whole answer of a script server, and a clock that gets past the polling
    interval, counted from its first and from its second reading, within [fuel] further
    readings whatever else happens in between: [spine_run] ends - it exits early, or it
    reaches its last line.  There the exit code is 0 or 1, every byte of
    both password arrays is zero, whatever stood behind the passwords, the signal handlers are taken down again, and every lock was
    initialised exactly once. *)
Theorem spine_run_ends (fuel : nat) (stdout_tty stderr_tty : bool) (argv : list cstr) (signals : Signals.sigstate) (w : W)
  (Hargv : Forall nul_free argv) (Hsignals : no_signals (W := W)) (Hfuel : RESULTS_BUFFER ≤ Z.of_nat fuel)
  (Htime : ∀ interval t, INT_MIN ≤ interval ≤ INT_MAX → start_reading w t →
           ∃ left, time_passes available interval t left ∧ ∀ w', (left w' < fuel)%nat) :
  ∃ turns r, run turns fuel stdout_tty stderr_tty argv signals w = Some r ∧
    ∀ x, r = Ok x → tidy (Signals.install_spine_signal_handler signals) x.
Proof.
  unfold spine_run. unfold start_reading in Htime. destruct (clock w) as [start_time w1]. cbn [fst snd] in Htime.
  destruct (Privileges.drop_privileges have_lcap w1) as [[u w2]|]; [|by exists 0%nat; eexists]. cbv zeta.
  destruct (clock (php_processes_initialize w2 0 (Z.to_nat Script.MAX_PHP_SERVERS))) as [begin_time w3] eqn:Ec.
  destruct (StartProperties.start_ends files read_failed ssl mysql_errno mysql_get_server_version spine_auth spine_priv stdout_tty stderr_tty argv w3
    mysql mysqlr Hargv) as (r & -> & Hr). cbn [mbind option_bind].
  destruct r as [[[[[fmt set] store] devices] w4]|]; [|by exists 0%nat; eexists]. specialize (Hr _ _ _ _ _ eq_refl).
  destruct (Startup.initialize_main_database _ _ _ _ _ _ _ _) as [[[[md set1] p1] w5]|] eqn:Ed; [|by exists 0%nat; eexists].
  apply main_database_interval in Ed. destruct (Privileges.checkAsRoot have_lcap w5) as [[avail caps] w6].
  destruct (snmp_spine_init _ _ _); [|by exists 0%nat; eexists].
  destruct (main_php_ends fuel (with_icmp avail caps set1) w6 Hsignals Hfuel) as [php Ep]. rewrite Ep. cbn [mbind option_bind].
  destruct php as [[set2 w7]|]; [|by exists 0%nat; eexists]. apply main_php_interval in Ep. change (poller_interval (with_icmp avail caps set1)) with (poller_interval set1) in Ep.
  destruct (Queries.select_poll_hosts set2 ssl w7 mysql) as [[[result|] w8]|]; [|by exists 0%nat; eexists..].
  apply poll_and_exit_ends; [done|done|]. rewrite Ep, Ed. intros t Ht. apply Htime; [done|].
  destruct Ht as [->| ->]; [by left|right]. exists u, w2. by rewrite Ec.
Qed.

End Ends.
End SpineFacts.

(** ** The report *)

Module ReportFacts.
Import Workers Spine.

Definition errors_of (d : poller_thread_t) : list cstr :=
  (if pt_output_failed d then [$"ERROR: Device[" ++ sdec (pt_host_id d) ++ $"] output persistence failed; due items remain scheduled for retry"] else []) ++
  (if pt_poll_failed d then [$"ERROR: Device[" ++ sdec (pt_host_id d) ++ $"] polling failed on a database error; due items remain scheduled for retry"] else []).

Lemma report_launched k ds : ∀ i, report_loop i (map Some ds ++ replicate k None) =
  (concat (map errors_of ds), match k with O => None | _ => Some (i + Z.of_nat (length ds)) end).
Proof.
  assert (Hnone : ∀ i, report_loop i (replicate k None) = ([], match k with O => None | _ => Some i end)).
  { induction k as [|k IH]; intros i; [done|]. cbn [replicate report_loop]. by rewrite IH. }
  induction ds as [|d ds IH]; intros i; cbn [map app report_loop concat length].
  - rewrite Hnone. destruct k; [done|]. by rewrite Z.add_0_r.
  - rewrite IH. unfold errors_of at 2. rewrite <- app_assoc. destruct k; [done|]. by replace (i + 1 + Z.of_nat (length ds)) with (i + Z.of_nat (S (length ds))) by lia.
Qed.

(** Every failure is reported: with entries for the first devices and none for the [k]
    others, the report has the errors of each entry in order and, if [k] is not 0, the
    number of devices that were not started; in a ping-only run there is no report. *)
Theorem report_names_failures (set : config_t) (ds : list poller_thread_t) (k : nat) :
  report_worker_completion set (Z.of_nat (length ds + k)) (map Some ds ++ replicate k None) =
  if ping_only set then []
  else concat (map errors_of ds) ++ match k with
                                    | O => []
                                    | _ => [$"WARNING: There were " ++ sdec (Z.of_nat k) ++ $" threads which did not run"]
                                    end.
Proof.
  unfold report_worker_completion. destruct (ping_only set); [done|]. rewrite Nat2Z.id, take_ge by (rewrite length_app, length_map, length_replicate; lia).
  rewrite report_launched. destruct k; [done|]. by replace (Z.of_nat (length ds + S k) - (0 + Z.of_nat (length ds))) with (Z.of_nat (S k)) by lia.
Qed.
End ReportFacts.

(** ** An example *)

Module SampleHost.
Import Workers Spine SpineFacts ScriptFacts.

(** The last statement sent to the database, and the readings of the clock so far. *)
Definition world : Type := cstr * nat.

(** One device with two partitions and ten items; every other table is empty. *)
Definition tables : MySQL world := {|
  mysql_query w _ q := (0, (q, snd w));
  mysql_store_result w _ := (Some {| res_fields := 2; res_rows :=
    if STRMATCH (fst w) ($"SELECT cacti FROM version LIMIT 1") then [[Some ($"1.2.30")]]
    else if has_substr (fst w) ($"ORDER BY picount") then [[Some ($"7"); Some ($"2")]]
    else if has_substr (fst w) ($"COUNT(local_data_id)") then [[Some ($"10")]] else [] |}, w);
  mysql_thread_id _ _ := 1; mysql_ping w _ := (0, w); mysql_close w _ := w; mysql_init w _ := (true, w);
  mysql_options w _ _ := (0, w); mysql_real_connect w _ _ := (0, w); mysql_real_escape_string _ _ s := s;
  errno_is_EINTR _ := false; stat_socket _ _ := None; sleep_usec w _ := w |}.
Definition processes : Posix world := {|
  pipe w := (None, w); socketpair w := (None, w); dup w _ := (-1, w); Process.close w _ := w; Process.fcntl w _ _ := (-1, w);
  attempt_malloc w := (false, w); file_actions_init w := (12, w); file_actions_add w _ := (12, w); spawnattr w _ := (12, w);
  posix_spawn w _ _ _ _ := (12, 0, w); waitpid w _ := (WaitError 10, w); kill w _ _ := w; Process.usleep w _ := w;
  Process.monotonic_time w := (of_int 1, w); list_lock w := w; list_unlock w := w;
  get_registry _ := {| pid_list := []; abandoned := [] |}; put_registry w _ := w |}.
Definition no_servers : ScriptEnv world := {|
  get_slot _ _ := {| php_state := 1; php_pid := -1; php_write_fd := -1; php_read_fd := -1 |}; put_slot w _ _ := w;
  slot_trylock w _ := (true, w); slot_lock w _ := w; slot_unlock w _ := w; write_fd w _ s := (-1, w);
  select_fd w _ _ := (SelError, w); wait_readable w _ _ := (-1, w); read_fd w _ _ := (RdEnd, w); script_clock w := (of_int 1, w) |}.
Definition no_network : Sockets world := {|
  socket w _ _ _ _ := (Err 1, w); Ping.fcntl w _ _ := (Err 9, w); setsockopt w _ _ := (Err 9, w); getsockopt_error w _ := (Err 9, w);
  connect w _ _ := (Err 9, w); send w _ _ := (Err 9, w); sendto w _ _ _ := (Err 9, w); recv w _ := (RecvErr 9, w); recvfrom w _ := (RecvErr 9, w);
  select w _ _ _ := (Err 9, w); Ping.close w _ := w; Ping.monotonic_time w := (of_int 1, w); Ping.get_time_as_double w := (of_int 1, w); Ping.usleep w _ := w;
  getaddrinfo w _ := (Resolve.GaiError, w); getaddrinfo6 w _ := (Gai6Error, w); getifaddrs w := (None, w); if_nametoindex w _ := (0, w);
  getpid _ := 4242; seq_lock w := w; seq_unlock w := w; get_seq _ _ := 0; put_seq w _ _ := w; shared_fd _ _ := -1; set_shared_fd w _ _ := w;
  shared_register w _ := w; shared_unregister w _ := w; shared_await w _ _ := (false, w) |}.
Definition user : Credentials world := {|
  getuid _ := 1000; geteuid _ := 1000; getgid _ := 1000; getegid _ := 1000; setuid w u := (u =? 1000, w); setgid w u := (u =? 1000, w);
  seteuid w u := (u =? 1000, w); setegid w u := (u =? 1000, w); setreuid w r e := ((r =? 1000) && (e =? 1000), w);
  setregid w r e := ((r =? 1000) && (e =? 1000), w); setgroups_none w := (false, w); set_keepcaps w _ := (true, w); cap_from_text w := (true, w);
  cap_set_net_raw w := (false, w); cap_get_proc w := (true, w); cap_permitted _ _ := false; cap_effective _ _ := Some false |}.
(** The clock jumps by 2^40 seconds three times. *)
Definition reading (n : nat) : double := match n with O => of_int 0 | 1%nat => of_int (2 ^ 40) | 2%nat => of_int (2 * 2 ^ 40) | _ => of_int (3 * 2 ^ 40) end.
Definition workers : WorkerEnv world := {|
  permits_try_acquire w _ := (0, w); permits_release w _ := w; clock w := (reading (snd w), (fst w, S (snd w))); pause w _ := w;
  time_now w := (1700000000, w); pthread_create w _ := (0, w) |}.
Definition available (w : world) : Z * world := (100, w).
Definition attributes : ThreadAttributes.attr_calls :=
  {| ThreadAttributes.attr_init := 0; ThreadAttributes.default_stack := Some 8388608; ThreadAttributes.set_stack _ := 0; ThreadAttributes.stack_min := Some 16384 |}.
Definition default_signals : Signals.sigstate :=
  {| Signals.disposition _ := {| Signals.sa_handler := Signals.SIG_DFL; Signals.sa_mask := []; Signals.sa_flags := 0 |}; Signals.blocked := ∅; Signals.pending := ∅ |}.
Definition argv : list cstr := [$"1"; $"20"].
Definition conf (name : cstr) : option (list ascii) :=
  if STRMATCH name ($"spine.conf") then Some (ConfFileFacts.file_of [($"DB_Host", $"db"); ($"DB_Pass", $"secret")]) else None.

Definition run (turns : nat) := spine_run (H := tables) (H0 := processes) (H1 := no_servers) (H2 := no_network) (H3 := user) (H4 := workers)
  conf (fun _ => false) [] (fun _ _ => 0) (fun _ _ => 80030) [] [] false ($"1.3.0") true None [] None attributes 0 4242 20 ($"left behind") [] 0%nat 1%nat 2%nat 9%nat 16%nat 17%nat
  available (fun _ l => l) (fun _ => false) turns (Z.to_nat RESULTS_BUFFER) true true argv default_signals ([], 0%nat).

Lemma waits_pass interval t : INT_MIN ≤ interval ≤ INT_MAX → t = reading 0 ∨ t = reading 1 →
  time_passes (H := workers) available interval t (fun w => 3 - snd w)%nat.
Proof.
  intros Hi Ht. split; cbn; intros; try lia. destruct w as [q [|[|[|n]]]]; cbn; try (right; lia). left.
  destruct Ht as [->| ->]; match goal with |- dlt _ ?d = true => let v := eval vm_compute in d in change d with v end; by apply int_below.
Qed.
End SampleHost.

Lemma spine_run_ends_witness :
  match SampleHost.run 5 with Some (Ok x) => (Spine.x_status x, Spine.x_report x) = (0, []) | _ => False end ∧
  ∃ turns r, SampleHost.run turns = Some r ∧ ∀ x, r = Ok x → SpineFacts.tidy (Signals.install_spine_signal_handler SampleHost.default_signals) x.
Proof.
  split; [by vm_compute|]. unfold SampleHost.run. apply SpineFacts.spine_run_ends.
  - apply (bool_decide_unpack _). vm_compute. exact I.
  - by split.
  - by vm_compute.
  - intros interval t Hi Ht. eexists. split; [apply SampleHost.waits_pass; [done|]|intros [q n]; cbn; unfold RESULTS_BUFFER; lia].
    destruct Ht as [Ht|(u & w1 & E & Ht)]; [by left|right]. vm_compute in E. injection E as <- <-. exact Ht.
Defined.
