(* ===== verification/Frame.v ===== *)
(** What the database and the script servers leave alone: a property of the world that every
    call of the client library keeps is kept by every statement, by the transfer and by the
    end of a run; likewise for the calls that end a script server. *)

From S2P Require Import Prelude CLib Buffer Result Settings Sql Pool Queries Persist Transfer Workers Process Script Config Cli.

Section Frame.
Context {W : Type} (P : W → Prop).

(** Every way to go on keeps the property. *)
Definition ends {A} (o : outcome (A * W)) : Prop := match o with Ok x => P x.2 | Died _ => True end.

Lemma ends_bind {A B} (o : outcome (A * W)) (k : A * W → outcome (B * W)) : ends o → (∀ a w, P w → ends (k (a, w))) → ends (obind o k).
Proof. destruct o as [[a w]|]; cbn; [|done]. intros Hw Hk. by apply Hk. Qed.

End Frame.

(** One step of a proof that a program keeps a property. *)
Ltac keep :=
  match goal with
  | |- ends _ (obind _ _) => apply ends_bind; [|intros ? ? ?]
  | |- ends _ (Died _) => exact I
  | |- ends _ (Ok _) => cbn [ends snd]
  | |- ends _ (match ?b with true => _ | false => _ end) => destruct b eqn:?
  | |- ?Q (match ?b with true => _ | false => _ end) => destruct b eqn:?
  | |- ?Q (snd (match ?b with true => _ | false => _ end)) => destruct b eqn:?
  end; cbn [fst snd].
(** A call that returns a result and the world. *)
Ltac keep_call H := let K := fresh "K" in pose proof H as K; match type of K with _ (snd ?e) => destruct e as [? ?] end; cbn [fst snd] in K.

(** * The database *)

Section Database.
Context {W : Type} `{MySQL W} (P : W → Prop).

Record client_keeps : Prop := {
  query_keeps w c q : P w → P (mysql_query w c q).2;
  store_keeps w c : P w → P (mysql_store_result w c).2;
  ping_keeps w c : P w → P (mysql_ping w c).2;
  close_keeps w c : P w → P (mysql_close w c);
  init_keeps w c : P w → P (mysql_init w c).2;
  options_keeps w c o : P w → P (mysql_options w c o).2;
  connect_keeps w c a : P w → P (mysql_real_connect w c a).2;
  sleep_keeps w n : P w → P (sleep_usec w n) }.
Context (keeps : client_keeps) (set : config_t) (ssl : list mysql_feature).

Lemma set_options_keeps c opts : ∀ w, P w → match Connection.db_set_options w c opts with Ok w' => P w' | Died _ => True end.
Proof.
  induction opts as [|o opts IH]; intros w Hw; [done|]. cbn [Connection.db_set_options]. unfold Connection.db_set_option.
  keep_call (options_keeps keeps w c o Hw). by destruct (_ =? 0); [apply IH|].
Qed.
Lemma connect_loop_keeps c a n : ∀ w, P w → P (Connection.connect_loop n w c a).2.
Proof.
  induction n as [|n IH]; intros w Hw; [done|]. cbn [Connection.connect_loop]. keep_call (connect_keeps keeps w c a Hw).
  repeat keep; try done; by apply IH, sleep_keeps.
Qed.
Lemma db_connect_keeps w type c : P w → ends P (Connection.db_connect set ssl w type c).
Proof.
  intros Hw. unfold Connection.db_connect. keep_call (init_keeps keeps w c Hw). keep; [done|].
  pose proof (set_options_keeps c (Connection.connection_options set ssl type) _ K) as K2.
  destruct (Connection.db_set_options _ _ _) as [w2|]; cbn [obind]; [|done]. by apply connect_loop_keeps.
Qed.
Lemma set_modes_keeps c ms : ∀ w, P w → P (Sql.set_modes w c ms).2.
Proof.
  induction ms as [|m ms IH]; intros w Hw; [done|]. cbn [Sql.set_modes]. keep_call (query_keeps keeps w c (Sql.session_mode_query m) Hw).
  keep; [by apply IH|done].
Qed.
Lemma reconnect_keeps w c type : P w → ends P (Sql.db_reconnect set ssl w c type).
Proof.
  intros Hw. unfold Sql.db_reconnect, Sql.db_set_session_mode. keep_call (ping_keeps keeps w c Hw). keep.
  - match goal with |- context [mysql_query ?w ?c ?q] => keep_call (query_keeps keeps w c q K) end.
    match goal with |- context [Sql.set_modes ?w ?c ?ms] => keep_call (set_modes_keeps c ms w K0) end. keep; [done|]. by apply sleep_keeps.
  - keep; [done|]. keep; [by apply db_connect_keeps, close_keeps|]. keep; [|done].
    match goal with |- context [Sql.set_modes ?w ?c ?ms] => by keep_call (set_modes_keeps c ms w ltac:(done)) end.
Qed.
Lemma retry_keeps w c type count : P w → ends P (Sql.retry_disconnected_query set ssl w c type count).
Proof.
  intros Hw. unfold Sql.retry_disconnected_query. keep; [done|]. keep; [by apply sleep_keeps|]. keep; [by apply reconnect_keeps|done].
Qed.
Lemma statement_keeps c type q fuel : ∀ w count, P w → ends P (Sql.statement_loop set ssl fuel w c type q count).
Proof.
  induction fuel as [|f IH]; intros w count Hw; [done|]. cbn [Sql.statement_loop]. keep_call (query_keeps keeps w c q Hw). keep; [done|]. keep.
  - keep; [by apply retry_keeps|]. match goal with x : bool * Z |- _ => destruct x as [again count'] end. by keep; [apply IH|].
  - keep; [|done]. by keep; [apply sleep_keeps|apply IH, sleep_keeps].
Qed.
Lemma db_insert_keeps w c type q : P w → ends P (Sql.db_insert set ssl w c type q).
Proof. intros Hw. unfold Sql.db_insert. keep; [done|]. keep; [by apply statement_keeps|done]. Qed.
Lemma db_query_keeps w c type q : P w → ends P (Sql.db_query set ssl w c type q).
Proof. intros Hw. unfold Sql.db_query. keep; [by apply statement_keeps|]. by keep; [apply store_keeps|]. Qed.
Lemma count_items_keeps c w host div due : P w → ends P (Workers.count_partition_items set ssl c w host div due).
Proof. intros Hw. unfold Workers.count_partition_items. keep; [by apply db_query_keeps|]. by repeat case_match. Qed.

(** ** The transfer and the end of a run *)

#[local] Instance sink : StatementSink W := db_sink set ssl.
Lemma batch_keeps destination suffix w buffer : P w → ends P (Transfer.transfer_batch destination suffix w buffer).
Proof. intros Hw. unfold Transfer.transfer_batch. destruct (Queries.append_sql _ _ _); cbn [obind]; [|done]. by apply db_insert_keeps. Qed.
Lemma rows_keep escape destination plan prefix suffix rows : ∀ w buffer n, P w →
  ends P (Transfer.transfer_rows escape destination plan prefix suffix w rows buffer n).
Proof.
  induction rows as [|row rows IH]; intros w buffer n Hw; [done|]. cbn [Transfer.transfer_rows].
  destruct (Transfer.transfer_row _ _ _ _); cbn [obind]; [|done]. apply ends_bind.
  - keep; [|done]. by keep; [apply batch_keeps|].
  - intros [ok m] w1 H1. keep; [done|].
    match goal with |- ends _ (obind ?o _) => destruct o; cbn [obind]; [|done] end.
    destruct (Queries.append_sql _ _ _); cbn [obind]; [|done]. by apply IH.
Qed.
Lemma table_keeps fetch_error w source destination plan : P w → ends P (Transfer.transfer_table set ssl fetch_error w source destination plan).
Proof.
  intros Hw. unfold Transfer.transfer_table. destruct (Transfer.transfer_queries _ _) as [[[q prefix] suffix]|]; cbn [obind]; [|done].
  keep; [by apply db_query_keeps|]. destruct a as [r|]; [|done]. keep; [done|]. unfold Transfer.transfer_result. keep; [by apply rows_keep|].
  destruct a as [[success buffer] n]. by keep; [apply batch_keeps|].
Qed.
Lemma insert_all_keeps l : ∀ w, P w → ends P (Transfer.insert_all set ssl w l).
Proof.
  induction l as [|[[c t] q] l IH]; intros w Hw; [done|]. cbn [Transfer.insert_all]. keep; [by apply db_insert_keeps|]. by keep; [apply IH|].
Qed.
Lemma push_keeps fetch_error w source destination : P w → ends P (Transfer.poller_push_data_to_main set ssl fetch_error w source destination).
Proof.
  intros Hw. unfold Transfer.poller_push_data_to_main. keep; [by apply db_connect_keeps|]. keep; [by apply close_keeps|].
  keep; [by apply db_connect_keeps|]. keep; [by apply close_keeps, close_keeps|]. keep; [by apply insert_all_keeps|].
  keep; [|by apply close_keeps, close_keeps]. keep; [|done]. unfold Transfer.poller_transfer_status. keep; [by apply table_keeps|].
  by keep; [|apply table_keeps].
Qed.
Lemma pool_close_keeps base n : ∀ w id, P w → P (Pool.close_loop w base id n).
Proof. induction n as [|n IH]; intros w id Hw; [done|]. cbn. by apply IH, close_keeps. Qed.
Lemma completion_keeps fetch_error w mysql mysqlr source destination local_base remote_base pid md : P w →
  ends P (Transfer.persist_poll_completion set ssl fetch_error w mysql mysqlr source destination local_base remote_base pid md).
Proof.
  intros Hw. unfold Transfer.persist_poll_completion. keep; [by keep; [apply push_keeps|]|].
  match goal with |- ends _ (obind ?o _) => assert (Ho : match o with Ok w' => P w' | Died _ => True end); [|destruct o as [w1|]; cbn [obind]; [|done]] end.
  - destruct (negb (ping_only set)); [|done].
    assert (H1 : ends P (if poller_id set =? 1 then Sql.db_insert set ssl w0 mysql LOCAL ($"REPLACE INTO settings (name,value) VALUES ('date',NOW())") else Ok (true, w0)))
      by (by keep; [apply db_insert_keeps|]).
    destruct (if poller_id set =? 1 then _ else _) as [[b w1]|]; cbn [obind]; [|done].
    assert (H2 : ends P (if md =? REMOTE then Sql.db_insert set ssl w1 mysqlr REMOTE (Transfer.end_time_query set pid)
                         else Sql.db_insert set ssl w1 mysql LOCAL (Transfer.end_time_query set pid))) by (by keep; apply db_insert_keeps).
    by destruct (if md =? REMOTE then _ else _) as [[b2 w2]|].
  - cbn [ends snd]. destruct local_base, remote_base; try apply pool_close_keeps; try done; by apply pool_close_keeps.
Qed.
End Database.

(** * The script servers *)

Section Servers.
Context {W : Type} `{Posix W} `{ScriptEnv W} (P : W → Prop).

Record server_keeps : Prop := {
  fd_close_keeps w fd : P w → P (Process.close w fd);
  fcntl_keeps w fd c : P w → P (Process.fcntl w fd c).2;
  write_keeps w fd s : P w → P (write_fd w fd s).2;
  waitpid_keeps w pid : P w → P (waitpid w pid).2;
  kill_keeps w pid sig : P w → P (kill w pid sig);
  usleep_keeps w n : P w → P (Process.usleep w n);
  put_slot_keeps w i s : P w → P (put_slot w i s);
  lock_keeps w : P w → P (list_lock w);
  unlock_keeps w : P w → P (list_unlock w);
  registry_keeps w r : P w → P (put_registry w r) }.
Context (keeps : server_keeps) (set : config_t).

Lemma reap_keeps pid fuel : ∀ w x, P w → Script.php_terminate_and_reap fuel w pid = Some x → P x.2.
Proof.
  induction fuel as [|f IH]; intros w x Hw; [done|]. cbn [Script.php_terminate_and_reap]. keep_call (waitpid_keeps keeps w pid Hw).
  destruct w0 as [st| |e]; [by intros [= <-]|intros [= <-]; by apply kill_keeps|]. destruct (e =? Process.EINTR); [by apply IH|by intros [= <-]].
Qed.
(** The sweep passes no deadline. *)
Lemma wait_child_keeps pid n : ∀ w, P w → P (Process.wait_child n w pid None).2.
Proof.
  induction n as [|n IH]; intros w Hw; cbn [Process.wait_child]; keep_call (waitpid_keeps keeps w pid Hw); destruct w0 as [st| |e]; try done.
  - by keep.
  - keep; [|done]. by destruct n; [|apply IH].
Qed.
Lemma sweep_keeps n : ∀ w l i, P w → P (Process.sweep_loop n w l i).2.
Proof.
  induction n as [|n IH]; intros w l i Hw; [done|]. cbn [Process.sweep_loop]. destruct (l !! i) as [pid|]; [|done].
  keep_call (wait_child_keeps pid 1000 w Hw). by keep; apply IH.
Qed.
Lemma abandon_keeps w pid : P w → P (Process.nft_abandon_child w pid).
Proof.
  intros Hw. unfold Process.nft_abandon_child, Process.nft_sweep_abandoned. apply (lock_keeps keeps) in Hw.
  match goal with |- context [Process.sweep_loop ?n ?w ?l ?i] => keep_call (sweep_keeps n w l i Hw) end.
  apply unlock_keeps; [done|]. by keep; repeat apply registry_keeps.
Qed.
Lemma quit_keeps w fd : P w → P (Script.send_quit w fd).
Proof.
  intros Hw. unfold Script.send_quit. keep_call (fcntl_keeps keeps w fd F_GETFL Hw).
  match goal with |- context [write_fd ?w ?fd ?s] => assert (K1 : P w) by (by keep; [apply fcntl_keeps|]); keep_call (write_keeps keeps w fd s K1) end.
  by apply fd_close_keeps.
Qed.
Lemma slot_close_keeps fuel w slot w' : P w → Script.close_slot fuel w slot = Some w' → P w'.
Proof.
  intros Hw. unfold Script.close_slot. set (w1 := if _ : bool then _ else w).
  assert (H1 : P w1) by (unfold w1; keep; [apply usleep_keeps, put_slot_keeps, quit_keeps; done|done]). clearbody w1.
  intros (w2 & E & [= <-])%bind_Some. apply put_slot_keeps, fd_close_keeps; [done|done|].
  destruct (1 <? php_pid (get_slot w1 slot)); [|by injection E as <-]. apply bind_Some in E as ([gone w3] & E & [= <-]). apply reap_keeps in E; [|done].
  apply put_slot_keeps; [done|]. by keep; [|apply abandon_keeps].
Qed.
Lemma close_main_php_keeps fuel w w' : P w → Startup.close_main_php fuel set w = Some w' → P w'.
Proof.
  intros Hw. unfold Startup.close_main_php, Script.php_close. destruct (Startup.php_wanted set); [|by intros [= <-]].
  assert (Hslots : ∀ n w slot, P w → Script.close_slots n fuel w slot = Some w' → P w').
  { clear Hw. induction n as [|n IH]; intros w1 slot H1 E; [by injection E as <-|]. cbn in E. apply bind_Some in E as (w2 & E2 & E).
    by eapply IH; [eapply slot_close_keeps|]. }
  destruct (negb _); [by intros [= <-]|]. destruct (_ =? _); by apply Hslots.
Qed.
End Servers.
