(* ===== verification/Refinement.v ===== *)
(** The main thread of the program implements its transition system: [poll_and_exit] of [Spine],
    the second half of [spine_run] in src/src/app/runtime.c with [launch_poll_workers] and
    [wait_for_workers] of src/src/poller/workers.c, against the run of [Runtime].

    The code runs over a world in which the workers run too.  What both share - the two permit
    counters, the live workers and what each of them polls, the records of the devices - is read
    off the world as a [shared] state.  The laws of the world ([run_laws], [program_laws]) say
    what one call of the main thread does to it after any number of steps of the workers; the
    program point of the main thread is not part of the world but of the code.  Then every
    execution of the code is a run of the system, and the exit status the program computes is
    the one the system has. *)

From stdpp Require Import relations.
From S2P Require Import Prelude CLib Buffer Result Settings Signals Threads Sql Pool Queries Persist Transfer Completion Workers WorkersFacts Lifecycle Runtime.
From S2P Require Import Process Script ScriptFacts Config Cli Spine Frame.

Module Shared.
Import Permits Workers Lifecycle Run.

(** [sh_work]: the partition each thread was created for, the newest first. *)
Record shared := {
  sh_threads : Z; sh_startup : Z; sh_workers : list (nat * wpc); sh_work : list (nat * (nat * nat));
  sh_devices : list Completion.dstate; sh_skipped : list (nat * nat) }.

Definition permit_of (p : permit) (v : shared) : Z := match p with available_threads => sh_threads v | thread_init_sem => sh_startup v end.
Definition set_permit (p : permit) (n : Z) (v : shared) : shared :=
  match p with
  | available_threads => {| sh_threads := n; sh_startup := sh_startup v; sh_workers := sh_workers v; sh_work := sh_work v;
                            sh_devices := sh_devices v; sh_skipped := sh_skipped v |}
  | thread_init_sem => {| sh_threads := sh_threads v; sh_startup := n; sh_workers := sh_workers v; sh_work := sh_work v;
                          sh_devices := sh_devices v; sh_skipped := sh_skipped v |}
  end.

(** The device and the partition, from 0, that a worker record names. *)
Definition partition (d : poller_thread_t) : nat * nat := (device_counter d, (Z.to_nat (host_thread d) - 1)%nat).
(** A thread starts with the record it was given. *)
Definition spawn (t : nat) (d : poller_thread_t) (v : shared) : shared :=
  {| sh_threads := sh_threads v; sh_startup := sh_startup v; sh_workers := (t, Started) :: sh_workers v; sh_work := (t, partition d) :: sh_work v;
     sh_devices := sh_devices v; sh_skipped := sh_skipped v |}.

Fixpoint index_of (p : nat * nat) (l : list (nat * nat)) : nat :=
  match l with [] => 0%nat | q :: l' => if decide (p = q) then 0%nat else S (index_of p l') end.

Section System.
Context (set : config_t) (plan : list nat) (n : Z).

(** The state of the system, given where the main thread is. *)
Definition assemble (m : mpc) (failed : bool) (v : shared) : rstate :=
  {| r_life := {| l_threads := sh_threads v; l_startup := sh_startup v; l_main := m; l_workers := sh_workers v |};
     r_next := length (sh_work v); r_work := map (fun '(t, p) => (t, index_of p (plan_work 0 plan))) (sh_work v);
     r_devices := sh_devices v; r_skipped := sh_skipped v; r_launch_failed := failed; r_synced := false; r_sync_failed := false |}.

Definition worker_event (e : revent) : Prop :=
  match e with
  | RLife (EChildStarts _) | RLife (EChildEnds _) | RComplete _ _ _ | RWrites _ _ | RReport _ | RSkip _ => True
  | _ => False
  end.
(** One step of a worker, wherever the main thread is. *)
Definition worker_move (v v' : shared) : Prop :=
  ∃ e, worker_event e ∧ rstep set plan n (assemble Launching false v) e = Some (assemble Launching false v').
Definition moves : relation shared := rtc worker_move.

(** What the calls of the main thread do; the workers may run before each of them. *)
Record run_laws {W} `{WorkerEnv W} (available : W → Z * W) (shared_of : W → shared) : Prop := {
  acquire_law w p : ∃ v, moves (shared_of w) v ∧
    (permits_try_acquire w p).1 = (spine_permits_try_acquire (permit_of p v)).1 ∧
    shared_of (permits_try_acquire w p).2 = set_permit p (spine_permits_try_acquire (permit_of p v)).2 v;
  release_law w p : ∃ v, moves (shared_of w) v ∧
    shared_of (permits_release w p) = set_permit p (spine_permits_release (permit_of p v)).2 v;
  clock_law w : moves (shared_of w) (shared_of (clock w).2);
  pause_law w k : moves (shared_of w) (shared_of (pause w k));
  time_law w : moves (shared_of w) (shared_of (time_now w).2);
  create_law w d : ∃ v, moves (shared_of w) v ∧
    if (pthread_create w d).1 =? 0 then ∃ t, worker_of t (sh_workers v) = None ∧ shared_of (pthread_create w d).2 = spawn t d v
    else shared_of (pthread_create w d).2 = v;
  available_law w : ∃ v, moves (shared_of w) v ∧ (available w).1 = spine_permits_available (sh_threads v) ∧ shared_of (available w).2 = v }.
End System.

(** After [persist_poll_completion]. *)
Definition with_sync (failed : bool) (s : rstate) : rstate :=
  {| r_life := r_life s; r_next := r_next s; r_work := r_work s; r_devices := r_devices s; r_skipped := r_skipped s;
     r_launch_failed := r_launch_failed s; r_synced := true; r_sync_failed := failed |}.

End Shared.

(** * Facts *)

Module RefinementFacts.
Import Permits Workers WorkersFacts Lifecycle LifecycleFacts Run RunFacts Shared SpineFacts.

(** ** The plan *)

Lemma index_of_lookup l j p : NoDup l → l !! j = Some p → index_of p l = j.
Proof.
  intros Hl. revert j. induction Hl as [|q l Hq _ IH]; intros j Hj; [done|]. cbn [index_of]. destruct j as [|j]; cbn in Hj.
  - injection Hj as <-. by rewrite decide_True.
  - rewrite decide_False; [by rewrite (IH j)|]. intros ->. apply Hq. by eapply list_elem_of_lookup_2.
Qed.

Definition signature_partition (x : nat * Z * Z * Z * Z) : nat * nat := let '(i, _, k, _, _) := x in (i, (Z.to_nat k - 1)%nat).
Definition plan_of (set : config_t) (N : Z → bool → Z) (devices : list (Z * Z)) : list nat :=
  map (fun '(host, r) => Z.to_nat (device_threads set N host r)) devices.

(** What the launcher creates, in its order, is the plan of the system. *)
Lemma plan_agrees set N devices : ∀ i, map signature_partition (launch_plan set N i devices) = plan_work i (plan_of set N devices).
Proof.
  induction devices as [|[host r] devices IH]; intros i; [done|]. cbn [launch_plan plan_of map plan_work]. rewrite map_app, IH. f_equal.
  unfold device_plan. rewrite map_map, Nat.sub_0_r, <- seq_shift, map_map. apply map_ext. intros j. cbn [signature_partition]. f_equal. lia.
Qed.
Lemma plan_work_nodup set N devices : NoDup (plan_work 0 (plan_of set N devices)).
Proof.
  rewrite <- plan_agrees. apply NoDup_fmap_2_strong; [|apply plan_nodup]. intros x y Hx Hy.
  apply elem_of_plan in Hx as (j & h & r & k & Hj & Hk & ->). apply elem_of_plan in Hy as (j' & h' & r' & k' & Hj' & Hk' & ->). cbn. intros [= <- He].
  rewrite Hj in Hj'. injection Hj' as <- <-. replace k' with k by lia. done.
Qed.

(** ** Steps of the workers *)

Section Moves.
Context (set : config_t) (plan : list nat) (n : Z).
Abbreviation reach := (rreachable set plan n).
Abbreviation state := (assemble plan).

(** The main thread somewhere else. *)
Definition put_main (m : mpc) (failed : bool) (s : rstate) : rstate :=
  {| r_life := with_main m (r_life s); r_next := r_next s; r_work := r_work s; r_devices := r_devices s; r_skipped := r_skipped s;
     r_launch_failed := failed; r_synced := r_synced s; r_sync_failed := r_sync_failed s |}.

Lemma device_step_put m f s t e s' : device_step set plan s t e = Some s' → device_step set plan (put_main m f s) t e = Some (put_main m f s').
Proof.
  unfold device_step. change (partition_of plan (put_main m f s) t) with (partition_of plan s t). destruct (partition_of plan s t) as [[i k]|]; cbn; [|done].
  destruct (bool_decide _); [done|]. destruct (r_devices s !! i) as [d|]; cbn; [|done]. destruct (Completion.dstep set d (e k)); cbn; [|done]. by intros [= <-].
Qed.
Lemma worker_rstep m f s e s' : worker_event e → m ≠ Exited → l_main (r_life s) = Launching → r_launch_failed s = false →
  rstep set plan n s e = Some s' → rstep set plan n (put_main m f s) e = Some (put_main m f s').
Proof.
  intros He Hm Hl Hf. destruct e as [e|t of_ pf|t wf|t|t|failed]; cbn [worker_event] in He; try done; cbn [rstep]; try apply device_step_put.
  - destruct e as [| | |t| | |ex|t|t|]; try done; cbn [lstep]; rewrite Hl.
    + change (l_main (r_life (put_main m f s))) with m. change (l_workers (r_life (put_main m f s))) with (l_workers (r_life s)).
      destruct (worker_of t (l_workers (r_life s))) as [[]|]; cbn [mbind option_bind]; [|destruct m; done..].
      intros [= <-]. destruct m; try done; cbn; unfold with_life, put_main; cbn; by rewrite orb_false_r.
    + change (l_main (r_life (put_main m f s))) with m. change (l_workers (r_life (put_main m f s))) with (l_workers (r_life s)).
      destruct (worker_of t (l_workers (r_life s))) as [[]|]; cbn [mbind option_bind]; [destruct m; done| |destruct m; done].
      change (partition_of plan (put_main m f s) t) with (partition_of plan s t). destruct (partition_of plan s t) as [p|]; [|destruct m; done].
      change (finished (put_main m f s) p) with (finished s p). destruct (finished s p); [|destruct m; done].
      intros [= <-]. destruct m; try done; cbn; unfold with_life, put_main; cbn; by rewrite orb_false_r.
  - change (partition_of plan (put_main m f s) t) with (partition_of plan s t). destruct (partition_of plan s t) as [[i k]|]; cbn; [|done].
    destruct (r_devices s !! i) as [d|]; cbn; [|done]. destruct (Completion.parts d !! k) as [[]|]; [|done..]. by intros [= <-].
Qed.
Lemma worker_next s e s' : worker_event e → rstep set plan n s e = Some s' → r_next s' = r_next s.
Proof.
  intros He. destruct e as [e|t of_ pf|t wf|t|t|failed]; cbn [worker_event] in He; try done; cbn [rstep].
  2-4: unfold device_step; intros ([i k] & _ & E)%bind_Some; destruct (bool_decide _); [done|]; apply bind_Some in E as (d & _ & E);
       by apply bind_Some in E as (d' & _ & [= <-]).
  - intros (l & _ & E)%bind_Some. destruct e; try done; [by injection E as <-|]. repeat case_match; try done. by injection E as <-.
  - intros ([i k] & _ & E)%bind_Some. apply bind_Some in E as (d & _ & E). repeat case_match; try done. by injection E as <-.
Qed.

(** The system can take every step of the workers, and no worker is created in it. *)
Lemma moves_reach m f v v' : moves set plan n v v' → m ≠ Exited → reach (state m f v) →
  reach (state m f v') ∧ length (sh_work v') = length (sh_work v).
Proof.
  intros Hv Hm. induction Hv as [v|v v1 v2 (e & He & E) _ IH]; intros Hr; [done|].
  pose proof (worker_next _ _ _ He E) as Hn. cbn in Hn. rewrite <- Hn. apply IH.
  econstructor; [exact Hr|]. exact (worker_rstep m f (state Launching false v) e (state Launching false v1) He Hm eq_refl eq_refl E).
Qed.

(** ** Steps of the main thread *)

(** The system can be in the state with the main thread at [m], with [k] workers created. *)
Definition holds (m : mpc) (failed : bool) (k : nat) (v : shared) : Prop := reach (state m failed v) ∧ length (sh_work v) = k.

Lemma holds_moves m f k v v' : m ≠ Exited → moves set plan n v v' → holds m f k v → holds m f k v'.
Proof. intros Hm Hv [Hr <-]. destruct (moves_reach m f v v' Hv Hm Hr) as [Hr' <-]. done. Qed.

(** The permit the main thread tries for at a program point, and where it is with it. *)
Definition wanted (p : permit) : mpc := match p with available_threads => Launching | thread_init_sem => GotThread end.
Definition granted (p : permit) : mpc := match p with available_threads => GotThread | thread_init_sem => GotBoth end.

Lemma holds_try p k v : (k < length (plan_work 0 plan))%nat → holds (wanted p) false k v →
  holds (if (spine_permits_try_acquire (permit_of p v)).1 =? 0 then granted p else wanted p) false k
        (set_permit p (spine_permits_try_acquire (permit_of p v)).2 v).
Proof.
  intros Hk [Hr Hl]. split; [|by destruct p]. destruct p; cbn [wanted granted permit_of] in *.
  - apply (rreach_step _ _ _ _ (RLife ETryThread) _ Hr). cbn [rstep lstep assemble r_life l_main l_threads r_next].
    destruct (spine_permits_try_acquire (sh_threads v)) as [e c]. cbn [mbind option_bind]. rewrite Hl. by rewrite (proj2 (Nat.ltb_lt _ _)) by done.
  - apply (rreach_step _ _ _ _ (RLife ETryStartup) _ Hr). cbn [rstep lstep assemble r_life l_main l_startup r_next].
    by destruct (spine_permits_try_acquire (sh_startup v)) as [e c].
Qed.
Lemma holds_give_up k v : holds Launching false k v → holds Waiting (k <? length (plan_work 0 plan))%nat k v.
Proof. intros [Hr <-]. split; [|done]. by apply (rreach_step _ _ _ _ (RLife EGiveUp) _ Hr). Qed.
Lemma holds_give_back k v : (k < length (plan_work 0 plan))%nat → holds GotThread false k v →
  holds Waiting true k (set_permit available_threads (spine_permits_release (sh_threads v)).2 v).
Proof.
  intros Hk [Hr Hl]. split; [|done]. apply (rreach_step _ _ _ _ (RLife EGiveUp) _ Hr). cbn [rstep lstep assemble r_life l_main mbind option_bind r_next].
  rewrite Hl. by rewrite (proj2 (Nat.ltb_lt _ _)) by done.
Qed.
Lemma holds_undo k v : holds GotBoth false k v → holds Undoing true k (set_permit thread_init_sem (spine_permits_release (sh_startup v)).2 v).
Proof. intros [Hr Hl]. split; [|done]. by apply (rreach_step _ _ _ _ (RLife ECreateFails) _ Hr). Qed.
Lemma holds_undone k v : holds Undoing true k v → holds Waiting true k (set_permit available_threads (spine_permits_release (sh_threads v)).2 v).
Proof. intros [Hr Hl]. split; [|done]. by apply (rreach_step _ _ _ _ (RLife EReleaseThread) _ Hr). Qed.
Lemma holds_create t d k v : NoDup (plan_work 0 plan) → plan_work 0 plan !! k = Some (partition d) → worker_of t (sh_workers v) = None →
  holds GotBoth false k v → holds Launching false (S k) (spawn t d v).
Proof.
  intros Hnd Hk Ht [Hr Hl]. split; [|cbn; by rewrite Hl]. apply (rreach_step _ _ _ _ (RLife (ECreate t)) _ Hr).
  cbn [rstep lstep assemble r_life l_main l_workers]. rewrite Ht. cbn [mbind option_bind]. unfold assemble, spawn. cbn.
  by rewrite (index_of_lookup _ _ _ Hnd Hk), Hl.
Qed.
(** A turn of the wait that goes on, and the last one. *)
Lemma holds_check f k v : holds Waiting f k v → (n ≤ sh_threads v) → holds CleaningUp f k v.
Proof.
  intros [Hr Hl] Hn. split; [|done]. apply (rreach_step _ _ _ _ (RLife (ECheck false)) _ Hr). cbn. unfold wait_turn, spine_permits_available. cbn.
  rewrite (proj2 (Z.ltb_ge _ _)) by done. unfold with_life. cbn. by rewrite orb_false_r.
Qed.
Lemma holds_sync f k v sync : holds CleaningUp f k v → reach (with_sync sync (state CleaningUp f v)).
Proof. intros [Hr Hl]. by apply (rreach_step _ _ _ _ (RSync sync) _ Hr). Qed.
End Moves.

(** ** The calls of the main thread *)

Section Main.
Context {W : Type} `{WorkerEnv W} (available : W → Z * W) (shared_of : W → shared) (set : config_t) (plan : list nat) (n : Z).
Context (laws : run_laws set plan n available shared_of) (Hnd : NoDup (plan_work 0 plan)).
Abbreviation work := (plan_work 0 plan).

(** The system can be where the code is. *)
Definition at_pc (m : mpc) (failed : bool) (k : nat) (w : W) : Prop := holds set plan n m failed k (shared_of w).

Lemma at_clock m f k w : m ≠ Exited → at_pc m f k w → at_pc m f k (clock w).2.
Proof. intros Hm. by apply holds_moves, (clock_law _ _ _ _ _ laws). Qed.
Lemma at_pause m f k w z : m ≠ Exited → at_pc m f k w → at_pc m f k (pause w z).
Proof. intros Hm. by apply holds_moves, (pause_law _ _ _ _ _ laws). Qed.
Lemma at_time m f k w : m ≠ Exited → at_pc m f k w → at_pc m f k (time_now w).2.
Proof. intros Hm. by apply holds_moves, (time_law _ _ _ _ _ laws). Qed.
Lemma at_try p k w : (k < length work)%nat → at_pc (wanted p) false k w →
  at_pc (if (permits_try_acquire w p).1 =? 0 then granted p else wanted p) false k (permits_try_acquire w p).2.
Proof.
  intros Hk Hw. destruct (acquire_law _ _ _ _ _ laws w p) as (v & Hv & He & Hs). unfold at_pc. rewrite Hs, He. apply holds_try; [done|].
  eapply holds_moves; [by destruct p|done|done].
Qed.

Section Start.
Context (start_time : double) (k : nat) (Hk : (k < length work)%nat).

Lemma wait_at p fuel : ∀ w r ok w', at_pc (wanted p) false k w → wait_for_worker_permit set start_time fuel w p r = Some (ok, w') →
  at_pc (if ok : bool then granted p else wanted p) false k w'.
Proof.
  assert (Hp : wanted p ≠ Exited) by (by destruct p). induction fuel as [|f IH]; intros w r ok w' Hw; [done|]. cbn [wait_for_worker_permit].
  pose proof (at_try p k w Hk Hw) as H1. destruct (permits_try_acquire w p) as [e w1]. cbn [fst snd] in H1. destruct (e =? 0); [by intros [= <- <-]|].
  assert (Hturn : ∀ w2 r', at_pc (wanted p) false k w2 → (let '(total, w3) := clock (pause w2 10000) in
     if dlt (of_int (poller_interval set)) (dsub total start_time) then Some (false, w3) else wait_for_worker_permit set start_time f w3 p r') = Some (ok, w') →
     at_pc (if ok : bool then granted p else wanted p) false k w').
  { intros w2 r' H2. pose proof (at_clock _ _ _ _ Hp (at_pause _ _ _ _ 10000 Hp H2)) as H3. destruct (clock (pause w2 10000)) as [now w3]. cbn [snd] in H3.
    destruct (dlt _ _); [by intros [= <- <-]|by apply IH]. }
  destruct (r + 1 =? 10); [|by apply Hturn]. pose proof (at_clock _ _ _ _ Hp H1) as H2. destruct (clock w1) as [now w2]. cbn [snd] in H2.
  destruct (dlt _ _); [by intros [= <- <-]|by apply Hturn].
Qed.

Lemma create_at d fuel : work !! k = Some (partition d) → ∀ w st w', at_pc GotBoth false k w → create_worker set start_time fuel w d = Some (st, w') →
  if st =? 0 then at_pc Launching false (S k) w' else at_pc GotBoth false k w'.
Proof.
  intros Hd. induction fuel as [|f IH]; intros w st w' Hw; [done|]. cbn [create_worker]. destruct (create_law _ _ _ _ _ laws w d) as (v & Hv & Hc).
  assert (H1 : holds set plan n GotBoth false k v) by (by eapply holds_moves). destruct (pthread_create w d) as [e w1]. cbn [fst snd] in Hc.
  assert (H2 : if e =? 0 then at_pc Launching false (S k) w1 else at_pc GotBoth false k w1).
  { destruct (e =? 0); [destruct Hc as (t & Ht & Hs)|]; unfold at_pc; [rewrite Hs; by apply holds_create|by rewrite Hc]. }
  destruct (Z.eqb_spec e EAGAIN) as [->|]; [|by intros [= <- <-]]. change (EAGAIN =? 0) with false in H2. cbv iota in H2.
  pose proof (at_clock GotBoth _ _ _ ltac:(done) (at_pause GotBoth _ _ _ 10000 ltac:(done) H2)) as H3. destruct (clock (pause w1 10000)) as [now w2].
  destruct (dlt _ _); [by apply IH|by intros [= <- <-]].
Qed.

Lemma start_at d j fuel w started w' : work !! k = Some (partition (with_thread j d)) → at_pc Launching false k w →
  start_poll_worker set start_time fuel w d j = Some (started, w') → if started then at_pc Launching false (S k) w' else at_pc Waiting true k w'.
Proof.
  intros Hd Hw. unfold start_poll_worker, acquire_worker_permits.
  destruct (wait_for_worker_permit set start_time fuel w available_threads 0) as [[ok1 w1]|] eqn:E1; cbn [mbind option_bind]; [|done].
  apply (wait_at available_threads) in E1; [|done]. destruct ok1; cbn [negb wanted granted mbind option_bind] in *.
  2:{ intros [= <- <-]. apply holds_give_up in E1. by rewrite (proj2 (Nat.ltb_lt _ _)) in E1. }
  destruct (wait_for_worker_permit set start_time fuel w1 thread_init_sem 0) as [[ok2 w2]|] eqn:E2; cbn [mbind option_bind]; [|done].
  apply (wait_at thread_init_sem) in E2; [|done]. destruct ok2; cbn [negb wanted granted mbind option_bind] in *.
  2:{ intros [= <- <-]. destruct (release_law _ _ _ _ _ laws w2 available_threads) as (v & Hv & Hs). unfold at_pc. rewrite Hs.
      apply holds_give_back; [done|]. by eapply holds_moves. }
  destruct (create_worker set start_time fuel w2 _) as [[st w3]|] eqn:E3; cbn [mbind option_bind]; [|done]. apply create_at in E3; [|done..].
  destruct (st =? 0); intros [= <- <-]; [done|].
  destruct (release_law _ _ _ _ _ laws w3 thread_init_sem) as (v & Hv & Hs).
  destruct (release_law _ _ _ _ _ laws (permits_release w3 thread_init_sem) available_threads) as (v' & Hv' & Hs').
  unfold at_pc. rewrite Hs'. apply holds_undone. eapply holds_moves; [done|exact Hv'|]. rewrite Hs. apply holds_undo. by eapply holds_moves.
Qed.
End Start.

(** The wait ends with every worker gone, or at the deadline. *)
Lemma wait_workers_at begin_time failed k fuel : n = threads set → ∀ w r, at_pc Waiting failed k w →
  wait_for_workers available set fuel w begin_time = Some r → r = Died EXIT_FAILURE ∨ ∃ a w', r = Ok (a, w') ∧ at_pc CleaningUp failed k w'.
Proof.
  intros Hn. induction fuel as [|f IH]; intros w r Hw; [done|]. cbn [wait_for_workers].
  destruct (available_law _ _ _ _ _ laws w) as (v & Hv & Ha & Hs). assert (H1 : at_pc Waiting failed k (available w).2).
  { unfold at_pc. rewrite Hs. by eapply holds_moves. }
  destruct (available w) as [a w1]. cbn [fst snd] in *. destruct (Z.ltb_spec a (threads set)) as [|Hge].
  - pose proof (at_clock Waiting _ _ _ ltac:(done) H1) as H2. destruct (clock w1) as [now w2]. destruct (dlt _ _); [intros [= <-]; by left|].
    apply IH. by apply at_pause.
  - intros [= <-]. right. eexists _, _. split; [done|]. apply holds_check; [done|]. rewrite Hs, Hn. unfold spine_permits_available in Ha. lia.
Qed.
End Main.

(** ** The launch *)

Section Launch.
Context {W : Type} `{WorkerEnv W} (available : W → Z * W) (shared_of : W → shared) (set : config_t) (N : Z → bool → Z) (devices : list (Z * Z)).
Abbreviation plan := (plan_of set N devices).
Abbreviation whole := (launch_plan set N 0 devices).
Context (start_time : double) (count_items : W → Z → Z → bool → outcome (Z * W)) (fuel : nat) (left : W → nat).
Context (laws : run_laws set plan (threads set) available shared_of).
Context (counted : ∀ w host div due, ∃ w', count_items w host div due = Ok ((if 1 <? div then ceil_div (N host due) div else N host due), w') ∧
                                            moves set plan (threads set) (shared_of w) (shared_of w')).
Context (time : time_passes available (poller_interval set) start_time left) (Hleft : ∀ w, (left w < fuel)%nat).

Lemma whole_length : length whole = length (plan_work 0 plan).
Proof. by rewrite <- plan_agrees, length_map. Qed.
Lemma whole_next l d : l ++ [signature d] `prefix_of` whole → plan_work 0 plan !! length l = Some (partition d).
Proof.
  intros [l' Hw]. rewrite <- plan_agrees, list_lookup_fmap, Hw, <- app_assoc. rewrite lookup_app_r by done. by rewrite Nat.sub_diag.
Qed.

Lemma system_env : launch_env set start_time N count_items fuel whole
  (fun l => at_pc shared_of set plan (threads set) Launching false (length l)) (fun l => at_pc shared_of set plan (threads set) Waiting true (length l)).
Proof.
  split.
  - intros l w host div due Hw. destruct (counted w host div due) as (w' & Hc & Hm). exists w'. split; [done|]. by eapply holds_moves.
  - intros l w. by eapply at_time.
  - intros l w. by eapply at_clock.
  - intros l w d k Hw Hpre. pose proof (whole_next l _ Hpre) as Hnext.
    destruct (start_poll_worker set start_time fuel w d k) as [[started w']|] eqn:E; [|by apply (start_ends_in_time available set start_time left time) in E].
    eexists _, _. split; [done|]. rewrite length_app, Nat.add_comm. eapply start_at; try done; [apply plan_work_nodup|by eapply lookup_lt_Some].
Qed.

(** After the launch the system can be in [wait_for_workers]. *)
Lemma launch_waits turns w rows devs : (∀ host due, 0 ≤ N host due) →
  devices = (if (poller_id set =? 1) && has_device_0 set then (0, 1) :: devs else devs) →
  Forall2 (fun row d => row_device row = Some d) rows devs → Z.of_nat (length rows) < INT_MAX → (length (plan_work 0 plan) ≤ turns)%nat →
  at_pc shared_of set plan (threads set) Launching false 0 w →
  ∃ st w' k, launch_poll_workers set start_time count_items turns fuel w rows = Ok (Some (st, w')) ∧
    at_pc shared_of set plan (threads set) Waiting (ls_exit_failure st) k w'.
Proof.
  intros HN Hdev Hrows Hlen Hturns Hw. rewrite <- whole_length in Hturns.
  destruct (launch_ready set start_time N count_items fuel whole _ _ system_env HN turns w rows devs) as (st & w' & E & Hl); try done; [by rewrite <- Hdev|].
  exists st, w'. unfold launched in Hl. destruct (ls_exit_failure st); [destruct Hl as (l & _ & _ & Hl); by eexists|].
  apply holds_give_up in Hl. rewrite whole_length, Nat.ltb_irrefl in Hl. by eexists.
Qed.
End Launch.
End RefinementFacts.
Import Workers WorkersFacts Lifecycle Run RunFacts Shared RefinementFacts Spine SpineFacts.

(** * Properties *)

Section Program.
Context {W : Type} `{MySQL W} `{Posix W} `{ScriptEnv W} `{WorkerEnv W}.
Context (ssl : list mysql_feature) (mysql_errno : W → conn → Z) (attributes : ThreadAttributes.attr_calls) (detachstate pid MAX_SIMULTANEOUS_SCRIPTS : Z) (behind remote_behind : list ascii).
Context (mysql mysqlr local_base remote_base source destination : conn).
Context (available : W → Z * W) (shared_details : W → list (option poller_thread_t) → list (option poller_thread_t)) (workers_failed : W → bool).
Context (shared_of : W → shared) (set : config_t) (N : Z → bool → Z) (devs : list (Z * Z)).
Abbreviation finish := (poll_and_exit ssl mysql_errno attributes detachstate pid MAX_SIMULTANEOUS_SCRIPTS behind remote_behind mysql mysqlr local_base remote_base
  source destination available shared_details workers_failed).
Abbreviation plan := (plan_of set N (if (poller_id set =? 1) && has_device_0 set then (0, 1) :: devs else devs)).

(** The world of a run: what each call of the main thread does to what the threads share.  The
    calls of the database and of the script servers leave it to the workers. *)
Record program_laws : Prop := {
  pl_run : run_laws set plan (threads set) available shared_of;
  pl_client v : client_keeps (fun w => moves set plan (threads set) v (shared_of w));
  pl_servers v : server_keeps (fun w => moves set plan (threads set) v (shared_of w));
  pl_failed w : workers_failed w = existsb (fun d => Completion.exit_failure (Completion.dev d)) (sh_devices (shared_of w));
  pl_counts : counts N (count_partition_items set ssl mysql) }.

Section Laws.
Context (laws : program_laws).
Abbreviation pc := (at_pc shared_of set plan (threads set)).

Lemma moves_at m f k w w' : m ≠ Exited → moves set plan (threads set) (shared_of w) (shared_of w') → pc m f k w → pc m f k w'.
Proof. intros Hm. by apply holds_moves. Qed.
Lemma counts_move w host div due :
  ∃ w', count_partition_items set ssl mysql w host div due = Ok ((if 1 <? div then ceil_div (N host due) div else N host due), w') ∧
        moves set plan (threads set) (shared_of w) (shared_of w').
Proof.
  destruct (pl_counts laws w host div due) as [w1 E]. exists w1. split; [done|].
  pose proof (count_items_keeps _ (pl_client laws (shared_of w)) set ssl mysql w host div due (rtc_refl _ _)) as K. by rewrite E in K.
Qed.
Lemma insert_at m f k w c t q : m ≠ Exited → pc m f k w → ends (pc m f k) (Sql.db_insert set ssl w c t q).
Proof.
  intros Hm Hw. pose proof (db_insert_keeps _ (pl_client laws (shared_of w)) set ssl w c t q (rtc_refl _ _)) as K.
  destruct (Sql.db_insert set ssl w c t q) as [[b w1]|]; [|done]. by eapply moves_at.
Qed.
Lemma init_at w : rinit plan (threads set) = Some (assemble plan Launching false (shared_of w)) → pc Launching false 0 w.
Proof.
  intros Hinit. split; [by constructor|]. unfold rinit in Hinit. destruct (linit (threads set)); [|done]. cbn in Hinit. by injection Hinit as _ <-.
Qed.

(** From the end of the wait to [exit]. *)
Lemma cleanup_at f k w md sync w1 fuel w2 : pc CleaningUp f k w →
  Transfer.persist_poll_completion set ssl mysql_errno w mysql mysqlr source destination (Some local_base) (if md =? REMOTE then Some remote_base else None) pid md = Ok (sync, w1) →
  Startup.close_main_php fuel set w1 = Some w2 →
  let w3 := mysql_close w2 mysql in
  pc CleaningUp f k (clock (if (1 <? poller_id set) && (mode set =? REMOTE_ONLINE) then mysql_close w3 mysqlr else w3)).2.
Proof.
  intros Hw E1 E2 w3. eapply at_clock; [apply (pl_run laws)|done|]. apply (moves_at CleaningUp f k w); [done| |done].
  pose proof (completion_keeps _ (pl_client laws (shared_of w)) set ssl mysql_errno w mysql mysqlr source destination (Some local_base)
    (if md =? REMOTE then Some remote_base else None) pid md (rtc_refl _ _)) as K1. rewrite E1 in K1. cbn [ends snd] in K1.
  assert (K2 : moves set plan (threads set) (shared_of w) (shared_of w2))
    by (eapply (close_main_php_keeps _ (pl_servers laws (shared_of w))); [exact K1|exact E2]).
  assert (K3 : moves set plan (threads set) (shared_of w) (shared_of w3)) by (by apply (close_keeps _ (pl_client laws (shared_of w)))).
  destruct ((1 <? poller_id set) && (mode set =? REMOTE_ONLINE)); [by apply (close_keeps _ (pl_client laws (shared_of w)))|done].
Qed.
Lemma status_at f k w sync : 0 < threads set ≤ INT_MAX → pc CleaningUp f k w →
  let s := with_sync sync (assemble plan CleaningUp f (shared_of w)) in let status := if f || workers_failed w || sync then EXIT_FAILURE else 0 in
  rreachable set plan (threads set) s ∧ status = exit_code s ∧ (status = 0 ↔ r_next s = length (plan_work 0 plan) ∧ sync = false ∧ all_polled plan s).
Proof.
  intros Hn Hw s status. assert (Hr : rreachable set plan (threads set) s) by (by eapply holds_sync).
  assert (He : status = exit_code s).
  { unfold status, exit_code. rewrite (pl_failed laws). cbn. by rewrite <- orb_assoc, (orb_comm (existsb _ _)), orb_assoc. }
  split_and!; [done|done|]. rewrite He. by apply (exit_success_iff set plan (threads set) s Hn Hr).
Qed.
End Laws.

(** C3: the second half of [spine_run] implements the run.  Over any world in which each call of
    the main thread does to the permits, to the threads and to the devices what the library says,
    with any number of steps of the workers before each of them, the code from the selection of
    the devices to [exit] returns before its fuel is used up; and if it reaches its last line, the
    state it leaves is, with the verdict [sync] of its own synchronization and the failure flag of
    its own launch, a reachable state of the transition system of the run.  No call acquires, releases or creates what the system does not, in the retries,
    in a wait that fails and in a creation that is undone too.  So the status that the program
    computes and exits with is the exit code of the system, and it is 0 exactly if a worker was
    created for every partition of the plan, the synchronization did not fail and every partition
    was polled or skipped.  The hypotheses say what the calls do ([program_laws]: also that the
    database answers each count of items, with the same number every time), that the clock passes
    both deadlines and that no signal interrupts the end of a script server. *)
Theorem program_refines_run (turns fuel : nat) (begin_time start_time : double) (md : Z) (startup : list message) (signals : Signals.sigstate)
    (rows : list row_t) (w : W) (left left' : W → nat) (laws : program_laws)
    (Hthreads : 0 < threads set ≤ INT_MAX) (Hinit : rinit plan (threads set) = Some (assemble plan Launching false (shared_of w)))
    (HN : ∀ host due, 0 ≤ N host due) (Hrows : Forall2 (fun row d => row_device row = Some d) rows devs) (Hlen : Z.of_nat (length rows) < INT_MAX)
    (Hturns : (length (plan_work 0 plan) ≤ turns)%nat)
    (Hstart : time_passes available (poller_interval set) start_time left) (Hleft : ∀ w, (left w < fuel)%nat)
    (Hbegin : time_passes available (poller_interval set) begin_time left') (Hleft' : ∀ w, (left' w < fuel)%nat)
    (Hsignals : ScriptFacts.no_signals (W := W)) :
  ∃ r, finish turns fuel begin_time start_time set md startup signals Locks.uninitialized rows w = Some r ∧
    ∀ x, r = Ok x → ∃ st w1 w2 a w3 sync w4,
      launch_with_database set ssl mysql start_time turns fuel w1 rows = Ok (Some (st, w2)) ∧
      wait_for_workers available set fuel w2 begin_time = Some (Ok (a, w3)) ∧
      Transfer.persist_poll_completion set ssl mysql_errno w3 mysql mysqlr source destination (Some local_base)
        (if md =? REMOTE then Some remote_base else None) pid md = Ok (sync, w4) ∧
      let s := with_sync sync (assemble plan CleaningUp (ls_exit_failure st) (shared_of (x_world x))) in
      rreachable set plan (threads set) s ∧ x_status x = exit_code s ∧
      (x_status x = 0 ↔ r_next s = length (plan_work 0 plan) ∧ sync = false ∧ all_polled plan s).
Proof.
  pose proof (init_at w Hinit) as Hw. unfold poll_and_exit.
  destruct (worker_rows set rows) as [num_rows|]; [|by eexists].
  match goal with |- context [match ?insert with Ok _ => _ | Died _ => _ end] =>
    assert (K : ends (at_pc shared_of set plan (threads set) Launching false 0) insert) by (repeat keep; try done; by apply insert_at);
    destruct insert as [[b w1]|]; [|by eexists] end.
  destruct (_ || negb (detachstate =? 0)); [by eexists|].
  destruct (ThreadsFacts.init_mutexes_once Locks.uninitialized (fun _ => eq_refl)) as (mutexes & -> & _). cbn [mbind option_bind].
  destruct (_ || _); [by eexists|]. unfold launch_with_database.
  destruct (launch_waits available shared_of set N _ start_time (count_partition_items set ssl mysql) fuel left (pl_run laws) (counts_move laws) Hstart Hleft
    turns w1 rows devs HN eq_refl Hrows Hlen Hturns K) as (st & w2 & k & El & Hwait). rewrite El.
  destruct (wait_ends available set begin_time left' fuel w2 Hbegin Hleft') as [waited Ew]. rewrite Ew. cbn [mbind option_bind].
  destruct (wait_workers_at available shared_of set plan _ (pl_run laws) begin_time _ k fuel eq_refl w2 waited Hwait Ew) as [->|(a & w3 & -> & Hclean)]; [by eexists|].
  destruct (Transfer.persist_poll_completion _ _ _ _ _ _ _ _ _ _ _ _) as [[sync w4]|] eqn:Ep; [|by eexists].
  assert (Hphp : ∃ w5, Startup.close_main_php fuel set w4 = Some w5).
  { unfold Startup.close_main_php. destruct (Startup.php_wanted set); [|by eexists]. apply ScriptFacts.php_close_total; [done|]. specialize (Hleft w4). lia. }
  destruct Hphp as [w5 E5]. rewrite E5. cbn [mbind option_bind]. pose proof (cleanup_at laws _ _ _ _ _ _ _ _ Hclean Ep E5) as Hend.
  cbv zeta in Hend |- *. destruct (clock _) as [end_time w6]. rewrite !clear_password_wipes. cbn [mbind option_bind snd] in *.
  eexists. split; [done|]. intros x [= <-]. cbn [x_status x_world]. exists st, w1, w2, a, w3, sync, w4.
  do 3 (split; [done|]). apply (status_at laws _ k); [done|]. exact Hend.
Qed.
End Program.

(** A world with two thread permits and one device of three partitions, in which the workers
    run while the main thread sleeps; the clock passes every deadline at its 40th reading. *)
Module SampleRun.

Definition set : config_t := example_config 2 false.
Definition N (_ : Z) (_ : bool) : Z := 0.
Definition plan : list nat := plan_of set N [(7, 3)].
Definition world : Type := shared * nat.
Definition start : world :=
  ({| sh_threads := 2; sh_startup := 1; sh_workers := []; sh_work := []; sh_devices := map Completion.dinitial plan; sh_skipped := [] |}, 0%nat).

(** What a step left, but for the partitions. *)
Definition project (v : shared) (s : rstate) : shared :=
  {| sh_threads := l_threads (r_life s); sh_startup := l_startup (r_life s); sh_workers := l_workers (r_life s); sh_work := sh_work v;
     sh_devices := r_devices s; sh_skipped := r_skipped s |}.
Definition step_or_stay (v : shared) (e : revent) : shared :=
  match rstep set plan (threads set) (assemble plan Launching false v) e with Some s => project v s | None => v end.
Definition life_of (t : nat) : list revent := [RLife (EChildStarts t); RComplete t false false; RWrites t false; RLife (EChildEnds t)].
Definition advance (v : shared) : shared := foldl step_or_stay v (life_of 0 ++ life_of 1 ++ life_of 2).

Lemma project_ok v e s : worker_event e → rstep set plan (threads set) (assemble plan Launching false v) e = Some s → s = assemble plan Launching false (project v s).
Proof.
  intros He. destruct e as [e|t of_ pf|t wf|t|t|failed]; cbn [worker_event] in He; try done; cbn [rstep].
  2-4: unfold device_step; intros ([i k] & _ & E)%bind_Some; destruct (bool_decide _); [done|]; apply bind_Some in E as (d & _ & E);
       by apply bind_Some in E as (d' & _ & [= <-]).
  - intros (l & El & E)%bind_Some. destruct e; try done; cbn in El; destruct (worker_of _ _) as [[]|]; try done; injection El as <-;
      [by injection E as <-|]. repeat case_match; try done. by injection E as <-.
  - intros ([i k] & _ & E)%bind_Some. apply bind_Some in E as (d & _ & E). repeat case_match; try done. by injection E as <-.
Qed.
Lemma step_moves v e : worker_event e → moves set plan (threads set) v (step_or_stay v e).
Proof.
  intros He. unfold step_or_stay. destruct (rstep _ _ _ _ e) as [s|] eqn:E; [|done]. apply rtc_once. exists e. split; [done|].
  by rewrite <- (project_ok v e s He E).
Qed.
Lemma advance_moves v : moves set plan (threads set) v (advance v).
Proof.
  unfold advance. assert (He : Forall worker_event (life_of 0 ++ life_of 1 ++ life_of 2)) by (repeat constructor).
  revert v. induction He as [|e es He _ IH]; intros v; [done|]. cbn [foldl]. etransitivity; [by apply step_moves|apply IH].
Qed.

Definition shared_of (w : world) : shared := fst w.
Definition reading (k : nat) : double := if (k <? 40)%nat then of_int 0 else of_int (2 ^ 40).
Definition workers : WorkerEnv world := {|
  permits_try_acquire w p := let '(e, c) := Permits.spine_permits_try_acquire (permit_of p (fst w)) in (e, (set_permit p c (fst w), snd w));
  permits_release w p := (set_permit p (Permits.spine_permits_release (permit_of p (fst w))).2 (fst w), snd w);
  clock w := (reading (snd w), (fst w, S (snd w)));
  pause w _ := (advance (fst w), snd w);
  time_now w := (1700000000, w);
  pthread_create w d := let t := length (sh_work (fst w)) in
    match worker_of t (sh_workers (fst w)) with None => (0, (spawn t d (fst w), snd w)) | Some _ => (Permits.EAGAIN, w) end |}.
Definition available (w : world) : Z * world := (sh_threads (fst w), w).
Definition failed (w : world) : bool := existsb (fun d => Completion.exit_failure (Completion.dev d)) (sh_devices (fst w)).
(** Every result is a single 0: no item is due. *)
Definition tables : MySQL world := {|
  mysql_query w _ _ := (0, w); mysql_store_result w _ := (Some {| res_fields := 1; res_rows := [[Some ($"0")]] |}, w);
  mysql_thread_id _ _ := 1; mysql_ping w _ := (0, w); mysql_close w _ := w; mysql_init w _ := (true, w);
  mysql_options w _ _ := (0, w); mysql_real_connect w _ _ := (0, w); mysql_real_escape_string _ _ t := t;
  errno_is_EINTR _ := false; stat_socket _ _ := None; sleep_usec w _ := w |}.
Definition processes : Posix world := {|
  pipe w := (None, w); socketpair w := (None, w); dup w _ := (-1, w); Process.close w _ := w; Process.fcntl w _ _ := (-1, w);
  attempt_malloc w := (false, w); file_actions_init w := (12, w); file_actions_add w _ := (12, w); spawnattr w _ := (12, w);
  posix_spawn w _ _ _ _ := (12, 0, w); waitpid w _ := (WaitError 10, w); kill w _ _ := w; Process.usleep w _ := w;
  Process.monotonic_time w := (of_int 1, w); list_lock w := w; list_unlock w := w;
  get_registry _ := {| pid_list := []; abandoned := [] |}; put_registry w _ := w |}.
Definition servers : ScriptEnv world := {|
  get_slot _ _ := {| php_state := 1; php_pid := -1; php_write_fd := -1; php_read_fd := -1 |}; put_slot w _ _ := w;
  slot_trylock w _ := (true, w); slot_lock w _ := w; slot_unlock w _ := w; write_fd w _ t := (-1, w);
  select_fd w _ _ := (SelError, w); wait_readable w _ _ := (-1, w); read_fd w _ _ := (RdEnd, w); script_clock w := (of_int 1, w) |}.

Lemma calls : run_laws (H := workers) set plan (threads set) available shared_of.
Proof.
  split.
  - intros w p. exists (fst w). split; [done|]. cbn. by destruct (Permits.spine_permits_try_acquire _).
  - intros w p. by exists (fst w).
  - done.
  - intros w k. apply advance_moves.
  - done.
  - intros w d. exists (fst w). split; [done|]. cbn [pthread_create workers]. destruct (worker_of _ _) eqn:E; cbn; [done|]. by eexists.
  - intros w. by exists (fst w).
Qed.
Lemma clock_runs : SpineFacts.time_passes (H := workers) available (poller_interval set) (of_int 0) (fun w => 40 - snd w)%nat.
Proof.
  split; cbn -[advance]; intros; try lia.
  - by destruct (Permits.spine_permits_try_acquire _).
  - by destruct (worker_of _ _).
  - unfold reading. destruct (Nat.ltb_spec w.2 40); [right; lia|left; by vm_compute].
Qed.
Lemma laws : program_laws (H := tables) (H0 := processes) (H1 := servers) (H2 := workers) [] 0%nat available failed shared_of set N [(7, 3)].
Proof.
  split; [exact calls|by split|by split|done|]. intros w host div due. exists w. unfold N, ceil_div. cbn -[count_query].
  destruct (Z.ltb_spec 1 div); [|done]. by rewrite Z.div_small by lia.
Qed.
Abbreviation finish :=
  (poll_and_exit (H := tables) (H0 := processes) (H1 := servers) (H4 := workers) [] (fun _ _ => 0) SampleHost.attributes 0 4242 20 [] [] 0%nat 1%nat 2%nat 9%nat 16%nat 17%nat
    available (fun _ l => l) failed 3 41 (of_int 0) (of_int 0) set LOCAL [] SampleHost.default_signals Locks.uninitialized [[Some ($"7"); Some ($"3")]] start).
(** The three workers are created and poll, and the program exits with 0. *)
Lemma ends_well : match finish with Some (Ok x) => x_status x = 0 | _ => False end.
Proof. by vm_compute. Qed.
End SampleRun.

Lemma program_refines_run_witness :
  ∃ x sync failed, SampleRun.finish = Some (Ok x) ∧ x_status x = 0 ∧
    all_polled SampleRun.plan (with_sync sync (assemble SampleRun.plan CleaningUp failed (SampleRun.shared_of (x_world x)))).
Proof.
  destruct (program_refines_run (H := SampleRun.tables) (H0 := SampleRun.processes) (H1 := SampleRun.servers) (H2 := SampleRun.workers)
    [] (fun _ _ => 0) SampleHost.attributes 0 4242 20 [] [] 0%nat 1%nat 2%nat 9%nat 16%nat 17%nat SampleRun.available (fun _ l => l) SampleRun.failed
    SampleRun.shared_of SampleRun.set SampleRun.N [(7, 3)] 3 41 (of_int 0) (of_int 0) LOCAL [] SampleHost.default_signals [[Some ($"7"); Some ($"3")]] SampleRun.start
    (fun w => 40 - snd w)%nat (fun w => 40 - snd w)%nat) as (r & E & Hr).
  - exact SampleRun.laws.
  - by vm_compute.
  - by vm_compute.
  - done.
  - constructor; [by vm_compute|constructor].
  - by vm_compute.
  - by apply (bool_decide_unpack _).
  - exact SampleRun.clock_runs.
  - intros w. lia.
  - exact SampleRun.clock_runs.
  - intros w. lia.
  - by split.
  - pose proof SampleRun.ends_well as Hend. rewrite E in Hend. cbv iota in Hend.
    destruct r as [x|]; [|contradiction Hend]. destruct (Hr x eq_refl) as (st & _ & _ & _ & _ & sync & _ & _ & _ & _ & _ & _ & Hs).
    exists x, sync, (ls_exit_failure st). split; [exact E|]. split; [exact Hend|]. apply (proj1 Hs Hend).
Defined.
